(* ===== verification/_CoqProject ===== *)
-Q . S2P
Prelude.v
Memory.v
Layout.v
Registers.v
Stream.v
Frame.v
FrameWrite.v
FrameRead.v
RoundTrip.v
FrameRegisters.v
Print.v
WriteOnce.v
Handle.v
Descriptors.v
Waitpid.v
Utils.v
Backend.v
Libunwind.v
Libbacktrace.v
Unwindstack.v
BcdMeta.v
BcdTracer.v
BcdChannel.v
BcdSession.v
BcdTyped.v
BcdEvents.v
BcdConfig.v
Structures.v
BcdClient.v
BcdMonitor.v
BcdRequest.v
BcdInterleave.v
BcdService.v
BcdLive.v
BcdPreload.v
Examples.v
Poison.v
