(* ===== verification/Prelude.v ===== *)
(** * libbun: a verification development

    libbun records stack traces into caller-supplied memory. A producer - a crash handler, a
    monitor, a debugger - opens a writer on a buffer, unwinds with one of three backends and
    appends one frame per step; a consumer, possibly in another process, opens a reader on the
    same bytes and gets the frames back. bcd, shipped with it, is the out-of-process
    side: a library forks a monitor early, clients attach to it over a UNIX socket and send
    metadata and requests, and the monitor runs a tracer on the program.

    ** The parts, their files, and the code they model (paths under src/)

    The stream.
    - [Memory]: the address space; loads, stores and the string functions of the C library.
      [Layout]: sizes, alignments and offsets of C types. [Structures]: the declarations of
      src/include/bun/ and of bcd, with the offsets all other files use.
    - [Registers]: [enum bun_register] (src/include/bun/stream.h), src/src/register_to_string.c.
    - [Stream]: src/src/bun_stream.c up to the header accessors and the cursor primitives:
      [bun_buffer_init], [bun_writer_init], [bun_reader_init], [read_le_*], [write_le_*].
    - [Frame]: [bun_frame_write], [bun_frame_read], the register buffer. [FrameWrite],
      [FrameRead], [FrameRegisters] and [RoundTrip] hold their theory.
    - [Print]: [bun_reader_print] and src/src/tools/stream_parser/main.c.
    - [WriteOnce]: [bun_writer_init] again, as the steps of threads that interleave.

    The library around it.
    - [Handle]: src/src/bun.c, the dispatch through the function pointers of a handle.
    - [Descriptors], [Waitpid], [Utils]: src/src/bun_utils.c and bun_cpp_utils.cpp.
    - [Backend]: the interface between a backend and the stream, the class [FrameBuilder], and
      the theory of the loop that fills a buffer, proved once against it.
    - [Libunwind], [Libbacktrace], [Unwindstack]: the three backends (src/src/backend/), each an
      instance of [FrameBuilder].

    bcd (src/external/bcd/bcd-amalgamated.c).
    - [BcdMeta]: the key-value and argument lists of the monitor. [BcdTracer]: the command
      line of the tracer and [bcd_execve]. [BcdChannel]: packets, the loops over a descriptor, the
      requests of a client. [BcdSession]: one client of the monitor. [BcdEvents]: the
      ready list, the handlers, [bcd_io_enter]. [BcdConfig]: configuration, credentials.
      [BcdClient]: [bcd_init], [bcd_attach], [bcd_detach]. [BcdMonitor]: [bcd_child], the
      listener, [bcd_fatal], [bcd_reap]. [BcdPreload]: [bcd_preload] and the signal handlers.
    - [BcdRequest]: the requests of a client and the handler of the monitor, joined by a
      connection, and the abstract table they keep. [BcdInterleave]: several clients of one
      monitor, some of which detach, as a step relation. [BcdLive]: its infinite executions. [BcdService]: the
      event loop of [BcdEvents] as an implementation of it. [BcdTyped]: the types of what a session keeps.

    The programs.
    - [Examples]: the programs of src/examples/, which put the stream, the handles, a backend
      and bcd together. [RemoteUnwinder] is the class of what a backend promises them; libunwind and
      libunwindstack are its instances. [Poison]: the allocator of src/tests/helper/poison_malloc and what the dump of
      bcd-poison reads of it.

    ** How state and operations correspond

    A C object is a range of addresses of a finite map from addresses to bytes ([mem]); a
    structure the caller owns is a record. A function takes the memory and the records and
    returns them. [None] is undefined behaviour - an access that is not mapped, an overlapping
    copy, a null or dangling pointer - or, for a function with fuel, a loop that has not ended. An
    error of the code is a value: the 0 or -1 it returns, with the [struct bcd_error]. Integers are [Z]
    wrapped to their width where the code does ([u16], [u32], [u64], [i32], [i64] below). bcd
    works on lists and sockets, so its state is lists of strings, sets of descriptors
    and directories, and a map of events by address. Code that is not here - the
    kernel, the C library, libunwind, libbacktrace, libunwindstack, the demangler - is a record of
    functions or answers; what the proofs need of it is a named predicate ([libunwind_ok],
    [readable], [writable], [responsive]), and every property that uses one has a witness on a
    concrete instance.

    ** What the theorems show

    - The stream: what is written is read back ([stream_roundtrip], [header_roundtrip]); the
      reader is safe on arbitrary bytes and accepts exactly the serialised records
      ([frame_read_safe], [frame_read_spec]); the writer changes nothing but the record and the
      header, or nothing ([frame_write_spec]), except in a two-byte gap of its size
      check ([frame_write_overrun]); which streams come back whole ([stream_complete]).
    - Concurrency: one of any number of concurrent calls on a write-once buffer succeeds
      ([write_once_exclusive]), all of them end ([write_once_ends]), and an
      uninterrupted run of the steps is the function ([alone_is_writer_init]).
    - Memory: the members of every structure are aligned, disjoint and inside it
      ([structures_laid_out]), and the three declarations of the configuration, which the code casts into each other,
      are read back from each other's bytes ([config_casts]).
    - The backends: a reader gets exactly the frames the unwinder reports ([libunwind_complete],
      [libbacktrace_spec], [libunwindstack_spec]); unwinding ends ([libunwind_ends]).
    - The utilities: leaks, timeouts, termination ([memfd_create_no_leak], [waitpid_returns]).
    - bcd, from one end to the other: the monitor starts only fully set up and
      both processes agree on the socket ([service_starts], [startup_handshake]); a
      client that attaches is known by its thread ([attach_spec]); a pair that is sent arrives in
      whatever pieces ([kv_transfer], [read_request_resumes]); any sequence of requests ends and
      leaves the abstract table in the lists of the monitor ([requests_refine_table]), and the
      requests of several clients are served in a sequential order, traces and leaves among them ([requests_linearised]), all of
      them in the end if the descriptors are fair ([requests_served]); the event loop does just that,
      forgets no client and sleeps only when all are served ([loop_linearised], [loop_serves]); whatever bytes a client
      sends, a session keeps its types and its bounds ([session_safe]); a
      preloaded program is watched or does not run ([preload_watched]), and comes to its end when
      it crashes ([fatal_signal_ends]), but its monitor does not get to a trace ([fatal_undefined]); the loop keeps its queue and
      serves every ready event ([io_enter_invariant], [dispatch_complete]); the
      metadata is kept and handed to the tracer within bounds ([kv_set_spec], [kv_get_spec],
      [argv_bounds]); a trace is reported successful only if it was ([tracer_success]). The
      theorems on failures say what is leaked, left behind or aborted.
    - The programs: with which handlers and descriptors each of them gets to its crash
      ([examples_set_up]), and that the frames of the crashed thread are what a reader gets from
      the memory the program shares with its monitor ([crash_delivered]).

    ** Bounds and fuel

    The reading loop [read_all] gets one round more than the bytes of the payload, each record has
    28 bytes or more; the unwinding loop more rounds than the buffer has room for records;
    [bun_waitpid] the iterations of its timeout; the loops of bcd over a descriptor one round
    per system call: the number of hiccups the descriptor has and of the bytes to move; the
    dispatcher as many calls as there are ready events and waiting connections. That this is
    enough is part of the theorems. The host is LP64 and little-endian.

    ** Not modelled

    What the program only prints: the messages of [bt_log], of [bcd_error_handler_default] (its line is modelled) and of
    [bcd_preload]. What is a single call whose answer is an argument here: [bun_gettid], the register sets
    [bun_waitpid] reads and throws away, the sleeps of the remote unwind, [bcd_io_init], the [fcntl]s of [bcd_io_fd_prepare].
    The [monitor_init] callback of the user. The builds of bcd without [sigtimedwait], [getpwnam_r] or epoll.
    The tests drive the library and are not part of it. Of the examples, what Crashpad does is a
    log of the calls that reach it. Compile-time switches are fields of a record where the code branches on them.

    Limits of the theorems. Where several clients or requests are at work, all traces meet the same answers of the kernel, so they
    all succeed or all fail ([traces]); what a single run of the tracer does is stated for any kernel. With tracers
    there are at most 27 arguments, since more do not fit in their command line ([argv_bounds]). The descriptor and the address of
    a client that has departed are not used again ([Placed]). *)

From stdpp Require Export base gmap list option numbers strings.
From coqutil Require Export Byte Word.LittleEndianList.

#[global] Open Scope Z_scope.

(** ** Machine-width integers

    The code is modelled on an LP64 little-endian host: [size_t], [ssize_t],
    [ptrdiff_t], [uintmax_t] and pointers have 64 bits, [int] has 32. Values
    are [Z]; every conversion the code performs is one of the functions below. *)

Definition u8 (z : Z) : Z := z `mod` 2 ^ 8.
Definition u16 (z : Z) : Z := z `mod` 2 ^ 16.
Definition u32 (z : Z) : Z := z `mod` 2 ^ 32.
Definition u64 (z : Z) : Z := z `mod` 2 ^ 64.
Definition i32 (z : Z) : Z := (z + 2 ^ 31) `mod` 2 ^ 32 - 2 ^ 31.
Definition i64 (z : Z) : Z := (z + 2 ^ 63) `mod` 2 ^ 64 - 2 ^ 63.

Create HintDb width.
Create HintDb mem.

Lemma u16_small z : 0 <= z < 2 ^ 16 -> u16 z = z.
Proof. apply Z.mod_small. Qed.
Lemma u32_small z : 0 <= z < 2 ^ 32 -> u32 z = z.
Proof. apply Z.mod_small. Qed.
Lemma u64_small z : 0 <= z < 2 ^ 64 -> u64 z = z.
Proof. apply Z.mod_small. Qed.
Lemma i32_small z : - 2 ^ 31 <= z < 2 ^ 31 -> i32 z = z.
Proof. intros. unfold i32. rewrite Z.mod_small; lia. Qed.
Lemma i64_small z : - 2 ^ 63 <= z < 2 ^ 63 -> i64 z = z.
Proof. intros. unfold i64. rewrite Z.mod_small; lia. Qed.

Lemma u16_range z : 0 <= u16 z < 2 ^ 16.
Proof. by apply Z.mod_pos_bound. Qed.
Lemma u32_range z : 0 <= u32 z < 2 ^ 32.
Proof. by apply Z.mod_pos_bound. Qed.
Lemma i32_range z : - 2 ^ 31 <= i32 z < 2 ^ 31.
Proof. unfold i32. pose proof (Z.mod_pos_bound (z + 2 ^ 31) (2 ^ 32) eq_refl). lia. Qed.
Lemma u64_range z : 0 <= u64 z < 2 ^ 64.
Proof. by apply Z.mod_pos_bound. Qed.

Lemma u16_idemp z : u16 (u16 z) = u16 z.
Proof. apply u16_small, u16_range. Qed.
Lemma u32_idemp z : u32 (u32 z) = u32 z.
Proof. apply u32_small, u32_range. Qed.
Lemma u64_idemp z : u64 (u64 z) = u64 z.
Proof. apply u64_small, u64_range. Qed.

(** [i64] of a wrapped 64-bit difference is the signed difference. *)
Lemma i64_u64 z : i64 (u64 z) = i64 z.
Proof.
  unfold i64, u64. f_equal. by rewrite Zplus_mod_idemp_l.
Qed.

#[export] Hint Resolve u16_range u32_range u64_range : width.

(** ** Lists of bytes *)

(** Length of a list as the [Z] the code's [size_t] arithmetic uses. *)
Definition zlen {A} (l : list A) : Z := Z.of_nat (length l).

Lemma zlen_nonneg {A} (l : list A) : 0 <= zlen l.
Proof. unfold zlen. lia. Qed.
Lemma zlen_app {A} (l k : list A) : zlen (l ++ k) = zlen l + zlen k.
Proof. unfold zlen. rewrite length_app. lia. Qed.
Lemma zlen_nil {A} : zlen (@nil A) = 0.
Proof. done. Qed.
Lemma zlen_0 {A} (l : list A) : zlen l = 0 -> l = [].
Proof. unfold zlen. destruct l; [done | simpl; lia]. Qed.
Lemma zlen_cons {A} (x : A) l : zlen (x :: l) = 1 + zlen l.
Proof. unfold zlen. simpl. lia. Qed.
Lemma zlen_le_split n z : zlen (le_split n z) = Z.of_nat n.
Proof. unfold zlen. by rewrite length_le_split. Qed.
Lemma zlen_replicate {A} n (x : A) : zlen (replicate n x) = Z.of_nat n.
Proof. unfold zlen. by rewrite length_replicate. Qed.
Lemma zlen_fmap {A B} (f : A -> B) (l : list A) : zlen (f <$> l) = zlen l.
Proof. unfold zlen. by rewrite length_fmap. Qed.

Create Rewrite HintDb zlen.
#[export] Hint Rewrite @zlen_app @zlen_nil @zlen_cons zlen_le_split @zlen_replicate @zlen_fmap
  @length_app length_le_split : zlen.

#[export] Instance byte_eq_dec : EqDecision Init.Byte.byte.
Proof. intros x y. destruct (Byte.byte_eq_dec x y); [by left | by right]. Defined.

(** The terminating null byte, and strings without one. *)
Abbreviation NUL := Init.Byte.x00.
Definition no_nul (s : list byte) : Prop := Forall (fun b => b <> NUL) s.

#[export] Instance no_nul_dec s : Decision (no_nul s).
Proof. unfold no_nul. apply _. Defined.

(** A string literal as the bytes a C string literal denotes (no terminator). *)
Definition bytes_of (s : string) : list byte := String.list_byte_of_string s.

(** ** Automation *)

(** Arithmetic on lengths: normalise every [zlen] and finish with [lia]. *)
Ltac zlen_norm := autorewrite with zlen in *.
Ltac note_nonneg l :=
  lazymatch goal with
  | _ : 0 <= zlen l |- _ => fail
  | _ => pose proof (zlen_nonneg l)
  end.
Ltac zlia :=
  zlen_norm;
  repeat match goal with
    | |- context [zlen ?l] => note_nonneg l
    | _ : context [zlen ?l] |- _ => note_nonneg l
    end; lia.

(** Reduce the binds of computed options and nothing else. *)
Ltac bind_simpl := cbn [mbind option_bind fmap option_fmap option_map].

(** Split a hypothesis [(x ← o; f x) = Some y] into the success of each step. *)
Ltac bind_inv H :=
  repeat match type of H with
    | (_ ≫= _) = Some _ =>
        apply bind_Some in H;
        let x := fresh "x" in let Hx := fresh "Hx" in destruct H as (x & Hx & H)
    | context [let '(_, _) := ?p in _] => destruct p
    end.

(** Decide a closed proposition by computation. *)
Ltac by_compute := apply (bool_decide_unpack _); vm_compute; exact I.
