(* ===== verification/Memory.v ===== *)
(** * The byte-addressed memory of the process

    A C object is a range of addresses of one flat 64-bit address space. The
    memory maps the allocated addresses to their bytes. Every access is
    fallible: reading or writing an address that is not mapped is undefined
    behaviour of the C program and is the value [None]. The string functions of
    the C library the program calls are given by their definition in the C
    standard, including that overlapping source and destination of [memcpy] and
    [strcpy] is undefined. *)

From S2P Require Import Prelude.

Abbreviation mem := (gmap Z byte).

(** ** Accesses *)

Fixpoint load (m : mem) (a : Z) (n : nat) : option (list byte) :=
  match n with
  | O => Some []
  | S n => b ← m !! a; bs ← load m (a + 1) n; Some (b :: bs)
  end.

Fixpoint write_bytes (m : mem) (a : Z) (bs : list byte) : mem :=
  match bs with
  | [] => m
  | b :: bs => <[a := b]> (write_bytes m (a + 1) bs)
  end.

(** A store is defined only when the whole destination is mapped. *)
Definition store (m : mem) (a : Z) (bs : list byte) : option mem :=
  _ ← load m a (length bs); Some (write_bytes m a bs).

(** Integer loads and stores of [n] bytes, little-endian. *)
Definition load_uint (m : mem) (a : Z) (n : nat) : option Z :=
  le_combine <$> load m a n.
Definition store_uint (m : mem) (a : Z) (n : nat) (v : Z) : option mem :=
  store m a (le_split n v).

(** ** C library functions *)

Fixpoint strnlen (m : mem) (p : Z) (maxlen : nat) : option Z :=
  match maxlen with
  | O => Some 0
  | S k =>
      b ← m !! p;
      if decide (b = NUL) then Some 0 else n ← strnlen m (p + 1) k; Some (1 + n)
  end.

(** The bytes of the null-terminated string at [p]. *)
Fixpoint cstring_go (fuel : nat) (m : mem) (p : Z) : option (list byte) :=
  match fuel with
  | O => None
  | S k =>
      b ← m !! p;
      if decide (b = NUL) then Some [] else bs ← cstring_go k m (p + 1); Some (b :: bs)
  end.

(** One step more than the number of mapped addresses is always enough fuel,
    see [cstring_go_exhausts]. *)
Definition cstring (m : mem) (p : Z) : option (list byte) :=
  cstring_go (S (size m)) m p.

Definition strlen (m : mem) (p : Z) : option Z := zlen <$> cstring m p.

Definition disjoint_ranges (a : Z) (n : Z) (b : Z) (k : Z) : Prop :=
  n = 0 \/ k = 0 \/ a + n <= b \/ b + k <= a.

#[export] Instance disjoint_ranges_dec a n b k : Decision (disjoint_ranges a n b k).
Proof. unfold disjoint_ranges. apply _. Defined.

Definition memset (m : mem) (p : Z) (b : byte) (n : nat) : option mem :=
  store m p (replicate n b).

Definition memcpy (m : mem) (dst src : Z) (n : nat) : option mem :=
  bs ← load m src n;
  if decide (disjoint_ranges dst (Z.of_nat n) src (Z.of_nat n))
  then store m dst bs else None.

(** Copying a literal of the program text, which overlaps nothing. *)
Definition strcpy_bytes (m : mem) (dst : Z) (s : list byte) : option mem :=
  store m dst (s ++ [NUL]).

Definition strcpy (m : mem) (dst src : Z) : option mem :=
  s ← cstring m src;
  if decide (disjoint_ranges dst (zlen s + 1) src (zlen s + 1))
  then strcpy_bytes m dst s else None.

(** [strncpy] from a string: at most [n] bytes, padded with null bytes. *)
Definition strncpy_bytes (n : nat) (s : list byte) : list byte :=
  take n s ++ replicate (n - length s) NUL.

Definition NULL : Z := 0.

(** A memory from its blocks, each an address with the bytes found there. *)
Definition mem_of (blocks : list (Z * list byte)) : mem :=
  foldr (fun block m => write_bytes m block.1 block.2) ∅ blocks.

(** ** The heap: the addresses of the live blocks *)

Definition heap : Type := gset Z.

(** [free]: undefined unless the pointer is null or a live block. *)
Definition free (live : heap) (p : Z) : option heap :=
  if decide (p = NULL) then Some live
  else if decide (p ∈ live) then Some (live ∖ {[p]}) else None.

Lemma free_fresh live p : p <> NULL -> ~ (p ∈ live) -> free ({[p]} ∪ live) p = Some live.
Proof.
  intros Hn Hp. unfold free. rewrite decide_False by done.
  rewrite decide_True by (by apply elem_of_union_l, elem_of_singleton). f_equal. set_solver.
Qed.

Lemma free_dead live p : p <> NULL -> ~ (p ∈ live) -> free live p = None.
Proof. intros Hn Hp. unfold free. by rewrite !decide_False. Qed.

(** ** Ranges *)

(** [bs] is stored at [a]. *)
Definition at_addr (m : mem) (a : Z) (bs : list byte) : Prop :=
  load m a (length bs) = Some bs.

(** Every byte of [a, a + n) is mapped. *)
Definition mapped (m : mem) (a n : Z) : Prop :=
  forall j, a <= j < a + n -> is_Some (m !! j).

(** [m'] differs from [m] at most inside [a, a + n). *)
Definition same_outside (m m' : mem) (a n : Z) : Prop :=
  forall j, ~ (a <= j < a + n) -> m' !! j = m !! j.

(** Everything mapped in [m] is mapped in [m']. *)
Definition grows (m m' : mem) : Prop := forall j, is_Some (m !! j) -> is_Some (m' !! j).

#[export] Instance grows_preorder : PreOrder grows.
Proof. split; [by intros m j | intros m1 m2 m3 H1 H2 j ?; auto]. Qed.

(** ** Lemmas on loads *)

Lemma load_Some m a n bs :
  load m a n = Some bs <->
  length bs = n /\ forall i : nat, (i < n)%nat -> m !! (a + Z.of_nat i) = bs !! i.
Proof.
  revert a bs. induction n as [|n IH]; intros a bs; simpl.
  { split.
    - intros [= <-]. split; [done | lia].
    - intros [Hl _]. by destruct bs. }
  rewrite bind_Some. setoid_rewrite bind_Some. split.
  - intros (b & Hb & bs' & Hl & [= <-]). apply IH in Hl as [Hl Hi]. simpl. split; [lia|].
    intros [|i] Hlt; simpl; [by rewrite Z.add_0_r|].
    rewrite <- Hi by lia. f_equal. lia.
  - intros [Hl Hi]. destruct bs as [|b bs]; [done|]. simpl in Hl.
    exists b. split; [specialize (Hi 0%nat); rewrite Z.add_0_r in Hi; apply Hi; lia|].
    exists bs. split; [|done]. apply IH. split; [lia|]. intros i Hlt.
    specialize (Hi (S i)). simpl in Hi. rewrite <- Hi by lia. f_equal. lia.
Qed.

Lemma load_length m a n bs : load m a n = Some bs -> length bs = n.
Proof. by intros [? _]%load_Some. Qed.

Lemma load_app m a n k :
  load m a (n + k) =
  x ← load m a n; y ← load m (a + Z.of_nat n) k; Some (x ++ y).
Proof.
  revert a. induction n as [|n IH]; intros a; simpl.
  { rewrite Z.add_0_r. by destruct (load m a k). }
  destruct (m !! a) as [b|]; simpl; [|done]. rewrite IH.
  destruct (load m (a + 1) n); simpl; [|done].
  replace (a + 1 + Z.of_nat n) with (a + Z.of_nat (S n)) by lia.
  by destruct (load m _ k).
Qed.

Lemma load_mapped m a n : is_Some (load m a n) <-> mapped m a (Z.of_nat n).
Proof.
  revert a. induction n as [|n IH]; intros a; simpl.
  { split; [|eauto]. intros _ j Hj. lia. }
  split.
  - intros [bs H]. apply bind_Some in H as (b & Hb & H).
    apply bind_Some in H as (bs' & Hl & _). intros j Hj.
    destruct (decide (j = a)) as [->|]; [eauto|].
    apply (proj1 (IH (a + 1))); [eauto | lia].
  - intros Hm. destruct (Hm a) as [b Hb]; [lia|]. rewrite Hb. simpl.
    destruct (proj2 (IH (a + 1))) as [bs Hbs]; [intros j Hj; apply Hm; lia|].
    rewrite Hbs. eauto.
Qed.

#[export] Instance mapped_dec m a n : Decision (mapped m a n).
Proof.
  destruct (decide (0 <= n)) as [Hn|Hn].
  - destruct (decide (is_Some (load m a (Z.to_nat n)))) as [H|H].
    + left. rewrite load_mapped, Z2Nat.id in H by lia. exact H.
    + right. rewrite load_mapped, Z2Nat.id in H by lia. exact H.
  - left. intros j Hj. lia.
Defined.

#[export] Instance at_addr_dec m a bs : Decision (at_addr m a bs).
Proof. unfold at_addr. apply _. Defined.

(** A search for a decision procedure does not unfold the predicate. *)
#[global] Typeclasses Opaque at_addr.

Lemma load_agree m m' a n :
  (forall j, a <= j < a + Z.of_nat n -> m' !! j = m !! j) -> load m' a n = load m a n.
Proof.
  revert a. induction n as [|n IH]; intros a H; simpl; [done|].
  rewrite H by lia. rewrite IH; [done|]. intros j Hj. apply H. lia.
Qed.

(** ** Lemmas on stores *)

(** The same bytes at another address. *)
Lemma load_moved m m' a a' n :
  (forall i, 0 <= i < Z.of_nat n -> m' !! (a' + i) = m !! (a + i)) -> load m' a' n = load m a n.
Proof.
  revert a a'. induction n as [|n IH]; intros a a' H; [done|]. cbn [load].
  pose proof (H 0 ltac:(lia)) as H0. rewrite !Z.add_0_r in H0. rewrite H0, (IH (a + 1) (a' + 1)); [done|].
  intros i Hi. rewrite <- !Z.add_assoc. apply H. lia.
Qed.

Lemma lookup_write_bytes m a bs j :
  write_bytes m a bs !! j =
  if decide (a <= j < a + zlen bs) then bs !! Z.to_nat (j - a) else m !! j.
Proof.
  revert a. induction bs as [|b bs IH]; intros a; simpl.
  { rewrite decide_False by zlia. done. }
  destruct (decide (j = a)) as [->|Hne].
  - rewrite lookup_insert_eq, decide_True by zlia. by rewrite Z.sub_diag.
  - rewrite lookup_insert_ne by done. rewrite IH. zlen_norm.
    destruct (decide (a + 1 <= j < a + 1 + zlen bs));
      [rewrite decide_True by lia | by rewrite decide_False by lia].
    by replace (Z.to_nat (j - a)) with (S (Z.to_nat (j - (a + 1)))) by lia.
Qed.

Lemma write_bytes_app m a x y :
  write_bytes m a (x ++ y) = write_bytes (write_bytes m a x) (a + zlen x) y.
Proof.
  apply map_eq. intros j. rewrite !lookup_write_bytes. zlen_norm.
  destruct (decide (a + zlen x <= j < a + zlen x + zlen y)).
  - pose proof (zlen_nonneg x). rewrite decide_True by lia.
    unfold zlen in *. rewrite lookup_app_r by lia. f_equal. lia.
  - destruct (decide (a <= j < a + (zlen x + zlen y))) as [|Hn].
    + rewrite decide_True by lia. unfold zlen in *. by rewrite lookup_app_l by lia.
    + destruct (decide (a <= j < a + zlen x)); [|done].
      pose proof (zlen_nonneg y). lia.
Qed.

Lemma store_Some m a bs m' :
  store m a bs = Some m' <-> mapped m a (zlen bs) /\ m' = write_bytes m a bs.
Proof.
  unfold store, zlen. rewrite bind_Some, <- load_mapped. split.
  - intros (x & Hx & [= <-]). split; [eauto | done].
  - intros [[x Hx] ->]. eauto.
Qed.

Lemma store_mapped m a bs :
  mapped m a (zlen bs) -> store m a bs = Some (write_bytes m a bs).
Proof. intros. by apply store_Some. Qed.

Lemma store_unmapped m a bs :
  ~ mapped m a (zlen bs) -> store m a bs = None.
Proof.
  intros Hn. destruct (store m a bs) eqn:E; [|done].
  apply store_Some in E as [? _]. contradiction.
Qed.

Lemma write_bytes_is_Some m a bs j :
  is_Some (m !! j) -> is_Some (write_bytes m a bs !! j).
Proof.
  intros Hj. rewrite lookup_write_bytes. case_decide; [|done].
  apply lookup_lt_is_Some. unfold zlen in *. lia.
Qed.

Lemma grows_write m a bs : grows m (write_bytes m a bs).
Proof. intros j. apply write_bytes_is_Some. Qed.

Lemma mapped_grows m m' a n : grows m m' -> mapped m a n -> mapped m' a n.
Proof. intros H Hm j Hj. auto. Qed.

Lemma mapped_write m a bs b n : mapped m b n -> mapped (write_bytes m a bs) b n.
Proof. intros H j Hj. by apply write_bytes_is_Some, H. Qed.

Lemma mapped_sub m a n b k : mapped m a n -> a <= b -> b + k <= a + n -> mapped m b k.
Proof. intros H ? ? j Hj. apply H. lia. Qed.

Lemma same_outside_write m a bs : same_outside m (write_bytes m a bs) a (zlen bs).
Proof. intros j Hj. rewrite lookup_write_bytes. by rewrite decide_False. Qed.

Lemma same_outside_refl m a n : same_outside m m a n.
Proof. by intros j _. Qed.

Lemma same_outside_trans m1 m2 m3 a n :
  same_outside m1 m2 a n -> same_outside m2 m3 a n -> same_outside m1 m3 a n.
Proof. intros H1 H2 j Hj. rewrite H2, H1 by done. done. Qed.

Lemma same_outside_weaken m m' a n b k :
  same_outside m m' b k -> a <= b -> b + k <= a + n -> same_outside m m' a n.
Proof. intros H ? ? j Hj. apply H. lia. Qed.

Lemma load_same_outside m m' a n b k :
  same_outside m m' a n -> disjoint_ranges a n b (Z.of_nat k) -> load m' b k = load m b k.
Proof.
  intros H Hd. apply load_agree. intros j Hj. apply H.
  unfold disjoint_ranges in Hd. lia.
Qed.

(** ** Lemmas on [at_addr] *)

Lemma at_addr_mapped m a bs : at_addr m a bs -> mapped m a (zlen bs).
Proof. intros H. apply load_mapped. by eexists. Qed.

Lemma at_addr_app m a x y :
  at_addr m a (x ++ y) <-> at_addr m a x /\ at_addr m (a + zlen x) y.
Proof.
  unfold at_addr. rewrite length_app, load_app. split.
  - intros H. apply bind_Some in H as (x' & Hx & H). apply bind_Some in H as (y' & Hy & [= H]).
    pose proof (load_length _ _ _ _ Hx). apply app_inj_1 in H as [-> ->]; [|done].
    unfold zlen. by rewrite Hx, Hy.
  - unfold zlen. intros [-> Hy]. simpl. by rewrite Hy.
Qed.

Lemma at_addr_cons m a b bs :
  at_addr m a (b :: bs) <-> m !! a = Some b /\ at_addr m (a + 1) bs.
Proof.
  unfold at_addr. simpl. split.
  - intros H. apply bind_Some in H as (? & Hb & H). apply bind_Some in H as (? & Hl & [= -> ->]).
    done.
  - intros [-> H]. simpl. by rewrite H.
Qed.

Lemma at_addr_nil m a : at_addr m a [].
Proof. done. Qed.

Lemma at_addr_write m a bs : at_addr (write_bytes m a bs) a bs.
Proof.
  apply load_Some. split; [done|]. intros i Hi. rewrite lookup_write_bytes.
  rewrite decide_True by (unfold zlen; lia). f_equal. lia.
Qed.

Lemma at_addr_same_outside m m' a n b bs :
  same_outside m m' a n -> disjoint_ranges a n b (zlen bs) -> at_addr m b bs -> at_addr m' b bs.
Proof.
  unfold at_addr. intros H Hd <-. eapply load_same_outside; [done|]. exact Hd.
Qed.

Lemma at_addr_write_disjoint m a x b bs :
  disjoint_ranges a (zlen x) b (zlen bs) -> at_addr m b bs -> at_addr (write_bytes m a x) b bs.
Proof. intros. eapply at_addr_same_outside; eauto using same_outside_write. Qed.

Lemma at_addr_eq m a b bs : a = b -> at_addr m a bs -> at_addr m b bs.
Proof. by intros ->. Qed.

(** ** Lemmas on integer accesses *)

Definition write_uint (m : mem) (a : Z) (n : nat) (v : Z) : mem :=
  write_bytes m a (le_split n v).

Lemma store_uint_mapped m a n v :
  mapped m a (Z.of_nat n) -> store_uint m a n v = Some (write_uint m a n v).
Proof. intros. apply store_mapped. by rewrite zlen_le_split. Qed.

Lemma load_uint_range m a n v : load_uint m a n = Some v -> 0 <= v < 2 ^ (8 * Z.of_nat n).
Proof.
  unfold load_uint. intros (bs & <-%load_length & ->)%fmap_Some_1.
  apply le_combine_bound.
Qed.

Lemma load_uint_mapped m a n :
  mapped m a (Z.of_nat n) ->
  exists v, load_uint m a n = Some v /\ 0 <= v < 2 ^ (8 * Z.of_nat n).
Proof.
  intros [bs Hbs]%load_mapped. exists (le_combine bs).
  assert (load_uint m a n = Some (le_combine bs)) as E by (unfold load_uint; by rewrite Hbs).
  eauto using load_uint_range.
Qed.

Lemma load_uint_same_outside m m' a n b k :
  same_outside m m' a n -> disjoint_ranges a n b (Z.of_nat k) ->
  load_uint m' b k = load_uint m b k.
Proof. intros. unfold load_uint. by erewrite load_same_outside. Qed.

Lemma same_outside_write_uint m a n v : same_outside m (write_uint m a n v) a (Z.of_nat n).
Proof. unfold write_uint. rewrite <- (zlen_le_split n v). apply same_outside_write. Qed.

Lemma load_uint_write_other m a n v b k :
  disjoint_ranges a (Z.of_nat n) b (Z.of_nat k) ->
  load_uint (write_uint m a n v) b k = load_uint m b k.
Proof. apply load_uint_same_outside, same_outside_write_uint. Qed.

Lemma mapped_write_uint m a n v b k : mapped m b k -> mapped (write_uint m a n v) b k.
Proof. apply mapped_write. Qed.

Lemma at_addr_uint m a n v :
  at_addr m a (le_split n v) -> load_uint m a n = Some (v `mod` 2 ^ (8 * Z.of_nat n)).
Proof.
  unfold at_addr, load_uint. rewrite length_le_split. intros ->. simpl.
  by rewrite le_combine_split, (Z.mul_comm 8).
Qed.

Lemma load_uint_at m a n v : load_uint m a n = Some v -> at_addr m a (le_split n v).
Proof.
  unfold load_uint, at_addr. intros (bs & Hl & ->)%fmap_Some_1.
  rewrite length_le_split, (split_le_combine' bs n) by by eapply load_length. done.
Qed.

Lemma load_uint_write_same m a n v :
  load_uint (write_uint m a n v) a n = Some (v `mod` 2 ^ (8 * Z.of_nat n)).
Proof. apply at_addr_uint, at_addr_write. Qed.

Lemma le_combine_zeros n : le_combine (replicate n NUL) = 0.
Proof.
  induction n as [|n IH]; [done|]. change (replicate (S n) NUL) with (NUL :: replicate n NUL).
  change (Z.lor (byte.unsigned NUL) (Z.shiftl (le_combine (replicate n NUL)) 8) = 0).
  by rewrite IH.
Qed.

(** Any integer inside a zeroed range reads as zero. *)
Lemma load_uint_zeros m a total b n :
  a <= b -> b + Z.of_nat n <= a + Z.of_nat total ->
  load_uint (write_bytes m a (replicate total NUL)) b n = Some 0.
Proof.
  intros Hb Hle. set (k := Z.to_nat (b - a)). replace b with (a + Z.of_nat k) by lia.
  assert (k + n <= total)%nat as Hkn by lia. clearbody k. pose proof (at_addr_write m a (replicate total NUL)) as H.
  replace total with (k + (n + (total - k - n)))%nat in H at 2 by lia.
  rewrite !replicate_add in H. apply at_addr_app in H as [_ H]. apply at_addr_app in H as [H _].
  rewrite zlen_replicate in H. unfold at_addr in H. rewrite length_replicate in H.
  unfold load_uint. rewrite H. simpl. by rewrite le_combine_zeros.
Qed.

(** Prove that a range is mapped from a mapped range around it. *)
Ltac solve_mapped :=
  repeat first [simple apply mapped_write_uint | simple apply mapped_write];
  match goal with
  | H : mapped ?m _ _ |- mapped ?m _ _ => apply (mapped_sub _ _ _ _ _ H); lia
  end.

(** Prove that two ranges with concrete bounds are disjoint. *)
Ltac solve_disjoint := unfold disjoint_ranges; first [lia | zlia].

(** Reduce integer loads over a chain of integer writes, and stores to writes. *)
Ltac mem_simp :=
  repeat first
    [ rewrite load_uint_write_same
    | rewrite load_uint_write_other by solve_disjoint
    | rewrite store_uint_mapped by solve_mapped ];
  bind_simpl.

(** ** Lemmas on strings *)

Lemma strnlen_range m p k n : strnlen m p k = Some n -> 0 <= n <= Z.of_nat k.
Proof.
  revert p n. induction k as [|k IH]; intros p n; simpl.
  { intros [= <-]. lia. }
  intros H. apply bind_Some in H as (b & Hb & H). case_decide.
  - injection H as <-. lia.
  - apply bind_Some in H as (n' & Hn & [= <-]). apply IH in Hn. lia.
Qed.

(** [strnlen] finds the null byte of a string that ends in its range. *)
Lemma strnlen_string m p k s :
  at_addr m p (s ++ [NUL]) -> no_nul s -> zlen s < Z.of_nat k ->
  strnlen m p k = Some (zlen s).
Proof.
  revert p k. induction s as [|b s IH]; intros p k Hat Hs Hk.
  - apply at_addr_cons in Hat as [Hb _]. destruct k as [|k]; [by unfold zlen in Hk|].
    simpl. by rewrite Hb.
  - apply at_addr_cons in Hat as [Hb Hat]. inversion Hs; subst.
    destruct k as [|k]; [unfold zlen in Hk; simpl in Hk; lia|].
    simpl. rewrite Hb. simpl. rewrite decide_False by done.
    rewrite (IH (p + 1) k Hat) by (done || zlia). simpl. by rewrite zlen_cons.
Qed.

(** On a mapped range [strnlen] is defined; below the bound it has found a
    null byte and the bytes before it have none. *)
Lemma strnlen_mapped m p k :
  mapped m p (Z.of_nat k) ->
  exists n, strnlen m p k = Some n /\
    (n = Z.of_nat k \/
     exists s, zlen s = n /\ n < Z.of_nat k /\ no_nul s /\ at_addr m p (s ++ [NUL])).
Proof.
  revert p. induction k as [|k IH]; intros p Hm; simpl.
  { exists 0. split; [done | by left]. }
  destruct (Hm p) as [b Hb]; [lia|]. rewrite Hb. simpl.
  destruct (IH (p + 1)) as (n & Hn & Hcase); [intros j Hj; apply Hm; lia|].
  case_decide as Hnul; subst.
  - exists 0. split; [done|]. right. exists []. split_and!; [done | zlia | constructor |].
    by apply at_addr_cons.
  - rewrite Hn. simpl. exists (1 + n). split; [done|].
    destruct Hcase as [->|(s & <- & Hlt & Hs & Hat)]; [left; lia|].
    right. exists (b :: s). split_and!; [by rewrite zlen_cons | lia | by constructor |].
    by apply at_addr_cons.
Qed.

Lemma cstring_go_spec k m p s :
  cstring_go k m p = Some s -> at_addr m p (s ++ [NUL]) /\ no_nul s.
Proof.
  revert p s. induction k as [|k IH]; intros p s; simpl; [done|].
  intros H. apply bind_Some in H as (b & Hb & H). case_decide as Hnul.
  - injection H as <-. subst. split; [by apply at_addr_cons | constructor].
  - apply bind_Some in H as (bs & Hbs & [= <-]). apply IH in Hbs as [Hat Hs].
    split; [by apply at_addr_cons | by constructor].
Qed.

Lemma cstring_go_string k m p s :
  at_addr m p (s ++ [NUL]) -> no_nul s -> (length s < k)%nat -> cstring_go k m p = Some s.
Proof.
  revert p k. induction s as [|b s IH]; intros p k Hat Hs Hk; simpl in Hat, Hk;
    (destruct k as [|k]; [lia|]); apply at_addr_cons in Hat as [Hb Hat]; simpl; rewrite Hb; simpl.
  - done.
  - inversion Hs; subst. rewrite decide_False by done. by rewrite (IH _ k) by (done || lia).
Qed.

(** A stored list of bytes occupies as many mapped addresses as it is long. *)
Lemma at_addr_size m a bs : at_addr m a bs -> (length bs <= size m)%nat.
Proof.
  intros [_ Hi]%load_Some.
  assert (length ((fun i : nat => (a + Z.of_nat i)%Z) <$> seq 0 (length bs)) <= size (dom m))%nat as Hle.
  { rewrite <- (size_list_to_set (C := gset Z)).
    - apply subseteq_size. intros x. rewrite elem_of_list_to_set, list_elem_of_fmap.
      intros (i & -> & [_ Hlt]%elem_of_seq). apply elem_of_dom. rewrite Hi by lia.
      apply lookup_lt_is_Some. lia.
    - apply NoDup_fmap_2; [|apply NoDup_seq]. intros x y ?. lia. }
  rewrite length_fmap, length_seq, size_dom in Hle. done.
Qed.

Lemma cstring_at m p s : at_addr m p (s ++ [NUL]) -> no_nul s -> cstring m p = Some s.
Proof.
  intros Hat Hs. apply cstring_go_string; [done..|].
  apply at_addr_size in Hat. rewrite length_app in Hat. simpl in Hat. lia.
Qed.

Lemma cstring_spec m p s : cstring m p = Some s <-> at_addr m p (s ++ [NUL]) /\ no_nul s.
Proof. split; [apply cstring_go_spec | intros [??]; by apply cstring_at]. Qed.

(** Out of fuel means that as many bytes as the fuel are mapped and not null. *)
Lemma cstring_go_exhausts k m p :
  cstring_go k m p = None ->
  exists s, at_addr m p s /\ no_nul s /\ (length s = k \/ m !! (p + zlen s) = None).
Proof.
  revert p. induction k as [|k IH]; intros p; simpl.
  { intros _. exists []. split_and!; [done | constructor | by left]. }
  destruct (m !! p) as [b|] eqn:Hb; simpl.
  2: { intros _. exists []. split_and!; [done | constructor | right]. by rewrite Z.add_0_r. }
  case_decide as Hnul; [done|]. intros H.
  destruct (cstring_go k m (p + 1)) eqn:E; [done|].
  apply IH in E as (s & Hat & Hs & Hor). exists (b :: s). split_and!.
  - by apply at_addr_cons.
  - by constructor.
  - destruct Hor as [<- | Hn]; [by left|]. right. rewrite <- Hn. f_equal. zlia.
Qed.

(** The fuel of [cstring] is enough: it is undefined only where the C function
    runs into an address that is not mapped before it finds a null byte. *)
Lemma cstring_None m p :
  cstring m p = None ->
  exists s, at_addr m p s /\ no_nul s /\ m !! (p + zlen s) = None.
Proof.
  intros (s & Hat & Hs & Hor)%cstring_go_exhausts. exists s. split_and!; [done..|].
  destruct Hor as [Hl|?]; [|done]. apply at_addr_size in Hat. lia.
Qed.

(** The string at the start of a list of bytes. *)
Fixpoint c_str (bs : list byte) : list byte :=
  match bs with
  | [] => []
  | b :: bs => if decide (b = NUL) then [] else b :: c_str bs
  end.

Lemma c_str_split bs : NUL ∈ bs -> exists rest, bs = c_str bs ++ NUL :: rest /\ no_nul (c_str bs).
Proof.
  induction bs as [|b bs IH]; intros H; [by apply not_elem_of_nil in H|]. cbn [c_str].
  case_decide as Hb; [subst; exists bs; split; [done | constructor]|].
  destruct IH as (rest & E & Hn); [apply elem_of_cons in H as [H|H]; congruence|].
  exists rest. split; [simpl; by f_equal | by constructor].
Qed.

Lemma cstring_prefix m p bs : at_addr m p bs -> NUL ∈ bs -> cstring m p = Some (c_str bs).
Proof.
  intros Hat (rest & E & Hn)%c_str_split. apply cstring_spec. split; [|done].
  rewrite E in Hat. change (c_str bs ++ NUL :: rest) with (c_str bs ++ [NUL] ++ rest) in Hat.
  rewrite app_assoc in Hat. by apply at_addr_app in Hat as [Hat _].
Qed.

(** [strncpy] of [n] bytes followed by a store of the terminator behind them. *)
Lemma strncpy_terminated m p n s :
  mapped m p (Z.of_nat n + 1) -> no_nul s ->
  exists m', (m1 ← store m p (strncpy_bytes n s); store m1 (p + Z.of_nat n) [NUL]) = Some m' /\
    cstring m' p = Some (take n s) /\ grows m m' /\ same_outside m m' p (Z.of_nat n + 1).
Proof.
  intros Hm Hs. assert (zlen (strncpy_bytes n s) = Z.of_nat n) as Hl.
  { unfold strncpy_bytes, zlen. rewrite length_app, length_take, length_replicate. lia. }
  rewrite store_mapped by (rewrite Hl; apply (mapped_sub _ _ _ _ _ Hm); lia). bind_simpl.
  rewrite store_mapped by (apply mapped_write; change (zlen [NUL]) with 1; apply (mapped_sub _ _ _ _ _ Hm); lia).
  eexists. split; [done|].
  assert (write_bytes (write_bytes m p (strncpy_bytes n s)) (p + Z.of_nat n) [NUL] =
    write_bytes m p (strncpy_bytes n s ++ [NUL])) as -> by (by rewrite write_bytes_app, Hl).
  split_and!.
  - apply cstring_spec. split; [|by apply Forall_take].
    pose proof (at_addr_write m p (strncpy_bytes n s ++ [NUL])) as Hat. revert Hat.
    generalize (write_bytes m p (strncpy_bytes n s ++ [NUL])). intros m' Hat. unfold strncpy_bytes in *.
    destruct (decide (n <= length s)%nat) as [Hle|Hgt].
    + replace (n - length s)%nat with 0%nat in * by lia. by rewrite app_nil_r in Hat.
    + replace (n - length s)%nat with (S (n - length s - 1)) in * by lia.
      cbn [replicate] in Hat. rewrite <- app_assoc in Hat.
      change ((NUL :: replicate (n - length s - 1) NUL) ++ [NUL]) with
        ([NUL] ++ replicate (n - length s - 1) NUL ++ [NUL]) in Hat.
      rewrite app_assoc in Hat. apply at_addr_app in Hat as [Hat _]. exact Hat.
  - apply grows_write.
  - eapply same_outside_weaken; [apply same_outside_write | lia | zlen_norm; rewrite Hl; lia].
Qed.

Lemma at_addr_string_disjoint m m' a n p s :
  same_outside m m' a n -> disjoint_ranges a n p (zlen s + 1) ->
  cstring m p = Some s -> cstring m' p = Some s.
Proof.
  intros Ho Hd [Hat Hs]%cstring_spec. apply cstring_spec. split; [|done].
  eapply at_addr_same_outside; [done| |done]. by rewrite zlen_app.
Qed.

#[export] Hint Resolve at_addr_mapped mapped_write same_outside_write same_outside_refl
  at_addr_nil at_addr_write : mem.
