(* ===== verification/Layout.v ===== *)
(** * The layout of C types in memory

    Integers, arrays, structures and unions as the System V ABI lays them out: alignment, size, the offset of a
    member and the list of the scalar members of a type, its leaves. An object is read and written leaf by leaf. *)

From stdpp Require Import sorting.
From S2P Require Import Prelude Memory.

(** ** Types *)

Inductive ctype : Type :=
| Integer (size : nat)
| Array (n : nat) (t : ctype)
| Struct (fs : fields)
| Union (fs : fields)
with fields : Type :=
| End
| Member (name : string) (t : ctype) (fs : fields).

Scheme ctype_mut := Induction for ctype Sort Prop
with fields_mut := Induction for fields Sort Prop.
Combined Scheme ctype_fields_ind from ctype_mut, fields_mut.

Definition members (l : list (string * ctype)) : fields := foldr (fun f => Member f.1 f.2) End l.
Definition struct (l : list (string * ctype)) : ctype := Struct (members l).
Definition union (l : list (string * ctype)) : ctype := Union (members l).

(** [x] rounded up to a multiple of [a]. *)
Definition pad (x a : Z) : Z := (x + a - 1) / a * a.

Fixpoint align_of (t : ctype) : Z :=
  match t with
  | Integer n => Z.of_nat n
  | Array _ t => align_of t
  | Struct fs | Union fs => fields_align fs
  end
with fields_align (fs : fields) : Z :=
  match fs with
  | End => 1
  | Member _ t fs => Z.max (align_of t) (fields_align fs)
  end.

(** [fields_end x fs]: where the members [fs] end when they start at or behind [x]. *)
Fixpoint size_of (t : ctype) : Z :=
  match t with
  | Integer n => Z.of_nat n
  | Array n t => Z.of_nat n * size_of t
  | Struct fs => pad (fields_end 0 fs) (fields_align fs)
  | Union fs => pad (fields_size fs) (fields_align fs)
  end
with fields_end (x : Z) (fs : fields) : Z :=
  match fs with
  | End => x
  | Member _ t fs => fields_end (pad x (align_of t) + size_of t) fs
  end
with fields_size (fs : fields) : Z :=
  match fs with
  | End => 0
  | Member _ t fs => Z.max (size_of t) (fields_size fs)
  end.

(** [offsetof]: the offset and the type of a member. *)
Fixpoint member_at (x : Z) (fs : fields) (name : string) : option (Z * ctype) :=
  match fs with
  | End => None
  | Member name' t fs =>
      if decide (name' = name) then Some (pad x (align_of t), t)
      else member_at (pad x (align_of t) + size_of t) fs name
  end.

Fixpoint variant_of (fs : fields) (name : string) : option ctype :=
  match fs with
  | End => None
  | Member name' t fs => if decide (name' = name) then Some t else variant_of fs name
  end.

Fixpoint offsetof (t : ctype) (path : list string) : option (Z * ctype) :=
  match path with
  | [] => Some (0, t)
  | name :: path =>
      '(x, t) ← (match t with
                 | Struct fs => member_at 0 fs name
                 | Union fs => pair 0 <$> variant_of fs name
                 | _ => None
                 end);
      '(y, t) ← offsetof t path; Some (x + y, t)
  end.

(** ** Leaves *)

Inductive selector := Field (name : string) | Index (i : nat).

Record leaf := Leaf { leaf_path : list selector; leaf_offset : Z; leaf_size : nat }.

Definition within (s : selector) (x : Z) (l : leaf) : leaf :=
  Leaf (s :: leaf_path l) (x + leaf_offset l) (leaf_size l).

Fixpoint leaves (t : ctype) : list leaf :=
  match t with
  | Integer n => [Leaf [] 0 n]
  | Array n t => i ← seq 0 n; within (Index i) (Z.of_nat i * size_of t) <$> leaves t
  | Struct fs => struct_leaves 0 fs
  | Union fs => union_leaves fs
  end
with struct_leaves (x : Z) (fs : fields) : list leaf :=
  match fs with
  | End => []
  | Member name t fs =>
      (within (Field name) (pad x (align_of t)) <$> leaves t) ++ struct_leaves (pad x (align_of t) + size_of t) fs
  end
with union_leaves (fs : fields) : list leaf :=
  match fs with
  | End => []
  | Member name t fs => (within (Field name) 0 <$> leaves t) ++ union_leaves fs
  end.

(** The integers have 1, 2, 4 or 8 bytes. *)
Fixpoint scalars_ok (t : ctype) : bool :=
  match t with
  | Integer n => bool_decide (n = 1 \/ n = 2 \/ n = 4 \/ n = 8)%nat
  | Array _ t => scalars_ok t
  | Struct fs | Union fs => members_ok fs
  end
with members_ok (fs : fields) : bool :=
  match fs with End => true | Member _ t fs => scalars_ok t && members_ok fs end.

(** No union has more than one member. *)
Fixpoint exclusive (t : ctype) : bool :=
  match t with
  | Integer _ => true
  | Array _ t => exclusive t
  | Struct fs => members_exclusive fs
  | Union fs => match fs with Member _ _ (Member _ _ _) => false | _ => members_exclusive fs end
  end
with members_exclusive (fs : fields) : bool :=
  match fs with End => true | Member _ t fs => exclusive t && members_exclusive fs end.

(** ** Alignment *)

Definition power (a : Z) : Prop := a = 1 \/ a = 2 \/ a = 4 \/ a = 8.

Lemma power_max a b : power a -> power b -> power (Z.max a b) /\ (a | Z.max a b) /\ (b | Z.max a b).
Proof.
  intros [-> | [-> | [-> | ->]]] [-> | [-> | [-> | ->]]]; (split; [vm_compute; tauto|]);
    split; apply Z.mod_divide; done.
Qed.

Lemma pad_divide x a : (a | pad x a).
Proof. by eexists. Qed.

Lemma pad_bounds x a : power a -> x <= pad x a < x + a.
Proof.
  intros Ha. assert (0 < a) by (unfold power in Ha; lia). unfold pad.
  pose proof (Z.div_mod (x + a - 1) a). pose proof (Z.mod_pos_bound (x + a - 1) a). lia.
Qed.

Lemma align_power :
  (forall t, scalars_ok t = true -> power (align_of t)) /\
  (forall fs, members_ok fs = true -> power (fields_align fs)).
Proof.
  apply ctype_fields_ind; simpl.
  - intros n Hn%bool_decide_eq_true. unfold power. lia.
  - done.
  - done.
  - done.
  - intros _. by left.
  - intros _ t IHt fs IHfs [Ht Hf]%andb_true_iff. by apply power_max; auto.
Qed.

(** The leaf lies in [lo, hi) and is aligned, also when the object is aligned to [a] only. *)
Definition fits (lo hi a : Z) (l : leaf) : Prop :=
  lo <= leaf_offset l /\ leaf_offset l + Z.of_nat (leaf_size l) <= hi /\
  (Z.of_nat (leaf_size l) | leaf_offset l) /\ (Z.of_nat (leaf_size l) | a).

Lemma fits_within s x lo hi a b l :
  (a | x) -> (a | b) -> fits lo hi a l -> fits (x + lo) (x + hi) b (within s x l).
Proof.
  intros Hx Hb (Hlo & Hhi & Ho & Ha). split_and!; cbn [within leaf_offset leaf_size]; [lia | lia | | by etrans].
  apply Z.divide_add_r; [by etrans | done].
Qed.

Lemma fits_weaken lo hi a lo' hi' b l : lo' <= lo -> hi <= hi' -> (a | b) -> fits lo hi a l -> fits lo' hi' b l.
Proof. intros ? ? ? (? & ? & ? & ?). split_and!; [lia | lia | done | by etrans]. Qed.

Lemma layout_facts :
  (forall t, scalars_ok t = true ->
     (align_of t | size_of t) /\ 0 <= size_of t /\ Forall (fits 0 (size_of t) (align_of t)) (leaves t)) /\
  (forall fs, members_ok fs = true ->
     (forall x, 0 <= x -> x <= fields_end x fs /\
        Forall (fits x (fields_end x fs) (fields_align fs)) (struct_leaves x fs)) /\
     0 <= fields_size fs /\ Forall (fits 0 (fields_size fs) (fields_align fs)) (union_leaves fs)).
Proof.
  apply ctype_fields_ind; simpl.
  - intros n Hn. split_and!; [done | lia |]. apply Forall_singleton. split_and!; simpl; done || lia || apply Z.divide_0_r.
  - intros n t IH Ht. destruct (IH Ht) as (Hdiv & H0 & Hl). split_and!; [by apply Z.divide_mul_r | lia |].
    apply Forall_forall. intros l Hin. apply list_elem_of_bind in Hin as (i & Hin & Hi%elem_of_seq).
    apply list_elem_of_fmap in Hin as (l' & -> & Hl').
    apply (fits_weaken (Z.of_nat i * size_of t + 0) (Z.of_nat i * size_of t + size_of t) (align_of t)); [nia | nia | done |].
    apply (fits_within _ _ _ _ (align_of t)); [by apply Z.divide_mul_r | done |]. by eapply (proj1 (Forall_forall _ _)).
  - intros fs IH Hf. destruct (IH Hf) as (Hs & _ & _). destruct (Hs 0 ltac:(lia)) as [H0 Hl].
    pose proof (pad_bounds (fields_end 0 fs) _ (proj2 align_power fs Hf)).
    split_and!; [apply pad_divide | lia |]. eapply Forall_impl; [exact Hl|]. intros l. by apply fits_weaken; [..|lia|].
  - intros fs IH Hf. destruct (IH Hf) as (_ & H0 & Hl).
    pose proof (pad_bounds (fields_size fs) _ (proj2 align_power fs Hf)).
    split_and!; [apply pad_divide | lia |]. eapply Forall_impl; [exact Hl|]. intros l. by apply fits_weaken; [..|lia|].
  - intros _. split_and!; [|done | by constructor]. intros x Hx. split; [done | by constructor].
  - intros name t IHt fs IHfs [Ht Hf]%andb_true_iff. destruct (IHt Ht) as (Hdiv & H0 & Hl), (IHfs Hf) as (Hs & H0' & Hu).
    pose proof (proj1 align_power t Ht) as Hp.
    destruct (power_max (align_of t) (fields_align fs)) as (_ & Hd1 & Hd2); [done | by apply align_power |].
    split_and!.
    + intros x Hx. pose proof (pad_bounds x _ Hp). destruct (Hs (pad x (align_of t) + size_of t) ltac:(lia)) as [He Hl'].
      split; [lia|]. apply Forall_app. split.
      * apply Forall_fmap. eapply Forall_impl; [exact Hl|]. intros l Hfit.
        apply (fits_weaken (pad x (align_of t) + 0) (pad x (align_of t) + size_of t) (align_of t)); [lia | lia | done |].
        apply (fits_within _ _ _ _ (align_of t)); [apply pad_divide | done | done].
      * eapply Forall_impl; [exact Hl'|]. intros l. apply fits_weaken; [lia | lia | done].
    + lia.
    + apply Forall_app. split.
      * apply Forall_fmap. eapply Forall_impl; [exact Hl|]. intros l Hfit.
        apply (fits_weaken (0 + 0) (0 + size_of t) (align_of t)); [lia | lia | done |].
        apply (fits_within _ _ _ _ (align_of t)); [apply Z.divide_0_r | done | done].
      * eapply Forall_impl; [exact Hu|]. intros l. apply fits_weaken; [lia | lia | done].
Qed.

(** ** The leaves do not overlap *)

Definition before (l1 l2 : leaf) : Prop := leaf_offset l1 + Z.of_nat (leaf_size l1) <= leaf_offset l2.

Lemma sorted_within s x ls : StronglySorted before ls -> StronglySorted before (within s x <$> ls).
Proof.
  induction 1 as [|l ls _ IH Hall]; cbn [fmap list_fmap]; constructor; [done|].
  apply Forall_fmap. eapply Forall_impl; [exact Hall|]. unfold before. simpl. lia.
Qed.

Lemma sorted_append lo mid hi a b ls1 ls2 :
  StronglySorted before ls1 -> StronglySorted before ls2 -> Forall (fits lo mid a) ls1 -> Forall (fits mid hi b) ls2 ->
  StronglySorted before (ls1 ++ ls2).
Proof.
  intros H1 H2 Hf1 Hf2. apply StronglySorted_app_2; [|done|done]. intros l1 l2 Hl1 Hl2.
  destruct (proj1 (Forall_forall _ _) Hf1 l1 Hl1) as (_ & ? & _), (proj1 (Forall_forall _ _) Hf2 l2 Hl2) as (? & _).
  unfold before. lia.
Qed.

Lemma array_leaves_S n (f : nat -> leaf -> leaf) ls :
  (i ← seq 0 (S n); f i <$> ls) = (i ← seq 0 n; f i <$> ls) ++ (f n <$> ls) :> list leaf.
Proof. rewrite seq_S, bind_app. simpl. by rewrite app_nil_r. Qed.

Lemma leaves_sorted :
  (forall t, scalars_ok t = true -> exclusive t = true -> StronglySorted before (leaves t)) /\
  (forall fs, members_ok fs = true -> members_exclusive fs = true ->
     (forall x, 0 <= x -> StronglySorted before (struct_leaves x fs)) /\
     (exclusive (Union fs) = true -> StronglySorted before (union_leaves fs))).
Proof.
  apply ctype_fields_ind.
  - intros n _ _. repeat constructor.
  - intros n t IH Ht Hx. cbn [leaves]. specialize (IH Ht Hx). induction n as [|n IHn]; [by constructor|].
    rewrite array_leaves_S.
    apply (sorted_append 0 (Z.of_nat n * size_of t) (Z.of_nat (S n) * size_of t) (align_of t) (align_of t));
      [by apply IHn | by apply sorted_within | apply (proj1 layout_facts (Array n t) Ht) |].
    destruct (proj1 layout_facts t Ht) as (Hdiv & _ & Hf). apply Forall_fmap. eapply Forall_impl; [exact Hf|].
    intros l Hl. apply (fits_weaken (Z.of_nat n * size_of t + 0) (Z.of_nat n * size_of t + size_of t) (align_of t)); [lia | lia | done |].
    by apply (fits_within _ _ _ _ (align_of t)); [apply Z.divide_mul_r | |].
  - intros fs IH Hf Hx. by apply IH.
  - intros fs IH Hf Hx. apply (IH Hf); [|done]. destruct fs as [|? ? [|]]; [done | done | discriminate Hx].
  - intros _ _. split; intros; constructor.
  - intros name t IHt fs IHfs [Ht Hf]%andb_true_iff [Hxt Hxf]%andb_true_iff. specialize (IHt Ht Hxt).
    destruct (IHfs Hf Hxf) as [Hs _], (proj1 layout_facts t Ht) as (Hdiv & H0 & Hl). split.
    + intros x Hx. cbn [struct_leaves]. pose proof (pad_bounds x _ (proj1 align_power t Ht)).
      apply (sorted_append x (pad x (align_of t) + size_of t) (fields_end (pad x (align_of t) + size_of t) fs)
        (align_of t) (fields_align fs)); [by apply sorted_within | apply Hs; lia | |].
      * apply Forall_fmap. eapply Forall_impl; [exact Hl|]. intros l Hfit.
        apply (fits_weaken (pad x (align_of t) + 0) (pad x (align_of t) + size_of t) (align_of t)); [lia | lia | done |].
        by apply (fits_within _ _ _ _ (align_of t)); [apply pad_divide | |].
      * apply (proj2 layout_facts fs Hf). lia.
    + intros He. cbn [union_leaves]. destruct fs; [|discriminate He]. cbn [union_leaves]. rewrite app_nil_r. by apply sorted_within.
Qed.

(** ** Objects *)

Section Objects.
Context (p : Z).

(** The leaves of the object at [p] are stored, or loaded, one after the other. *)
Fixpoint write_object (m : mem) (ls : list leaf) (vs : list Z) : option mem :=
  match ls, vs with
  | [], [] => Some m
  | l :: ls, v :: vs => m ← store_uint m (p + leaf_offset l) (leaf_size l) v; write_object m ls vs
  | _, _ => None
  end.

Definition read_object (m : mem) (ls : list leaf) : option (list Z) :=
  mapM (fun l => load_uint m (p + leaf_offset l) (leaf_size l)) ls.

Definition in_range (l : leaf) (v : Z) : Prop := 0 <= v < 2 ^ (8 * Z.of_nat (leaf_size l)).

Lemma read_object_other m l v ls :
  Forall (fun k => before l k \/ before k l) ls ->
  read_object (write_uint m (p + leaf_offset l) (leaf_size l) v) ls = read_object m ls.
Proof.
  intros Hall. unfold read_object. induction Hall as [|k ls Hk _ IH]; [done|]. simpl. rewrite IH.
  by rewrite load_uint_write_other by (unfold before, disjoint_ranges in *; lia).
Qed.

Lemma write_object_spec lo hi a m ls vs :
  StronglySorted before ls -> Forall (fits lo hi a) ls -> Forall2 in_range ls vs -> mapped m (p + lo) (hi - lo) ->
  exists m', write_object m ls vs = Some m' /\ read_object m' ls = Some vs /\
    same_outside m m' (p + lo) (hi - lo) /\ mapped m' (p + lo) (hi - lo).
Proof.
  intros Hs Hf Hr. revert lo Hf m. induction Hr as [|l v ls vs Hv _ IH]; intros lo Hf m Hm.
  { exists m. split_and!; [done | done | apply same_outside_refl | done]. }
  inversion Hs as [|? ? Hs' Hb]. subst. inversion Hf as [|? ? Hl Hf']. subst.
  destruct Hl as (Hlo & Hhi & _).
  assert (mapped m (p + leaf_offset l) (Z.of_nat (leaf_size l))) as Hml by (eapply mapped_sub; [exact Hm | lia | lia]).
  cbn [write_object]. rewrite store_uint_mapped by done. bind_simpl.
  set (m1 := write_uint _ _ _ _). set (mid := leaf_offset l + Z.of_nat (leaf_size l)).
  destruct (IH Hs' mid) with (m := m1) as (m' & -> & Hrd & Hsame & Hmap).
  - apply Forall_forall. intros k Hk. pose proof (proj1 (Forall_forall _ _) Hb k Hk) as Hbk.
    destruct (proj1 (Forall_forall _ _) Hf' k Hk) as (_ & ? & ? & ?). split_and!; [exact Hbk | lia | done | done].
  - apply mapped_write_uint. eapply mapped_sub; [exact Hm | |]; unfold mid; lia.
  - exists m'. split; [done|]. assert (same_outside m m' (p + lo) (hi - lo)) as Hout.
    { apply (same_outside_trans _ m1).
      - apply (same_outside_weaken _ _ _ _ (p + leaf_offset l) (Z.of_nat (leaf_size l))); [apply same_outside_write_uint | lia | lia].
      - apply (same_outside_weaken _ _ _ _ (p + mid) (hi - mid)); [done | unfold mid; lia | lia]. }
    split_and!; [|done|].
    + unfold read_object in *. simpl. rewrite Hrd.
      rewrite (load_uint_same_outside m1 m' (p + mid) (hi - mid)) by (done || unfold mid, disjoint_ranges; lia).
      unfold m1. rewrite load_uint_write_same, Z.mod_small by done. done.
    + intros j Hj. destruct (decide (p + mid <= j < p + mid + (hi - mid))); [by apply Hmap|].
      rewrite Hsame by done. by apply mapped_write_uint with (b := p + lo) (k := hi - lo).
Qed.

Lemma read_object_mapped m m' lo hi a ls :
  Forall (fits lo hi a) ls -> (forall j, p + lo <= j < p + hi -> m' !! j = m !! j) -> read_object m' ls = read_object m ls.
Proof.
  intros Hf Hm. unfold read_object. induction Hf as [|l ls Hl _ IH]; [done|]. simpl. rewrite IH.
  assert (load_uint m' (p + leaf_offset l) (leaf_size l) = load_uint m (p + leaf_offset l) (leaf_size l)) as ->; [|done].
  unfold load_uint. f_equal. apply load_agree. intros j Hj. apply Hm. destruct Hl as (? & ? & _). lia.
Qed.

(** A leaf is stored through one description of the object and all are loaded through it. *)
Lemma read_object_store m ls vs i l v :
  StronglySorted before ls -> read_object m ls = Some vs -> ls !! i = Some l -> in_range l v ->
  read_object (write_uint m (p + leaf_offset l) (leaf_size l) v) ls = Some (<[i := v]> vs).
Proof.
  intros Hs. revert i vs. induction Hs as [|k ls _ IH Hb]; intros i vs Hr Hi Hv; [done|].
  unfold read_object in Hr. simpl in Hr. apply bind_Some in Hr as (w & Hw & Hr). apply bind_Some in Hr as (ws & Hws & E).
  injection E as <-. destruct i as [|i]; simpl in Hi.
  - injection Hi as ->. unfold read_object. simpl. rewrite load_uint_write_same, Z.mod_small by done. bind_simpl.
    fold (read_object (write_uint m (p + leaf_offset l) (leaf_size l) v) ls). rewrite read_object_other.
    + unfold read_object. rewrite Hws. done.
    + eapply Forall_impl; [exact Hb|]. by left.
  - assert (before k l) as Hk by (by eapply (proj1 (Forall_forall _ _) Hb), list_elem_of_lookup_2).
    unfold read_object. simpl. rewrite load_uint_write_other by (unfold before, disjoint_ranges in *; lia). rewrite Hw. bind_simpl.
    specialize (IH i ws Hws Hi Hv). unfold read_object in IH. by rewrite IH.
Qed.
End Objects.
