(* ===== verification/Registers.v ===== *)
(** * Registers (include/bun/stream.h, src/register_to_string.c)

    The enumeration of the registers a frame can carry, the C value of each
    enumerator and the table of their names. *)

From S2P Require Import Prelude.
From Stdlib Require Import String.

(** ** The enumeration *)

Inductive bun_register : Set :=
| BUN_REGISTER_X86_64_RAX
| BUN_REGISTER_X86_64_RBX
| BUN_REGISTER_X86_64_RCX
| BUN_REGISTER_X86_64_RDX
| BUN_REGISTER_X86_64_RSI
| BUN_REGISTER_X86_64_RDI
| BUN_REGISTER_X86_64_RBP
| BUN_REGISTER_X86_64_RSP
| BUN_REGISTER_X86_64_R8
| BUN_REGISTER_X86_64_R9
| BUN_REGISTER_X86_64_R10
| BUN_REGISTER_X86_64_R11
| BUN_REGISTER_X86_64_R12
| BUN_REGISTER_X86_64_R13
| BUN_REGISTER_X86_64_R14
| BUN_REGISTER_X86_64_R15
| BUN_REGISTER_X86_64_RIP
| BUN_REGISTER_X86_EAX
| BUN_REGISTER_X86_EBX
| BUN_REGISTER_X86_ECX
| BUN_REGISTER_X86_EDX
| BUN_REGISTER_X86_ESI
| BUN_REGISTER_X86_EDI
| BUN_REGISTER_X86_EBP
| BUN_REGISTER_X86_ESP
| BUN_REGISTER_X86_EIP
| BUN_REGISTER_AARCH64_X0
| BUN_REGISTER_AARCH64_X1
| BUN_REGISTER_AARCH64_X2
| BUN_REGISTER_AARCH64_X3
| BUN_REGISTER_AARCH64_X4
| BUN_REGISTER_AARCH64_X5
| BUN_REGISTER_AARCH64_X6
| BUN_REGISTER_AARCH64_X7
| BUN_REGISTER_AARCH64_X8
| BUN_REGISTER_AARCH64_X9
| BUN_REGISTER_AARCH64_X10
| BUN_REGISTER_AARCH64_X11
| BUN_REGISTER_AARCH64_X12
| BUN_REGISTER_AARCH64_X13
| BUN_REGISTER_AARCH64_X14
| BUN_REGISTER_AARCH64_X15
| BUN_REGISTER_AARCH64_X16
| BUN_REGISTER_AARCH64_X17
| BUN_REGISTER_AARCH64_X18
| BUN_REGISTER_AARCH64_X19
| BUN_REGISTER_AARCH64_X20
| BUN_REGISTER_AARCH64_X21
| BUN_REGISTER_AARCH64_X22
| BUN_REGISTER_AARCH64_X23
| BUN_REGISTER_AARCH64_X24
| BUN_REGISTER_AARCH64_X25
| BUN_REGISTER_AARCH64_X26
| BUN_REGISTER_AARCH64_X27
| BUN_REGISTER_AARCH64_X28
| BUN_REGISTER_AARCH64_X29
| BUN_REGISTER_AARCH64_X30
| BUN_REGISTER_AARCH64_X31
| BUN_REGISTER_AARCH64_PC
| BUN_REGISTER_AARCH64_PSTATE
| BUN_REGISTER_ARM_R0
| BUN_REGISTER_ARM_R1
| BUN_REGISTER_ARM_R2
| BUN_REGISTER_ARM_R3
| BUN_REGISTER_ARM_R4
| BUN_REGISTER_ARM_R5
| BUN_REGISTER_ARM_R6
| BUN_REGISTER_ARM_R7
| BUN_REGISTER_ARM_R8
| BUN_REGISTER_ARM_R9
| BUN_REGISTER_ARM_R10
| BUN_REGISTER_ARM_R11
| BUN_REGISTER_ARM_R12
| BUN_REGISTER_ARM_R13
| BUN_REGISTER_ARM_R14
| BUN_REGISTER_ARM_R15
| BUN_REGISTER_ARM_PSTATE.

#[export] Instance bun_register_eq_dec : EqDecision bun_register.
Proof. solve_decision. Defined.

(** The C value of an enumerator: enumerators without an initialiser count on
    from the one before; every [_BEGIN] is the first and every [_END] the last
    enumerator of its group, so the groups are adjacent. *)
Definition bun_register_value (r : bun_register) : Z :=
  match r with
  | BUN_REGISTER_X86_64_RAX => 0
  | BUN_REGISTER_X86_64_RBX => 1
  | BUN_REGISTER_X86_64_RCX => 2
  | BUN_REGISTER_X86_64_RDX => 3
  | BUN_REGISTER_X86_64_RSI => 4
  | BUN_REGISTER_X86_64_RDI => 5
  | BUN_REGISTER_X86_64_RBP => 6
  | BUN_REGISTER_X86_64_RSP => 7
  | BUN_REGISTER_X86_64_R8 => 8
  | BUN_REGISTER_X86_64_R9 => 9
  | BUN_REGISTER_X86_64_R10 => 10
  | BUN_REGISTER_X86_64_R11 => 11
  | BUN_REGISTER_X86_64_R12 => 12
  | BUN_REGISTER_X86_64_R13 => 13
  | BUN_REGISTER_X86_64_R14 => 14
  | BUN_REGISTER_X86_64_R15 => 15
  | BUN_REGISTER_X86_64_RIP => 16
  | BUN_REGISTER_X86_EAX => 17
  | BUN_REGISTER_X86_EBX => 18
  | BUN_REGISTER_X86_ECX => 19
  | BUN_REGISTER_X86_EDX => 20
  | BUN_REGISTER_X86_ESI => 21
  | BUN_REGISTER_X86_EDI => 22
  | BUN_REGISTER_X86_EBP => 23
  | BUN_REGISTER_X86_ESP => 24
  | BUN_REGISTER_X86_EIP => 25
  | BUN_REGISTER_AARCH64_X0 => 26
  | BUN_REGISTER_AARCH64_X1 => 27
  | BUN_REGISTER_AARCH64_X2 => 28
  | BUN_REGISTER_AARCH64_X3 => 29
  | BUN_REGISTER_AARCH64_X4 => 30
  | BUN_REGISTER_AARCH64_X5 => 31
  | BUN_REGISTER_AARCH64_X6 => 32
  | BUN_REGISTER_AARCH64_X7 => 33
  | BUN_REGISTER_AARCH64_X8 => 34
  | BUN_REGISTER_AARCH64_X9 => 35
  | BUN_REGISTER_AARCH64_X10 => 36
  | BUN_REGISTER_AARCH64_X11 => 37
  | BUN_REGISTER_AARCH64_X12 => 38
  | BUN_REGISTER_AARCH64_X13 => 39
  | BUN_REGISTER_AARCH64_X14 => 40
  | BUN_REGISTER_AARCH64_X15 => 41
  | BUN_REGISTER_AARCH64_X16 => 42
  | BUN_REGISTER_AARCH64_X17 => 43
  | BUN_REGISTER_AARCH64_X18 => 44
  | BUN_REGISTER_AARCH64_X19 => 45
  | BUN_REGISTER_AARCH64_X20 => 46
  | BUN_REGISTER_AARCH64_X21 => 47
  | BUN_REGISTER_AARCH64_X22 => 48
  | BUN_REGISTER_AARCH64_X23 => 49
  | BUN_REGISTER_AARCH64_X24 => 50
  | BUN_REGISTER_AARCH64_X25 => 51
  | BUN_REGISTER_AARCH64_X26 => 52
  | BUN_REGISTER_AARCH64_X27 => 53
  | BUN_REGISTER_AARCH64_X28 => 54
  | BUN_REGISTER_AARCH64_X29 => 55
  | BUN_REGISTER_AARCH64_X30 => 56
  | BUN_REGISTER_AARCH64_X31 => 57
  | BUN_REGISTER_AARCH64_PC => 58
  | BUN_REGISTER_AARCH64_PSTATE => 59
  | BUN_REGISTER_ARM_R0 => 60
  | BUN_REGISTER_ARM_R1 => 61
  | BUN_REGISTER_ARM_R2 => 62
  | BUN_REGISTER_ARM_R3 => 63
  | BUN_REGISTER_ARM_R4 => 64
  | BUN_REGISTER_ARM_R5 => 65
  | BUN_REGISTER_ARM_R6 => 66
  | BUN_REGISTER_ARM_R7 => 67
  | BUN_REGISTER_ARM_R8 => 68
  | BUN_REGISTER_ARM_R9 => 69
  | BUN_REGISTER_ARM_R10 => 70
  | BUN_REGISTER_ARM_R11 => 71
  | BUN_REGISTER_ARM_R12 => 72
  | BUN_REGISTER_ARM_R13 => 73
  | BUN_REGISTER_ARM_R14 => 74
  | BUN_REGISTER_ARM_R15 => 75
  | BUN_REGISTER_ARM_PSTATE => 76
  end.

Definition BUN_REGISTER_X86_64_BEGIN : Z := bun_register_value BUN_REGISTER_X86_64_RAX.
Definition BUN_REGISTER_X86_64_END : Z := bun_register_value BUN_REGISTER_X86_64_RIP.
Definition BUN_REGISTER_X86_BEGIN : Z := BUN_REGISTER_X86_64_END + 1.
Definition BUN_REGISTER_X86_END : Z := bun_register_value BUN_REGISTER_X86_EIP.
Definition BUN_REGISTER_AARCH64_BEGIN : Z := BUN_REGISTER_X86_END + 1.
Definition BUN_REGISTER_AARCH64_END : Z := bun_register_value BUN_REGISTER_AARCH64_PSTATE.
Definition BUN_REGISTER_ARM_BEGIN : Z := BUN_REGISTER_AARCH64_END + 1.
Definition BUN_REGISTER_ARM_END : Z := bun_register_value BUN_REGISTER_ARM_PSTATE.
Definition BUN_REGISTER_COUNT : Z := BUN_REGISTER_ARM_END + 1.

(** ** The processors the backends are built for *)

Inductive processor : Set := X86_64 | I386 | Aarch64 | Arm.

#[export] Instance processor_eq_dec : EqDecision processor.
Proof. solve_decision. Defined.

(** ** The names *)

(** The [CASE] lines of the switch, in order: an enumerator and its spelling. *)
Definition register_cases : list (bun_register * string) := [
  (BUN_REGISTER_X86_64_RAX, "BUN_REGISTER_X86_64_RAX"%string);
  (BUN_REGISTER_X86_64_RBX, "BUN_REGISTER_X86_64_RBX"%string);
  (BUN_REGISTER_X86_64_RCX, "BUN_REGISTER_X86_64_RCX"%string);
  (BUN_REGISTER_X86_64_RDX, "BUN_REGISTER_X86_64_RDX"%string);
  (BUN_REGISTER_X86_64_RSI, "BUN_REGISTER_X86_64_RSI"%string);
  (BUN_REGISTER_X86_64_RDI, "BUN_REGISTER_X86_64_RDI"%string);
  (BUN_REGISTER_X86_64_RBP, "BUN_REGISTER_X86_64_RBP"%string);
  (BUN_REGISTER_X86_64_RSP, "BUN_REGISTER_X86_64_RSP"%string);
  (BUN_REGISTER_X86_64_R8, "BUN_REGISTER_X86_64_R8"%string);
  (BUN_REGISTER_X86_64_R9, "BUN_REGISTER_X86_64_R9"%string);
  (BUN_REGISTER_X86_64_R10, "BUN_REGISTER_X86_64_R10"%string);
  (BUN_REGISTER_X86_64_R11, "BUN_REGISTER_X86_64_R11"%string);
  (BUN_REGISTER_X86_64_R12, "BUN_REGISTER_X86_64_R12"%string);
  (BUN_REGISTER_X86_64_R13, "BUN_REGISTER_X86_64_R13"%string);
  (BUN_REGISTER_X86_64_R14, "BUN_REGISTER_X86_64_R14"%string);
  (BUN_REGISTER_X86_64_R15, "BUN_REGISTER_X86_64_R15"%string);
  (BUN_REGISTER_X86_64_RIP, "BUN_REGISTER_X86_64_RIP"%string);
  (BUN_REGISTER_X86_EAX, "BUN_REGISTER_X86_EAX"%string);
  (BUN_REGISTER_X86_EBX, "BUN_REGISTER_X86_EBX"%string);
  (BUN_REGISTER_X86_ECX, "BUN_REGISTER_X86_ECX"%string);
  (BUN_REGISTER_X86_EDX, "BUN_REGISTER_X86_EDX"%string);
  (BUN_REGISTER_X86_ESI, "BUN_REGISTER_X86_ESI"%string);
  (BUN_REGISTER_X86_EDI, "BUN_REGISTER_X86_EDI"%string);
  (BUN_REGISTER_X86_EBP, "BUN_REGISTER_X86_EBP"%string);
  (BUN_REGISTER_X86_ESP, "BUN_REGISTER_X86_ESP"%string);
  (BUN_REGISTER_X86_EIP, "BUN_REGISTER_X86_EIP"%string);
  (BUN_REGISTER_AARCH64_X0, "BUN_REGISTER_AARCH64_X0"%string);
  (BUN_REGISTER_AARCH64_X1, "BUN_REGISTER_AARCH64_X1"%string);
  (BUN_REGISTER_AARCH64_X2, "BUN_REGISTER_AARCH64_X2"%string);
  (BUN_REGISTER_AARCH64_X3, "BUN_REGISTER_AARCH64_X3"%string);
  (BUN_REGISTER_AARCH64_X4, "BUN_REGISTER_AARCH64_X4"%string);
  (BUN_REGISTER_AARCH64_X5, "BUN_REGISTER_AARCH64_X5"%string);
  (BUN_REGISTER_AARCH64_X6, "BUN_REGISTER_AARCH64_X6"%string);
  (BUN_REGISTER_AARCH64_X7, "BUN_REGISTER_AARCH64_X7"%string);
  (BUN_REGISTER_AARCH64_X8, "BUN_REGISTER_AARCH64_X8"%string);
  (BUN_REGISTER_AARCH64_X9, "BUN_REGISTER_AARCH64_X9"%string);
  (BUN_REGISTER_AARCH64_X10, "BUN_REGISTER_AARCH64_X10"%string);
  (BUN_REGISTER_AARCH64_X11, "BUN_REGISTER_AARCH64_X11"%string);
  (BUN_REGISTER_AARCH64_X12, "BUN_REGISTER_AARCH64_X12"%string);
  (BUN_REGISTER_AARCH64_X13, "BUN_REGISTER_AARCH64_X13"%string);
  (BUN_REGISTER_AARCH64_X14, "BUN_REGISTER_AARCH64_X14"%string);
  (BUN_REGISTER_AARCH64_X15, "BUN_REGISTER_AARCH64_X15"%string);
  (BUN_REGISTER_AARCH64_X16, "BUN_REGISTER_AARCH64_X16"%string);
  (BUN_REGISTER_AARCH64_X17, "BUN_REGISTER_AARCH64_X17"%string);
  (BUN_REGISTER_AARCH64_X18, "BUN_REGISTER_AARCH64_X18"%string);
  (BUN_REGISTER_AARCH64_X19, "BUN_REGISTER_AARCH64_X19"%string);
  (BUN_REGISTER_AARCH64_X20, "BUN_REGISTER_AARCH64_X20"%string);
  (BUN_REGISTER_AARCH64_X21, "BUN_REGISTER_AARCH64_X21"%string);
  (BUN_REGISTER_AARCH64_X22, "BUN_REGISTER_AARCH64_X22"%string);
  (BUN_REGISTER_AARCH64_X23, "BUN_REGISTER_AARCH64_X23"%string);
  (BUN_REGISTER_AARCH64_X24, "BUN_REGISTER_AARCH64_X24"%string);
  (BUN_REGISTER_AARCH64_X25, "BUN_REGISTER_AARCH64_X25"%string);
  (BUN_REGISTER_AARCH64_X26, "BUN_REGISTER_AARCH64_X26"%string);
  (BUN_REGISTER_AARCH64_X27, "BUN_REGISTER_AARCH64_X27"%string);
  (BUN_REGISTER_AARCH64_X28, "BUN_REGISTER_AARCH64_X28"%string);
  (BUN_REGISTER_AARCH64_X29, "BUN_REGISTER_AARCH64_X29"%string);
  (BUN_REGISTER_AARCH64_X30, "BUN_REGISTER_AARCH64_X30"%string);
  (BUN_REGISTER_AARCH64_X31, "BUN_REGISTER_AARCH64_X31"%string);
  (BUN_REGISTER_AARCH64_PC, "BUN_REGISTER_AARCH64_PC"%string);
  (BUN_REGISTER_AARCH64_PSTATE, "BUN_REGISTER_AARCH64_PSTATE"%string);
  (BUN_REGISTER_ARM_R0, "BUN_REGISTER_ARM_R0"%string);
  (BUN_REGISTER_ARM_R1, "BUN_REGISTER_ARM_R1"%string);
  (BUN_REGISTER_ARM_R2, "BUN_REGISTER_ARM_R2"%string);
  (BUN_REGISTER_ARM_R3, "BUN_REGISTER_ARM_R3"%string);
  (BUN_REGISTER_ARM_R4, "BUN_REGISTER_ARM_R4"%string);
  (BUN_REGISTER_ARM_R5, "BUN_REGISTER_ARM_R5"%string);
  (BUN_REGISTER_ARM_R6, "BUN_REGISTER_ARM_R6"%string);
  (BUN_REGISTER_ARM_R7, "BUN_REGISTER_ARM_R7"%string);
  (BUN_REGISTER_ARM_R8, "BUN_REGISTER_ARM_R8"%string);
  (BUN_REGISTER_ARM_R9, "BUN_REGISTER_ARM_R9"%string);
  (BUN_REGISTER_ARM_R10, "BUN_REGISTER_ARM_R10"%string);
  (BUN_REGISTER_ARM_R11, "BUN_REGISTER_ARM_R11"%string);
  (BUN_REGISTER_ARM_R12, "BUN_REGISTER_ARM_R12"%string);
  (BUN_REGISTER_ARM_R13, "BUN_REGISTER_ARM_R13"%string);
  (BUN_REGISTER_ARM_R14, "BUN_REGISTER_ARM_R14"%string);
  (BUN_REGISTER_ARM_R15, "BUN_REGISTER_ARM_R15"%string);
  (BUN_REGISTER_ARM_PSTATE, "BUN_REGISTER_ARM_PSTATE"%string)
].

(** The switch: the first case whose label equals [val], or the default. *)
Fixpoint switch_register (cases : list (bun_register * string)) (val : Z) : string :=
  match cases with
  | [] => "<unknown>"%string
  | (r, name) :: cases =>
      if decide (bun_register_value r = val) then name else switch_register cases val
  end.

Definition bun_register_to_string (val : Z) : string := switch_register register_cases val.

(** ** Properties of the enumeration *)

(** Every enumerator, in the order of the values. *)
Definition all_registers : list bun_register := fst <$> register_cases.

Lemma all_registers_complete r : r ∈ all_registers.
Proof. apply list_elem_of_lookup. exists (Z.to_nat (bun_register_value r)). by destruct r. Qed.

Lemma bun_register_value_nth r :
  all_registers !! Z.to_nat (bun_register_value r) = Some r.
Proof. by destruct r. Qed.

Lemma bun_register_value_range r : 0 <= bun_register_value r < BUN_REGISTER_COUNT.
Proof. destruct r; vm_compute; split; done. Qed.

#[export] Instance bun_register_value_inj : Inj (=) (=) bun_register_value.
Proof.
  intros r r' H. pose proof (bun_register_value_nth r) as Hr.
  rewrite H, bun_register_value_nth in Hr. by injection Hr.
Qed.

Lemma bun_register_value_surj v :
  0 <= v < BUN_REGISTER_COUNT -> exists r, bun_register_value r = v.
Proof.
  intros Hv. assert (bun_register_value <$> all_registers = seqZ 0 BUN_REGISTER_COUNT) as E
    by (vm_compute; reflexivity).
  assert (v ∈ seqZ 0 BUN_REGISTER_COUNT) as Hin by (apply elem_of_seqZ; lia).
  rewrite <- E in Hin. apply list_elem_of_fmap in Hin as (r & -> & _). eauto.
Qed.

(** The spelling of an enumerator, found by its position in the table. *)
Definition register_name (r : bun_register) : string :=
  default "<unknown>"%string (snd <$> register_cases !! Z.to_nat (bun_register_value r)).

Lemma bun_register_to_string_named r :
  bun_register_to_string (bun_register_value r) = register_name r.
Proof. destruct r; vm_compute; reflexivity. Qed.

Lemma switch_register_default cases v :
  Forall (fun c => bun_register_value c.1 <> v) cases ->
  switch_register cases v = "<unknown>"%string.
Proof.
  induction 1 as [|[r n] cases Hne _ IH]; simpl; [done|]. by rewrite decide_False.
Qed.

Lemma register_name_inj : Inj (=) (=) register_name.
Proof.
  intros r r' H.
  assert (NoDup (register_name <$> all_registers)) as Hnd
    by (apply (bool_decide_unpack _); vm_compute; exact I).
  assert (forall q, (register_name <$> all_registers) !! Z.to_nat (bun_register_value q)
    = Some (register_name q)) as Hl.
  { intros q. by rewrite list_lookup_fmap, bun_register_value_nth. }
  pose proof (Hl r') as Hr'. rewrite <- H in Hr'.
  pose proof (NoDup_lookup _ _ _ _ Hnd (Hl r) Hr') as E.
  apply (inj bun_register_value).
  pose proof (bun_register_value_range r). pose proof (bun_register_value_range r'). lia.
Qed.

(** The values of the enumeration. *)
Definition is_register (v : Z) : Prop := 0 <= v < BUN_REGISTER_COUNT.

Lemma register_name_known r : register_name r <> "<unknown>"%string.
Proof. destruct r; vm_compute; discriminate. Qed.

Lemma bun_register_to_string_unknown v :
  ~ is_register v -> bun_register_to_string v = "<unknown>"%string.
Proof.
  intros Hv. apply switch_register_default, Forall_forall. intros [r n] _ <-.
  apply Hv, bun_register_value_range.
Qed.

Lemma bun_register_to_string_cases v :
  (exists r, bun_register_value r = v /\ bun_register_to_string v = register_name r) \/
  ~ is_register v /\ bun_register_to_string v = "<unknown>"%string.
Proof.
  destruct (decide (0 <= v < BUN_REGISTER_COUNT)) as [Hv|Hv].
  - left. destruct (bun_register_value_surj v Hv) as [r <-]. exists r.
    split; [done | apply bun_register_to_string_named].
  - right. split; [done | by apply bun_register_to_string_unknown].
Qed.

(** every register number has a name, and names identify registers.
    [bun_register_to_string] answers ["<unknown>"] exactly outside the range
    0 .. [BUN_REGISTER_COUNT] - 1, which is the set of values of the enumerators;
    inside it answers the enumerator's own spelling, and two numbers with the same
    name are equal unless both are unknown. *)
Theorem register_to_string_spec v w :
  (is_register v <-> exists r, bun_register_value r = v /\ bun_register_to_string v = register_name r) /\
  (bun_register_to_string v = "<unknown>"%string <-> ~ is_register v) /\
  (bun_register_to_string v = bun_register_to_string w <->
     v = w \/ (~ is_register v /\ ~ is_register w)).
Proof.
  assert (forall u, bun_register_to_string u = "<unknown>"%string <-> ~ is_register u) as Hunk.
  { intros u. split; [|apply bun_register_to_string_unknown].
    destruct (bun_register_to_string_cases u) as [(r & <- & ->)|[H _]]; [|done].
    intros E. by destruct (register_name_known r). }
  split_and!; [|apply Hunk|].
  - split; [|intros (r & <- & _); apply bun_register_value_range].
    intros Hv. destruct (bun_register_to_string_cases v) as [H|[H _]]; [done | tauto].
  - split; [|intros [->|[Hv Hw]]; [done | by rewrite !bun_register_to_string_unknown]].
    intros E. destruct (bun_register_to_string_cases v) as [(r & <- & Hr)|[Hv Hn]].
    + destruct (bun_register_to_string_cases w) as [(q & <- & Hq)|[_ Hn]].
      * left. f_equal. apply register_name_inj. congruence.
      * rewrite Hn, Hr in E. by destruct (register_name_known r).
    + right. split; [done|]. apply Hunk. congruence.
Qed.
