(* ===== verification/Stream.v ===== *)
(** * The stream: buffers, cursors and the header (src/bun_stream.c)

    The structures of the stream with their layout in memory, the
    initialisation of buffers, writers and readers, the accessors of the header
    and the bounds-checked primitives that move a cursor. The functions take the
    memory and return it; a [struct] the caller owns is passed and returned by
    value. [None] is undefined behaviour of the C code. *)

From S2P Require Import Prelude Memory.

(** ** Layout (src/bun_internal.h, include/bun/bun.h) *)

(** [struct bun_payload_header], 24 bytes: offset of each member. *)
Definition header_magic : Z := 0.
Definition header_version : Z := 8.
Definition header_architecture : Z := 10.
Definition header_size : Z := 12.
Definition header_tid : Z := 16.
Definition header_backend : Z := 20.
Definition sizeof_payload_header : Z := 24.

(** [struct bun_buffer_payload], 40 bytes: the counter, the handle, the header. *)
Definition payload_write_count : Z := 0.
Definition payload_handle : Z := 8.
Definition payload_header : Z := 16.
Definition sizeof_buffer_payload : Z := 40.

(** [struct bun_handle], 56 bytes. *)
Definition handle_unwind : Z := 0.
Definition handle_unwind_context : Z := 8.
Definition handle_unwind_remote : Z := 16.
Definition handle_destroy : Z := 24.
Definition handle_backend_context : Z := 32.
Definition handle_flags : Z := 40.
Definition handle_write_count : Z := 48.
Definition sizeof_handle : Z := 56.

Definition BUN_HANDLE_WRITE_ONCE : Z := Z.shiftl 1 0.

(** [enum bun_architecture] and [enum bun_unwind_backend]. *)
Inductive bun_architecture : Set :=
| BUN_ARCH_UNKNOWN
| BUN_ARCH_X86
| BUN_ARCH_X86_64
| BUN_ARCH_ARM
| BUN_ARCH_ARM64.

Definition bun_architecture_value (a : bun_architecture) : Z :=
  match a with
  | BUN_ARCH_UNKNOWN => 0
  | BUN_ARCH_X86 => 1
  | BUN_ARCH_X86_64 => 2
  | BUN_ARCH_ARM => 3
  | BUN_ARCH_ARM64 => 4
  end.

Definition BUN_BACKEND_NONE : Z := -1.
Definition BUN_BACKEND_LIBUNWIND : Z := 0.
Definition BUN_BACKEND_LIBBACKTRACE : Z := 1.
Definition BUN_BACKEND_LIBUNWINDSTACK : Z := 2.

Definition BUN_HEADER_MAGIC : Z := 0xaee9eb7a786a6145.
Definition REGISTER_SIZE : Z := 2 + 8.

(** ** Structures the caller owns (include/bun/stream.h) *)

Record bun_buffer := BunBuffer { buffer_data : Z; buffer_size : Z }.

Record bun_writer_reader_base := Base {
  buffer : Z;
  cursor : Z;
  size : Z;
  handle : Z;
  overflow : bool
}.
Abbreviation bun_writer := bun_writer_reader_base.
Abbreviation bun_reader := bun_writer_reader_base.

Definition set_cursor (b : bun_writer_reader_base) (c : Z) : bun_writer_reader_base :=
  Base (buffer b) c (size b) (handle b) (overflow b).
Definition set_overflow (b : bun_writer_reader_base) : bun_writer_reader_base :=
  Base (buffer b) (cursor b) (size b) (handle b) true.

(** ** Buffers *)

Definition bun_buffer_init (m : mem) (data sz : Z) : option (mem * option bun_buffer) :=
  if decide (sz < sizeof_buffer_payload) then Some (m, None)
  else
    m ← memset m data NUL (Z.to_nat sizeof_buffer_payload);
    Some (m, Some (BunBuffer data sz)).

Definition bun_buffer_payload (b : bun_buffer) : Z := buffer_data b + payload_header.

Definition bun_buffer_payload_size (b : bun_buffer) : Z :=
  u64 (buffer_size b - (bun_buffer_payload b - buffer_data b)).

(** ** Initialisation of writers and readers *)

(** Lines 94-99: the handle recorded in the buffer against the one passed in.
    [Some None] is [return false]. *)
Definition attach_handle (m : mem) (b : bun_buffer) (h : Z) : option (option mem) :=
  recorded ← load_uint m (buffer_data b + payload_handle) 8;
  if decide (recorded <> NULL) then
    if decide (h <> NULL /\ h <> recorded) then Some None else Some (Some m)
  else if decide (h <> NULL) then
    m ← store_uint m (buffer_data b + payload_handle) 8 h; Some (Some m)
  else Some (Some m).

(** [atomic_fetch_add(&buffer_payload->write_count, 1)], converted to [int]. *)
Definition fetch_add_write_count (m : mem) (b : bun_buffer) : option (mem * Z) :=
  old ← load_uint m (buffer_data b + payload_write_count) 4;
  m ← store_uint m (buffer_data b + payload_write_count) 4 (u32 (old + 1));
  Some (m, i32 old).

(** Lines 101-106: claim the buffer if the recorded handle is write-once. The
    boolean is false for [return false]. *)
Definition claim_write_once (m : mem) (b : bun_buffer) : option (mem * bool) :=
  recorded ← load_uint m (buffer_data b + payload_handle) 8;
  if decide (recorded <> NULL) then
    flags ← load_uint m (recorded + handle_flags) 8;
    if decide (Z.land flags BUN_HANDLE_WRITE_ONCE <> 0) then
      '(m, last) ← fetch_add_write_count m b;
      Some (m, bool_decide (~ last > 0))
    else Some (m, true)
  else Some (m, true).

(** Lines 116-121: the stores to the header. *)
Definition init_header (m : mem) (hdr arch tid : Z) : option mem :=
  m ← store_uint m (hdr + header_magic) 8 BUN_HEADER_MAGIC;
  m ← store_uint m (hdr + header_version) 2 1;
  m ← store_uint m (hdr + header_architecture) 2 (u16 arch);
  m ← store_uint m (hdr + header_size) 4 sizeof_payload_header;
  m ← store_uint m (hdr + header_tid) 4 (u32 tid);
  store_uint m (hdr + header_backend) 2 (u16 BUN_BACKEND_NONE).

(** [tid] is the value [bun_gettid()] returns. The writer is [None] when the
    function returns false: the caller's structure is left as it was. *)
Definition bun_writer_init (m : mem) (b : bun_buffer) (arch h tid : Z)
  : option (mem * option bun_writer) :=
  if decide (buffer_size b < sizeof_payload_header) then Some (m, None)
  else
    attached ← attach_handle m b h;
    match attached with
    | None => Some (m, None)
    | Some m =>
        '(m, claimed) ← claim_write_once m b;
        if (claimed : bool) then
          m ← init_header m (bun_buffer_payload b) arch tid;
          Some (m, Some (Base (bun_buffer_payload b)
            (bun_buffer_payload b + sizeof_payload_header)
            (bun_buffer_payload_size b) h false))
        else Some (m, None)
    end.

Definition bun_reader_init (m : mem) (b : bun_buffer) (h : Z) : option (option bun_reader) :=
  if decide (bun_buffer_payload_size b < sizeof_payload_header) then Some None
  else
    magic ← load_uint m (bun_buffer_payload b + header_magic) 8;
    if decide (magic <> BUN_HEADER_MAGIC) then Some None
    else Some (Some (Base (bun_buffer_payload b)
      (bun_buffer_payload b + sizeof_payload_header)
      (bun_buffer_payload_size b) h false)).

(** ** Header accessors *)

Definition bun_header_tid_set (m : mem) (w : bun_writer) (tid : Z) : option mem :=
  store_uint m (buffer w + header_tid) 4 (u32 tid).
Definition bun_header_tid_get (m : mem) (r : bun_reader) : option Z :=
  load_uint m (buffer r + header_tid) 4.
Definition bun_header_backend_set (m : mem) (w : bun_writer) (backend : Z) : option mem :=
  store_uint m (buffer w + header_backend) 2 (u16 backend).
Definition bun_header_backend_get (m : mem) (r : bun_reader) : option Z :=
  load_uint m (buffer r + header_backend) 2.

(** ** Cursor primitives *)

Definition is_safe_access (b : bun_writer_reader_base) (bytes : Z) : bool :=
  let end_cursor := buffer b + size b in
  let bytes_left := u64 (end_cursor - cursor b) in
  if overflow b then false else bool_decide (bytes <= bytes_left).

Definition read_le (n : nat) (m : mem) (src : bun_reader) : option (Z * bun_reader) :=
  if is_safe_access src (Z.of_nat n) then
    value ← load_uint m (cursor src) n;
    Some (value, set_cursor src (cursor src + Z.of_nat n))
  else Some (0, set_overflow src).

Definition write_le (n : nat) (m : mem) (dest : bun_writer) (value : Z)
  : option (mem * bun_writer) :=
  if is_safe_access dest (Z.of_nat n) then
    m ← store_uint m (cursor dest) n value;
    Some (m, set_cursor dest (cursor dest + Z.of_nat n))
  else Some (m, set_overflow dest).

Definition read_le_16 := read_le 2.
Definition read_le_64 := read_le 8.
Definition write_le_16 (m : mem) (dest : bun_writer) (value : Z) := write_le 2 m dest (u16 value).
Definition write_le_64 (m : mem) (dest : bun_writer) (value : Z) := write_le 8 m dest (u64 value).

Definition safe_strlen (m : mem) (src : bun_reader) : option (Z * bun_reader) :=
  let end_cursor := buffer src + size src in
  let max_length := u64 (end_cursor - cursor src) in
  if overflow src then Some (-1, src)
  else
    len ← strnlen m (cursor src) (Z.to_nat max_length);
    if decide (len = max_length) then Some (-1, set_overflow src) else Some (len, src).

(** ** Lemmas on the cursor primitives *)

(** A cursor inside its mapped payload: what the initialisers establish and
    every operation keeps. *)
Record base_ok (m : mem) (b : bun_writer_reader_base) : Prop := {
  ok_not_null : 0 < buffer b;
  ok_below_top : buffer b + size b < 2 ^ 64;
  ok_after_header : buffer b + sizeof_payload_header <= cursor b;
  ok_in_buffer : cursor b <= buffer b + size b;
  ok_mapped : mapped m (buffer b) (size b)
}.

#[export] Instance base_ok_dec m b : Decision (base_ok m b).
Proof.
  refine (cast_if (decide (0 < buffer b /\ buffer b + size b < 2 ^ 64 /\
    buffer b + sizeof_payload_header <= cursor b /\ cursor b <= buffer b + size b /\
    mapped m (buffer b) (size b)))); [constructor; tauto | intros []; tauto].
Defined.

(** Moving on inside the same buffer, never back and never out of overflow. *)
Record advances (b b' : bun_writer_reader_base) : Prop := {
  adv_buffer : buffer b' = buffer b;
  adv_size : size b' = size b;
  adv_handle : handle b' = handle b;
  adv_cursor : cursor b <= cursor b';
  adv_overflow : overflow b = true -> overflow b' = true
}.

#[export] Instance advances_preorder : PreOrder advances.
Proof.
  split.
  - intros b. by split.
  - intros a b c [] []. split; try congruence; try lia; eauto.
Qed.

Ltac base_simpl := cbn [buffer cursor size handle overflow set_cursor set_overflow] in *.

Lemma base_ok_set_cursor m b c :
  base_ok m b -> buffer b + sizeof_payload_header <= c <= buffer b + size b ->
  base_ok m (set_cursor b c).
Proof. intros [] ?. split; base_simpl; auto; lia. Qed.

Lemma base_ok_set_overflow m b : base_ok m b -> base_ok m (set_overflow b).
Proof. intros []. split; base_simpl; auto. Qed.

Lemma base_ok_mapped m m' b :
  grows m m' -> base_ok m b -> base_ok m' b.
Proof. intros H []. split; auto. intros j Hj. auto. Qed.

Lemma advances_set_cursor b c : cursor b <= c -> advances b (set_cursor b c).
Proof. by split. Qed.
Lemma advances_set_overflow b : advances b (set_overflow b).
Proof. by split. Qed.

Lemma is_safe_access_spec m b n :
  base_ok m b ->
  is_safe_access b n = negb (overflow b) && bool_decide (cursor b + n <= buffer b + size b).
Proof.
  intros []. unfold is_safe_access, sizeof_payload_header in *. rewrite u64_small by lia.
  destruct (overflow b); simpl; [done|]. apply bool_decide_ext. lia.
Qed.

Lemma read_le_hit n m r v :
  base_ok m r -> overflow r = false -> cursor r + Z.of_nat n <= buffer r + size r ->
  load_uint m (cursor r) n = Some v ->
  read_le n m r = Some (v, set_cursor r (cursor r + Z.of_nat n)).
Proof.
  intros Hok Ho Hc Hv. unfold read_le. rewrite (is_safe_access_spec m), Ho by done.
  rewrite bool_decide_true by done. simpl. by rewrite Hv.
Qed.

Lemma read_le_miss n m r :
  base_ok m r -> overflow r = true \/ cursor r + Z.of_nat n > buffer r + size r ->
  read_le n m r = Some (0, set_overflow r).
Proof.
  intros Hok Hor. unfold read_le. rewrite (is_safe_access_spec m) by done.
  destruct (overflow r); [done|]. destruct Hor; [done|].
  by rewrite bool_decide_false by lia.
Qed.

(** A read never faults and keeps the cursor inside the payload. *)
Lemma read_le_total n m r :
  base_ok m r ->
  exists v r', read_le n m r = Some (v, r') /\ base_ok m r' /\ advances r r' /\
    0 <= v < 2 ^ (8 * Z.of_nat n) /\
    (overflow r' = false -> cursor r' = cursor r + Z.of_nat n).
Proof.
  intros Hok. assert (0 < 2 ^ (8 * Z.of_nat n)) by (apply Z.pow_pos_nonneg; lia).
  destruct (decide (overflow r = true \/ cursor r + Z.of_nat n > buffer r + size r)) as [Hm|Hh].
  - exists 0, (set_overflow r). rewrite read_le_miss by done. split_and!; auto;
      [by apply base_ok_set_overflow | apply advances_set_overflow | lia | done].
  - destruct (overflow r) eqn:Ho; [tauto|].
    pose proof Hok as [? ? ? ? Hmap].
    destruct (load_uint_mapped m (cursor r) n) as (v & Hv & Hr).
    { apply (mapped_sub _ _ _ _ _ Hmap); unfold sizeof_payload_header in *; lia. }
    exists v, (set_cursor r (cursor r + Z.of_nat n)).
    rewrite (read_le_hit _ _ _ v) by (done || lia). split_and!; auto; try lia.
    + apply base_ok_set_cursor; [done | lia].
    + apply advances_set_cursor. lia.
Qed.

Lemma write_le_hit n m w v :
  base_ok m w -> overflow w = false -> cursor w + Z.of_nat n <= buffer w + size w ->
  write_le n m w v =
  Some (write_uint m (cursor w) n v, set_cursor w (cursor w + Z.of_nat n)).
Proof.
  intros Hok Ho Hc. unfold write_le. rewrite (is_safe_access_spec m), Ho by done.
  rewrite bool_decide_true by done. simpl. destruct Hok.
  unfold sizeof_payload_header in *. by rewrite store_uint_mapped by solve_mapped.
Qed.

Lemma write_le_miss n m w v :
  base_ok m w -> overflow w = true \/ cursor w + Z.of_nat n > buffer w + size w ->
  write_le n m w v = Some (m, set_overflow w).
Proof.
  intros Hok Hor. unfold write_le. rewrite (is_safe_access_spec m) by done.
  destruct (overflow w); [done|]. destruct Hor; [done|].
  by rewrite bool_decide_false by lia.
Qed.

Lemma safe_strlen_hit m r s :
  base_ok m r -> overflow r = false -> at_addr m (cursor r) (s ++ [NUL]) -> no_nul s ->
  cursor r + zlen s < buffer r + size r ->
  safe_strlen m r = Some (zlen s, r).
Proof.
  intros [] Ho Hat Hs Hlt. unfold safe_strlen, sizeof_payload_header in *.
  rewrite Ho, u64_small by lia.
  rewrite (strnlen_string _ _ _ s) by (done || lia). simpl.
  by rewrite decide_False by lia.
Qed.

(** [safe_strlen] never faults; without overflow the string it measured is
    terminated inside the payload. *)
Lemma safe_strlen_total m r :
  base_ok m r ->
  exists len r', safe_strlen m r = Some (len, r') /\ base_ok m r' /\ advances r r' /\
    cursor r' = cursor r /\
    (overflow r' = false -> r' = r /\ 0 <= len /\ cursor r + len + 1 <= buffer r + size r /\
       exists s, no_nul s /\ zlen s = len /\ at_addr m (cursor r) (s ++ [NUL])).
Proof.
  intros Hok. pose proof Hok as [? ? ? ? Hmap]. unfold safe_strlen, sizeof_payload_header in *.
  destruct (overflow r) eqn:Ho.
  { exists (-1), r. split_and!; auto; [by split | congruence]. }
  rewrite u64_small by lia.
  destruct (strnlen_mapped m (cursor r) (Z.to_nat (buffer r + size r - cursor r)))
    as (n & Hn & Hcase); [solve_mapped|].
  rewrite Hn. simpl. case_decide as He.
  - exists (-1), (set_overflow r). split_and!; auto;
      [by apply base_ok_set_overflow | apply advances_set_overflow | done].
  - exists n, r. split_and!; auto; [by split|]. intros _.
    destruct Hcase as [|(s & Hl & Hlt & Hs & Hat)]; [lia|].
    split_and!; [done | zlia | lia | eauto].
Qed.

(** ** The header as a value *)

Record payload_header_fields := Header {
  h_magic : Z; h_version : Z; h_architecture : Z; h_size : Z; h_tid : Z; h_backend : Z
}.

Definition load_header (m : mem) (hdr : Z) : option payload_header_fields :=
  magic ← load_uint m (hdr + header_magic) 8;
  version ← load_uint m (hdr + header_version) 2;
  arch ← load_uint m (hdr + header_architecture) 2;
  sz ← load_uint m (hdr + header_size) 4;
  tid ← load_uint m (hdr + header_tid) 4;
  backend ← load_uint m (hdr + header_backend) 2;
  Some (Header magic version arch sz tid backend).

Ltac layout := unfold header_magic, header_version, header_architecture, header_size,
  header_tid, header_backend, sizeof_payload_header, payload_write_count, payload_handle,
  payload_header, sizeof_buffer_payload in *.

(** Reduce the [mod] that a store of a value already in range leaves behind. *)
Ltac mod_small :=
  repeat match goal with
  | |- context [?v `mod` 2 ^ ?k] => rewrite (Z.mod_small v (2 ^ k)) by
      first [lia | apply u16_range | apply u32_range | apply u64_range]
  end.

(** A buffer as [bun_buffer_init] leaves it: large enough, mapped, below the
    top of the address space. *)
Record buffer_ok (m : mem) (b : bun_buffer) : Prop := {
  bok_not_null : 0 < buffer_data b;
  bok_below_top : buffer_data b + buffer_size b < 2 ^ 64;
  bok_size : sizeof_buffer_payload <= buffer_size b;
  bok_mapped : mapped m (buffer_data b) (buffer_size b)
}.

#[export] Instance buffer_ok_dec m b : Decision (buffer_ok m b).
Proof.
  refine (cast_if (decide (0 < buffer_data b /\ buffer_data b + buffer_size b < 2 ^ 64 /\
    sizeof_buffer_payload <= buffer_size b /\ mapped m (buffer_data b) (buffer_size b))));
    [constructor; tauto | intros []; tauto].
Defined.

Lemma payload_size_ok m b :
  buffer_ok m b -> bun_buffer_payload_size b = buffer_size b - payload_header.
Proof.
  intros []. unfold bun_buffer_payload_size, bun_buffer_payload. layout.
  rewrite u64_small; lia.
Qed.

(** The cursor structure both initialisers build. *)
Definition initial_base (b : bun_buffer) (h : Z) : bun_writer_reader_base :=
  Base (bun_buffer_payload b) (bun_buffer_payload b + sizeof_payload_header)
    (bun_buffer_payload_size b) h false.

Lemma initial_base_ok m b h : buffer_ok m b -> base_ok m (initial_base b h).
Proof.
  intros Hb. pose proof (payload_size_ok _ _ Hb) as Hs. destruct Hb.
  unfold initial_base, bun_buffer_payload in *. layout.
  split; base_simpl; layout; rewrite ?Hs; try lia. solve_mapped.
Qed.

Lemma buffer_ok_mapped m m' b :
  grows m m' -> buffer_ok m b -> buffer_ok m' b.
Proof. intros H []. split; auto. intros j Hj. auto. Qed.

Lemma buffer_ok_write m a bs b : buffer_ok m b -> buffer_ok (write_bytes m a bs) b.
Proof. apply buffer_ok_mapped, grows_write. Qed.

(** ** Lemmas on the initialisers *)

(** The memory [init_header] leaves, store by store. *)
Definition header_written (m : mem) (hdr arch tid : Z) : mem :=
  let m := write_uint m (hdr + header_magic) 8 BUN_HEADER_MAGIC in
  let m := write_uint m (hdr + header_version) 2 1 in
  let m := write_uint m (hdr + header_architecture) 2 (u16 arch) in
  let m := write_uint m (hdr + header_size) 4 sizeof_payload_header in
  let m := write_uint m (hdr + header_tid) 4 (u32 tid) in
  write_uint m (hdr + header_backend) 2 (u16 BUN_BACKEND_NONE).

Lemma init_header_written m hdr arch tid :
  mapped m hdr sizeof_payload_header ->
  init_header m hdr arch tid = Some (header_written m hdr arch tid).
Proof.
  intros Hm. unfold init_header, header_written. layout.
  do 6 (rewrite store_uint_mapped by solve_mapped; bind_simpl). done.
Qed.

Lemma header_written_load m hdr arch tid :
  load_header (header_written m hdr arch tid) hdr =
  Some (Header BUN_HEADER_MAGIC 1 (u16 arch) sizeof_payload_header (u32 tid) (2 ^ 16 - 1)).
Proof.
  unfold load_header, header_written. layout. mem_simp. unfold u16, u32, BUN_HEADER_MAGIC.
  cbn [Z.of_nat Pos.of_succ_nat Pos.succ Z.mul Pos.mul Pos.add].
  rewrite !Z.mod_mod by done. done.
Qed.

Lemma header_written_outside m hdr arch tid :
  same_outside m (header_written m hdr arch tid) hdr 22.
Proof.
  unfold header_written. layout.
  repeat (eapply same_outside_trans;
    [|eapply same_outside_weaken; [apply same_outside_write_uint|lia..]]).
  apply same_outside_refl.
Qed.

Lemma header_written_grows m hdr arch tid : grows m (header_written m hdr arch tid).
Proof. intros j ?. unfold header_written, write_uint. by repeat apply write_bytes_is_Some. Qed.

(** The handle that counts for the buffer after a call: the recorded one, or
    else the argument. *)
Definition effective_handle (recorded h : Z) : Z :=
  if decide (recorded <> NULL) then recorded else h.

Definition handle_conflict (recorded h : Z) : Prop :=
  recorded <> NULL /\ h <> NULL /\ h <> recorded.

#[export] Instance handle_conflict_dec r h : Decision (handle_conflict r h).
Proof. unfold handle_conflict. apply _. Defined.

Definition write_once_flag (flags : Z) : Prop := Z.land flags BUN_HANDLE_WRITE_ONCE <> 0.

#[export] Instance write_once_flag_dec flags : Decision (write_once_flag flags).
Proof. unfold write_once_flag. apply _. Defined.

(** The state of the first 16 bytes of a buffer: counter and recorded handle. *)
Definition buffer_state (m : mem) (b : bun_buffer) (count recorded : Z) : Prop :=
  load_uint m (buffer_data b + payload_write_count) 4 = Some count /\
  load_uint m (buffer_data b + payload_handle) 8 = Some recorded.

(** The handle at [h] is null, or its flags word is readable and lies outside
    the part of the buffer the initialiser writes. *)
Definition handle_readable (m : mem) (b : bun_buffer) (h flags : Z) : Prop :=
  h <> NULL ->
  load_uint m (h + handle_flags) 8 = Some flags /\
  disjoint_ranges (buffer_data b) sizeof_buffer_payload (h + handle_flags) 8.

#[export] Instance buffer_state_dec m b count r : Decision (buffer_state m b count r).
Proof. unfold buffer_state. apply _. Defined.
#[export] Instance handle_readable_dec m b h flags : Decision (handle_readable m b h flags).
Proof. unfold handle_readable. apply _. Defined.

Definition attached_mem (m : mem) (b : bun_buffer) (recorded h : Z) : mem :=
  if decide (recorded = NULL /\ h <> NULL)
  then write_uint m (buffer_data b + payload_handle) 8 h else m.

Lemma attach_handle_spec m b h count r :
  buffer_ok m b -> buffer_state m b count r ->
  attach_handle m b h =
  if decide (handle_conflict r h) then Some None else Some (Some (attached_mem m b r h)).
Proof.
  intros [] [Hc Hr]. unfold attach_handle, attached_mem, handle_conflict, NULL in *. layout.
  rewrite Hr. simpl. repeat case_decide; try tauto; try done.
  by rewrite store_uint_mapped by solve_mapped.
Qed.

Lemma attached_state m b count r h :
  0 <= h < 2 ^ 64 -> buffer_state m b count r ->
  buffer_state (attached_mem m b r h) b count (effective_handle r h).
Proof.
  intros Hh [Hc Hr]. unfold attached_mem, effective_handle, buffer_state, NULL. layout.
  repeat case_decide; try tauto; simplify_eq; split; mem_simp; try done.
  - by mod_small.
  - rewrite Hr. f_equal. lia.
Qed.

Lemma attached_outside m b r h :
  same_outside m (attached_mem m b r h) (buffer_data b + payload_handle) 8.
Proof.
  unfold attached_mem. case_decide; [apply same_outside_write_uint | apply same_outside_refl].
Qed.

Lemma attached_buffer_ok m b r h : buffer_ok m b -> buffer_ok (attached_mem m b r h) b.
Proof. intros. unfold attached_mem, write_uint. case_decide; auto using buffer_ok_write. Qed.

(** Whether the call increments the counter, and the counter it leaves. *)
Definition counts (h flags : Z) : Prop := h <> NULL /\ write_once_flag flags.

#[export] Instance counts_dec h flags : Decision (counts h flags).
Proof. unfold counts. apply _. Defined.

Definition next_count (h flags count : Z) : Z :=
  if decide (counts h flags) then u32 (count + 1) else count.

Definition claimed_mem (m : mem) (b : bun_buffer) (h flags count : Z) : mem :=
  if decide (counts h flags)
  then write_uint m (buffer_data b + payload_write_count) 4 (u32 (count + 1)) else m.

Lemma claim_write_once_spec m b h flags count :
  buffer_ok m b -> buffer_state m b count h ->
  (h <> NULL -> load_uint m (h + handle_flags) 8 = Some flags) ->
  claim_write_once m b =
  Some (claimed_mem m b h flags count, bool_decide (~ (counts h flags /\ i32 count > 0))).
Proof.
  intros [] [Hc Hr] Hf. unfold claim_write_once, fetch_add_write_count, claimed_mem, counts,
    write_once_flag in *. layout. rewrite Hr. simpl.
  destruct (decide (h <> NULL)) as [Hn|Hn].
  - rewrite (Hf Hn). simpl. destruct (decide (Z.land flags BUN_HANDLE_WRITE_ONCE <> 0)).
    + rewrite Hc. simpl. rewrite store_uint_mapped by solve_mapped. simpl.
      rewrite (decide_True (P := _ /\ _)) by done. do 2 f_equal.
      apply bool_decide_ext. tauto.
    + rewrite (decide_False (P := _ /\ _)) by tauto. do 2 f_equal.
      symmetry. apply bool_decide_eq_true. tauto.
  - rewrite (decide_False (P := _ /\ _)) by tauto. do 2 f_equal.
    symmetry. apply bool_decide_eq_true. tauto.
Qed.

Lemma claimed_state m b h flags count :
  buffer_state m b count h ->
  buffer_state (claimed_mem m b h flags count) b (next_count h flags count) h.
Proof.
  intros [Hc Hr]. unfold claimed_mem, next_count, buffer_state. layout.
  case_decide; split; mem_simp; try done. by mod_small.
Qed.

Lemma claimed_outside m b h flags count :
  same_outside m (claimed_mem m b h flags count) (buffer_data b) 4.
Proof.
  unfold claimed_mem. layout. rewrite Z.add_0_r.
  case_decide; [apply same_outside_write_uint | apply same_outside_refl].
Qed.

Lemma claimed_buffer_ok m b h flags count :
  buffer_ok m b -> buffer_ok (claimed_mem m b h flags count) b.
Proof. intros. unfold claimed_mem, write_uint. case_decide; auto using buffer_ok_write. Qed.

Lemma writer_init_cases m b arch h tid count r flags :
  buffer_ok m b -> 0 <= h < 2 ^ 64 -> buffer_state m b count r ->
  handle_readable m b (effective_handle r h) flags ->
  bun_writer_init m b arch h tid =
  if decide (handle_conflict r h) then Some (m, None)
  else
    let e := effective_handle r h in
    let m' := claimed_mem (attached_mem m b r h) b e flags count in
    if decide (counts e flags /\ i32 count > 0) then Some (m', None)
    else Some (header_written m' (bun_buffer_payload b) arch tid, Some (initial_base b h)).
Proof.
  intros Hb Hh Hst Hfl. unfold bun_writer_init.
  rewrite decide_False by (destruct Hb; layout; lia).
  erewrite attach_handle_spec by done. case_decide as Hconf; [done|]. simpl.
  assert (Hst' := attached_state _ _ _ _ _ Hh Hst).
  assert (Hb' := attached_buffer_ok _ _ r h Hb).
  rewrite (claim_write_once_spec _ _ (effective_handle r h) flags count); [|done..|].
  - simpl. case_decide as Hlast.
    + by rewrite bool_decide_false by tauto.
    + rewrite bool_decide_true by done. rewrite init_header_written; [done|].
      apply (claimed_buffer_ok _ _ (effective_handle r h) flags count) in Hb'.
      destruct Hb'. unfold bun_buffer_payload. layout. solve_mapped.
  - intros Hn. destruct (Hfl Hn) as [<- Hd].
    eapply load_uint_same_outside; [apply attached_outside|].
    unfold disjoint_ranges in *. layout. lia.
Qed.

(** C28: initialisation of a writer. With a well-formed buffer whose counter is
    [count] and whose recorded handle is [r], [bun_writer_init] never faults,
    succeeds exactly when the handle does not conflict with the recorded one and
    the write-once counter is not used up, records the handle, counts the
    attempt, and on success leaves the documented header (with the backend field
    holding 65535) and a cursor just behind it; a refused call leaves the
    payload of the buffer untouched. *)
Theorem writer_init_spec m b arch h tid count r flags :
  buffer_ok m b -> 0 <= h < 2 ^ 64 -> buffer_state m b count r ->
  handle_readable m b (effective_handle r h) flags ->
  exists m' res,
    bun_writer_init m b arch h tid = Some (m', res) /\
    buffer_ok m' b /\
    same_outside m m' (buffer_data b) 38 /\
    (is_Some res <->
      ~ handle_conflict r h /\ ~ (counts (effective_handle r h) flags /\ i32 count > 0)) /\
    (handle_conflict r h -> m' = m) /\
    (~ handle_conflict r h ->
      buffer_state m' b (next_count (effective_handle r h) flags count) (effective_handle r h)) /\
    (res = None -> same_outside m m' (buffer_data b) payload_header) /\
    (forall w, res = Some w ->
      w = initial_base b h /\ base_ok m' w /\
      load_header m' (buffer w) =
        Some (Header BUN_HEADER_MAGIC 1 (u16 arch) sizeof_payload_header (u32 tid) (2 ^ 16 - 1))).
Proof.
  intros Hb Hh Hst Hfl. erewrite writer_init_cases by done.
  set (e := effective_handle r h) in *.
  case_decide as Hconf.
  { exists m, None. split_and!; auto using same_outside_refl; try done.
    split; [by intros [] | tauto]. }
  set (m' := claimed_mem (attached_mem m b r h) b e flags count). simpl.
  assert (buffer_ok m' b) as Hb' by (by apply claimed_buffer_ok, attached_buffer_ok).
  assert (buffer_state m' b (next_count e flags count) e) as Hst'
    by (by apply claimed_state, attached_state).
  assert (same_outside m m' (buffer_data b) payload_header) as Hout.
  { apply same_outside_trans with (attached_mem m b r h); eapply same_outside_weaken;
      [apply attached_outside | | | apply claimed_outside | |]; layout; lia. }
  case_decide as Hlast.
  - exists m', None. split_and!; auto; try done.
    + eapply same_outside_weaken; [exact Hout | lia | layout; lia].
    + split; [by intros [] | tauto].
  - exists (header_written m' (bun_buffer_payload b) arch tid), (Some (initial_base b h)).
    assert (Ho := header_written_outside m' (bun_buffer_payload b) arch tid).
    assert (buffer_ok (header_written m' (bun_buffer_payload b) arch tid) b) as Hb''
      by (eapply buffer_ok_mapped; [apply header_written_grows | done]).
    split_and!; auto; try done.
    + apply same_outside_trans with m'; eapply same_outside_weaken; [exact Hout| | |exact Ho| |];
        unfold bun_buffer_payload; layout; lia.
    + intros _. destruct Hst' as [Hc Hr]. split.
      * rewrite <- Hc. eapply load_uint_same_outside; [exact Ho|].
        unfold disjoint_ranges, bun_buffer_payload. layout. lia.
      * rewrite <- Hr. eapply load_uint_same_outside; [exact Ho|].
        unfold disjoint_ranges, bun_buffer_payload. layout. lia.
    + intros w [= <-]. split_and!; [done | by apply initial_base_ok | apply header_written_load].
Qed.

(** ** Buffers, readers and the header accessors *)

Lemma buffer_init_fresh m data sz :
  0 < data -> data + sz < 2 ^ 64 -> sizeof_buffer_payload <= sz -> mapped m data sz ->
  exists m', bun_buffer_init m data sz = Some (m', Some (BunBuffer data sz)) /\
    at_addr m' data (replicate 40 NUL) /\ same_outside m m' data sizeof_buffer_payload /\
    buffer_ok m' (BunBuffer data sz) /\ buffer_state m' (BunBuffer data sz) 0 0 /\
    load_header m' (bun_buffer_payload (BunBuffer data sz)) = Some (Header 0 0 0 0 0 0).
Proof.
  intros H0 Htop Hsz Hm. unfold bun_buffer_init, memset. rewrite decide_False by lia.
  layout. rewrite store_mapped by (rewrite zlen_replicate; solve_mapped). bind_simpl.
  eexists. split; [done|]. unfold buffer_state, load_header, bun_buffer_payload. layout.
  cbn [buffer_data]. change (Z.to_nat 40) with 40%nat.
  split_and!.
  - apply at_addr_write.
  - exact (same_outside_write m data (replicate 40 NUL)).
  - split; cbn [buffer_data buffer_size]; layout; [lia..|]. by apply mapped_write.
  - apply load_uint_zeros; lia.
  - apply load_uint_zeros; lia.
  - by do 6 (rewrite load_uint_zeros by lia; bind_simpl).
Qed.

Lemma reader_init_cases m b h magic :
  buffer_ok m b -> load_uint m (bun_buffer_payload b + header_magic) 8 = Some magic ->
  bun_reader_init m b h =
  Some (if decide (magic = BUN_HEADER_MAGIC) then Some (initial_base b h) else None).
Proof.
  intros Hb Hm. unfold bun_reader_init. rewrite (payload_size_ok _ _ Hb), Hm.
  destruct Hb. layout. rewrite decide_False by lia. simpl.
  repeat case_decide; try done. by unfold initial_base; layout; rewrite (payload_size_ok m).
Qed.

Lemma header_magic_of_load m hdr h :
  load_header m hdr = Some h -> load_uint m (hdr + header_magic) 8 = Some (h_magic h).
Proof.
  unfold load_header. intros H. bind_inv H. by injection H as <-.
Qed.

(** The header after a setter: one field replaced. *)
Lemma tid_set_header m w tid h :
  base_ok m w -> load_header m (buffer w) = Some h ->
  exists m', bun_header_tid_set m w tid = Some m' /\ grows m m' /\
    same_outside m m' (buffer w + header_tid) 4 /\
    load_header m' (buffer w) =
      Some (Header (h_magic h) (h_version h) (h_architecture h) (h_size h) (u32 tid) (h_backend h)).
Proof.
  intros Hok Hh. pose proof Hok as []. unfold bun_header_tid_set.
  unfold load_header in *. bind_inv Hh. injection Hh as <-. layout.
  rewrite store_uint_mapped by solve_mapped. eexists. split; [done|]. split_and!.
  - apply grows_write.
  - apply same_outside_write_uint.
  - mem_simp. rewrite Hx, Hx0, Hx1, Hx2, Hx4. simpl. by mod_small.
Qed.

Lemma backend_set_header m w backend h :
  base_ok m w -> load_header m (buffer w) = Some h ->
  exists m', bun_header_backend_set m w backend = Some m' /\ grows m m' /\
    same_outside m m' (buffer w + header_backend) 2 /\
    load_header m' (buffer w) =
      Some (Header (h_magic h) (h_version h) (h_architecture h) (h_size h) (h_tid h) (u16 backend)).
Proof.
  intros Hok Hh. pose proof Hok as []. unfold bun_header_backend_set.
  unfold load_header in *. bind_inv Hh. injection Hh as <-. layout.
  rewrite store_uint_mapped by solve_mapped. eexists. split; [done|]. split_and!.
  - apply grows_write.
  - apply same_outside_write_uint.
  - mem_simp. rewrite Hx, Hx0, Hx1, Hx2, Hx3. simpl. by mod_small.
Qed.

(** initialisation of a buffer. Sizes below 40 are refused without touching
    memory; otherwise exactly the first 40 bytes are zeroed, whatever the size,
    every other byte of memory keeps its value, and the buffer is well formed
    with counter and handle zero. *)
Theorem buffer_init_spec m data sz :
  0 < data -> data + sz < 2 ^ 64 -> mapped m data sz ->
  (sz < sizeof_buffer_payload -> bun_buffer_init m data sz = Some (m, None)) /\
  (sizeof_buffer_payload <= sz ->
   exists m', bun_buffer_init m data sz = Some (m', Some (BunBuffer data sz)) /\
     at_addr m' data (replicate 40 NUL) /\
     (forall j, ~ (data <= j < data + 40) -> m' !! j = m !! j) /\
     buffer_ok m' (BunBuffer data sz) /\ buffer_state m' (BunBuffer data sz) 0 0 /\
     bun_buffer_payload_size (BunBuffer data sz) = sz - 16).
Proof.
  intros H0 Htop Hm. split; intros Hsz.
  - unfold bun_buffer_init. by rewrite decide_True.
  - destruct (buffer_init_fresh m data sz) as (m' & Hi & Hz & Ho & Hb & Hs & _); [done..|].
    exists m'. split_and!; auto; try apply Hs. by rewrite (payload_size_ok m').
Qed.

(** What a successful [bun_writer_init] needs of its arguments. *)
Record init_allowed (m : mem) (b : bun_buffer) (h count r flags : Z) : Prop := {
  ia_buffer : buffer_ok m b;
  ia_handle : 0 <= h < 2 ^ 64;
  ia_state : buffer_state m b count r;
  ia_flags : handle_readable m b (effective_handle r h) flags;
  ia_no_conflict : ~ handle_conflict r h;
  ia_not_used : ~ (counts (effective_handle r h) flags /\ i32 count > 0)
}.

#[export] Instance init_allowed_dec m b h count r flags :
  Decision (init_allowed m b h count r flags).
Proof.
  refine (cast_if (decide (buffer_ok m b /\ 0 <= h < 2 ^ 64 /\ buffer_state m b count r /\
    handle_readable m b (effective_handle r h) flags /\ ~ handle_conflict r h /\
    ~ (counts (effective_handle r h) flags /\ i32 count > 0))));
    [constructor; tauto | intros []; tauto].
Defined.

Lemma writer_init_success m b arch h tid count r flags :
  init_allowed m b h count r flags ->
  exists m', bun_writer_init m b arch h tid = Some (m', Some (initial_base b h)) /\
    buffer_ok m' b /\ base_ok m' (initial_base b h) /\
    load_header m' (bun_buffer_payload b) =
      Some (Header BUN_HEADER_MAGIC 1 (u16 arch) sizeof_payload_header (u32 tid) (2 ^ 16 - 1)).
Proof.
  intros []. erewrite writer_init_cases by done. rewrite decide_False by done. cbv zeta.
  rewrite decide_False by done. eexists. split; [done|].
  match goal with |- buffer_ok ?m' _ /\ _ => assert (buffer_ok m' b) as Hb end.
  { eapply buffer_ok_mapped; [apply header_written_grows|].
    by apply claimed_buffer_ok, attached_buffer_ok. }
  split_and!; [done | by apply initial_base_ok | apply header_written_load].
Qed.

Lemma header_fields m hdr h :
  load_header m hdr = Some h ->
  load_uint m (hdr + header_size) 4 = Some (h_size h) /\
  load_uint m (hdr + header_tid) 4 = Some (h_tid h) /\
  load_uint m (hdr + header_backend) 2 = Some (h_backend h).
Proof. unfold load_header. intros H. bind_inv H. by injection H as <-. Qed.

(** what is stored in the header through a writer is read back through a
    reader. After a successful [bun_writer_init], a reader on the same buffer is
    accepted whatever handle it is given, and finds the thread id; the backend
    [BUN_BACKEND_NONE] stored there reads back as 65535. After
    [bun_header_tid_set] and [bun_header_backend_set], the reader finds both
    values modulo the width of their fields. *)
Theorem header_roundtrip m b arch h tid0 count r flags tid backend h' :
  init_allowed m b h count r flags ->
  exists m1 w m2 m3 rd,
    bun_writer_init m b arch h tid0 = Some (m1, Some w) /\
    bun_reader_init m1 b h' = Some (Some rd) /\
    bun_header_tid_get m1 rd = Some (tid0 `mod` 2 ^ 32) /\
    bun_header_backend_get m1 rd = Some 65535 /\
    bun_header_tid_set m1 w tid = Some m2 /\
    bun_header_backend_set m2 w backend = Some m3 /\
    bun_reader_init m3 b h' = Some (Some rd) /\
    bun_header_tid_get m3 rd = Some (tid `mod` 2 ^ 32) /\
    bun_header_backend_get m3 rd = Some (backend `mod` 2 ^ 16).
Proof.
  intros (m1 & Hw & Hb1 & Hok1 & Hh1)%(writer_init_success _ _ arch _ tid0).
  destruct (tid_set_header m1 (initial_base b h) tid _ Hok1 Hh1) as (m2 & Ht & Hg2 & _ & Hh2).
  assert (base_ok m2 (initial_base b h)) as Hok2 by (by eapply base_ok_mapped).
  destruct (backend_set_header m2 _ backend _ Hok2 Hh2) as (m3 & Hbk & Hg3 & _ & Hh3).
  assert (buffer_ok m3 b) as Hb3 by eauto using buffer_ok_mapped.
  destruct (header_fields _ _ _ Hh1) as (_ & Ht1 & Hk1).
  destruct (header_fields _ _ _ Hh3) as (_ & Ht3 & Hk3).
  exists m1, (initial_base b h), m2, m3, (initial_base b h').
  split_and!; try done.
  - by rewrite (reader_init_cases _ _ _ _ Hb1 (header_magic_of_load _ _ _ Hh1)), decide_True.
  - by rewrite (reader_init_cases _ _ _ _ Hb3 (header_magic_of_load _ _ _ Hh3)), decide_True.
Qed.

(** ** A sample: a fresh buffer and a write-once handle *)

Definition sample_buffer : bun_buffer := BunBuffer 0x1000 128.
Definition sample_handle : list byte := replicate 40 NUL ++ le_split 8 BUN_HANDLE_WRITE_ONCE ++ replicate 8 NUL.
Definition sample_mem : mem := mem_of [(0x1000, replicate 128 NUL); (0x2000, sample_handle)].

Lemma writer_init_spec_witness :
  init_allowed sample_mem sample_buffer 0x2000 0 0 1 /\
  exists m' w, bun_writer_init sample_mem sample_buffer 2 0x2000 77 = Some (m', Some w) /\
    buffer_state m' sample_buffer 1 0x2000 /\
    load_header m' (buffer w) = Some (Header BUN_HEADER_MAGIC 1 2 24 77 65535).
Proof.
  split; [by_compute|].
  destruct (writer_init_spec sample_mem sample_buffer 2 0x2000 77 0 0 1)
    as (m' & res & H & _ & _ & [_ Hs] & _ & Hst & _ & Hw); [by_compute..|].
  destruct Hs as [w ->]; [by_compute|]. destruct (Hw w eq_refl) as (_ & _ & Hh).
  exists m', w. split_and!; [exact H | | exact Hh].
  exact (Hst ltac:(by_compute)).
Defined.

Lemma buffer_init_spec_witness :
  mapped sample_mem 0x1000 128 /\
  exists m', bun_buffer_init sample_mem 0x1000 128 = Some (m', Some sample_buffer) /\
    at_addr m' 0x1000 (replicate 40 NUL) /\ buffer_ok m' sample_buffer.
Proof.
  split; [by_compute|].
  destruct (buffer_init_spec sample_mem 0x1000 128) as [_ H]; [by_compute..|].
  destruct H as (m' & Hi & Hz & _ & Hb & _); [by_compute|].
  exists m'. split_and!; assumption.
Defined.

Lemma header_roundtrip_witness :
  init_allowed sample_mem sample_buffer 0x2000 0 0 1 /\
  exists m1 w rd, bun_writer_init sample_mem sample_buffer 2 0x2000 77 = Some (m1, Some w) /\
    bun_reader_init m1 sample_buffer 0 = Some (Some rd) /\
    bun_header_tid_get m1 rd = Some 77 /\ bun_header_backend_get m1 rd = Some 65535.
Proof.
  split; [by_compute|].
  destruct (header_roundtrip sample_mem sample_buffer 2 0x2000 77 0 0 1 5 1 0)
    as (m1 & w & m2 & m3 & rd & H1 & H2 & H3 & H4 & _); [by_compute|].
  exists m1, w, rd. split_and!; assumption.
Defined.
