(* ===== verification/Frame.v ===== *)
(** * Frames (src/bun_stream.c)

    Serialisation and deserialisation of one frame and the register buffer of a
    frame. *)

From S2P Require Import Prelude Memory Stream.

(** ** [struct bun_frame] (include/bun/stream.h)

    The string and register members are addresses. *)

Record bun_frame := Frame {
  addr : Z;
  symbol : Z;
  symbol_length : Z;
  filename : Z;
  filename_length : Z;
  line_no : Z;
  offset : Z;
  register_count : Z;
  register_buffer_size : Z;
  register_data : Z
}.

Definition set_addr f v := Frame v (symbol f) (symbol_length f) (filename f)
  (filename_length f) (line_no f) (offset f) (register_count f) (register_buffer_size f) (register_data f).
Definition set_symbol f v := Frame (addr f) v (symbol_length f) (filename f)
  (filename_length f) (line_no f) (offset f) (register_count f) (register_buffer_size f) (register_data f).
Definition set_filename f v := Frame (addr f) (symbol f) (symbol_length f) v
  (filename_length f) (line_no f) (offset f) (register_count f) (register_buffer_size f) (register_data f).
Definition set_line_no f v := Frame (addr f) (symbol f) (symbol_length f) (filename f)
  (filename_length f) v (offset f) (register_count f) (register_buffer_size f) (register_data f).
Definition set_offset f v := Frame (addr f) (symbol f) (symbol_length f) (filename f)
  (filename_length f) (line_no f) v (register_count f) (register_buffer_size f) (register_data f).
Definition set_register_count f v := Frame (addr f) (symbol f) (symbol_length f) (filename f)
  (filename_length f) (line_no f) (offset f) v (register_buffer_size f) (register_data f).
Definition set_register_buffer_size f v := Frame (addr f) (symbol f) (symbol_length f) (filename f)
  (filename_length f) (line_no f) (offset f) (register_count f) v (register_data f).
Definition set_register_data f v := Frame (addr f) (symbol f) (symbol_length f) (filename f)
  (filename_length f) (line_no f) (offset f) (register_count f) (register_buffer_size f) v.

(** The frame after [memset(&frame, 0, sizeof(frame))]. *)
Definition zero_frame : bun_frame := Frame 0 NULL 0 NULL 0 0 0 0 0 NULL.

(** ** Writing a frame *)

(** Lines 158-168: the length of a string member. *)
Definition string_length (m : mem) (len str : Z) : option Z :=
  if decide (len = 0 /\ str <> NULL) then strlen m str else Some len.

(** Lines 171-173. *)
Definition would_write (symbol_len filename_len register_count : Z) : Z :=
  u64 (symbol_len + filename_len + 2 + 8 + 8 + 8 + register_count * REGISTER_SIZE).

(** [strcpy(writer->data.cursor, str ? str : "")] and the cursor update. *)
Definition write_string (m : mem) (w : bun_writer) (str len : Z) : option (mem * bun_writer) :=
  m ← (if decide (str <> NULL) then strcpy m (cursor w) str
       else strcpy_bytes m (cursor w) []);
  Some (m, set_cursor w (cursor w + u64 (len + 1))).

(** Lines 190-194. *)
Definition write_registers (m : mem) (w : bun_writer) (f : bun_frame) : option (mem * bun_writer) :=
  if decide (register_count f > 0) then
    let n := u64 (register_count f * REGISTER_SIZE) in
    m ← memcpy m (cursor w) (register_data f) (Z.to_nat n);
    Some (m, set_cursor w (cursor w + n))
  else Some (m, w).

(** Line 196: [header->size += would_write]. *)
Definition add_header_size (m : mem) (w : bun_writer) (n : Z) : option mem :=
  old ← load_uint m (buffer w + header_size) 4;
  store_uint m (buffer w + header_size) 4 (u32 (old + n)).

Definition bun_frame_write (m : mem) (w : bun_writer) (f : bun_frame)
  : option (mem * bun_writer * Z) :=
  let buffer_available := u64 (size w - (cursor w - buffer w)) in
  symbol_len ← string_length m (symbol_length f) (symbol f);
  filename_len ← string_length m (filename_length f) (filename f);
  let total := would_write symbol_len filename_len (register_count f) in
  if decide (total > buffer_available) then Some (m, w, 0)
  else
    '(m, w) ← write_le_64 m w (addr f);
    '(m, w) ← write_le_64 m w (line_no f);
    '(m, w) ← write_le_64 m w (offset f);
    '(m, w) ← write_string m w (symbol f) symbol_len;
    '(m, w) ← write_string m w (filename f) filename_len;
    '(m, w) ← write_le_16 m w (register_count f);
    '(m, w) ← write_registers m w f;
    m ← add_header_size m w total;
    Some (m, w, total).

(** ** Reading a frame *)

(** The error label: the cursor returns to where the call found it. *)
Definition read_error (initial : Z) (r : bun_reader) (f : bun_frame)
  : option (bun_reader * bun_frame * bool) :=
  Some (set_cursor r initial, f, false).

(** Lines 238-250: the register block, at the end of the record. *)
Definition read_registers (initial : Z) (r : bun_reader) (f : bun_frame)
  : option (bun_reader * bun_frame * bool) :=
  let n := u64 (register_count f * REGISTER_SIZE) in
  if is_safe_access r n then
    if decide (register_count f > 0) then
      let f := set_register_data f (cursor r) in
      let f := set_register_buffer_size f n in
      Some (set_cursor r (cursor r + register_buffer_size f), f, true)
    else Some (r, f, true)
  else read_error initial (set_overflow r) f.

Definition bun_frame_read (m : mem) (r : bun_reader) (f : bun_frame)
  : option (bun_reader * bun_frame * bool) :=
  let initial := cursor r in
  let off := u64 (cursor r - buffer r) in
  hsize ← load_uint m (buffer r + header_size) 4;
  let buffer_available := i64 (u64 (hsize - off)) in
  if decide (u64 (size r - off) <= 0) then Some (r, f, false)
  else if decide (buffer_available <= 0) then Some (r, f, false)
  else
    '(v, r) ← read_le_64 m r; let f := set_addr f v in
    '(v, r) ← read_le_64 m r; let f := set_line_no f v in
    '(v, r) ← read_le_64 m r; let f := set_offset f v in
    if overflow r then read_error initial r f else
    '(len, r) ← safe_strlen m r;
    if overflow r then read_error initial r f else
    let f := set_symbol f (cursor r) in
    let r := set_cursor r (cursor r + (len + 1)) in
    '(len, r) ← safe_strlen m r;
    if overflow r then read_error initial r f else
    let f := set_filename f (cursor r) in
    let r := set_cursor r (cursor r + (len + 1)) in
    '(v, r) ← read_le_16 m r; let f := set_register_count f v in
    if overflow r then read_error initial r f else
    read_registers initial r f.

(** ** The register buffer of a frame *)

(** [reg] is the value of the [enum bun_register] argument, [value] a
    [uintmax_t]; on a little-endian host [htole16] and [htole64] are the
    identity and [memcpy] copies the low bytes first. *)
Definition bun_frame_register_append (m : mem) (f : bun_frame) (reg value : Z)
  : option (mem * bun_frame * bool) :=
  let max_registers :=
    if decide (register_buffer_size f > 0)
    then register_buffer_size f `div` REGISTER_SIZE else 0 in
  if decide (register_count f >= max_registers) then Some (m, f, false)
  else
    let p := register_data f + u64 (REGISTER_SIZE * register_count f) in
    m ← store_uint m p 2 (u16 reg);
    m ← store_uint m (p + 2) 8 (u64 value);
    Some (m, set_register_count f (u64 (register_count f + 1)), true).

(** The result is the register and the value stored through the two output
    pointers, [None] inside when they are left alone. *)
Definition bun_frame_register_get (m : mem) (f : bun_frame) (index : Z)
  : option (option (Z * Z)) :=
  if decide (index >= register_count f) then Some None
  else
    let p := register_data f + u64 (REGISTER_SIZE * index) in
    reg ← load_uint m p 2;
    value ← load_uint m (p + 2) 8;
    Some (Some (reg, value)).

(** ** Records: the abstract content of a frame and its serialised form *)

Record frame_data := Data {
  d_addr : Z;
  d_line : Z;
  d_offset : Z;
  d_symbol : list byte;
  d_filename : list byte;
  d_registers : list (Z * Z)
}.

Definition encode_register (rv : Z * Z) : list byte := le_split 2 rv.1 ++ le_split 8 rv.2.
Definition encode_registers (regs : list (Z * Z)) : list byte := regs ≫= encode_register.

Definition encode (d : frame_data) : list byte :=
  le_split 8 (d_addr d) ++ le_split 8 (d_line d) ++ le_split 8 (d_offset d) ++
  (d_symbol d ++ [NUL]) ++ (d_filename d ++ [NUL]) ++
  le_split 2 (zlen (d_registers d)) ++ encode_registers (d_registers d).

(** Bytes a record occupies. *)
Definition record_size (d : frame_data) : Z :=
  28 + zlen (d_symbol d) + zlen (d_filename d) + REGISTER_SIZE * zlen (d_registers d).

Definition register_ok (rv : Z * Z) : Prop := 0 <= rv.1 < 2 ^ 16 /\ 0 <= rv.2 < 2 ^ 64.

Record data_ok (d : frame_data) : Prop := {
  dok_addr : 0 <= d_addr d < 2 ^ 64;
  dok_line : 0 <= d_line d < 2 ^ 64;
  dok_offset : 0 <= d_offset d < 2 ^ 64;
  dok_symbol : no_nul (d_symbol d);
  dok_filename : no_nul (d_filename d);
  dok_registers : Forall register_ok (d_registers d);
  dok_count : zlen (d_registers d) < 2 ^ 16
}.

#[export] Instance register_ok_dec rv : Decision (register_ok rv).
Proof. unfold register_ok. apply _. Defined.

#[export] Instance data_ok_dec d : Decision (data_ok d).
Proof.
  refine (cast_if (decide (0 <= d_addr d < 2 ^ 64 /\ 0 <= d_line d < 2 ^ 64 /\
    0 <= d_offset d < 2 ^ 64 /\ no_nul (d_symbol d) /\ no_nul (d_filename d) /\
    Forall register_ok (d_registers d) /\ zlen (d_registers d) < 2 ^ 16)));
    [constructor; tauto | intros []; tauto].
Defined.

Lemma encode_registers_cons rv regs :
  encode_registers (rv :: regs) = encode_register rv ++ encode_registers regs.
Proof. done. Qed.

Lemma encode_registers_app regs regs' :
  encode_registers (regs ++ regs') = encode_registers regs ++ encode_registers regs'.
Proof. apply bind_app. Qed.

Lemma zlen_encode_register rv : zlen (encode_register rv) = REGISTER_SIZE.
Proof. unfold encode_register. zlen_norm. done. Qed.

Lemma zlen_encode_registers regs :
  zlen (encode_registers regs) = REGISTER_SIZE * zlen regs.
Proof.
  induction regs as [|rv regs IH]; [done|].
  rewrite encode_registers_cons, zlen_app, zlen_cons, zlen_encode_register, IH. lia.
Qed.
#[export] Hint Rewrite zlen_encode_register zlen_encode_registers : zlen.

Lemma zlen_encode d : zlen (encode d) = record_size d.
Proof. unfold encode, record_size. zlen_norm. lia. Qed.
#[export] Hint Rewrite zlen_encode : zlen.

Lemma record_size_pos d : 28 <= record_size d.
Proof. unfold record_size, REGISTER_SIZE. zlia. Qed.

(** Any block of [10 * n] bytes is the encoding of [n] registers. *)
Lemma decode_registers n bs :
  zlen bs = REGISTER_SIZE * Z.of_nat n ->
  exists regs, zlen regs = Z.of_nat n /\ Forall register_ok regs /\ encode_registers regs = bs.
Proof.
  unfold REGISTER_SIZE. revert bs. induction n as [|n IH]; intros bs Hl.
  { exists []. split_and!; [done | constructor |]. destruct bs; [done|]. zlia. }
  destruct (IH (drop 10 bs)) as (regs & Hn & Hok & He).
  { unfold zlen in *. rewrite length_drop. lia. }
  assert (length (take 2 bs) = 2%nat) as H2 by (unfold zlen in *; rewrite length_take; lia).
  assert (length (take 8 (drop 2 bs)) = 8%nat) as H8
    by (unfold zlen in *; rewrite length_take, length_drop; lia).
  exists ((le_combine (take 2 bs), le_combine (take 8 (drop 2 bs))) :: regs).
  split_and!.
  - zlia.
  - constructor; [|done]. pose proof (le_combine_bound (take 2 bs)) as B2.
    pose proof (le_combine_bound (take 8 (drop 2 bs))) as B8.
    rewrite H2 in B2. rewrite H8 in B8. split; [exact B2 | exact B8].
  - rewrite encode_registers_cons, He. unfold encode_register. cbn [fst snd].
    rewrite (split_le_combine' _ _ H2), (split_le_combine' _ _ H8).
    replace (drop 10 bs) with (drop 8 (drop 2 bs)) by (by rewrite drop_drop).
    by rewrite <- app_assoc, !take_drop.
Qed.

Lemma le_split_u16 v : le_split 2 (u16 v) = le_split 2 v.
Proof. symmetry. apply (le_split_mod v 2). Qed.
Lemma le_split_u64 v : le_split 8 (u64 v) = le_split 8 v.
Proof. symmetry. apply (le_split_mod v 8). Qed.

(** ** The C frame that represents a record *)

(** A string member: null, or the address of the string; the length member is
    zero or the length of the string. *)
Definition string_repr (m : mem) (str len : Z) (s : list byte) : Prop :=
  if decide (str = NULL) then s = [] /\ len = 0
  else cstring m str = Some s /\ (len = 0 \/ len = zlen s).

Record frame_repr (m : mem) (f : bun_frame) (d : frame_data) : Prop := {
  fr_addr : addr f = d_addr d;
  fr_line : line_no f = d_line d;
  fr_offset : offset f = d_offset d;
  fr_symbol : string_repr m (symbol f) (symbol_length f) (d_symbol d);
  fr_filename : string_repr m (filename f) (filename_length f) (d_filename d);
  fr_count : register_count f = zlen (d_registers d);
  fr_registers : at_addr m (register_data f) (encode_registers (d_registers d))
}.

(** The bytes the frame refers to lie outside [a, a + n). *)
Record frame_outside (a n : Z) (f : bun_frame) (d : frame_data) : Prop := {
  fo_symbol : symbol f <> NULL -> disjoint_ranges a n (symbol f) (zlen (d_symbol d) + 1);
  fo_filename : filename f <> NULL -> disjoint_ranges a n (filename f) (zlen (d_filename d) + 1);
  fo_registers :
    disjoint_ranges a n (register_data f) (REGISTER_SIZE * zlen (d_registers d))
}.

#[export] Instance string_repr_dec m str len s : Decision (string_repr m str len s).
Proof. unfold string_repr. case_decide; apply _. Defined.
#[export] Instance frame_repr_dec m f d : Decision (frame_repr m f d).
Proof.
  refine (cast_if (decide (addr f = d_addr d /\ line_no f = d_line d /\ offset f = d_offset d /\
    string_repr m (symbol f) (symbol_length f) (d_symbol d) /\
    string_repr m (filename f) (filename_length f) (d_filename d) /\
    register_count f = zlen (d_registers d) /\
    at_addr m (register_data f) (encode_registers (d_registers d)))));
    [constructor; tauto | intros []; tauto].
Defined.
#[export] Instance frame_outside_dec a n f d : Decision (frame_outside a n f d).
Proof.
  refine (cast_if (decide (
    (symbol f <> NULL -> disjoint_ranges a n (symbol f) (zlen (d_symbol d) + 1)) /\
    (filename f <> NULL -> disjoint_ranges a n (filename f) (zlen (d_filename d) + 1)) /\
    disjoint_ranges a n (register_data f) (REGISTER_SIZE * zlen (d_registers d)))));
    [constructor; tauto | intros []; tauto].
Defined.

Lemma string_repr_outside m m' a n str len s :
  same_outside m m' a n ->
  (str <> NULL -> disjoint_ranges a n str (zlen s + 1)) ->
  string_repr m str len s -> string_repr m' str len s.
Proof.
  unfold string_repr. intros Ho Hd. case_decide; [done|]. intros [Hs Hl]. split; [|done].
  eapply at_addr_string_disjoint; [exact Ho | by apply Hd | done].
Qed.

(** A frame keeps its meaning while memory changes away from its strings and
    registers. *)
Lemma frame_repr_outside m m' a n f d :
  same_outside m m' a n -> frame_outside a n f d -> frame_repr m f d -> frame_repr m' f d.
Proof.
  intros Ho [] []. split; eauto using string_repr_outside.
  eapply at_addr_same_outside; [exact Ho | | done]. by rewrite zlen_encode_registers.
Qed.

Lemma frame_outside_weaken a n b k f d :
  frame_outside a n f d -> a <= b -> b + k <= a + n -> 0 <= k -> frame_outside b k f d.
Proof.
  intros [H1 H2 H3] ???. split; [intros Hn; specialize (H1 Hn) | intros Hn; specialize (H2 Hn) |];
    unfold disjoint_ranges in *; lia.
Qed.

(** ** A sample: a frame of [main] with two registers, and a writer for it *)

Definition sample_data : frame_data :=
  Data 0x401136 12 4 (bytes_of "main") (bytes_of "main.c") [(16, 0x401136); (7, 0x7ffe0010)].

Definition sample_frame : bun_frame := Frame 0x401136 0x3000 0 0x3010 6 12 4 2 40 0x3020.

(** The memory of a frame at [0x3000]: its symbol, file name and registers. *)
Definition frame_blocks (d : frame_data) : list (Z * list byte) :=
  [(0x3000, d_symbol d ++ [NUL]); (0x3010, d_filename d ++ [NUL]);
   (0x3020, encode_registers (d_registers d) ++ replicate 20 NUL)].

(** A buffer holding a stream: the header with size field [hs], then [content]. *)
Definition stream_buffer (hs : Z) (content : list byte) : list byte :=
  replicate 16 NUL ++ le_split 8 BUN_HEADER_MAGIC ++ le_split 2 1 ++ le_split 2 2 ++
  le_split 4 hs ++ le_split 4 77 ++ le_split 4 0 ++ content.

(** A fresh stream at [0x1000] with [room] bytes behind the header and three more
    mapped behind the buffer, next to a frame. *)
Definition write_mem (room : nat) (d : frame_data) : mem :=
  mem_of ((0x1000, stream_buffer sizeof_payload_header (replicate (room + 3) NUL)) ::
    frame_blocks d).

(** A stream at [0x1000] that holds the serialised records, counted as written. *)
Definition read_mem (hs : Z) (ds : list frame_data) : mem :=
  mem_of [(0x1000, stream_buffer hs (ds ≫= encode))].

(** The writer or reader of that stream, [room] bytes behind the header. *)
Definition sample_base (room : Z) : bun_writer_reader_base := Base 0x1010 0x1028 (24 + room) 0 false.
