(* ===== verification/FrameWrite.v ===== *)
(** * Writing frames: what [bun_frame_write] does to memory

    The serialiser appends one record after another at the cursor. [emitted]
    is the state after appending some bytes; every step of the serialiser is a
    lemma about it, and the theorems compose them. *)

From S2P Require Import Prelude Memory Stream Frame.

(** The memory and the writer after appending [p] at the cursor of [w]. *)
Definition emitted (m : mem) (w : bun_writer) (p : list byte) : mem * bun_writer :=
  (write_bytes m (cursor w) p, set_cursor w (cursor w + zlen p)).

(** The number [bun_frame_write] computes and returns for a record: two less
    than the record occupies, since the two bytes of the register count and the
    eight of the offset are counted as one eight-byte [register_count]. *)
Definition counted (d : frame_data) : Z := record_size d - 2.

(** Bytes between the cursor and the end of the payload. *)
Definition available (w : bun_writer) : Z := buffer w + size w - cursor w.

(** ** The steps of the serialiser *)

Section Emit.
Context (m : mem) (w : bun_writer) (f : bun_frame) (d : frame_data).
Hypothesis Hok : base_ok m w.
Hypothesis Hno : overflow w = false.
Hypothesis Hrepr : frame_repr m f d.
Hypothesis Hdok : data_ok d.
(** The record, even if it runs over the end of the payload, is in mapped
    memory and does not overlap what it is copied from. *)
Hypothesis Hmap : mapped m (cursor w) (record_size d).
Hypothesis Hout : frame_outside (cursor w) (record_size d) f d.

Lemma emitted_app p q :
  emitted m w (p ++ q) =
  (write_bytes (write_bytes m (cursor w) p) (cursor w + zlen p) q,
   set_cursor w (cursor w + zlen p + zlen q)).
Proof. unfold emitted. rewrite write_bytes_app, zlen_app. do 2 f_equal. lia. Qed.

Lemma emitted_ok p :
  zlen p <= available w -> base_ok (emitted m w p).1 (emitted m w p).2.
Proof.
  intros Hp. pose proof (zlen_nonneg p). unfold available in *.
  apply base_ok_set_cursor; [|destruct Hok; lia].
  eapply base_ok_mapped; [apply grows_write | done].
Qed.

Lemma emit_le n v p :
  zlen p + Z.of_nat n <= available w ->
  write_le n (emitted m w p).1 (emitted m w p).2 v = Some (emitted m w (p ++ le_split n v)).
Proof.
  intros Hp. rewrite write_le_hit, emitted_app, zlen_le_split; [done | | done |].
  - apply emitted_ok. lia.
  - unfold available in *. cbn. lia.
Qed.

Lemma emit_le_64 v p :
  zlen p + 8 <= available w ->
  write_le_64 (emitted m w p).1 (emitted m w p).2 v = Some (emitted m w (p ++ le_split 8 v)).
Proof. intros. unfold write_le_64. by rewrite emit_le, le_split_u64. Qed.

Lemma emit_le_16 v p :
  zlen p + 2 <= available w ->
  write_le_16 (emitted m w p).1 (emitted m w p).2 v = Some (emitted m w (p ++ le_split 2 v)).
Proof. intros. unfold write_le_16. by rewrite emit_le, le_split_u16. Qed.

(** Changing the record's own range does not change what it is copied from. *)
Lemma emitted_outside p :
  zlen p <= record_size d -> same_outside m (emitted m w p).1 (cursor w) (record_size d).
Proof.
  intros. eapply same_outside_weaken; [apply same_outside_write | lia..].
Qed.

Lemma emit_string str len s p :
  string_repr m str len s -> no_nul s ->
  (str <> NULL -> disjoint_ranges (cursor w) (record_size d) str (zlen s + 1)) ->
  zlen p + zlen s + 1 <= record_size d -> zlen s + 1 < 2 ^ 64 ->
  write_string (emitted m w p).1 (emitted m w p).2 str (zlen s) =
  Some (emitted m w (p ++ (s ++ [NUL]))).
Proof.
  intros Hs Hnn Hd Hlen Hsz. pose proof (zlen_nonneg p). pose proof (zlen_nonneg s).
  apply (string_repr_outside _ (emitted m w p).1 (cursor w) (record_size d)) in Hs;
    [|apply emitted_outside; lia | done].
  unfold write_string, string_repr in *. rewrite u64_small, emitted_app by lia.
  assert (mapped (emitted m w p).1 (cursor w + zlen p) (zlen (s ++ [NUL]))) as Hm.
  { apply mapped_write. apply (mapped_sub _ _ _ _ _ Hmap); zlia. }
  destruct (decide (str = NULL)) as [->|Hn].
  - destruct Hs as [-> _]. rewrite decide_False by (intros []; done).
    unfold strcpy_bytes. rewrite store_mapped by exact Hm. bind_simpl. done.
  - destruct Hs as [Hs _]. specialize (Hd Hn). rewrite decide_True by done.
    unfold strcpy, strcpy_bytes. rewrite Hs. bind_simpl.
    rewrite decide_True by (unfold disjoint_ranges in *; cbn; lia).
    rewrite store_mapped by exact Hm. bind_simpl. do 3 f_equal. zlen_norm. done.
Qed.

Lemma emit_registers p :
  zlen p + REGISTER_SIZE * zlen (d_registers d) = record_size d ->
  write_registers (emitted m w p).1 (emitted m w p).2 f =
  Some (emitted m w (p ++ encode_registers (d_registers d))).
Proof.
  intros Hp. pose proof (zlen_nonneg p). destruct Hrepr as [_ _ _ _ _ Hc Hr].
  pose proof (dok_count _ Hdok) as Hmax. unfold write_registers. rewrite Hc.
  unfold REGISTER_SIZE in *. rewrite u64_small by zlia.
  case_decide as Hpos.
  - unfold memcpy. replace (Z.to_nat (zlen (d_registers d) * (2 + 8)))
      with (length (encode_registers (d_registers d))).
    2: { pose proof (zlen_encode_registers (d_registers d)) as E.
         unfold zlen, REGISTER_SIZE in *. lia. }
    rewrite (load_same_outside _ _ (cursor w) (record_size d)
      _ _ (emitted_outside p ltac:(zlia))).
    2: { destruct Hout as [_ _ Ho]. fold (zlen (encode_registers (d_registers d))).
         by rewrite zlen_encode_registers. }
    rewrite Hr. bind_simpl. fold (zlen (encode_registers (d_registers d))).
    rewrite zlen_encode_registers. destruct Hout as [_ _ Ho]. unfold REGISTER_SIZE in *.
    rewrite decide_True by (unfold disjoint_ranges in *; cbn; lia).
    rewrite store_mapped.
    2: { apply mapped_write. apply (mapped_sub _ _ _ _ _ Hmap);
           rewrite ?zlen_encode_registers; unfold REGISTER_SIZE; cbn; zlia. }
    bind_simpl. rewrite emitted_app, zlen_encode_registers. unfold REGISTER_SIZE.
    do 3 f_equal. cbn. lia.
  - assert (d_registers d = []) as ->.
    { destruct (d_registers d); [done|]. zlia. }
    change (encode_registers []) with (@nil byte). by rewrite app_nil_r.
Qed.
End Emit.

(** ** The whole serialiser *)

Lemma emitted_nil m w : emitted m w [] = (m, w).
Proof. unfold emitted. rewrite Z.add_0_r. by destruct w. Qed.

Lemma string_length_repr m str len s :
  string_repr m str len s -> string_length m len str = Some (zlen s).
Proof.
  unfold string_repr, string_length, NULL. case_decide as Hn.
  - intros [-> ->]. by rewrite decide_False by tauto.
  - intros [Hs Hl]. case_decide as Hc.
    + unfold strlen. by rewrite Hs.
    + f_equal. destruct Hl; [tauto | done].
Qed.

Lemma available_spec m w :
  base_ok m w -> u64 (size w - (cursor w - buffer w)) = available w.
Proof.
  intros []. unfold available, sizeof_payload_header in *. rewrite u64_small; lia.
Qed.

Lemma would_write_counted d :
  counted d < 2 ^ 64 ->
  would_write (zlen (d_symbol d)) (zlen (d_filename d)) (zlen (d_registers d)) = counted d.
Proof.
  intros. unfold would_write, counted, record_size, REGISTER_SIZE in *.
  rewrite u64_small; zlia.
Qed.

(** A record that does not fit by the serialiser's own count is refused, and
    nothing changes. *)
Lemma frame_write_refuse m w f d :
  base_ok m w -> frame_repr m f d -> counted d < 2 ^ 64 -> counted d > available w ->
  bun_frame_write m w f = Some (m, w, 0).
Proof.
  intros Hok [_ _ _ Hsym Hfile Hn _] Hs Hc. unfold bun_frame_write.
  rewrite (string_length_repr _ _ _ _ Hsym), (string_length_repr _ _ _ _ Hfile). bind_simpl.
  rewrite Hn, would_write_counted, (available_spec m) by done.
  by rewrite decide_True.
Qed.

(** Replace a step by its effect and enter the continuation. *)
Ltac emit_step L :=
  erewrite L by (try eassumption; unfold REGISTER_SIZE; zlia); bind_simpl;
  match goal with |- context [let '(_, _) := ?p in _] => rewrite (surjective_pairing p) end;
  cbv beta iota; rewrite <- ?app_assoc.

(** The effect of the serialiser when its own count fits: it appends the record
    and adds its count to the size in the header. The end of the record may be
    past the end of the payload, if there are registers. *)
Lemma frame_write_core m w f d hs :
  base_ok m w -> overflow w = false -> frame_repr m f d -> data_ok d ->
  mapped m (cursor w) (record_size d) -> frame_outside (cursor w) (record_size d) f d ->
  record_size d < 2 ^ 64 -> counted d <= available w ->
  d_registers d <> [] \/ record_size d <= available w ->
  load_uint m (buffer w + header_size) 4 = Some hs ->
  bun_frame_write m w f =
  Some (write_uint (write_bytes m (cursor w) (encode d)) (buffer w + header_size) 4
          (u32 (hs + counted d)),
        set_cursor w (cursor w + record_size d), counted d).
Proof.
  intros Hok Hno Hr Hd Hm Hout Hsz Hfit Hend Hhs.
  assert (REGISTER_SIZE <= REGISTER_SIZE * zlen (d_registers d) \/ record_size d <= available w)
    as Hroom.
  { unfold REGISTER_SIZE. destruct Hend as [Hne|]; [left | by right].
    destruct (d_registers d); [done | zlia]. }
  assert (Hrs : record_size d = 28 + zlen (d_symbol d) + zlen (d_filename d) +
    REGISTER_SIZE * zlen (d_registers d)) by done.
  pose proof (zlen_nonneg (d_symbol d)). pose proof (zlen_nonneg (d_filename d)).
  pose proof (zlen_nonneg (d_registers d)). unfold counted, REGISTER_SIZE in *.
  pose proof Hr as [Ha Hl Ho Hsym Hfile Hcount Hregs]. pose proof Hout as [Os Of Or].
  pose proof (dok_symbol _ Hd) as Nsym. pose proof (dok_filename _ Hd) as Nfile.
  unfold bun_frame_write.
  rewrite (string_length_repr _ _ _ _ Hsym), (string_length_repr _ _ _ _ Hfile). bind_simpl.
  rewrite Hcount, would_write_counted, (available_spec m) by (unfold counted; done || lia).
  rewrite decide_False by (unfold counted; lia). rewrite Ha, Hl, Ho.
  pose proof (emitted_nil m w) as E0.
  replace (write_le_64 m w) with (write_le_64 (emitted m w []).1 (emitted m w []).2) by (by rewrite E0).
  do 3 emit_step emit_le_64.
  emit_step (emit_string m w d). emit_step (emit_string m w d).
  emit_step emit_le_16.
  emit_step emit_registers.
  match goal with |- context [emitted m w ?p] => 
    replace p with (encode d) by (unfold encode; by rewrite <- !app_assoc) end.
  unfold add_header_size, emitted. cbn [fst snd buffer set_cursor].
  assert (zlen (encode d) = record_size d) as El by apply zlen_encode.
  destruct Hok. unfold sizeof_payload_header, header_size in *.
  rewrite (load_uint_same_outside _ _ _ _ _ _ (same_outside_write m (cursor w) (encode d))), Hhs
    by solve_disjoint.
  bind_simpl. rewrite store_uint_mapped by solve_mapped. bind_simpl.
  by rewrite El.
Qed.

(** The part of a record before its register block. *)
Definition encode_head (d : frame_data) : list byte :=
  le_split 8 (d_addr d) ++ le_split 8 (d_line d) ++ le_split 8 (d_offset d) ++
  (d_symbol d ++ [NUL]) ++ (d_filename d ++ [NUL]).

Lemma encode_head_tail d :
  encode d = encode_head d ++ le_split 2 (zlen (d_registers d)) ++ encode_registers (d_registers d).
Proof. unfold encode, encode_head. by rewrite <- !app_assoc. Qed.

Lemma zlen_encode_head d :
  zlen (encode_head d) = 26 + zlen (d_symbol d) + zlen (d_filename d).
Proof. unfold encode_head. zlia. Qed.
#[export] Hint Rewrite zlen_encode_head : zlen.

(** The serialiser when its count fits but the record does not, without
    registers: the register count is dropped, the overflow flag is set, and the
    call still reports the record as written. *)
Lemma frame_write_short m w f d hs :
  base_ok m w -> overflow w = false -> frame_repr m f d -> data_ok d ->
  frame_outside (cursor w) (record_size d) f d -> mapped m (cursor w) (record_size d) ->
  d_registers d = [] -> counted d <= available w < record_size d ->
  load_uint m (buffer w + header_size) 4 = Some hs ->
  bun_frame_write m w f =
  Some (write_uint (write_bytes m (cursor w) (encode_head d)) (buffer w + header_size) 4
          (u32 (hs + counted d)),
        set_overflow (set_cursor w (cursor w + counted d)), counted d).
Proof.
  intros Hok Hno Hr Hd Hout Hm Hnil Hfit Hhs.
  assert (Hrs : record_size d = 28 + zlen (d_symbol d) + zlen (d_filename d)).
  { unfold record_size. rewrite Hnil. zlia. }
  pose proof (zlen_nonneg (d_symbol d)). pose proof (zlen_nonneg (d_filename d)).
  assert (available w < 2 ^ 64) as Htop.
  { destruct Hok. unfold available, sizeof_payload_header in *. lia. }
  unfold counted in *.
  pose proof Hr as [Ha Hl Ho Hsym Hfile Hcount Hregs]. pose proof Hout as [Os Of Or].
  pose proof (dok_symbol _ Hd) as Nsym. pose proof (dok_filename _ Hd) as Nfile.
  unfold bun_frame_write.
  rewrite (string_length_repr _ _ _ _ Hsym), (string_length_repr _ _ _ _ Hfile). bind_simpl.
  rewrite Hcount, would_write_counted, (available_spec m) by (unfold counted; done || lia).
  rewrite decide_False by (unfold counted; lia). rewrite Ha, Hl, Ho.
  pose proof (emitted_nil m w) as E0.
  replace (write_le_64 m w) with (write_le_64 (emitted m w []).1 (emitted m w []).2) by (by rewrite E0).
  do 3 emit_step emit_le_64.
  emit_step (emit_string m w d). emit_step (emit_string m w d).
  match goal with |- context [emitted m w ?p] =>
    replace p with (encode_head d) by (unfold encode_head; by rewrite <- !app_assoc) end.
  assert (zlen (encode_head d) = record_size d - 2) as El by (rewrite zlen_encode_head; lia).
  unfold write_le_16. rewrite write_le_miss.
  2: { apply emitted_ok; [done | lia]. }
  2: { right. unfold available in *. cbn. lia. }
  bind_simpl. unfold write_registers. rewrite Hcount, Hnil, decide_False by done. bind_simpl.
  unfold add_header_size, emitted. cbn [fst snd buffer set_cursor set_overflow].
  destruct Hok. unfold sizeof_payload_header, header_size in *.
  rewrite (load_uint_same_outside _ _ _ _ _ _ (same_outside_write m (cursor w) (encode_head d))), Hhs
    by solve_disjoint.
  bind_simpl. rewrite store_uint_mapped by solve_mapped. bind_simpl. rewrite El. done.
Qed.

(** What every successful append leaves behind. *)
Definition appended (m m' : mem) (w w' : bun_writer) (d : frame_data) (hs : Z) : Prop :=
  base_ok m' w' /\ w' = set_cursor w (cursor w + record_size d) /\
  at_addr m' (cursor w) (encode d) /\
  load_uint m' (buffer w + header_size) 4 = Some (u32 (hs + counted d)) /\
  grows m m' /\
  (forall j, ~ (cursor w <= j < cursor w + record_size d) ->
     ~ (buffer w + header_size <= j < buffer w + header_size + 4) -> m' !! j = m !! j).

Lemma write_two_outside m a bs b n v j :
  ~ (a <= j < a + zlen bs) -> ~ (b <= j < b + Z.of_nat n) ->
  write_uint (write_bytes m a bs) b n v !! j = m !! j.
Proof.
  intros Ha Hb. rewrite same_outside_write_uint by done. by rewrite same_outside_write.
Qed.

Lemma record_written m a d b v :
  disjoint_ranges a (record_size d) b 4 ->
  at_addr (write_uint (write_bytes m a (encode d)) b 4 v) a (encode d).
Proof.
  intros Hd. eapply at_addr_same_outside; [apply same_outside_write_uint | | apply at_addr_write].
  rewrite zlen_encode. unfold disjoint_ranges in *. lia.
Qed.

Lemma frame_write_appends m w f d hs :
  base_ok m w -> overflow w = false -> frame_repr m f d -> data_ok d ->
  frame_outside (cursor w) (record_size d) f d -> record_size d <= available w ->
  load_uint m (buffer w + header_size) 4 = Some hs ->
  exists m' w', bun_frame_write m w f = Some (m', w', counted d) /\ appended m m' w w' d hs.
Proof.
  intros Hok Hno Hr Hd Hout Hfit Hhs. pose proof Hok as [? ? ? ? Hmap].
  pose proof (record_size_pos d). unfold available, sizeof_payload_header in *.
  eexists _, _. split.
  { apply frame_write_core; try done; unfold counted, available; try lia. solve_mapped. }
  assert (zlen (encode d) = record_size d) as El by apply zlen_encode.
  unfold appended. split_and!; try done.
  - apply base_ok_set_cursor; [|unfold sizeof_payload_header; lia].
    eapply base_ok_mapped; [|done]. intros j ?. by repeat apply write_bytes_is_Some.
  - apply record_written. unfold disjoint_ranges, header_size. lia.
  - rewrite load_uint_write_same. by mod_small.
  - intros j ?. by repeat apply write_bytes_is_Some.
  - intros j ? ?. apply write_two_outside; rewrite ?El; done.
Qed.

(** ** Theorems *)

(** C14: appending a frame. When the whole record fits, [bun_frame_write] writes
    exactly the serialised record at the cursor, moves the cursor behind it, adds
    its count (two less than the record) to the size in the header modulo 2^32,
    returns that count, and changes no other byte of memory; when the count does
    not fit, it returns 0 and changes nothing. *)
Theorem frame_write_spec m w f d hs :
  base_ok m w -> overflow w = false -> frame_repr m f d -> data_ok d ->
  frame_outside (cursor w) (record_size d) f d -> counted d < 2 ^ 64 ->
  load_uint m (buffer w + header_size) 4 = Some hs ->
  (record_size d <= available w ->
   exists m' w', bun_frame_write m w f = Some (m', w', counted d) /\ appended m m' w w' d hs) /\
  (available w < counted d -> bun_frame_write m w f = Some (m, w, 0)).
Proof.
  intros Hok Hno Hr Hd Hout Hs Hhs. split; intros Hfit.
  - by apply frame_write_appends.
  - apply (frame_write_refuse _ _ _ d); by try lia.
Qed.

(** The cursor past the end: the subtraction in [is_safe_access] wraps around. *)
Lemma is_safe_access_past_end b n :
  overflow b = false -> 0 < cursor b - (buffer b + size b) < 2 ^ 64 ->
  n <= 2 ^ 64 - (cursor b - (buffer b + size b)) -> is_safe_access b n = true.
Proof.
  intros Ho Hc Hn. unfold is_safe_access. rewrite Ho. apply bool_decide_eq_true.
  unfold u64. set (k := cursor b - (buffer b + size b)) in *.
  replace (buffer b + size b - cursor b) with (2 ^ 64 - k + -1 * 2 ^ 64) by lia.
  rewrite Z.mod_add by lia. rewrite Z.mod_small; lia.
Qed.

(** C27: a frame with registers overruns its buffer by up to two bytes. When the
    serialiser's count fits but the record does not, the call succeeds, the last
    one or two bytes of the record are stored behind the payload, the cursor ends
    up behind the payload, and from then on the bounds check of the writer accepts
    every access. *)
Theorem frame_write_overrun m w f d hs :
  base_ok m w -> overflow w = false -> frame_repr m f d -> data_ok d ->
  frame_outside (cursor w) (record_size d) f d -> mapped m (cursor w) (record_size d) ->
  record_size d < 2 ^ 64 -> d_registers d <> [] -> counted d <= available w < record_size d ->
  load_uint m (buffer w + header_size) 4 = Some hs ->
  exists m' w', bun_frame_write m w f = Some (m', w', counted d) /\
    1 <= cursor w' - (buffer w + size w) <= 2 /\
    at_addr m' (buffer w + size w) (drop (Z.to_nat (available w)) (encode d)) /\
    overflow w' = false /\
    (forall n, n <= 2 ^ 64 - 2 -> is_safe_access w' n = true).
Proof.
  intros Hok Hno Hr Hd Hout Hm Hsz Hne Hfit Hhs. pose proof Hok as [? ? ? ? Hmap].
  unfold sizeof_payload_header in *.
  eexists _, _. split.
  { apply frame_write_core; try done; [lia | by left]. }
  unfold counted, available in *. cbn [cursor set_cursor overflow].
  split_and!; [lia | lia | | done |].
  - assert (at_addr (write_uint (write_bytes m (cursor w) (encode d)) (buffer w + header_size) 4
      (u32 (hs + (record_size d - 2)))) (cursor w) (encode d)) as Hat
      by (apply record_written; unfold disjoint_ranges, header_size; lia).
    set (k := Z.to_nat (buffer w + size w - cursor w)) in *.
    rewrite <- (take_drop k (encode d)) in Hat at 2. apply at_addr_app in Hat as [_ Hat].
    assert (zlen (take k (encode d)) = buffer w + size w - cursor w) as El.
    { pose proof (zlen_encode d). unfold zlen in *. rewrite length_take. lia. }
    rewrite El in Hat.
    replace (cursor w + (buffer w + size w - cursor w)) with (buffer w + size w) in Hat by lia.
    done.
  - intros n Hn. apply is_safe_access_past_end; cbn; [done | lia..].
Qed.

(** a frame without registers can be lost. When the serialiser's count fits
    but the record does not, the call reports success and counts the record in
    the header, but the record is cut off before its register count; only the
    overflow flag of the writer, which the caller is never told of, is set. *)
Theorem frame_write_truncated m w f d hs :
  base_ok m w -> overflow w = false -> frame_repr m f d -> data_ok d ->
  frame_outside (cursor w) (record_size d) f d -> mapped m (cursor w) (record_size d) ->
  d_registers d = [] -> counted d <= available w < record_size d ->
  load_uint m (buffer w + header_size) 4 = Some hs ->
  exists m' w', bun_frame_write m w f = Some (m', w', counted d) /\
    0 < counted d /\ base_ok m' w' /\ overflow w' = true /\
    at_addr m' (cursor w) (take (Z.to_nat (counted d)) (encode d)) /\
    cursor w' = cursor w + counted d /\
    load_uint m' (buffer w + header_size) 4 = Some (u32 (hs + counted d)).
Proof.
  intros Hok Hno Hr Hd Hout Hm Hnil Hfit Hhs. pose proof Hok as [? ? ? ? Hmap].
  pose proof (record_size_pos d).
  eexists _, _. split.
  { by apply frame_write_short. }
  unfold counted, available, sizeof_payload_header in *.
  cbn [cursor set_cursor overflow set_overflow]. split_and!; [lia | | done | | done |].
  - apply base_ok_set_overflow, base_ok_set_cursor; [|unfold sizeof_payload_header; lia].
    eapply base_ok_mapped; [|done]. intros j ?. by repeat apply write_bytes_is_Some.
  - assert (zlen (encode_head d) = record_size d - 2) as El
      by (rewrite zlen_encode_head; unfold record_size; rewrite Hnil; zlia).
    assert (take (Z.to_nat (record_size d - 2)) (encode d) = encode_head d) as ->.
    { rewrite encode_head_tail, take_app_length'; [done|]. unfold zlen in *. lia. }
    eapply at_addr_same_outside; [apply same_outside_write_uint | | apply at_addr_write].
    unfold disjoint_ranges, header_size. lia.
  - rewrite load_uint_write_same. by mod_small.
Qed.

(** ** Witnesses *)

Lemma frame_write_spec_witness :
  frame_repr (write_mem 58 sample_data) sample_frame sample_data /\
  exists m' w', bun_frame_write (write_mem 58 sample_data) (sample_base 58) sample_frame =
      Some (m', w', 56) /\
    at_addr m' 0x1028 (encode sample_data) /\ cursor w' = 0x1028 + 58.
Proof.
  split; [by_compute|].
  destruct (frame_write_spec (write_mem 58 sample_data) (sample_base 58) sample_frame sample_data 24)
    as [H _]; [by_compute..|].
  destruct H as (m' & w' & H & _ & -> & Hat & _); [by_compute|].
  exists m', (set_cursor (sample_base 58) (cursor (sample_base 58) + record_size sample_data)).
  split; [exact H | split; [exact Hat | reflexivity]].
Defined.

Lemma frame_write_overrun_witness :
  available (sample_base 57) < record_size sample_data /\
  exists m' w', bun_frame_write (write_mem 57 sample_data) (sample_base 57) sample_frame =
      Some (m', w', 56) /\
    1 <= cursor w' - (0x1010 + 81) <= 2 /\ overflow w' = false.
Proof.
  split; [by_compute|].
  destruct (frame_write_overrun (write_mem 57 sample_data) (sample_base 57) sample_frame sample_data 24)
    as (m' & w' & H & Hc & _ & Ho & _); [by_compute..|].
  exists m', w'. split; [exact H | split; [exact Hc | exact Ho]].
Defined.

(** The same frame without its registers. *)
Definition short_data : frame_data := Data 0x401136 12 4 (bytes_of "main") (bytes_of "main.c") [].
Definition short_frame : bun_frame := set_register_count sample_frame 0.

Lemma frame_write_truncated_witness :
  available (sample_base 37) < record_size short_data /\
  exists m' w', bun_frame_write (write_mem 37 short_data) (sample_base 37) short_frame =
      Some (m', w', 36) /\ overflow w' = true.
Proof.
  split; [by_compute|].
  destruct (frame_write_truncated (write_mem 37 short_data) (sample_base 37) short_frame short_data 24)
    as (m' & w' & H & _ & _ & Ho & _); [by_compute..|].
  exists m', w'. split; [exact H | exact Ho].
Defined.
