(* ===== verification/FrameRead.v ===== *)
(** * Reading frames: [bun_frame_read] on any memory

    The parser is total on every well-formed reader, whatever bytes the payload
    holds: it never leaves the payload, and it succeeds exactly on the
    serialised records that [bun_frame_write] produces. *)

From S2P Require Import Prelude Memory Stream Frame.

(** The frame a successful call stores, for a record at [c]. The two length
    members are never stored, the register members only if there are any. *)
Definition read_frame (c : Z) (d : frame_data) (f : bun_frame) : bun_frame :=
  Frame (d_addr d)
    (c + 24) (symbol_length f)
    (c + 25 + zlen (d_symbol d)) (filename_length f)
    (d_line d) (d_offset d) (zlen (d_registers d))
    (if decide (d_registers d = []) then register_buffer_size f
     else REGISTER_SIZE * zlen (d_registers d))
    (if decide (d_registers d = []) then register_data f
     else c + 28 + zlen (d_symbol d) + zlen (d_filename d)).

(** A record starts at the cursor and ends inside the payload. *)
Record record_at (m : mem) (r : bun_reader) (d : frame_data) : Prop := {
  ra_data : data_ok d;
  ra_bytes : at_addr m (cursor r) (encode d);
  ra_end : cursor r + record_size d <= buffer r + size r
}.

#[export] Instance record_at_dec m r d : Decision (record_at m r d).
Proof.
  refine (cast_if (decide (data_ok d /\ at_addr m (cursor r) (encode d) /\
    cursor r + record_size d <= buffer r + size r))); [constructor; tauto | intros []; tauto].
Defined.

(** The size in the header covers the cursor. *)
Definition more_to_read (r : bun_reader) (hsize : Z) : Prop := cursor r - buffer r < hsize.

#[export] Instance more_to_read_dec r hsize : Decision (more_to_read r hsize).
Proof. unfold more_to_read. apply _. Defined.

(** ** The steps of the parser *)

Section Steps.
Context (m : mem) (r : bun_reader).
Hypothesis Hok : base_ok m r.
Hypothesis Hno : overflow r = false.

Lemma set_cursor_ok c :
  cursor r <= c <= buffer r + size r -> base_ok m (set_cursor r c).
Proof. intros. apply base_ok_set_cursor; [done|]. destruct Hok. lia. Qed.

Lemma step_le n v c :
  cursor r <= c -> at_addr m c (le_split n v) -> c + Z.of_nat n <= buffer r + size r ->
  0 <= v < 2 ^ (8 * Z.of_nat n) ->
  read_le n m (set_cursor r c) = Some (v, set_cursor r (c + Z.of_nat n)).
Proof.
  intros Hc Hat Hend Hv. rewrite (read_le_hit _ _ _ v); cbn; try done.
  - apply set_cursor_ok. lia.
  - rewrite (at_addr_uint _ _ _ _ Hat). by mod_small.
Qed.

Lemma step_string s c :
  cursor r <= c -> at_addr m c (s ++ [NUL]) -> no_nul s -> c + zlen s + 1 <= buffer r + size r ->
  safe_strlen m (set_cursor r c) = Some (zlen s, set_cursor r c).
Proof.
  intros Hc Hat Hs Hend. pose proof (zlen_nonneg s).
  apply safe_strlen_hit; cbn; try done; [|lia]. apply set_cursor_ok. lia.
Qed.
End Steps.

(** The addresses of the parts of a record. *)
Lemma record_parts m c d :
  at_addr m c (encode d) <->
  at_addr m c (le_split 8 (d_addr d)) /\ at_addr m (c + 8) (le_split 8 (d_line d)) /\
  at_addr m (c + 16) (le_split 8 (d_offset d)) /\ at_addr m (c + 24) (d_symbol d ++ [NUL]) /\
  at_addr m (c + 25 + zlen (d_symbol d)) (d_filename d ++ [NUL]) /\
  at_addr m (c + 26 + zlen (d_symbol d) + zlen (d_filename d))
    (le_split 2 (zlen (d_registers d))) /\
  at_addr m (c + 28 + zlen (d_symbol d) + zlen (d_filename d)) (encode_registers (d_registers d)).
Proof.
  unfold encode. rewrite !(at_addr_app m _ (le_split _ _)).
  rewrite !(at_addr_app m _ (d_symbol d ++ [NUL])), !(at_addr_app m _ (d_filename d ++ [NUL])).
  rewrite !(at_addr_app m _ (le_split _ _)). zlen_norm.
  split; intros (H1 & H2 & H3 & H4 & H5 & H6 & H7);
    split_and!; (eapply at_addr_eq; [|eassumption]; lia).
Qed.

(** ** Success: a record at the cursor is read *)

Lemma i64_available hs off : 0 <= hs < 2 ^ 32 -> 0 <= off < 2 ^ 63 -> i64 (u64 (hs - off)) = hs - off.
Proof. intros. rewrite i64_u64, i64_small; lia. Qed.

Lemma reader_offset m r :
  base_ok m r -> buffer r + size r < 2 ^ 63 ->
  u64 (cursor r - buffer r) = cursor r - buffer r /\ 0 <= cursor r - buffer r < 2 ^ 63 /\
  u64 (size r - (cursor r - buffer r)) = buffer r + size r - cursor r.
Proof.
  intros [] ?. unfold sizeof_payload_header in *. rewrite !u64_small by lia. lia.
Qed.

Lemma read_registers_hit m r c d f :
  base_ok m r -> overflow r = false -> data_ok d -> register_count f = zlen (d_registers d) ->
  cursor r + REGISTER_SIZE * zlen (d_registers d) <= buffer r + size r ->
  read_registers c r f =
  Some (set_cursor r (cursor r + REGISTER_SIZE * zlen (d_registers d)),
    (if decide (d_registers d = []) then f
     else set_register_buffer_size (set_register_data f (cursor r))
       (REGISTER_SIZE * zlen (d_registers d))), true).
Proof.
  intros Hok Hno Hd Hc Hend. pose proof (dok_count _ Hd). pose proof (zlen_nonneg (d_registers d)).
  unfold read_registers. rewrite Hc, (Z.mul_comm (zlen _)). unfold REGISTER_SIZE in *.
  rewrite u64_small by lia. rewrite (is_safe_access_spec m), Hno by done.
  rewrite bool_decide_true by done. cbn [negb andb].
  destruct (d_registers d) as [|rv regs] eqn:E.
  - rewrite zlen_nil, decide_False, decide_True by done. rewrite Z.mul_0_r, Z.add_0_r.
    by destruct r.
  - rewrite decide_True by zlia. by rewrite decide_False.
Qed.

Lemma cursor_set r c : cursor (set_cursor r c) = c.
Proof. done. Qed.
Lemma overflow_set r c : overflow (set_cursor r c) = overflow r.
Proof. done. Qed.
Lemma set_cursor_set r c c' : set_cursor (set_cursor r c) c' = set_cursor r c'.
Proof. done. Qed.

(** Side conditions of a step: a range of the record, or arithmetic. *)
Ltac read_side :=
  first [done | lia | by auto | eapply at_addr_eq; [|eassumption]; lia].

Lemma frame_read_hit m r f d hs :
  base_ok m r -> buffer r + size r < 2 ^ 63 -> overflow r = false ->
  load_uint m (buffer r + header_size) 4 = Some hs -> more_to_read r hs ->
  record_at m r d ->
  bun_frame_read m r f =
  Some (set_cursor r (cursor r + record_size d), read_frame (cursor r) d f, true).
Proof.
  intros Hok Htop Hno Hhs Hmore [Hd Hat Hend].
  destruct (proj1 (record_parts _ _ _) Hat) as (H1 & H2 & H3 & H4 & H5 & H6 & H7).
  pose proof Hd as [Ra Rl Ro Ns Nf Rr Rc]. pose proof (load_uint_range _ _ _ _ Hhs).
  destruct (reader_offset _ _ Hok Htop) as (Eo & Ro' & Ea).
  pose proof (record_size_pos d). unfold more_to_read, record_size, REGISTER_SIZE in *.
  pose proof (zlen_nonneg (d_symbol d)). pose proof (zlen_nonneg (d_filename d)).
  pose proof (zlen_nonneg (d_registers d)).
  unfold bun_frame_read. rewrite Hhs. bind_simpl. rewrite Eo, Ea, i64_available by done.
  rewrite !decide_False by lia. unfold read_le_64, read_le_16.
  assert (E0 : set_cursor r (cursor r) = r) by (by destruct r).
  replace (read_le 8 m r) with (read_le 8 m (set_cursor r (cursor r))) by (by rewrite E0).
  assert (E3 : cursor r + Z.of_nat 8 + Z.of_nat 8 + Z.of_nat 8 = cursor r + 24) by lia.
  assert (E4 : cursor r + 24 + (zlen (d_symbol d) + 1) = cursor r + 25 + zlen (d_symbol d)) by lia.
  assert (E5 : cursor r + 25 + zlen (d_symbol d) + (zlen (d_filename d) + 1) =
    cursor r + 26 + zlen (d_symbol d) + zlen (d_filename d)) by lia.
  assert (E6 : cursor r + 26 + zlen (d_symbol d) + zlen (d_filename d) + Z.of_nat 2 =
    cursor r + 28 + zlen (d_symbol d) + zlen (d_filename d)) by lia.
  rewrite (step_le m r Hok Hno _ (d_addr d)) by read_side. bind_simpl.
  rewrite (step_le m r Hok Hno _ (d_line d)) by read_side. bind_simpl.
  rewrite (step_le m r Hok Hno _ (d_offset d)) by read_side. bind_simpl. rewrite E3.
  rewrite overflow_set, Hno. rewrite (step_string m r Hok Hno (d_symbol d)) by read_side. bind_simpl.
  rewrite overflow_set, Hno, !cursor_set, set_cursor_set, E4.
  rewrite (step_string m r Hok Hno (d_filename d)) by read_side. bind_simpl.
  rewrite overflow_set, Hno, !cursor_set, set_cursor_set, E5.
  rewrite (step_le m r Hok Hno _ (zlen (d_registers d))) by read_side. bind_simpl. rewrite E6.
  rewrite overflow_set, Hno. rewrite (read_registers_hit m _ _ d).
  - rewrite !cursor_set, set_cursor_set. f_equal. f_equal. f_equal.
    + f_equal. unfold REGISTER_SIZE. lia.
    + unfold read_frame. by case_decide.
  - apply set_cursor_ok; [done | lia].
  - done.
  - done.
  - done.
  - rewrite cursor_set. cbn. unfold REGISTER_SIZE. lia.
Qed.

(** ** Totality *)

Lemma read_registers_total m r c f :
  base_ok m r -> buffer r + sizeof_payload_header <= c <= cursor r ->
  0 <= register_count f < 2 ^ 16 ->
  exists r' f' ok, read_registers c r f = Some (r', f', ok) /\ base_ok m r' /\
    buffer r' = buffer r /\ size r' = size r /\ handle r' = handle r /\
    cursor r' = (if (ok : bool) then cursor r + REGISTER_SIZE * register_count f else c) /\
    (overflow r = true -> overflow r' = true) /\ (ok = true -> overflow r' = false).
Proof.
  intros Hok Hc Hn. pose proof Hok as [? ? ? ? ?].
  unfold read_registers. rewrite (Z.mul_comm (register_count f)). unfold REGISTER_SIZE in *.
  rewrite u64_small by lia. rewrite (is_safe_access_spec m) by done.
  destruct (overflow r) eqn:Ho; cbn [negb andb].
  { eexists _, _, false. split; [done|]. split_and!; try done.
    apply base_ok_set_cursor; [by apply base_ok_set_overflow|]. cbn. lia. }
  case_bool_decide as Hend.
  - case_decide.
    + eexists _, _, true. split; [done|]. split_and!; try done.
      apply base_ok_set_cursor; [done|]. cbn. lia.
    + exists r, f, true. split; [done|]. split_and!; try done. lia.
  - eexists _, _, false. split; [done|]. split_and!; try done.
    apply base_ok_set_cursor; [by apply base_ok_set_overflow|]. cbn. lia.
Qed.

(** What holds after a call, whatever it returned. *)
Record after_read (m : mem) (r r' : bun_reader) (ok : bool) : Prop := {
  ar_ok : base_ok m r';
  ar_buffer : buffer r' = buffer r;
  ar_size : size r' = size r;
  ar_handle : handle r' = handle r;
  ar_cursor : if ok then cursor r + 28 <= cursor r' else cursor r' = cursor r;
  ar_overflow : overflow r = true -> overflow r' = true;
  ar_success : ok = true -> overflow r' = false
}.

Lemma read_error_after m r r' f :
  base_ok m r -> base_ok m r' -> advances r r' ->
  exists r'' f' ok, read_error (cursor r) r' f = Some (r'', f', ok) /\ after_read m r r'' ok.
Proof.
  intros Hr Hr' [Hb Hs Hh Hc Ho]. eexists _, _, false. split; [done|].
  destruct Hr. split; cbn; try done.
  apply base_ok_set_cursor; [done | lia].
Qed.

Lemma after_read_false m r : base_ok m r -> after_read m r r false.
Proof. intros. by split. Qed.

(** A reader between two steps of the parser: advanced from [r], not overflown. *)
Record between (m : mem) (r r' : bun_reader) (n : Z) : Prop := {
  bt_ok : base_ok m r';
  bt_adv : advances r r';
  bt_cursor : cursor r + n <= cursor r';
  bt_overflow : overflow r' = false
}.

Lemma between_set_cursor m r r' n k :
  between m r r' n -> 0 <= k -> cursor r' + k <= buffer r' + size r' ->
  between m r (set_cursor r' (cursor r' + k)) (n + k).
Proof.
  intros [Hok Ha Hc Ho] Hk Hend. split; cbn; try done; [| |lia].
  - apply base_ok_set_cursor; [done|]. destruct Hok. lia.
  - etrans; [exact Ha|]. apply advances_set_cursor. lia.
Qed.

Lemma between_string m r r' n :
  between m r r' n ->
  exists len r'', safe_strlen m r' = Some (len, r'') /\ base_ok m r'' /\ advances r r'' /\
    (overflow r'' = false -> r'' = r' /\ between m r (set_cursor r' (cursor r' + (len + 1))) (n + 1)).
Proof.
  intros Hb. pose proof Hb as [Hok Ha Hc Ho].
  destruct (safe_strlen_total m r' Hok) as (len & r'' & Hs & Hok' & Ha' & _ & Hsucc).
  exists len, r''. split_and!; [done | done | by etrans |]. intros Ho'.
  destruct (Hsucc Ho') as (-> & Hl & Hend & _). split; [done|].
  destruct (between_set_cursor m r r' n (len + 1) Hb) as [? ? Hc' ?]; [lia..|].
  split; try done. lia.
Qed.

Lemma frame_read_total m r f :
  base_ok m r ->
  exists r' f' ok, bun_frame_read m r f = Some (r', f', ok) /\ after_read m r r' ok.
Proof.
  intros Hok. unfold bun_frame_read, read_le_64, read_le_16.
  destruct (load_uint_mapped m (buffer r + header_size) 4) as (hs & -> & _).
  { destruct Hok. unfold header_size, sizeof_payload_header in *. solve_mapped. }
  bind_simpl.
  case_decide; [exists r, f, false; by eauto using after_read_false|].
  case_decide; [exists r, f, false; by eauto using after_read_false|].
  destruct (read_le_total 8 m r Hok) as (v1 & r1 & -> & Hok1 & A1 & _ & C1). bind_simpl.
  destruct (read_le_total 8 m r1 Hok1) as (v2 & r2 & -> & Hok2 & A2 & _ & C2). bind_simpl.
  destruct (read_le_total 8 m r2 Hok2) as (v3 & r3 & -> & Hok3 & A3 & _ & C3). bind_simpl.
  assert (A : advances r r3) by (by do 2 (etrans; [eassumption|])).
  destruct (overflow r3) eqn:O3; [by apply read_error_after|].
  assert (B3 : between m r r3 24).
  { destruct (overflow r2) eqn:O2; [apply A3 in O2; congruence|].
    destruct (overflow r1) eqn:O1; [apply A2 in O1; congruence|].
    split; [done..| |done]. rewrite C3, C2, C1 by done. lia. }
  destruct (between_string _ _ _ _ B3) as (n4 & r4 & -> & Hok4 & A4 & C4). bind_simpl.
  destruct (overflow r4) eqn:O4; [by apply read_error_after|].
  destruct (C4 eq_refl) as [-> B4]. clear C4.
  destruct (between_string _ _ _ _ B4) as (n5 & r5 & -> & Hok5 & A5 & C5). bind_simpl.
  destruct (overflow r5) eqn:O5; [by apply read_error_after|].
  destruct (C5 eq_refl) as [-> B5]. clear C5.
  match type of B5 with between _ _ ?r6 _ =>
    destruct (read_le_total 2 m r6 (bt_ok _ _ _ _ B5)) as (v7 & r7 & -> & Hok7 & A7 & R7 & C7) end.
  bind_simpl.
  destruct (overflow r7) eqn:O7; [apply read_error_after; [done..|]; etrans; [apply B5 | done]|].
  destruct (read_registers_total m r7 (cursor r) (set_register_count
    (set_filename (set_symbol (set_offset (set_line_no (set_addr f v1) v2) v3) (cursor r3))
      (cursor (set_cursor r3 (cursor r3 + (n4 + 1))))) v7))
    as (r8 & f8 & ok & -> & Hok8 & E1 & E2 & E3 & E4 & E5 & E6); [done| |done|].
  - destruct B5 as [_ [Eb _ _ Hc _] _ _], A7, Hok. lia.
  - exists r8, f8, ok. split; [done|].
    pose proof B5 as [_ [Eb Es Eh Hc Eo] Hc5 _]. pose proof A7 as [Fb Fs Fh Fc Fo].
    cbn [register_count set_register_count] in E4.
    split; [done | congruence | congruence | congruence | | auto | done].
    destruct ok; [|done]. rewrite E4, C7 by done. unfold REGISTER_SIZE. lia.
Qed.

(** ** Soundness: only records are read *)

Lemma read_le_inv n m r v r' :
  base_ok m r -> read_le n m r = Some (v, r') -> overflow r' = false ->
  overflow r = false /\ r' = set_cursor r (cursor r + Z.of_nat n) /\
  at_addr m (cursor r) (le_split n v) /\ cursor r + Z.of_nat n <= buffer r + size r /\
  0 <= v < 2 ^ (8 * Z.of_nat n).
Proof.
  intros Hok H Ho. unfold read_le in H. rewrite (is_safe_access_spec m) in H by done.
  destruct (overflow r) eqn:Hr; cbn [negb andb] in H; [by simplify_eq|].
  case_bool_decide; [|by simplify_eq].
  apply bind_Some in H as (v' & Hv & [= <- <-]). split_and!; try done.
  - by apply load_uint_at.
  - by eapply load_uint_range.
  - by eapply load_uint_range.
Qed.

Lemma read_le_ok n m r v r' : base_ok m r -> read_le n m r = Some (v, r') -> base_ok m r'.
Proof.
  intros Hok H. destruct (read_le_total n m r Hok) as (v' & r'' & H' & ? & _).
  rewrite H in H'. by simplify_eq.
Qed.

Lemma safe_strlen_inv m r len r' :
  base_ok m r -> safe_strlen m r = Some (len, r') -> overflow r' = false ->
  r' = r /\ cursor r + len + 1 <= buffer r + size r /\
  exists s, no_nul s /\ zlen s = len /\ at_addr m (cursor r) (s ++ [NUL]).
Proof.
  intros Hok H Ho. destruct (safe_strlen_total m r Hok) as (len' & r'' & H' & _ & _ & _ & Hs).
  rewrite H in H'. simplify_eq. destruct (Hs Ho) as (-> & _ & ? & ?). done.
Qed.

Lemma read_registers_inv m r c f r' f' :
  base_ok m r -> 0 <= register_count f < 2 ^ 16 ->
  read_registers c r f = Some (r', f', true) ->
  overflow r = false /\ exists regs, zlen regs = register_count f /\ Forall register_ok regs /\
    at_addr m (cursor r) (encode_registers regs) /\
    cursor r + REGISTER_SIZE * zlen regs <= buffer r + size r.
Proof.
  intros Hok Hn H. unfold read_registers in H. rewrite (Z.mul_comm (register_count f)) in H.
  unfold REGISTER_SIZE in *. rewrite u64_small in H by lia.
  rewrite (is_safe_access_spec m) in H by done.
  destruct (overflow r) eqn:Ho; cbn [negb andb] in H; [done|]. split; [done|].
  case_bool_decide as Hend; [|done]. pose proof Hok as [? ? ? ? Hm].
  unfold sizeof_payload_header in *.
  assert (is_Some (load m (cursor r) (Z.to_nat ((2 + 8) * register_count f)))) as [bs Hbs]
    by (apply load_mapped; solve_mapped).
  pose proof (load_length _ _ _ _ Hbs) as Hl.
  destruct (decode_registers (Z.to_nat (register_count f)) bs) as (regs & Hz & Hr & He).
  { unfold zlen, REGISTER_SIZE. rewrite Hl. lia. }
  exists regs. rewrite He. unfold at_addr. rewrite Hl. split_and!; [lia | done | done | lia].
Qed.

Lemma frame_read_inv m r f r' f' :
  base_ok m r -> buffer r + size r < 2 ^ 63 ->
  bun_frame_read m r f = Some (r', f', true) ->
  overflow r = false /\ exists hs d,
    load_uint m (buffer r + header_size) 4 = Some hs /\ more_to_read r hs /\ record_at m r d.
Proof.
  intros Hok Htop H. destruct (reader_offset _ _ Hok Htop) as (Eo & Ro & Ea).
  unfold bun_frame_read, read_le_64, read_le_16, read_error in H.
  apply bind_Some in H as (hs & Hhs & H).
  pose proof (load_uint_range _ _ _ _ Hhs) as Rhs.
  rewrite Eo, Ea, i64_available in H by done.
  case_decide as D1; [done|]. case_decide as D2; [done|].
  apply bind_Some in H as ([v1 r1] & H1 & H). apply bind_Some in H as ([v2 r2] & H2 & H).
  apply bind_Some in H as ([v3 r3] & H3 & H).
  assert (Hok1 := read_le_ok _ _ _ _ _ Hok H1). assert (Hok2 := read_le_ok _ _ _ _ _ Hok1 H2).
  assert (Hok3 := read_le_ok _ _ _ _ _ Hok2 H3).
  destruct (overflow r3) eqn:O3; [done|].
  destruct (read_le_inv _ _ _ _ _ Hok2 H3 O3) as (O2 & E3 & A3 & B3 & R3).
  destruct (read_le_inv _ _ _ _ _ Hok1 H2 O2) as (O1 & E2 & A2 & B2 & R2).
  destruct (read_le_inv _ _ _ _ _ Hok H1 O1) as (O0 & E1 & A1 & B1 & R1).
  split; [done|].
  apply bind_Some in H as ([n4 r4] & H4 & H). destruct (overflow r4) eqn:O4; [done|].
  destruct (safe_strlen_inv _ _ _ _ Hok3 H4 O4) as (-> & B4 & s4 & N4 & Z4 & A4).
  apply bind_Some in H as ([n5 r5] & H5 & H). destruct (overflow r5) eqn:O5; [done|].
  assert (Hok4 : base_ok m (set_cursor r3 (cursor r3 + (n4 + 1)))).
  { apply base_ok_set_cursor; [done|]. destruct Hok3. pose proof (zlen_nonneg s4). lia. }
  destruct (safe_strlen_inv _ _ _ _ Hok4 H5 O5) as (-> & B5 & s5 & N5 & Z5 & A5).
  apply bind_Some in H as ([n6 r6] & H6 & H). destruct (overflow r6) eqn:O6; [done|].
  assert (Hok5 : base_ok m (set_cursor (set_cursor r3 (cursor r3 + (n4 + 1)))
    (cursor (set_cursor r3 (cursor r3 + (n4 + 1))) + (n5 + 1)))).
  { apply base_ok_set_cursor; [done|]. destruct Hok4. pose proof (zlen_nonneg s5). lia. }
  destruct (read_le_inv _ _ _ _ _ Hok5 H6 O6) as (_ & E6 & A6 & B6 & R6).
  assert (Hok6 := read_le_ok _ _ _ _ _ Hok5 H6).
  apply (read_registers_inv m) in H as (_ & regs & Z7 & R7 & A7 & B7); [|done|exact R6].
  subst r1 r2 r3 r6 n4 n5.
  repeat rewrite ?cursor_set, ?set_cursor_set in *. cbn [register_count set_register_count] in Z7.
  cbn [buffer size set_cursor] in *.
  exists hs, (Data v1 v2 v3 s4 s5 regs). split_and!; [done | unfold more_to_read; lia |].
  split.
  - split; cbn; try done. lia.
  - apply record_parts. cbn [d_addr d_line d_offset d_symbol d_filename d_registers]. rewrite Z7.
    split_and!; (eapply at_addr_eq; [|eassumption]; lia).
  - unfold record_size. cbn. lia.
Qed.

(** ** Theorems *)

(** C2: reading is memory safe and total on every payload. Whatever bytes the
    payload and the rest of memory hold, a call on a reader whose cursor is inside
    its payload returns without touching memory outside the mapped payload; the
    reader it leaves is again inside the same payload. A call that fails leaves
    the cursor where it was, a call that succeeds moves it on by at least 28
    bytes. *)
Theorem frame_read_safe m r f :
  base_ok m r ->
  exists r' f' ok, bun_frame_read m r f = Some (r', f', ok) /\
    base_ok m r' /\ buffer r' = buffer r /\ size r' = size r /\
    (ok = false -> cursor r' = cursor r) /\
    (ok = true -> cursor r + 28 <= cursor r' <= buffer r + size r).
Proof.
  intros Hok. destruct (frame_read_total m r f Hok) as (r' & f' & ok & H & []).
  exists r', f', ok. split_and!; try done; intros ->; [done|].
  destruct ar_ok0. lia.
Qed.

(** C15: the reader accepts exactly the serialised records. A call returns true
    if and only if no earlier access overflowed, the size in the header covers the
    cursor, and a well-formed record lies at the cursor and ends inside the
    payload; it then stores the content of that record in the frame, with the
    strings and the registers as pointers into the payload, and leaves the cursor
    behind the record. *)
Theorem frame_read_spec m r f hs :
  base_ok m r -> buffer r + size r < 2 ^ 63 ->
  load_uint m (buffer r + header_size) 4 = Some hs ->
  (forall d, overflow r = false -> more_to_read r hs -> record_at m r d ->
     bun_frame_read m r f =
     Some (set_cursor r (cursor r + record_size d), read_frame (cursor r) d f, true)) /\
  (forall r' f', bun_frame_read m r f = Some (r', f', true) ->
     overflow r = false /\ more_to_read r hs /\
     exists d, record_at m r d /\ r' = set_cursor r (cursor r + record_size d) /\
       f' = read_frame (cursor r) d f).
Proof.
  intros Hok Htop Hhs. split.
  - intros. by eapply frame_read_hit.
  - intros r' f' H. destruct (frame_read_inv _ _ _ _ _ Hok Htop H) as (Ho & hs' & d & Hhs' & Hm & Hd).
    rewrite Hhs in Hhs'. simplify_eq. split_and!; [done..|]. exists d. split; [done|].
    erewrite frame_read_hit in H by done. by simplify_eq.
Qed.

(** an overflow is final. Once the overflow flag of a reader is set, every
    later call fails and leaves the cursor and the flag as they are, so the frames
    behind a damaged record are never reached. *)
Theorem frame_read_overflow_sticky m r f :
  base_ok m r -> overflow r = true ->
  exists r' f', bun_frame_read m r f = Some (r', f', false) /\
    cursor r' = cursor r /\ overflow r' = true.
Proof.
  intros Hok Ho. destruct (frame_read_total m r f Hok) as (r' & f' & ok & H & Ha).
  assert (overflow r' = true) as Ho' by (by apply (ar_overflow _ _ _ _ Ha)).
  destruct ok; [rewrite (ar_success _ _ _ _ Ha) in Ho' by done; done|].
  exists r', f'. split_and!; [done | apply (ar_cursor _ _ _ _ Ha) | done].
Qed.

(** ** Witnesses *)

(** Garbage behind the header: the reader refuses it without a fault. *)
Definition garbage_mem : mem := mem_of [(0x1000, stream_buffer 5000 (replicate 40 Init.Byte.xff))].

Lemma frame_read_safe_witness :
  base_ok garbage_mem (sample_base 40) /\
  exists r' f' ok, bun_frame_read garbage_mem (sample_base 40) zero_frame = Some (r', f', ok) /\
    base_ok garbage_mem r'.
Proof.
  split; [by_compute|].
  destruct (frame_read_safe garbage_mem (sample_base 40) zero_frame)
    as (r' & f' & ok & H & Hok & _); [by_compute|].
  exists r', f', ok. split; [exact H | exact Hok].
Defined.

Lemma frame_read_spec_witness :
  record_at (read_mem 80 [sample_data]) (sample_base 58) sample_data /\
  exists r' f', bun_frame_read (read_mem 80 [sample_data]) (sample_base 58) zero_frame =
      Some (r', f', true) /\
    cursor r' = 0x1028 + 58 /\ addr f' = 0x401136 /\ register_count f' = 2.
Proof.
  split; [by_compute|].
  destruct (frame_read_spec (read_mem 80 [sample_data]) (sample_base 58) zero_frame 80)
    as [H _]; [by_compute..|].
  exists (set_cursor (sample_base 58) (0x1028 + 58)), (read_frame 0x1028 sample_data zero_frame).
  split; [|by_compute]. exact (H sample_data eq_refl ltac:(by_compute) ltac:(by_compute)).
Defined.

Lemma frame_read_overflow_sticky_witness :
  exists r' f', bun_frame_read (read_mem 80 [sample_data]) (set_overflow (sample_base 58)) zero_frame =
      Some (r', f', false) /\ overflow r' = true.
Proof.
  destruct (frame_read_overflow_sticky (read_mem 80 [sample_data]) (set_overflow (sample_base 58))
    zero_frame) as (r' & f' & H & _ & Ho); [by_compute | reflexivity |].
  exists r', f'. split; [exact H | exact Ho].
Defined.
