(* ===== verification/RoundTrip.v ===== *)
(** * Streams of frames: writing and reading back

    The loops of the callers: a producer that appends frame after frame, and a
    consumer that reads until the reader fails. The theorems relate the two
    through the serialised stream and say exactly which frames come back. *)

From S2P Require Import Prelude Memory Stream Frame FrameWrite FrameRead.

(** ** The loops *)

(** Append the frames in order; the results of the calls. *)
Fixpoint write_all (m : mem) (w : bun_writer) (fs : list bun_frame)
  : option (mem * bun_writer * list Z) :=
  match fs with
  | [] => Some (m, w, [])
  | f :: fs =>
      '(m, w, n) ← bun_frame_write m w f;
      '(m, w, ns) ← write_all m w fs;
      Some (m, w, n :: ns)
  end.

(** [while (bun_frame_read(reader, &frame) != false)]: the frame after every
    successful call, in order. The frame structure is reused. *)
Fixpoint read_all (fuel : nat) (m : mem) (r : bun_reader) (f : bun_frame)
  : option (bun_reader * list bun_frame) :=
  match fuel with
  | O => None
  | S fuel =>
      '(r, f, ok) ← bun_frame_read m r f;
      if (ok : bool) then
        '(r, fs) ← read_all fuel m r f;
        Some (r, f :: fs)
      else Some (r, [])
  end.

(** Every success consumes at least 28 bytes, so this many iterations are always
    enough, see [read_all_terminates]. *)
Definition read_fuel (r : bun_reader) : nat := S (Z.to_nat (size r)).

(** ** Sizes of streams *)

Definition stream_bytes (ds : list frame_data) : list byte := ds ≫= encode.
Definition stream_size (ds : list frame_data) : Z := zlen (stream_bytes ds).
Definition stream_counted (ds : list frame_data) : Z := stream_size ds - 2 * zlen ds.

Lemma stream_bytes_cons d ds : stream_bytes (d :: ds) = encode d ++ stream_bytes ds.
Proof. done. Qed.
Lemma stream_size_cons d ds : stream_size (d :: ds) = record_size d + stream_size ds.
Proof. unfold stream_size. by rewrite stream_bytes_cons, zlen_app, zlen_encode. Qed.
Lemma stream_counted_cons d ds : stream_counted (d :: ds) = counted d + stream_counted ds.
Proof. unfold stream_counted, counted. rewrite stream_size_cons. zlia. Qed.
Lemma stream_size_app ds ds' : stream_size (ds ++ ds') = stream_size ds + stream_size ds'.
Proof. unfold stream_size, stream_bytes. by rewrite bind_app, zlen_app. Qed.
Lemma stream_size_nonneg ds : 0 <= stream_size ds.
Proof. apply zlen_nonneg. Qed.
Lemma stream_size_lower ds : 28 * zlen ds <= stream_size ds.
Proof.
  induction ds as [|d ds IH]; [done|]. rewrite stream_size_cons, zlen_cons.
  pose proof (record_size_pos d). lia.
Qed.

(** ** Writing a stream *)

(** The frames represent the records and lie outside the payload of [w]. *)
Definition frames_repr (m : mem) (w : bun_writer) (fs : list bun_frame) (ds : list frame_data) : Prop :=
  Forall2 (fun f d => frame_repr m f d /\ data_ok d /\ frame_outside (buffer w) (size w) f d) fs ds.

#[export] Instance frames_repr_dec m w fs ds : Decision (frames_repr m w fs ds).
Proof. unfold frames_repr. apply _. Defined.

Lemma frames_repr_outside m m' w w' fs ds :
  same_outside m m' (buffer w) (size w) -> buffer w' = buffer w -> size w' = size w ->
  frames_repr m w fs ds -> frames_repr m' w' fs ds.
Proof.
  unfold frames_repr. intros Ho Hb Hs H. eapply Forall2_impl; [exact H|].
  intros f d (Hr & Hd & Hf). split_and!; [by eapply frame_repr_outside | done | by rewrite Hb, Hs].
Qed.

(** Changes confined to the region from the cursor on and to the size field. *)
Definition stream_outside (m m' : mem) (w : bun_writer) (n : Z) : Prop :=
  forall j, ~ (cursor w <= j < cursor w + n) ->
    ~ (buffer w + header_size <= j < buffer w + header_size + 4) -> m' !! j = m !! j.

Lemma stream_outside_payload m m' w n :
  base_ok m w -> n <= available w -> stream_outside m m' w n ->
  same_outside m m' (buffer w) (size w).
Proof.
  unfold stream_outside, available, header_size. intros [] Hn Ho j Hj.
  unfold sizeof_payload_header in *. apply Ho; lia.
Qed.

Record wrote_all (m m' : mem) (w w' : bun_writer) (ds : list frame_data) (hs : Z) : Prop := {
  wa_ok : base_ok m' w';
  wa_writer : w' = set_cursor w (cursor w + stream_size ds);
  wa_bytes : at_addr m' (cursor w) (stream_bytes ds);
  wa_header : load_uint m' (buffer w + header_size) 4 = Some (u32 (hs + stream_counted ds));
  wa_grows : grows m m';
  wa_outside : stream_outside m m' w (stream_size ds)
}.

Lemma wrote_all_nil m w hs :
  base_ok m w -> load_uint m (buffer w + header_size) 4 = Some hs -> wrote_all m m w w [] hs.
Proof.
  intros Hok Hhs. pose proof (load_uint_range _ _ _ _ Hhs) as R.
  change (2 ^ (8 * Z.of_nat 4)) with (2 ^ 32) in R. split; try done.
  - change (stream_size []) with 0. rewrite Z.add_0_r. by destruct w.
  - rewrite Hhs. f_equal. change (stream_counted []) with 0. rewrite u32_small; lia.
Qed.

Lemma wrote_all_cons m m1 m2 w w1 w2 d ds hs :
  base_ok m w -> record_size d + stream_size ds <= available w ->
  appended m m1 w w1 d hs -> wrote_all m1 m2 w1 w2 ds (u32 (hs + counted d)) ->
  wrote_all m m2 w w2 (d :: ds) hs.
Proof.
  intros Hok Hfit (Hok1 & -> & Hat & Hh & Hg & Ho) [Hok2 -> Hb Hh2 Hg2 Ho2].
  pose proof (record_size_pos d). pose proof (stream_size_nonneg ds).
  unfold stream_outside in *. cbn [cursor buffer set_cursor] in *.
  split; try done.
  - rewrite stream_size_cons. unfold set_cursor. cbn. f_equal. lia.
  - rewrite stream_bytes_cons. apply at_addr_app. rewrite zlen_encode. split; [|done].
    apply load_Some in Hat as [Hl Hi]. apply load_Some. split; [done|]. intros i Hlt.
    rewrite <- Hi by done. pose proof (zlen_encode d) as El. unfold zlen in El.
    destruct Hok. unfold sizeof_payload_header, header_size, available in *.
    apply Ho2; lia.
  - rewrite Hh2, stream_counted_cons. unfold u32. f_equal.
    rewrite Zplus_mod_idemp_l. f_equal. lia.
  - by etrans.
  - rewrite stream_size_cons. unfold stream_outside. intros j ??.
    rewrite Ho2, Ho by lia. done.
Qed.

Lemma write_all_lemma fs ds : forall m w hs,
  base_ok m w -> overflow w = false -> frames_repr m w fs ds ->
  stream_size ds <= available w ->
  load_uint m (buffer w + header_size) 4 = Some hs ->
  exists m' w', write_all m w fs = Some (m', w', counted <$> ds) /\ wrote_all m m' w w' ds hs.
Proof.
  revert ds. induction fs as [|f fs IH]; intros ds m w hs Hok Hno Hr Hfit Hhs.
  { apply Forall2_nil_inv_l in Hr as ->. exists m, w. eauto using wrote_all_nil. }
  apply Forall2_cons_inv_l in Hr as (d & ds' & (Hf & Hd & Hout) & Hr & ->).
  rewrite stream_size_cons in Hfit. pose proof (stream_size_nonneg ds').
  pose proof (record_size_pos d). pose proof Hok as [? ? ? ? ?].
  unfold available, sizeof_payload_header in *.
  destruct (frame_write_appends m w f d hs) as (m1 & w1 & Hw & Happ); try done.
  { eapply frame_outside_weaken; [exact Hout | lia..]. }
  { unfold available. lia. }
  pose proof Happ as (Hok1 & -> & _ & Hh1 & _ & Ho1).
  destruct (IH ds' m1 (set_cursor w (cursor w + record_size d)) (u32 (hs + counted d)))
    as (m2 & w2 & Hws & Hall); try done.
  { apply (frames_repr_outside m m1 w); [|done..].
    eapply stream_outside_payload; [exact Hok | | exact Ho1]. unfold available. lia. }
  { cbn. lia. }
  exists m2, w2. cbn [write_all]. rewrite Hw. bind_simpl. rewrite Hws. bind_simpl.
  split; [done|]. eapply wrote_all_cons; [done | unfold available; lia | done | done].
Qed.

(** ** Reading a stream *)

(** The records the reader delivers while the size in the header, [rem] bytes
    ahead of the cursor, is positive. *)
Fixpoint readable (rem : Z) (ds : list frame_data) : list frame_data :=
  match ds with
  | [] => []
  | d :: ds => if decide (0 < rem) then d :: readable (rem - record_size d) ds else []
  end.

(** The frame a reader delivers shows the content of a record. *)
Record frame_shows (m : mem) (f : bun_frame) (d : frame_data) : Prop := {
  fs_addr : addr f = d_addr d;
  fs_line : line_no f = d_line d;
  fs_offset : offset f = d_offset d;
  fs_symbol : cstring m (symbol f) = Some (d_symbol d);
  fs_filename : cstring m (filename f) = Some (d_filename d);
  fs_count : register_count f = zlen (d_registers d);
  fs_registers : d_registers d <> [] ->
    at_addr m (register_data f) (encode_registers (d_registers d))
}.

Lemma read_frame_shows m c d f :
  data_ok d -> at_addr m c (encode d) -> frame_shows m (read_frame c d f) d.
Proof.
  intros [] Hat. apply record_parts in Hat as (H1 & H2 & H3 & H4 & H5 & H6 & H7).
  split; cbn [read_frame addr line_no offset symbol filename register_count register_data];
    try done; try by apply cstring_spec.
  intros Hn. by rewrite decide_False.
Qed.

Lemma read_all_lemma ds : forall m r f hs,
  base_ok m r -> buffer r + size r < 2 ^ 63 -> overflow r = false ->
  load_uint m (buffer r + header_size) 4 = Some hs ->
  Forall data_ok ds -> at_addr m (cursor r) (stream_bytes ds) ->
  cursor r + stream_size ds <= buffer r + size r ->
  hs - (cursor r - buffer r) <= stream_size ds ->
  exists r' fs, read_all (S (length ds)) m r f = Some (r', fs) /\
    Forall2 (frame_shows m) fs (readable (hs - (cursor r - buffer r)) ds).
Proof.
  induction ds as [|d ds IH]; intros m r f hs Hok Htop Hno Hhs Hd Hat Hend Hrem.
  { destruct (frame_read_total m r f Hok) as (r' & f' & ok & Hr & Ha).
    cbn [read_all length]. rewrite Hr. bind_simpl. destruct ok; [|by exists r', []].
    apply frame_read_inv in Hr as (_ & hs' & d & Hhs' & Hm & _); try done.
    rewrite Hhs in Hhs'. simplify_eq. unfold more_to_read in Hm.
    change (stream_size []) with 0 in Hrem. lia. }
  rewrite stream_bytes_cons, at_addr_app, zlen_encode in Hat. destruct Hat as [Hat Hat'].
  rewrite stream_size_cons in Hend, Hrem. inversion Hd as [|? ? Hd1 Hds]; subst.
  pose proof (stream_size_nonneg ds). pose proof (record_size_pos d). pose proof Hok as [? ? ? ? ?].
  cbn [readable]. destruct (decide (0 < hs - (cursor r - buffer r))) as [Hpos|Hneg].
  - destruct (IH m (set_cursor r (cursor r + record_size d)) (read_frame (cursor r) d f) hs)
      as (r' & fs & Hr & Hfs); try done; cbn [cursor buffer size set_cursor]; try lia.
    { apply base_ok_set_cursor; [done | lia]. }
    exists r', (read_frame (cursor r) d f :: fs). split.
    + change (read_all (S (length (d :: ds))) m r f) with
        ('(r, f, ok) ← bun_frame_read m r f;
         if (ok : bool) then
           '(r, fs) ← read_all (S (length ds)) m r f; Some (r, f :: fs)
         else Some (r, [])).
      erewrite frame_read_hit; [|done..| unfold more_to_read; lia | split; [done..|lia]].
      bind_simpl. by rewrite Hr.
    + constructor; [by apply read_frame_shows|]. cbn [cursor buffer set_cursor] in Hfs.
      by replace (hs - (cursor r - buffer r) - record_size d)
        with (hs - (cursor r + record_size d - buffer r)) by lia.
  - destruct (frame_read_total m r f Hok) as (r' & f' & ok & Hr & Ha).
    cbn [read_all]. rewrite Hr. bind_simpl. destruct ok; [|by exists r', []].
    apply frame_read_inv in Hr as (_ & hs' & d' & Hhs' & Hm & _); try done.
    rewrite Hhs in Hhs'. simplify_eq. unfold more_to_read in Hm. lia.
Qed.

(** The loop ends on every payload. *)
Lemma read_all_fuel fuel m r f :
  base_ok m r -> buffer r + size r - cursor r < 28 * Z.of_nat fuel ->
  exists r' fs, read_all fuel m r f = Some (r', fs) /\ base_ok m r'.
Proof.
  revert r f. induction fuel as [|fuel IH]; intros r f Hok Hf.
  { destruct Hok. lia. }
  destruct (frame_read_total m r f Hok) as (r' & f' & ok & Hr & [Hok' Hb Hs _ Hc _ _]).
  cbn [read_all]. rewrite Hr. bind_simpl. destruct ok; [|by exists r', []].
  destruct (IH r' f' Hok') as (r'' & fs & Hr' & Hok''); [lia|].
  rewrite Hr'. by exists r'', (f' :: fs).
Qed.

Lemma read_all_mono fuel fuel' m r f x :
  (fuel <= fuel')%nat -> read_all fuel m r f = Some x -> read_all fuel' m r f = Some x.
Proof.
  revert fuel' r f x. induction fuel as [|fuel IH]; intros fuel' r f x Hle H; [done|].
  destruct fuel' as [|fuel']; [lia|]. cbn [read_all] in *.
  destruct (bun_frame_read m r f) as [[[r' f'] ok]|]; [|done].
  cbn [mbind option_bind] in *. destruct ok; [|done].
  apply bind_Some in H as ([r'' fs] & H & He). rewrite (IH fuel' _ _ _ ltac:(lia) H). done.
Qed.

(** ** Which records come back *)

Lemma readable_prefix rem ds : exists k, readable rem ds = take k ds.
Proof.
  revert rem. induction ds as [|d ds IH]; intros rem; [by exists 0%nat|]. cbn [readable].
  case_decide; [|by exists 0%nat]. destruct (IH (rem - record_size d)) as [k ->].
  by exists (S k).
Qed.

Lemma readable_all rem ds :
  readable rem ds = ds <->
  forall d, last ds = Some d -> stream_size ds - record_size d < rem.
Proof.
  revert rem. induction ds as [|d ds IH]; intros rem; [done|]. cbn [readable].
  rewrite stream_size_cons. pose proof (record_size_pos d).
  destruct ds as [|d' ds].
  - case_decide; split; try done.
    + intros _ d' [= <-]. change (stream_size []) with 0. lia.
    + intros Hl. specialize (Hl d eq_refl). change (stream_size []) with 0 in Hl. lia.
  - change (last (d :: d' :: ds)) with (last (d' :: ds)). specialize (IH (rem - record_size d)).
    split.
    + intros Hr. case_decide; [|done]. injection Hr as Hr. rewrite IH in Hr.
      intros x Hx. specialize (Hr x Hx). lia.
    + intros Hl. assert (readable (rem - record_size d) (d' :: ds) = d' :: ds) as ->.
      { apply IH. intros x Hx. specialize (Hl x Hx). lia. }
      rewrite decide_True; [done|].
      destruct (last (d' :: ds)) as [x|] eqn:Hx; [|by apply last_None in Hx].
      specialize (Hl x eq_refl). apply last_Some in Hx as [l Hx]. rewrite Hx in Hl.
      rewrite stream_size_app, stream_size_cons in Hl. pose proof (stream_size_nonneg l).
      change (stream_size []) with 0 in Hl. lia.
Qed.

Lemma initial_available b h m :
  buffer_ok m b -> available (initial_base b h) = buffer_size b - sizeof_buffer_payload.
Proof.
  intros Hb. unfold available, initial_base. cbn. rewrite (payload_size_ok m) by done. layout. lia.
Qed.

(** ** Theorems *)

(** C1: round trip of a stream. On a fresh writer (cursor behind the header, size
    field 24) with room for the serialised records, appending any frames succeeds,
    each call returning its count; a reader opened on the result, run until it
    fails, ends and delivers exactly the first records of the stream, in order and
    with unchanged content: those before which the size field is still ahead of the
    cursor. *)
Theorem stream_roundtrip m b h h' fs ds f0 :
  buffer_ok m b -> buffer_data b + buffer_size b < 2 ^ 63 -> buffer_size b <= 2 ^ 32 ->
  load_uint m (bun_buffer_payload b + header_size) 4 = Some sizeof_payload_header ->
  frames_repr m (initial_base b h) fs ds ->
  stream_size ds <= buffer_size b - sizeof_buffer_payload ->
  exists m' w' r' gs,
    write_all m (initial_base b h) fs = Some (m', w', counted <$> ds) /\
    same_outside m m' (bun_buffer_payload b) (bun_buffer_payload_size b) /\
    read_all (read_fuel (initial_base b h')) m' (initial_base b h') f0 = Some (r', gs) /\
    Forall2 (frame_shows m') gs (readable (stream_counted ds) ds).
Proof.
  intros Hb Htop Hsz Hhs Hr Hfit.
  pose proof (initial_base_ok _ _ h Hb) as Hok. pose proof (initial_available _ h _ Hb) as Hav.
  destruct (write_all_lemma fs ds m (initial_base b h) sizeof_payload_header)
    as (m' & w' & Hw & [Hok' -> Hat Hh Hg Ho]); try done; [lia|].
  pose proof (payload_size_ok _ _ Hb) as Hps. pose proof (stream_size_nonneg ds).
  pose proof (stream_size_lower ds). pose proof (zlen_nonneg ds).
  assert (base_ok m' (initial_base b h')) as Hokr.
  { apply initial_base_ok. by eapply buffer_ok_mapped. }
  rewrite u32_small in Hh by (unfold stream_counted; layout; lia).
  destruct (read_all_lemma ds m' (initial_base b h') f0 (sizeof_payload_header + stream_counted ds))
    as (r' & gs & Hrd & Hshow); try done; cbn [initial_base buffer size cursor].
  - rewrite Hps. unfold bun_buffer_payload. layout. lia.
  - eapply Forall_impl with (P := data_ok); [|done]. clear - Hr. induction Hr as [|???? (?&?&?)]; auto.
  - rewrite Hps. layout. lia.
  - unfold stream_counted. lia.
  - cbn [initial_base buffer size cursor] in Hshow.
    exists m', (set_cursor (initial_base b h) (cursor (initial_base b h) + stream_size ds)), r', gs.
    split_and!; [done | | |].
    + by eapply (stream_outside_payload _ _ (initial_base b h)); [|rewrite Hav|].
    + eapply read_all_mono; [|done]. unfold read_fuel. cbn [initial_base size]. rewrite Hps.
      unfold zlen in *. layout. lia.
    + by replace (stream_counted ds) with (sizeof_payload_header + stream_counted ds -
        (bun_buffer_payload b + sizeof_payload_header - bun_buffer_payload b)) by lia.
Qed.


(** the reading loop always ends. Whatever the payload holds, reading until
    the first failure ends after at most one call per 28 bytes, so [read_fuel]
    iterations give the result, and more iterations give the same. *)
Theorem read_all_terminates m r f :
  base_ok m r ->
  exists r' gs, base_ok m r' /\
    forall fuel, (read_fuel r <= fuel)%nat -> read_all fuel m r f = Some (r', gs).
Proof.
  intros Hok. destruct (read_all_fuel (read_fuel r) m r f Hok) as (r' & gs & H & Hok').
  { destruct Hok. unfold read_fuel, sizeof_payload_header in *. lia. }
  exists r', gs. split; [done|]. intros fuel Hf. by eapply read_all_mono.
Qed.

(** ** Witnesses *)

(** Two frames in a buffer with room for both records. *)
Definition stream_sample : mem := write_mem 116 sample_data.
Definition stream_sample_buffer : bun_buffer := BunBuffer 0x1000 156.

Lemma stream_roundtrip_witness :
  frames_repr stream_sample (initial_base stream_sample_buffer 0)
    [sample_frame; sample_frame] [sample_data; sample_data] /\
  exists m' w' r' gs,
    write_all stream_sample (initial_base stream_sample_buffer 0) [sample_frame; sample_frame] =
      Some (m', w', [56; 56]) /\
    read_all (read_fuel (initial_base stream_sample_buffer 0)) m'
      (initial_base stream_sample_buffer 0) zero_frame = Some (r', gs) /\
    Forall2 (frame_shows m') gs [sample_data; sample_data].
Proof.
  split; [by_compute|].
  destruct (stream_roundtrip stream_sample stream_sample_buffer 0 0 [sample_frame; sample_frame]
    [sample_data; sample_data] zero_frame) as (m' & w' & r' & gs & Hw & _ & Hr & Hs);
    [by_compute..|].
  exists m', w', r', gs. split; [exact Hw | split; [exact Hr | exact Hs]].
Defined.

Lemma read_all_terminates_witness :
  base_ok (read_mem 136 [sample_data; sample_data]) (sample_base 116) /\
  exists r' gs, read_all 200 (read_mem 136 [sample_data; sample_data]) (sample_base 116) zero_frame =
    Some (r', gs).
Proof.
  split; [by_compute|].
  destruct (read_all_terminates (read_mem 136 [sample_data; sample_data]) (sample_base 116) zero_frame)
    as (r' & gs & _ & H); [by_compute|].
  exists r', gs. apply H. by_compute.
Defined.
