(* ===== verification/FrameRegisters.v ===== *)
(** * The register buffer of a frame

    A frame owns a caller-supplied buffer of registers; [bun_frame_register_append]
    and [bun_frame_register_get] implement a bounded sequence on it. The class
    [RegisterSeq] is the interface the users of a frame rely on; the frame
    operations are its instance. *)

From S2P Require Import Prelude Memory Stream Frame.

(** ** The sequence a frame holds *)

(** The frame [f] holds the registers [regs] in a buffer that is mapped and has
    a size the pointer arithmetic can address. *)
Record registers_repr (m : mem) (f : bun_frame) (regs : list (Z * Z)) : Prop := {
  rr_size : 0 <= register_buffer_size f < 2 ^ 63;
  rr_count : register_count f = zlen regs;
  rr_fit : REGISTER_SIZE * zlen regs <= register_buffer_size f;
  rr_mapped : mapped m (register_data f) (register_buffer_size f);
  rr_bytes : at_addr m (register_data f) (encode_registers regs);
  rr_ok : Forall register_ok regs
}.

(** How many registers fit. *)
Definition register_capacity (f : bun_frame) : Z := register_buffer_size f `div` REGISTER_SIZE.

Lemma capacity_lt f n :
  0 <= register_buffer_size f -> n < register_capacity f <->
  REGISTER_SIZE * (n + 1) <= register_buffer_size f.
Proof.
  intros H0. unfold register_capacity, REGISTER_SIZE.
  pose proof (Z.div_mod (register_buffer_size f) (2 + 8) ltac:(lia)).
  pose proof (Z.mod_pos_bound (register_buffer_size f) (2 + 8) ltac:(lia)). lia.
Qed.

Lemma max_registers_capacity f :
  0 <= register_buffer_size f ->
  (if decide (register_buffer_size f > 0) then register_buffer_size f `div` REGISTER_SIZE else 0) =
  register_capacity f.
Proof.
  intros. unfold register_capacity. case_decide; [done|].
  replace (register_buffer_size f) with 0 by lia. done.
Qed.

(** ** Append *)

Lemma append_full m f regs reg value :
  registers_repr m f regs -> register_capacity f <= zlen regs ->
  bun_frame_register_append m f reg value = Some (m, f, false).
Proof.
  intros [] Hfull. unfold bun_frame_register_append. rewrite max_registers_capacity by lia.
  by rewrite decide_True by lia.
Qed.

Lemma append_room m f regs reg value :
  registers_repr m f regs -> zlen regs < register_capacity f ->
  exists m', bun_frame_register_append m f reg value =
      Some (m', set_register_count f (zlen regs + 1), true) /\
    registers_repr m' (set_register_count f (zlen regs + 1)) (regs ++ [(u16 reg, u64 value)]) /\
    same_outside m m' (register_data f + REGISTER_SIZE * zlen regs) REGISTER_SIZE /\ grows m m'.
Proof.
  intros [Hsz Hn Hfit Hm Hat Hok] Hroom. pose proof (zlen_nonneg regs).
  apply capacity_lt in Hroom as Hend; [|lia].
  unfold bun_frame_register_append. rewrite max_registers_capacity by lia.
  rewrite decide_False by lia. unfold REGISTER_SIZE in *. rewrite Hn.
  rewrite (u64_small ((2 + 8) * zlen regs)) by lia. rewrite (u64_small (zlen regs + 1)) by lia.
  set (p := register_data f + (2 + 8) * zlen regs).
  assert (write_bytes m p (encode_register (u16 reg, u64 value)) =
    write_uint (write_uint m p 2 (u16 reg)) (p + 2) 8 (u64 value)) as E
    by (unfold encode_register; by rewrite write_bytes_app).
  rewrite store_uint_mapped by (unfold p; solve_mapped). bind_simpl.
  rewrite store_uint_mapped by (unfold p; solve_mapped). bind_simpl. rewrite <- E.
  eexists. split; [done|]. split_and!.
  - split; cbn [register_count register_buffer_size register_data set_register_count];
      unfold REGISTER_SIZE; try done; zlen_norm; try lia.
    + by apply mapped_write.
    + rewrite encode_registers_app. apply at_addr_app. split.
      * apply at_addr_write_disjoint; [|done]. zlen_norm. unfold REGISTER_SIZE, p, disjoint_ranges. lia.
      * rewrite zlen_encode_registers. apply at_addr_write.
    + apply Forall_app. split; [done|]. constructor; [|done]. split; cbn; auto with width.
  - apply (same_outside_write m p (encode_register (u16 reg, u64 value))).
  - apply grows_write.
Qed.

(** The empty register buffer of the frame. *)
Lemma registers_repr_empty m f :
  register_count f = 0 -> 0 <= register_buffer_size f < 2 ^ 63 ->
  mapped m (register_data f) (register_buffer_size f) -> registers_repr m f [].
Proof. intros. split; try done. change (zlen []) with 0. unfold REGISTER_SIZE. lia. Qed.

(** Appending one after the other, as the backends do. *)
Fixpoint append_all (m : mem) (f : bun_frame) (l : list (Z * Z)) : option (mem * bun_frame) :=
  match l with
  | [] => Some (m, f)
  | (reg, value) :: l => '(m, f, _) ← bun_frame_register_append m f reg value; append_all m f l
  end.

Lemma set_register_count_id m f regs :
  registers_repr m f regs -> set_register_count f (zlen regs) = f.
Proof. intros [_ Hn _ _ _ _]. rewrite <- Hn. by destruct f. Qed.

Lemma append_all_spec l : forall m f regs,
  Forall register_ok l -> registers_repr m f regs -> zlen regs + zlen l <= register_capacity f ->
  exists m' f', append_all m f l = Some (m', f') /\
    f' = set_register_count f (zlen (regs ++ l)) /\
    registers_repr m' f' (regs ++ l) /\ grows m m' /\
    same_outside m m' (register_data f) (register_buffer_size f).
Proof.
  induction l as [|[reg v] l IH]; intros m f regs Hok Hr Hcap.
  { exists m, f. rewrite app_nil_r. split_and!; try done. by rewrite (set_register_count_id m). }
  apply Forall_cons in Hok as [[Hreg Hv] Hok]. rewrite zlen_cons in Hcap. pose proof (zlen_nonneg l).
  cbn [append_all fst snd] in *.
  destruct (append_room m f regs reg v Hr) as (m1 & Ha & Hr1 & Ho1 & Hg1); [lia|].
  rewrite Ha. bind_simpl. rewrite u16_small, u64_small in Hr1 by lia.
  destruct (IH m1 _ _ Hok Hr1) as (m2 & f2 & Hgr & -> & Hr2 & Hg2 & Ho2).
  { rewrite zlen_app. change (zlen [(reg, v)]) with 1.
    change (register_capacity (set_register_count f (zlen regs + 1))) with (register_capacity f). lia. }
  eexists m2, _. split; [exact Hgr|].
  rewrite <- app_assoc in *. split_and!; [done | exact Hr2 | by etrans |].
  pose proof Hr as [Hsz Hn Hfit _ _ _]. pose proof (zlen_nonneg regs).
  assert (zlen regs < register_capacity f) as Hroom by lia.
  apply capacity_lt in Hroom; [|lia]. unfold REGISTER_SIZE in *.
  eapply same_outside_trans; [eapply same_outside_weaken; [exact Ho1 | lia | lia] | exact Ho2].
Qed.

(** ** Get *)

Lemma get_at m f regs i rv :
  registers_repr m f regs -> regs !! i = Some rv ->
  bun_frame_register_get m f (Z.of_nat i) = Some (Some rv).
Proof.
  intros [Hsz Hn Hfit Hm Hat Hok] Hi. apply lookup_lt_Some in Hi as Hlt.
  unfold bun_frame_register_get. rewrite decide_False by (unfold zlen in *; lia).
  rewrite u64_small by (unfold zlen, REGISTER_SIZE in *; lia).
  rewrite <- (take_drop_middle _ _ _ Hi), encode_registers_app, encode_registers_cons in Hat.
  apply at_addr_app in Hat as [_ Hat]. apply at_addr_app in Hat as [Hat _].
  unfold encode_register in Hat. apply at_addr_app in Hat as [H1 H2].
  rewrite zlen_encode_registers in H1, H2.
  replace (zlen (take i regs)) with (Z.of_nat i) in H1, H2
    by (unfold zlen; rewrite length_take; lia).
  apply at_addr_uint in H1. apply at_addr_uint in H2. rewrite zlen_le_split in H2.
  change (Z.of_nat 2) with 2 in H2. rewrite H1. bind_simpl. rewrite H2. bind_simpl.
  rewrite Forall_lookup in Hok. destruct (Hok i rv Hi) as [R1 R2].
  change (8 * Z.of_nat 2) with 16. change (8 * Z.of_nat 8) with 64.
  rewrite !Z.mod_small by done. by destruct rv.
Qed.

Lemma get_out m f regs i :
  registers_repr m f regs -> zlen regs <= i -> bun_frame_register_get m f i = Some None.
Proof. intros [] Hi. unfold bun_frame_register_get. by rewrite decide_True by lia. Qed.

(** ** The interface *)

(** A bounded sequence of registers behind an abstraction relation: append adds
    at the end while there is room and refuses afterwards, get indexes. *)
Class RegisterSeq (S : Type) (repr : S -> list (Z * Z) -> Prop)
    (append : S -> Z -> Z -> option (S * bool)) (get : S -> Z -> option (option (Z * Z)))
    (capacity : S -> Z) : Prop := {
  rs_append_room s regs reg value :
    repr s regs -> zlen regs < capacity s ->
    exists s', append s reg value = Some (s', true) /\
      repr s' (regs ++ [(u16 reg, u64 value)]) /\ capacity s' = capacity s;
  rs_append_full s regs reg value :
    repr s regs -> capacity s <= zlen regs -> append s reg value = Some (s, false);
  rs_get s regs i : repr s regs -> (0 <= i)%Z -> get s i = Some (regs !! Z.to_nat i)
}.

Definition frame_append (s : mem * bun_frame) (reg value : Z) : option (mem * bun_frame * bool) :=
  bun_frame_register_append s.1 s.2 reg value.
Definition frame_get (s : mem * bun_frame) (i : Z) : option (option (Z * Z)) :=
  bun_frame_register_get s.1 s.2 i.

#[export] Instance frame_register_seq :
  RegisterSeq (mem * bun_frame) (fun s => registers_repr s.1 s.2) frame_append frame_get
    (fun s => register_capacity s.2).
Proof.
  split; intros [m f] regs.
  - intros reg value Hr Hroom. destruct (append_room _ _ _ reg value Hr Hroom) as (m' & H & Hr' & _).
    by exists (m', set_register_count f (zlen regs + 1)).
  - intros reg value Hr Hfull. by eapply append_full.
  - intros i Hr Hi. unfold frame_get. cbn [fst snd] in *.
    destruct (regs !! Z.to_nat i) as [rv|] eqn:E.
    + rewrite <- (Z2Nat.id i) by done. by eapply get_at.
    + apply lookup_ge_None in E. eapply get_out; [done|]. unfold zlen. lia.
Qed.

(** Append a list of registers, whatever the results; the number accepted. *)
Section Fill.
Context {S : Type} {repr : S -> list (Z * Z) -> Prop}.
Context {append : S -> Z -> Z -> option (S * bool)}.
Context {get : S -> Z -> option (option (Z * Z))} {capacity : S -> Z}.
Context `{!RegisterSeq S repr append get capacity}.

Fixpoint fill (s : S) (l : list (Z * Z)) : option S :=
  match l with
  | [] => Some s
  | (reg, value) :: l => '(s, _) ← append s reg value; fill s l
  end.

Definition clamp_register (rv : Z * Z) : Z * Z := (u16 rv.1, u64 rv.2).

Lemma fill_spec s regs l :
  repr s regs -> zlen regs <= capacity s ->
  exists s', fill s l = Some s' /\ capacity s' = capacity s /\
    repr s' (take (Z.to_nat (capacity s)) (regs ++ (clamp_register <$> l))).
Proof.
  revert s regs. induction l as [|[reg value] l IH]; intros s regs Hr Hle.
  { exists s. split_and!; [done..|]. rewrite app_nil_r, take_ge; [done|]. unfold zlen in Hle. lia. }
  cbn [fill]. destruct (decide (zlen regs < capacity s)) as [Hroom|Hfull].
  - destruct (rs_append_room s regs reg value Hr Hroom) as (s' & -> & Hr' & Hc). bind_simpl.
    destruct (IH s' _ Hr') as (s'' & -> & Hc' & Hr''); [rewrite Hc; zlia|].
    exists s''. rewrite Hc', Hc in *. split_and!; [done..|]. by rewrite <- app_assoc in Hr''.
  - rewrite (rs_append_full s regs reg value Hr) by lia. bind_simpl.
    destruct (IH s _ Hr Hle) as (s'' & -> & Hc' & Hr''). exists s''. split_and!; [done..|].
    rewrite take_app_length' in * by (unfold zlen in *; lia). done.
Qed.
End Fill.

(** ** Theorems *)

(** the register buffer of a frame is a bounded sequence. On a frame holding
    [regs], any list of appends never faults and leaves the registers already
    there, followed by the new ones (register modulo 2^16, value modulo 2^64) in
    order, cut off at the capacity [register_buffer_size / 10]; and
    [bun_frame_register_get] returns the register at every index below the count
    and nothing above it. *)
Theorem register_buffer_spec m f regs l :
  registers_repr m f regs ->
  exists m' f' regs',
    fill (append := frame_append) (m, f) l = Some (m', f') /\
    regs' = take (Z.to_nat (register_capacity f)) (regs ++ (clamp_register <$> l)) /\
    registers_repr m' f' regs' /\ register_count f' = zlen regs' /\
    (forall i, 0 <= i -> bun_frame_register_get m' f' i = Some (regs' !! Z.to_nat i)).
Proof.
  intros Hr. pose proof Hr as [Hsz Hn Hfit _ _ _].
  destruct (fill_spec (m, f) regs l Hr) as ([m' f'] & Hf & _ & Hr').
  { cbn [snd]. destruct (decide (zlen regs <= register_capacity f)) as [|Hlt]; [done|].
    destruct (capacity_lt f (zlen regs - 1)) as [_ H]; lia. }
  exists m', f', (take (Z.to_nat (register_capacity f)) (regs ++ (clamp_register <$> l))).
  split_and!; [done..| apply (rr_count _ _ _ Hr') |].
  intros i Hi. exact (rs_get (m', f') _ i Hr' Hi).
Qed.

(** ** Witness *)

Definition registers_mem : mem := mem_of (frame_blocks sample_data).

Lemma register_buffer_spec_witness :
  exists m' f', fill (append := frame_append) (registers_mem, sample_frame)
      [(70000, 5); (3, -1); (9, 9)] = Some (m', f') /\
    register_count f' = 4 /\ bun_frame_register_get m' f' 2 = Some (Some (4464, 5)) /\
    bun_frame_register_get m' f' 3 = Some (Some (3, 2 ^ 64 - 1)) /\
    bun_frame_register_get m' f' 4 = Some None.
Proof.
  destruct (register_buffer_spec registers_mem sample_frame (d_registers sample_data)
    [(70000, 5); (3, -1); (9, 9)]) as (m' & f' & regs & H & -> & _ & Hn & Hget).
  { split; by_compute. }
  exists m', f'. split; [exact H|]. split; [exact Hn|].
  split; [exact (Hget 2 ltac:(by_compute))|].
  split; [exact (Hget 3 ltac:(by_compute)) | exact (Hget 4 ltac:(by_compute))].
Defined.
