(* ===== verification/Print.v ===== *)
(** * Printing a stream (src/bun_stream.c) and the stream parser (tools/stream_parser/main.c)

    [bun_reader_print] with the text it writes to its output, and the command
    line tool built on it. The conversions of [fprintf] are those of glibc. *)

From S2P Require Import Prelude Memory Registers Stream Frame FrameRead RoundTrip FrameRegisters.

(** ** Conversions of [fprintf] *)

Definition digit (upper : bool) (d : Z) : byte :=
  byte.of_Z (if decide (d < 10) then 48 + d else (if upper then 55 else 87) + d).

(** Digits of [z], most significant first; 64 cover every 64-bit number. *)
Fixpoint digits (fuel : nat) (upper : bool) (base z : Z) : list byte :=
  match fuel with
  | O => []
  | S fuel =>
      if decide (z < base) then [digit upper z]
      else digits fuel upper base (z `div` base) ++ [digit upper (z `mod` base)]
  end.

Definition fmt_zu (z : Z) : list byte := digits 64 false 10 z.
Definition fmt_lX (z : Z) : list byte := digits 64 true 16 z.
Definition fmt_04X (z : Z) : list byte :=
  let s := digits 64 true 16 z in replicate (4 - length s) (byte.of_Z 48) ++ s.
Definition fmt_p (z : Z) : list byte :=
  if decide (z = NULL) then bytes_of "(nil)" else bytes_of "0x" ++ digits 64 false 16 z.

Definition LF : list byte := [byte.of_Z 10].

(** ** [bun_reader_print] *)

(** Lines 445-453: the loop over the registers, from [i], [n] iterations. *)
Fixpoint print_registers (m : mem) (f : bun_frame) (i : Z) (n : nat) : option (list byte) :=
  match n with
  | O => Some []
  | S n =>
      got ← bun_frame_register_get m f i;
      '(reg, val) ← got;
      let str := bytes_of (bun_register_to_string (u16 reg)) in
      rest ← print_registers m f (i + 1) n;
      Some (bytes_of "    Register " ++ str ++ bytes_of "(" ++ fmt_04X reg ++ bytes_of "): " ++
            fmt_lX val ++ LF ++ rest)
  end.

(** Lines 442-453: the body of the outer loop. *)
Definition print_frame (m : mem) (f : bun_frame) : option (list byte) :=
  sym ← cstring m (symbol f);
  regs ← print_registers m f 0 (Z.to_nat (register_count f));
  Some (bytes_of "Frame: " ++ sym ++ LF ++ bytes_of "  PC: " ++ fmt_p (addr f) ++ LF ++
        bytes_of "  Registers: " ++ fmt_zu (register_count f) ++ LF ++ regs).

(** [f] is the uninitialised local structure. *)
Fixpoint reader_print (fuel : nat) (m : mem) (r : bun_reader) (f : bun_frame)
  : option (bun_reader * list byte) :=
  match fuel with
  | O => None
  | S fuel =>
      '(r, f, ok) ← bun_frame_read m r f;
      if (ok : bool) then
        text ← print_frame m f;
        '(r, rest) ← reader_print fuel m r f;
        Some (r, text ++ rest)
      else Some (r, [])
  end.

Definition bun_reader_print (m : mem) (r : bun_reader) (f : bun_frame)
  : option (bun_reader * list byte) :=
  reader_print (read_fuel r) m r f.

(** ** The stream parser *)

(** Returned value and output; the C function has no [return] at its end, and its
    caller ignores the value. *)
Definition parse_and_print (m : mem) (data len : Z) (f : bun_frame) : option (mem * list byte) :=
  '(m, b) ← bun_buffer_init m data len;
  match b with
  | None => Some (m, [])
  | Some b =>
      r ← bun_reader_init m b NULL;
      match r with
      | None => Some (m, [])
      | Some r => '(_, out) ← bun_reader_print m r f; Some (m, out)
      end
  end.

(** [free]: the null pointer is ignored, an indeterminate pointer is undefined
    behaviour. The pointer is [None] while the local variable is uninitialised. *)
Definition free_ptr (p : option Z) : option unit :=
  match p with None => None | Some _ => Some tt end.

(** [main] for [argc] arguments. [file] is the content of the file named by the
    argument, [None] if it cannot be opened; [malloc_result] is what [malloc]
    returns for its size. The result is the exit status and the output. *)
Definition stream_parser_main (m : mem) (argc : Z) (file : option (list byte))
    (malloc_result : Z) (error_text : list byte) (f : bun_frame) : option (Z * list byte) :=
  if decide (argc <> 2) then Some (1, bytes_of "Usage: bun_parse_stream <file>" ++ LF)
  else
    match file with
    | None => _ ← free_ptr None; Some (2, bytes_of "Error: " ++ error_text ++ LF)
    | Some content =>
        if decide (malloc_result = NULL) then
          _ ← free_ptr (Some malloc_result); Some (2, bytes_of "Error: " ++ error_text ++ LF)
        else
          m ← store m malloc_result content;
          '(_, out) ← parse_and_print m malloc_result (zlen content) f;
          Some (0, out)
    end.

(** ** The text of a record *)

Definition register_text (rv : Z * Z) : list byte :=
  bytes_of "    Register " ++ bytes_of (bun_register_to_string rv.1) ++ bytes_of "(" ++
  fmt_04X rv.1 ++ bytes_of "): " ++ fmt_lX rv.2 ++ LF.

Definition frame_text (d : frame_data) : list byte :=
  bytes_of "Frame: " ++ d_symbol d ++ LF ++ bytes_of "  PC: " ++ fmt_p (d_addr d) ++ LF ++
  bytes_of "  Registers: " ++ fmt_zu (zlen (d_registers d)) ++ LF ++
  (d_registers d ≫= register_text).

(** ** Lemmas *)

(** The registers a reader delivers can be fetched one by one. *)
Lemma shown_register m f d i rv :
  frame_shows m f d -> data_ok d -> d_registers d !! i = Some rv ->
  bun_frame_register_get m f (Z.of_nat i) = Some (Some rv).
Proof.
  intros [_ _ _ _ _ Hc Hr] [_ _ _ _ _ Hok Hn] Hi. apply lookup_lt_Some in Hi as Hlt.
  assert (d_registers d <> []) as Hne by (intros E; rewrite E in Hlt; simpl in Hlt; lia).
  specialize (Hr Hne).
  set (f' := set_register_buffer_size f (REGISTER_SIZE * zlen (d_registers d))).
  assert (registers_repr m f' (d_registers d)) as Hrepr.
  { split; cbn; try done.
    - unfold REGISTER_SIZE. zlia.
    - rewrite <- zlen_encode_registers. by apply at_addr_mapped. }
  exact (get_at m f' _ i rv Hrepr Hi).
Qed.

Lemma register_text_app reg val rest :
  register_text (reg, val) ++ rest =
  bytes_of "    Register " ++ bytes_of (bun_register_to_string reg) ++ bytes_of "(" ++
  fmt_04X reg ++ bytes_of "): " ++ fmt_lX val ++ LF ++ rest.
Proof. unfold register_text. by rewrite <- !app_assoc. Qed.

Lemma print_registers_shown m f d n i :
  frame_shows m f d -> data_ok d -> (i + n = length (d_registers d))%nat ->
  print_registers m f (Z.of_nat i) n = Some (drop i (d_registers d) ≫= register_text).
Proof.
  intros Hs Hd. revert i. induction n as [|n IH]; intros i Hi.
  { by rewrite drop_ge by lia. }
  destruct (lookup_lt_is_Some_2 (d_registers d) i) as [[reg val] Hrv]; [lia|].
  pose proof (dok_registers _ Hd) as Hok. rewrite Forall_lookup in Hok.
  destruct (Hok _ _ Hrv) as [R1 R2]. cbn [fst snd] in R1, R2.
  rewrite (drop_S _ _ _ Hrv). cbn [print_registers].
  rewrite (shown_register _ _ _ _ _ Hs Hd Hrv). bind_simpl.
  replace (Z.of_nat i + 1) with (Z.of_nat (S i)) by lia.
  rewrite IH by lia. bind_simpl. rewrite u16_small by done.
  by rewrite bind_cons, register_text_app.
Qed.

Lemma print_frame_shown m f d :
  frame_shows m f d -> data_ok d -> print_frame m f = Some (frame_text d).
Proof.
  intros Hs Hd. pose proof Hs as [Ha _ _ Hsym _ Hc _].
  unfold print_frame. rewrite Hsym, Hc. bind_simpl.
  change 0 with (Z.of_nat 0). rewrite (print_registers_shown _ _ _ _ 0 Hs Hd).
  - bind_simpl. by rewrite Ha.
  - unfold zlen. lia.
Qed.

Lemma reader_print_shown fuel m r f r' gs ds :
  read_all fuel m r f = Some (r', gs) ->
  Forall2 (fun g d => frame_shows m g d /\ data_ok d) gs ds ->
  reader_print fuel m r f = Some (r', ds ≫= frame_text).
Proof.
  revert r f r' gs ds. induction fuel as [|fuel IH]; intros r f r' gs ds H Hs; [done|].
  cbn [read_all reader_print] in *. destruct (bun_frame_read m r f) as [[[r1 f1] ok]|]; [|done].
  cbn [mbind option_bind] in *. destruct ok.
  - apply bind_Some in H as ([r2 gs2] & H & [= <- <-]).
    apply Forall2_cons_inv_l in Hs as (d & ds' & [Hg Hd] & Hs & ->).
    rewrite (print_frame_shown _ _ _ Hg Hd). bind_simpl. by rewrite (IH _ _ _ _ _ H Hs).
  - simplify_eq. by apply Forall2_nil_inv_l in Hs as ->.
Qed.

(** Whatever is read shows some record. *)
Lemma read_all_shows fuel m r f r' gs :
  base_ok m r -> buffer r + size r < 2 ^ 63 -> read_all fuel m r f = Some (r', gs) ->
  exists ds, Forall2 (fun g d => frame_shows m g d /\ data_ok d) gs ds.
Proof.
  revert r f r' gs. induction fuel as [|fuel IH]; intros r f r' gs Hok Htop H; [done|].
  cbn [read_all] in H. apply bind_Some in H as ([[r1 f1] ok] & Hr & H).
  destruct (frame_read_total m r f Hok) as (r1' & f1' & ok' & Hr' & [Hok1 Hb Hs _ _ _ _]).
  rewrite Hr in Hr'. simplify_eq. destruct ok'; [|simplify_eq; by exists []].
  apply bind_Some in H as ([r2 gs2] & H & [= <- <-]).
  destruct (IH r1' f1' r2 gs2) as [ds Hds]; [done | by rewrite Hb, Hs | done |].
  destruct (frame_read_inv _ _ _ _ _ Hok Htop Hr) as (Ho & hs & d & Hhs & Hmore & Hrec).
  rewrite (frame_read_hit _ _ _ d hs) in Hr by done. simplify_eq.
  exists (d :: ds). constructor; [|done]. destruct Hrec. split; [by apply read_frame_shows | done].
Qed.

(** Zeroing the payload's first bytes leaves no stream to read. *)
Lemma parse_and_print_empty m data len f :
  0 < data -> data + len < 2 ^ 64 -> mapped m data len ->
  exists m', parse_and_print m data len f = Some (m', []).
Proof.
  intros H0 Htop Hm. unfold parse_and_print.
  destruct (decide (len < sizeof_buffer_payload)) as [Hlt|Hge].
  { unfold bun_buffer_init. rewrite decide_True by done. bind_simpl. eauto. }
  destruct (buffer_init_fresh m data len) as (m' & -> & _ & _ & Hb & _ & Hh); [done..|lia|done|].
  bind_simpl. rewrite (reader_init_cases _ _ _ _ Hb (header_magic_of_load _ _ _ Hh)).
  rewrite decide_False by done. bind_simpl. eauto.
Qed.

(** ** Theorems *)

(** C39: printing is safe on every payload and prints what is read. Whatever
    bytes the payload holds, [bun_reader_print] ends without a fault, and its output
    is the concatenation of the texts of the records the reader delivers, each with
    its symbol, its address, its register count and every register by name, number
    and value. *)
Theorem reader_print_spec m r f :
  base_ok m r -> buffer r + size r < 2 ^ 63 ->
  exists r' gs ds,
    read_all (read_fuel r) m r f = Some (r', gs) /\
    Forall2 (fun g d => frame_shows m g d /\ data_ok d) gs ds /\
    bun_reader_print m r f = Some (r', ds ≫= frame_text).
Proof.
  intros Hok Htop. destruct (read_all_fuel (read_fuel r) m r f Hok) as (r' & gs & H & _).
  { destruct Hok. unfold read_fuel, sizeof_payload_header in *. lia. }
  destruct (read_all_shows _ _ _ _ _ _ Hok Htop H) as [ds Hds].
  exists r', gs, ds. split_and!; [done..|]. by eapply reader_print_shown.
Qed.

(** the stream parser never prints a stream. [parse_and_print] zeroes the
    first 40 bytes of the file it has just loaded, the magic number among them, so
    the reader refuses every file: whatever the data, the output is empty. *)
Theorem parse_and_print_silent m data len f :
  0 < data -> data + len < 2 ^ 64 -> mapped m data len ->
  exists m', parse_and_print m data len f = Some (m', []).
Proof.
  apply parse_and_print_empty.
Qed.

(** exit paths of the stream parser. With a wrong number of arguments it
    prints its usage and returns 1; if the file cannot be opened it frees an
    uninitialised pointer, which is undefined behaviour; for every file that can be
    loaded it returns 0 without any output. *)
Theorem stream_parser_main_spec m argc file p text f :
  (argc <> 2 -> stream_parser_main m argc file p text f =
     Some (1, bytes_of "Usage: bun_parse_stream <file>" ++ LF)) /\
  (argc = 2 -> file = None -> stream_parser_main m argc file p text f = None) /\
  (forall content, argc = 2 -> file = Some content -> 0 < p -> p + zlen content < 2 ^ 64 ->
     mapped m p (zlen content) -> stream_parser_main m argc file p text f = Some (0, [])).
Proof.
  unfold stream_parser_main. split_and!.
  - intros. by rewrite decide_True.
  - intros -> ->. by rewrite decide_False by tauto.
  - intros content -> -> Hp Htop Hm. rewrite decide_False by tauto.
    rewrite decide_False by (unfold NULL; lia). rewrite store_mapped by done. bind_simpl.
    destruct (parse_and_print_empty (write_bytes m p content) p (zlen content) f) as [m2 ->];
      [done|lia|by apply mapped_write|]. done.
Qed.

(** ** Witnesses *)

Lemma reader_print_spec_witness :
  base_ok (read_mem 136 [sample_data; sample_data]) (sample_base 116) /\
  exists r' out, bun_reader_print (read_mem 136 [sample_data; sample_data]) (sample_base 116)
    zero_frame = Some (r', out).
Proof.
  split; [by_compute|].
  destruct (reader_print_spec (read_mem 136 [sample_data; sample_data]) (sample_base 116) zero_frame)
    as (r' & gs & ds & _ & _ & H); [by_compute..|].
  exists r', (ds ≫= frame_text). exact H.
Defined.

Lemma parse_and_print_silent_witness :
  mapped (read_mem 80 [sample_data]) 0x1000 98 /\
  exists m', parse_and_print (read_mem 80 [sample_data]) 0x1000 98 zero_frame = Some (m', []).
Proof.
  split; [by_compute|].
  apply (parse_and_print_silent (read_mem 80 [sample_data]) 0x1000 98 zero_frame); by_compute.
Defined.

Lemma stream_parser_main_spec_witness :
  stream_parser_main ∅ 1 None 0 [] zero_frame =
    Some (1, bytes_of "Usage: bun_parse_stream <file>" ++ LF) /\
  stream_parser_main ∅ 2 None 0 [] zero_frame = None.
Proof.
  destruct (stream_parser_main_spec ∅ 1 None 0 [] zero_frame) as [H1 _].
  destruct (stream_parser_main_spec ∅ 2 None 0 [] zero_frame) as (_ & H2 & _).
  split; [apply H1; discriminate | apply H2; reflexivity].
Defined.
