(* ===== verification/WriteOnce.v ===== *)
(** * Concurrent initialisation of writers on one buffer (src/bun_stream.c)

    Several threads, or a thread and its signal handlers, call
    [bun_writer_init] on the same buffer with write-once handles. The call is cut
    into the steps between its accesses to the shared fields of the buffer, the
    steps of the threads are interleaved in any order, and the counter decides
    which thread gets the buffer. The plain accesses to the recorded handle are
    taken as single steps, as on the machines the library runs on; the header is
    written by one thread at most, so its stores are one step. *)

From stdpp Require Import relations.
From S2P Require Import Prelude Memory Stream.

(** ** The calls *)

(** How far a call has come. [AtEnter]: nothing read yet; [AtAttach]: about to store
    its handle (line 98); [AtClaim]: about to look at the flags (line 101); [AtCount]:
    about to increment the counter (line 103); [AtHeader]: about to write the header
    (line 108). [Rejected] (lines 92 and 96), [Used] (line 105) and [Ready] (line
    123) are the ends of the call. *)
Inductive progress : Set :=
| AtEnter | AtAttach | AtClaim | AtCount | AtHeader | Rejected | Used | Ready.

#[export] Instance progress_eq_dec : EqDecision progress.
Proof. solve_decision. Defined.

Record thread := Thread { t_handle : Z; t_arch : Z; t_tid : Z; t_pc : progress }.

Definition set_pc (t : thread) (pc : progress) : thread :=
  Thread (t_handle t) (t_arch t) (t_tid t) pc.

Definition finished (pc : progress) : bool :=
  match pc with Rejected | Used | Ready => true | _ => false end.

(** One step of an unfinished call. *)
Definition thread_step (b : bun_buffer) (m : mem) (t : thread) : option (mem * progress) :=
  match t_pc t with
  | AtEnter =>
      if decide (buffer_size b < sizeof_payload_header) then Some (m, Rejected)
      else
        recorded ← load_uint m (buffer_data b + payload_handle) 8;
        if decide (recorded <> NULL) then
          if decide (t_handle t <> NULL /\ t_handle t <> recorded) then Some (m, Rejected)
          else Some (m, AtClaim)
        else Some (m, if decide (t_handle t <> NULL) then AtAttach else AtClaim)
  | AtAttach =>
      m ← store_uint m (buffer_data b + payload_handle) 8 (t_handle t);
      Some (m, AtClaim)
  | AtClaim =>
      recorded ← load_uint m (buffer_data b + payload_handle) 8;
      if decide (recorded <> NULL) then
        flags ← load_uint m (recorded + handle_flags) 8;
        Some (m, if decide (Z.land flags BUN_HANDLE_WRITE_ONCE <> 0) then AtCount else AtHeader)
      else Some (m, AtHeader)
  | AtCount =>
      '(m, last) ← fetch_add_write_count m b;
      Some (m, if decide (last > 0) then Used else AtHeader)
  | AtHeader =>
      m ← init_header m (bun_buffer_payload b) (t_arch t) (t_tid t);
      Some (m, Ready)
  | Rejected | Used | Ready => None
  end.

(** A call that runs without interruption, with [fuel] steps. *)
Fixpoint run_alone (fuel : nat) (b : bun_buffer) (m : mem) (t : thread) : option (mem * progress) :=
  match fuel with
  | O => None
  | S fuel =>
      if finished (t_pc t) then Some (m, t_pc t)
      else '(m, pc) ← thread_step b m t; run_alone fuel b m (set_pc t pc)
  end.

(** What the caller sees of the end of a call. *)
Definition outcome (b : bun_buffer) (h : Z) (pc : progress) : option bun_writer :=
  if decide (pc = Ready) then Some (initial_base b h) else None.

(** ** The interleaving *)

Definition system : Type := mem * list thread.

Inductive step (b : bun_buffer) : system -> system -> Prop :=
| step_thread m ts i t m' pc :
    ts !! i = Some t -> finished (t_pc t) = false -> thread_step b m t = Some (m', pc) ->
    step b (m, ts) (m', <[i := set_pc t pc]> ts).

(** A thread is about to do something undefined. *)
Definition faulty (b : bun_buffer) (s : system) : Prop :=
  exists i t, s.2 !! i = Some t /\ finished (t_pc t) = false /\ thread_step b s.1 t = None.

(** The number of threads whose progress satisfies [p]. *)
Fixpoint tally (p : progress -> bool) (ts : list thread) : nat :=
  match ts with
  | [] => 0
  | t :: ts => (if p (t_pc t) then 1 else 0) + tally p ts
  end.

(** The counter let the thread through; the counter counted it; it is past the
    check of the recorded handle; it was turned away there. *)
Definition won (pc : progress) : bool := match pc with AtHeader | Ready => true | _ => false end.
Definition counted_in (pc : progress) : bool :=
  match pc with AtHeader | Ready | Used => true | _ => false end.
Definition attached (pc : progress) : bool :=
  match pc with AtClaim | AtCount | AtHeader | Ready | Used => true | _ => false end.
Definition rejected (pc : progress) : bool := match pc with Rejected => true | _ => false end.
Definition ready (pc : progress) : bool := match pc with Ready => true | _ => false end.

(** The calls with these arguments, before their first step. *)
Definition calls (args : list (Z * Z * Z)) : list thread :=
  (fun a => Thread a.1.1 a.1.2 a.2 AtEnter) <$> args.

(** A handle every thread may use: not null, write-once, readable, and outside the
    first 40 bytes of the buffer. *)
Record write_once_handle (m : mem) (b : bun_buffer) (h : Z) : Prop := {
  wo_range : 0 < h < 2 ^ 64;
  wo_flags : exists flags, load_uint m (h + handle_flags) 8 = Some flags /\ write_once_flag flags;
  wo_outside : disjoint_ranges (buffer_data b) sizeof_buffer_payload (h + handle_flags) 8
}.

(** ** Lemmas *)

Lemma tally_insert p ts i t t' :
  ts !! i = Some t ->
  (tally p (<[i := t']> ts) + (if p (t_pc t) then 1 else 0) =
   tally p ts + (if p (t_pc t') then 1 else 0))%nat.
Proof.
  revert i. induction ts as [|u ts IH]; intros [|i] H; [done..| |]; simpl in *.
  - injection H as ->. lia.
  - specialize (IH _ H). lia.
Qed.

Lemma tally_le_length p ts : (tally p ts <= length ts)%nat.
Proof. induction ts; simpl; [done|]. case_match; lia. Qed.

Lemma tally_pos p ts : (0 < tally p ts)%nat <-> exists i t, ts !! i = Some t /\ p (t_pc t) = true.
Proof.
  induction ts as [|u ts IH]; cbn [tally].
  - split; [lia | by intros (i & t & [=] & _)].
  - destruct (p (t_pc u)) eqn:Hu.
    + split; [|lia]. intros _. by exists 0%nat, u.
    + rewrite Nat.add_0_l, IH. split.
      * intros (i & t & H). by exists (S i), t.
      * intros ([|i] & t & H & Hl); simpl in *; [congruence | by exists i, t].
Qed.

Lemma tally_calls p args : p AtEnter = false -> tally p (calls args) = 0%nat.
Proof. intros H. induction args; simpl; [done|]. by rewrite H. Qed.

Lemma tally_impl p q ts :
  (forall i t, ts !! i = Some t -> p (t_pc t) = true -> q (t_pc t) = true) ->
  (tally p ts <= tally q ts)%nat.
Proof.
  induction ts as [|u ts IH]; intros H; simpl; [done|].
  specialize (IH (fun i => H (S i))). specialize (H 0%nat u eq_refl). revert H.
  destruct (p (t_pc u)); intros H; [rewrite H by done; lia | destruct (q _); lia].
Qed.

Lemma write_once_handle_outside m m' b h :
  same_outside m m' (buffer_data b) 38 -> write_once_handle m b h -> write_once_handle m' b h.
Proof.
  intros Ho [Hr (flags & Hl & Hf) Hd]. split; [done| |done]. exists flags. split; [|done].
  rewrite <- Hl. eapply load_uint_same_outside; [exact Ho|].
  unfold disjoint_ranges, sizeof_buffer_payload in *. lia.
Qed.

(** ** The invariant *)

(** [r] is the recorded handle. *)
Record exclusive (b : bun_buffer) (m : mem) (ts : list thread) (r : Z) : Prop := {
  ex_buffer : buffer_ok m b;
  ex_state : buffer_state m b (Z.of_nat (tally counted_in ts)) r;
  ex_recorded : r = NULL \/ write_once_handle m b r;
  ex_null : r = NULL -> tally attached ts = 0%nat /\ tally rejected ts = 0%nat;
  ex_attached : r <> NULL -> (0 < tally attached ts)%nat;
  ex_won : tally won ts = Nat.min 1 (tally counted_in ts);
  ex_handles : forall i t, ts !! i = Some t -> write_once_handle m b (t_handle t);
  ex_threads : Z.of_nat (length ts) < 2 ^ 31
}.

(** The facts about the tallies after a step of thread [i]. *)
Ltac tallies Hi t pc :=
  pose proof (tally_insert counted_in _ _ _ (set_pc t pc) Hi);
  pose proof (tally_insert attached _ _ _ (set_pc t pc) Hi);
  pose proof (tally_insert won _ _ _ (set_pc t pc) Hi);
  pose proof (tally_insert rejected _ _ _ (set_pc t pc) Hi);
  repeat match goal with
    | H : t_pc t = _ |- _ => rewrite H in *; clear H
    end; cbn [t_pc set_pc counted_in attached won rejected] in *.

(** A step that changes at most the first 38 bytes of the buffer keeps the
    invariant if it keeps what the invariant says of the counter, of the recorded
    handle and of the tallies. *)
Lemma exclusive_step b m m' ts r r' i t pc :
  exclusive b m ts r -> ts !! i = Some t ->
  buffer_ok m' b -> same_outside m m' (buffer_data b) 38 ->
  (r' = r \/ r' = t_handle t) ->
  buffer_state m' b (Z.of_nat (tally counted_in (<[i := set_pc t pc]> ts))) r' ->
  (r' = NULL -> tally attached (<[i := set_pc t pc]> ts) = 0%nat /\
     tally rejected (<[i := set_pc t pc]> ts) = 0%nat) ->
  (r' <> NULL -> (0 < tally attached (<[i := set_pc t pc]> ts))%nat) ->
  tally won (<[i := set_pc t pc]> ts) = Nat.min 1 (tally counted_in (<[i := set_pc t pc]> ts)) ->
  exclusive b m' (<[i := set_pc t pc]> ts) r'.
Proof.
  intros [Hb Hs Hr Hn Ha Hw Hh Hl] Hi Hb' Ho Hr' Hs' Hn' Ha' Hw'. split; try done.
  - destruct Hr' as [-> | ->]; [destruct Hr as [|Hr]; [by left|]|];
      right; eauto using write_once_handle_outside.
  - intros j u Hj. eapply write_once_handle_outside; [exact Ho|].
    destruct (decide (j = i)) as [->|Hne].
    + rewrite list_lookup_insert_eq in Hj by (by eapply lookup_lt_Some).
      injection Hj as <-. exact (Hh i t Hi).
    + rewrite list_lookup_insert_ne in Hj by done. by eapply Hh.
  - by rewrite length_insert.
Qed.

Lemma counted_small b m ts r i t :
  exclusive b m ts r -> ts !! i = Some t -> t_pc t = AtCount ->
  Z.of_nat (tally counted_in ts) < 2 ^ 31.
Proof.
  intros [] Hi Hpc. pose proof (tally_le_length counted_in ts). lia.
Qed.

(** The tallies of the list a goal speaks about, and the cases of the recorded
    handle the invariant distinguishes. *)
Ltac step_tallies Hi t :=
  match goal with |- exclusive _ _ (<[_ := set_pc _ ?pc]> _) _ => tallies Hi t pc end.
Ltac tally_cases Hn Ha :=
  try (intros; specialize (Ha ltac:(done))); try (intros; specialize (Hn ltac:(tauto))); lia.

(** The five steps. Each is defined and keeps the invariant. *)
Definition keeps (b : bun_buffer) (m : mem) (ts : list thread) (i : nat) (t : thread) : Prop :=
  exists m' pc r', thread_step b m t = Some (m', pc) /\
    exclusive b m' (<[i := set_pc t pc]> ts) r'.

Section Steps.
Context (b : bun_buffer) (m : mem) (ts : list thread) (r : Z) (i : nat) (t : thread).
Hypothesis Hex : exclusive b m ts r.
Hypothesis Hi : ts !! i = Some t.

Lemma enter_keeps : t_pc t = AtEnter -> keeps b m ts i t.
Proof.
  intros Hpc. pose proof Hex as [Hb [Hc Hr] _ Hn Ha Hw Hh _]. destruct (Hh _ _ Hi) as [Hrange _ _].
  unfold keeps, thread_step. rewrite Hpc, decide_False, Hr by (destruct Hb; layout; lia). bind_simpl.
  assert (t_handle t <> NULL) by (unfold NULL; lia).
  destruct (decide (r <> NULL)) as [Hnn|Hnull]; [case_decide|rewrite decide_True by done];
    (eexists m, _, r; split; [reflexivity|]; step_tallies Hi t;
     eapply exclusive_step; eauto using same_outside_refl; [split; [rewrite Hc; do 2 f_equal; lia | done] | ..]);
    tally_cases Hn Ha.
Qed.

Lemma attach_keeps : t_pc t = AtAttach -> keeps b m ts i t.
Proof.
  intros Hpc. pose proof Hex as [Hb [Hc Hr] _ Hn Ha Hw Hh _]. destruct (Hh _ _ Hi) as [Hrange _ _].
  pose proof Hb as []. unfold keeps, thread_step. rewrite Hpc. layout.
  rewrite store_uint_mapped by solve_mapped. bind_simpl.
  eexists _, _, (t_handle t). split; [reflexivity|]. step_tallies Hi t.
  eapply exclusive_step; eauto; [by apply buffer_ok_write | | split; layout; mem_simp | ..].
  - eapply same_outside_weaken; [apply same_outside_write_uint | lia..].
  - rewrite Hc. do 2 f_equal. lia.
  - by mod_small.
  - unfold NULL. lia.
  - lia.
  - lia.
Qed.

(** Past the check of the recorded handle there is a recorded handle. *)
Lemma attached_recorded : attached (t_pc t) = true -> r <> NULL /\ write_once_handle m b r.
Proof.
  intros Hpc. destruct Hex as [_ _ Hr Hn _ _ _ _].
  assert (0 < tally attached ts)%nat as Hpos by (apply tally_pos; by exists i, t).
  destruct (decide (r = NULL)) as [Hnull|]; [specialize (Hn Hnull); lia|]. split; tauto.
Qed.

Lemma claim_keeps : t_pc t = AtClaim -> keeps b m ts i t.
Proof.
  intros Hpc. pose proof Hex as [Hb [Hc Hr] _ Hn Ha Hw Hh _].
  destruct attached_recorded as (Hnn & [_ (flags & Hl & Hf) _]); [by rewrite Hpc|].
  unfold keeps, thread_step. rewrite Hpc, Hr. bind_simpl.
  rewrite decide_True, Hl by done. bind_simpl. rewrite decide_True by exact Hf.
  eexists m, _, r. split; [reflexivity|]. step_tallies Hi t.
  eapply exclusive_step; eauto using same_outside_refl;
    [split; [rewrite Hc; do 2 f_equal; lia | done] | ..]; tally_cases Hn Ha.
Qed.

Lemma count_keeps : t_pc t = AtCount -> keeps b m ts i t.
Proof.
  intros Hpc. pose proof Hex as [Hb [Hc Hr] _ Hn Ha Hw Hh _].
  destruct attached_recorded as (Hnn & _); [by rewrite Hpc|].
  pose proof (counted_small _ _ _ _ _ _ Hex Hi Hpc) as Hsmall.
  pose proof Hb as []. unfold keeps, thread_step, fetch_add_write_count.
  rewrite Hpc, Hc. bind_simpl. layout. rewrite store_uint_mapped by solve_mapped. bind_simpl.
  rewrite i32_small, u32_small by lia.
  case_decide; (eexists _, _, r; split; [reflexivity|]; step_tallies Hi t;
    eapply exclusive_step; eauto;
      [by apply buffer_ok_write
      |eapply same_outside_weaken; [apply same_outside_write_uint | lia..]
      |split; layout; mem_simp; [mod_small; f_equal; lia | exact Hr] | ..]);
    tally_cases Hn Ha.
Qed.

Lemma header_keeps : t_pc t = AtHeader -> keeps b m ts i t.
Proof.
  intros Hpc. pose proof Hex as [Hb [Hc Hr] _ Hn Ha Hw Hh _].
  pose proof Hb as []. unfold keeps, thread_step. rewrite Hpc, init_header_written
    by (unfold bun_buffer_payload; layout; solve_mapped). bind_simpl.
  pose proof (header_written_outside m (bun_buffer_payload b) (t_arch t) (t_tid t)) as Ho.
  eexists _, _, r. split; [reflexivity|]. step_tallies Hi t.
  eapply exclusive_step; eauto.
  - eapply buffer_ok_mapped; [apply header_written_grows | done].
  - eapply same_outside_weaken; [exact Ho | unfold bun_buffer_payload; layout; lia..].
  - split; (erewrite load_uint_same_outside; [|exact Ho|
      unfold disjoint_ranges, bun_buffer_payload; layout; lia]); [|exact Hr].
    rewrite Hc. do 2 f_equal. lia.
  - tally_cases Hn Ha.
  - tally_cases Hn Ha.
  - tally_cases Hn Ha.
Qed.

Lemma thread_keeps : finished (t_pc t) = false -> keeps b m ts i t.
Proof.
  destruct (t_pc t) eqn:Hpc; try done; intros _;
    eauto using enter_keeps, attach_keeps, claim_keeps, count_keeps, header_keeps.
Qed.
End Steps.

(** ** Runs of the system *)

Definition all_finished (s : system) : Prop := Forall (fun t => finished (t_pc t) = true) s.2.

#[export] Instance all_finished_dec s : Decision (all_finished s).
Proof. unfold all_finished. apply _. Defined.

Lemma step_exclusive b s s' r :
  exclusive b s.1 s.2 r -> step b s s' -> exists r', exclusive b s'.1 s'.2 r'.
Proof.
  intros Hex Hst. destruct Hst as [m ts i t m' pc Hi Hf Hs]. cbn [fst snd] in *.
  destruct (thread_keeps b m ts r i t Hex Hi Hf) as (m2 & pc2 & r2 & Hs2 & Hex2).
  rewrite Hs in Hs2. injection Hs2 as <- <-. by exists r2.
Qed.

Lemma run_exclusive b s s' r :
  rtc (step b) s s' -> exclusive b s.1 s.2 r -> exists r', exclusive b s'.1 s'.2 r'.
Proof.
  intros Hrun. revert r. induction Hrun as [s|s1 s2 s3 Hst _ IH]; intros r Hex; [by exists r|].
  destruct (step_exclusive _ _ _ _ Hex Hst) as [r2 Hex2]. by eapply IH.
Qed.

Lemma calls_exclusive b m args :
  buffer_ok m b -> buffer_state m b 0 NULL -> Forall (fun a => write_once_handle m b a.1.1) args ->
  zlen args < 2 ^ 31 -> exclusive b m (calls args) NULL.
Proof.
  intros Hb Hs Hh Hl. split; rewrite ?tally_calls by done; try done.
  - by left.
  - intros i t Hi. unfold calls in Hi. rewrite list_lookup_fmap_Some in Hi.
    destruct Hi as (a & -> & Ha). rewrite Forall_lookup in Hh. exact (Hh _ _ Ha).
  - unfold calls. by rewrite length_fmap.
Qed.

(** An exclusive state has no fault, and one winner once everyone is done. *)
Lemma exclusive_not_faulty b s r : exclusive b s.1 s.2 r -> ~ faulty b s.
Proof.
  intros Hex (i & t & Hi & Hf & Hs).
  destruct (thread_keeps b s.1 s.2 r i t Hex Hi Hf) as (m' & pc & r' & Hs' & _). congruence.
Qed.

Lemma exclusive_finished b s r :
  exclusive b s.1 s.2 r -> all_finished s -> s.2 <> [] -> tally ready s.2 = 1%nat.
Proof.
  intros [_ _ _ Hn Ha Hw _ _] Hfin Hne. unfold all_finished in Hfin. rewrite Forall_lookup in Hfin.
  assert (tally won s.2 <= tally ready s.2)%nat.
  { apply tally_impl. intros i t Hi. specialize (Hfin _ _ Hi). by destruct (t_pc t). }
  assert (tally ready s.2 <= tally won s.2)%nat.
  { apply tally_impl. intros i t Hi. by destruct (t_pc t). }
  assert (0 < tally counted_in s.2)%nat; [|lia].
  destruct (decide (0 < tally attached s.2)%nat) as [(i & t & Hi & Ht)%tally_pos|Hna].
  - apply tally_pos. exists i, t. split; [done|]. specialize (Hfin _ _ Hi). by destruct (t_pc t).
  - destruct (decide (r = NULL)) as [Hr|Hr]; [|specialize (Ha Hr); lia].
    destruct (Hn Hr) as [_ Hrej]. destruct s as [m [|t ts]]; [done|]. cbn [snd] in *.
    specialize (Hfin 0%nat t eq_refl). simpl in Hna, Hrej. destruct (t_pc t); simpl in *; (done || lia).
Qed.

(** ** The header belongs to the winner *)

Definition header_of (b : bun_buffer) (m : mem) (t : thread) : Prop :=
  load_header m (bun_buffer_payload b) =
  Some (Header BUN_HEADER_MAGIC 1 (u16 (t_arch t)) sizeof_payload_header (u32 (t_tid t)) (2 ^ 16 - 1)).

Lemma thread_step_header b m t m' pc :
  buffer_ok m b -> thread_step b m t = Some (m', pc) ->
  if decide (pc = Ready) then t_pc t = AtHeader /\ header_of b m' t
  else same_outside m m' (buffer_data b) payload_header.
Proof.
  intros Hb Hs. pose proof Hb as []. unfold thread_step in Hs. destruct (t_pc t) eqn:Hpc; try done.
  - case_decide; [|apply bind_Some in Hs as (? & _ & Hs)]; repeat case_decide; simplify_eq;
      apply same_outside_refl.
  - apply bind_Some in Hs as (? & Hst & [= <- <-]). rewrite store_uint_mapped in Hst
      by (layout; solve_mapped). injection Hst as <-.
    eapply same_outside_weaken; [apply same_outside_write_uint | layout; lia..].
  - apply bind_Some in Hs as (? & _ & Hs). case_decide;
      [apply bind_Some in Hs as (? & _ & Hs)|]; repeat case_decide; simplify_eq;
      apply same_outside_refl.
  - apply bind_Some in Hs as ([m1 last] & Hst & [= <- <-]).
    unfold fetch_add_write_count in Hst. apply bind_Some in Hst as (old & _ & Hst).
    rewrite store_uint_mapped in Hst by (layout; solve_mapped). injection Hst as <- _.
    rewrite decide_False by (by case_decide).
    eapply same_outside_weaken; [apply same_outside_write_uint | layout; lia..].
  - apply bind_Some in Hs as (m1 & Hst & [= <- <-]). split; [done|].
    rewrite init_header_written in Hst by (unfold bun_buffer_payload; layout; solve_mapped).
    injection Hst as <-. apply header_written_load.
Qed.

Lemma load_header_outside m m' b :
  same_outside m m' (buffer_data b) payload_header ->
  load_header m' (bun_buffer_payload b) = load_header m (bun_buffer_payload b).
Proof.
  intros Ho. unfold load_header, bun_buffer_payload. layout.
  repeat (erewrite (load_uint_same_outside m m'); [|exact Ho|solve_disjoint]). done.
Qed.

Lemma tally_two p ts i j t u :
  ts !! i = Some t -> ts !! j = Some u -> i <> j -> p (t_pc t) = true -> p (t_pc u) = true ->
  p AtEnter = false -> (2 <= tally p ts)%nat.
Proof.
  intros Hi Hj Hne Ht Hu Hp. pose proof (tally_insert p ts i t (set_pc t AtEnter) Hi) as E.
  cbn [set_pc t_pc] in E. rewrite Ht, Hp in E.
  assert (0 < tally p (<[i := set_pc t AtEnter]> ts))%nat; [|lia].
  apply tally_pos. exists j, u. by rewrite list_lookup_insert_ne.
Qed.

(** What holds in every state reached: exclusion, and every call that has
    returned true finds its own values in the header. *)
Definition run_inv (b : bun_buffer) (s : system) : Prop :=
  (exists r, exclusive b s.1 s.2 r) /\
  (forall i t, s.2 !! i = Some t -> t_pc t = Ready -> header_of b s.1 t).

Lemma step_run_inv b s s' : run_inv b s -> step b s s' -> run_inv b s'.
Proof.
  intros [[r Hex] Hh] Hst. destruct (step_exclusive _ _ _ _ Hex Hst) as [r' Hex'].
  split; [by exists r'|]. destruct Hst as [m ts i t m' pc Hi Hf Hs]. cbn [fst snd] in *.
  pose proof (thread_step_header b m t m' pc (ex_buffer _ _ _ _ Hex) Hs) as Hhdr.
  intros j u Hj Hu. destruct (decide (j = i)) as [->|Hne].
  - rewrite list_lookup_insert_eq in Hj by (by eapply lookup_lt_Some). injection Hj as <-.
    simpl in Hu. rewrite decide_True in Hhdr by done. exact (proj2 Hhdr).
  - rewrite list_lookup_insert_ne in Hj by done. case_decide as Hpc.
    + exfalso. assert (2 <= tally won (<[i := set_pc t pc]> ts))%nat.
      { apply (tally_two won _ i j (set_pc t pc) u).
        - apply list_lookup_insert_eq. by eapply lookup_lt_Some.
        - by rewrite list_lookup_insert_ne.
        - congruence.
        - simpl. by rewrite Hpc.
        - by rewrite Hu.
        - done. }
      pose proof (ex_won _ _ _ _ Hex'). lia.
    + unfold header_of. rewrite (load_header_outside m) by done. by eapply Hh.
Qed.

Lemma rtc_run_inv b s s' : rtc (step b) s s' -> run_inv b s -> run_inv b s'.
Proof. induction 1; eauto using step_run_inv. Qed.

Lemma calls_run_inv b m args :
  buffer_ok m b -> buffer_state m b 0 NULL -> Forall (fun a => write_once_handle m b a.1.1) args ->
  zlen args < 2 ^ 31 -> run_inv b (m, calls args).
Proof.
  intros Hb Hs Hh Hl. split; [exists NULL; by apply calls_exclusive|].
  intros i t Hi Ht. unfold calls in Hi. simpl in Hi. rewrite list_lookup_fmap_Some in Hi.
  by destruct Hi as (a & -> & _).
Qed.

Lemma rtc_length b s s' : rtc (step b) s s' -> length s'.2 = length s.2.
Proof.
  induction 1 as [|s1 s2 s3 Hst _ IH]; [done|]. rewrite IH.
  destruct Hst. simpl. by rewrite length_insert.
Qed.

(** ** Termination *)

Definition steps_left (pc : progress) : nat :=
  match pc with
  | AtEnter => 5 | AtAttach => 4 | AtClaim => 3 | AtCount => 2 | AtHeader => 1
  | Rejected | Used | Ready => 0
  end.

Fixpoint total_left (ts : list thread) : nat :=
  match ts with [] => 0 | t :: ts => steps_left (t_pc t) + total_left ts end.

Lemma total_left_insert ts i t t' :
  ts !! i = Some t ->
  (total_left (<[i := t']> ts) + steps_left (t_pc t) = total_left ts + steps_left (t_pc t'))%nat.
Proof.
  revert i. induction ts as [|u ts IH]; intros [|i] H; [done..| |]; simpl in *.
  - injection H as ->. lia.
  - specialize (IH _ H). lia.
Qed.

Lemma thread_step_left b m t m' pc :
  thread_step b m t = Some (m', pc) -> (steps_left pc < steps_left (t_pc t))%nat.
Proof.
  unfold thread_step. destruct (t_pc t); try done; intros H;
    repeat first
      [ case_decide
      | progress simplify_eq
      | match type of H with
        | _ ≫= _ = Some _ => apply bind_Some in H as (? & _ & H)
        | (let '(_, _) := ?p in _) = Some _ => destruct p
        end ]; simpl; lia.
Qed.

Lemma step_left b s s' : step b s s' -> (total_left s'.2 < total_left s.2)%nat.
Proof.
  intros [m ts i t m' pc Hi _ Hs]. simpl. apply thread_step_left in Hs.
  pose proof (total_left_insert ts i t (set_pc t pc) Hi) as E. simpl in E. lia.
Qed.

Lemma nsteps_left b n s s' : nsteps (step b) n s s' -> (n + total_left s'.2 <= total_left s.2)%nat.
Proof. induction 1 as [|n s1 s2 s3 Hst _ IH]; [lia|]. apply step_left in Hst. lia. Qed.

Lemma total_left_calls args : total_left (calls args) = (5 * length args)%nat.
Proof. induction args; simpl in *; lia. Qed.

(** An unfinished state can move. *)
Lemma exclusive_moves b s r :
  exclusive b s.1 s.2 r -> ~ all_finished s -> exists s', step b s s'.
Proof.
  intros Hex Hn. apply not_Forall_Exists in Hn; [|apply _].
  apply Exists_exists in Hn as (t & [i Hi]%list_elem_of_lookup & Ht).
  assert (finished (t_pc t) = false) as Hf by (simpl in Ht; destruct (finished (t_pc t)); done).
  destruct (thread_keeps b s.1 s.2 r i t Hex Hi Hf) as (m' & pc & r' & Hs & _).
  destruct s as [m ts]. eexists. by eapply step_thread.
Qed.

Lemma exclusive_ends b s r :
  exclusive b s.1 s.2 r -> exists s', rtc (step b) s s' /\ all_finished s'.
Proof.
  remember (total_left s.2) as n eqn:Hn. revert s r Hn.
  induction n as [n IH] using lt_wf_ind. intros s r -> Hex.
  destruct (decide (all_finished s)) as [Hf|Hf]; [exists s; split; [apply rtc_refl | done]|].
  destruct (exclusive_moves _ _ _ Hex Hf) as [s1 Hst].
  destruct (step_exclusive _ _ _ _ Hex Hst) as [r1 Hex1].
  destruct (IH (total_left s1.2) (step_left _ _ _ Hst) s1 r1 eq_refl Hex1) as (s' & Hrun & Hfin).
  exists s'. split; [by eapply rtc_l | done].
Qed.

(** ** Repeated calls from one thread *)

(** The memory after [n] calls with the same arguments, whatever they return. *)
Fixpoint attempts (n : nat) (m : mem) (b : bun_buffer) (arch h tid : Z) : option mem :=
  match n with
  | O => Some m
  | S n => m ← attempts n m b arch h tid; '(m, _) ← bun_writer_init m b arch h tid; Some m
  end.

(** One more call when the counter stands at [c]. *)
Lemma writer_init_counts m b arch h tid c r :
  buffer_ok m b -> write_once_handle m b h -> buffer_state m b c r -> r = NULL \/ r = h ->
  exists m' res, bun_writer_init m b arch h tid = Some (m', res) /\
    (is_Some res <-> i32 c <= 0) /\ buffer_ok m' b /\ write_once_handle m' b h /\
    buffer_state m' b (u32 (c + 1)) h.
Proof.
  intros Hb Hw Hs Hr. pose proof Hw as [Hrange (flags & Hl & Hf) Hd].
  assert (effective_handle r h = h) as He.
  { unfold effective_handle. case_decide; [|done]. destruct Hr; [done | congruence]. }
  assert (~ handle_conflict r h) as Hc by (unfold handle_conflict; intuition congruence).
  assert (counts h flags) as Hcount by (split; [unfold NULL; lia | done]).
  erewrite writer_init_cases; [|done|lia|done|rewrite He; by intros _].
  rewrite decide_False, He by done. cbv zeta.
  set (m1 := claimed_mem (attached_mem m b r h) b h flags c).
  assert (buffer_ok m1 b) as Hb1 by (by apply claimed_buffer_ok, attached_buffer_ok).
  assert (buffer_state m1 b (u32 (c + 1)) h) as Hs1.
  { apply (attached_state _ _ _ _ h) in Hs; [|lia]. rewrite He in Hs.
    apply (claimed_state _ _ _ flags) in Hs. unfold next_count in Hs.
    by rewrite decide_True in Hs. }
  assert (same_outside m m1 (buffer_data b) 38) as Ho1.
  { apply same_outside_trans with (attached_mem m b r h); eapply same_outside_weaken;
      [apply attached_outside | | | apply claimed_outside | |]; layout; lia. }
  case_decide as Hlast.
  - exists m1, None. split_and!; eauto using write_once_handle_outside; try apply Hs1.
    split; [by intros [] | lia].
  - pose proof (header_written_outside m1 (bun_buffer_payload b) arch tid) as Ho.
    exists (header_written m1 (bun_buffer_payload b) arch tid), (Some (initial_base b h)).
    split_and!; [done | | eapply buffer_ok_mapped; [apply header_written_grows | done] | |].
    + split; [|by eauto]. intros _. destruct (decide (i32 c <= 0)); [done|].
      exfalso. apply Hlast. split; [done | lia].
    + eapply write_once_handle_outside; [|done]. eapply same_outside_trans; [done|].
      eapply same_outside_weaken; [exact Ho | unfold bun_buffer_payload; layout; lia..].
    + destruct Hs1. split; (erewrite load_uint_same_outside; [|exact Ho|]); try done;
        unfold disjoint_ranges, bun_buffer_payload; layout; lia.
Qed.

Lemma attempts_state m b arch h tid n :
  buffer_ok m b -> write_once_handle m b h -> buffer_state m b 0 NULL ->
  exists m' r, attempts n m b arch h tid = Some m' /\ buffer_ok m' b /\ write_once_handle m' b h /\
    buffer_state m' b (u32 (Z.of_nat n)) r /\ (r = NULL \/ r = h).
Proof.
  intros Hb Hw Hs. induction n as [|n (m1 & r & IH & Hb1 & Hw1 & Hs1 & Hr)].
  { exists m, NULL. split_and!; try done; try apply Hs. by left. }
  destruct (writer_init_counts m1 b arch h tid _ r Hb1 Hw1 Hs1 Hr)
    as (m2 & res & H & _ & Hb2 & Hw2 & Hs2).
  exists m2, h. cbn [attempts]. rewrite IH. bind_simpl. rewrite H. bind_simpl.
  split_and!; try done; [|by right].
  replace (u32 (Z.of_nat (S n))) with (u32 (u32 (Z.of_nat n) + 1)); [done|].
  unfold u32. rewrite Zplus_mod_idemp_l. f_equal. lia.
Qed.

Lemma i32_nonpos c : 0 <= c < 2 ^ 32 -> i32 c <= 0 <-> c = 0 \/ 2 ^ 31 <= c.
Proof.
  intros Hc. unfold i32. destruct (decide (c < 2 ^ 31)).
  - rewrite Z.mod_small by lia. lia.
  - replace (c + 2 ^ 31) with ((c - 2 ^ 31) + 1 * 2 ^ 32) by lia.
    rewrite Z.mod_add, Z.mod_small by lia. lia.
Qed.

(** ** The steps of an uninterrupted call *)

Lemma run_alone_S fuel b m t :
  run_alone (S fuel) b m t =
  if finished (t_pc t) then Some (m, t_pc t)
  else '(m, pc) ← thread_step b m t; run_alone fuel b m (set_pc t pc).
Proof. done. Qed.

Lemma run_header n b m h arch tid :
  run_alone (S (S n)) b m (Thread h arch tid AtHeader) =
  (m ← init_header m (bun_buffer_payload b) arch tid; Some (m, Ready)).
Proof.
  rewrite run_alone_S. cbn [t_pc finished thread_step t_arch t_tid].
  by destruct (init_header _ _ _ _).
Qed.

Lemma run_claim n b m h arch tid :
  run_alone (S (S (S (S n)))) b m (Thread h arch tid AtClaim) =
  ('(m, claimed) ← claim_write_once m b;
   if (claimed : bool) then m ← init_header m (bun_buffer_payload b) arch tid; Some (m, Ready)
   else Some (m, Used)).
Proof.
  rewrite run_alone_S. cbn [t_pc finished thread_step]. unfold claim_write_once.
  destruct (load_uint m (buffer_data b + payload_handle) 8) as [r|]; [|done]. bind_simpl.
  destruct (decide (r <> NULL)); [|apply (run_header (S n))].
  destruct (load_uint m (r + handle_flags) 8) as [flags|]; [|done]. bind_simpl.
  destruct (decide (Z.land flags BUN_HANDLE_WRITE_ONCE <> 0)); [|apply (run_header (S n))].
  rewrite run_alone_S. cbn [t_pc set_pc finished thread_step].
  destruct (fetch_add_write_count m b) as [[m1 last]|]; [|done]. bind_simpl.
  destruct (decide (last > 0)); [by rewrite bool_decide_false by tauto|].
  rewrite bool_decide_true by done. apply (run_header n).
Qed.

(** ** Theorems *)


(** C5: a write-once buffer goes to one caller. However the calls of fewer than
    2^31 threads with write-once handles, the same or different ones, are interleaved
    on a fresh buffer, no thread ever faults, at most one is past the counter, every
    thread that has returned true finds its own architecture and thread id in the
    header, and once all calls have returned exactly one of them has returned true. *)
Theorem write_once_exclusive b m args s :
  buffer_ok m b -> buffer_state m b 0 NULL ->
  Forall (fun a => write_once_handle m b a.1.1) args -> zlen args < 2 ^ 31 ->
  rtc (step b) (m, calls args) s ->
  ~ faulty b s /\ (tally won s.2 <= 1)%nat /\
  (forall i t, s.2 !! i = Some t -> t_pc t = Ready -> header_of b s.1 t) /\
  (all_finished s -> args <> [] -> tally ready s.2 = 1%nat).
Proof.
  intros Hb Hs Hh Hl Hrun. pose proof (rtc_length _ _ _ Hrun) as Hlen.
  destruct (rtc_run_inv _ _ _ Hrun (calls_run_inv _ _ _ Hb Hs Hh Hl)) as [[r Hex] Hhdr].
  split_and!; [by eapply exclusive_not_faulty | rewrite (ex_won _ _ _ _ Hex); lia | done |].
  intros Hfin Hne. eapply exclusive_finished; [done..|]. intros E. rewrite E in Hlen.
  simpl in Hlen. unfold calls in Hlen. rewrite length_fmap in Hlen. by destruct args.
Qed.

(** concurrent initialisation ends. From a fresh buffer no interleaving has
    more than five steps per thread, and every interleaving can be continued until
    all calls have returned: no thread ever waits for another. *)
Theorem write_once_ends b m args :
  buffer_ok m b -> buffer_state m b 0 NULL ->
  Forall (fun a => write_once_handle m b a.1.1) args -> zlen args < 2 ^ 31 ->
  (forall n s, nsteps (step b) n (m, calls args) s -> (n <= 5 * length args)%nat) /\
  (forall s, rtc (step b) (m, calls args) s -> exists s', rtc (step b) s s' /\ all_finished s').
Proof.
  intros Hb Hs Hh Hl. split.
  - intros n s Hn%nsteps_left. simpl in Hn. rewrite total_left_calls in Hn. lia.
  - intros s Hrun. destruct (run_exclusive _ _ _ NULL Hrun) as [r Hex]; [by apply calls_exclusive|].
    by eapply exclusive_ends.
Qed.

(** the write-once counter wraps. After [n] calls on a fresh buffer with one
    write-once handle the next call succeeds exactly when [n] modulo 2^32 is zero or
    at least 2^31: the counter is an unsigned integer whose old value is compared as
    a signed one, so after 2^31 refused calls the buffer is handed out again. *)
Theorem write_once_wraps m b arch h tid n :
  buffer_ok m b -> write_once_handle m b h -> buffer_state m b 0 NULL ->
  exists m1 m2 res, attempts n m b arch h tid = Some m1 /\
    bun_writer_init m1 b arch h tid = Some (m2, res) /\
    (is_Some res <-> Z.of_nat n `mod` 2 ^ 32 = 0 \/ 2 ^ 31 <= Z.of_nat n `mod` 2 ^ 32).
Proof.
  intros Hb Hw Hs. destruct (attempts_state m b arch h tid n Hb Hw Hs)
    as (m1 & r & Ha & Hb1 & Hw1 & Hs1 & Hr).
  destruct (writer_init_counts m1 b arch h tid _ r Hb1 Hw1 Hs1 Hr) as (m2 & res & H & Hres & _).
  exists m1, m2, res. split_and!; [done..|]. rewrite Hres. apply i32_nonpos, u32_range.
Qed.

(** ** Witnesses *)

(** Two threads with two write-once handles on the fresh buffer of [sample_mem]. *)
Definition race_mem : mem :=
  mem_of [(0x1000, replicate 128 NUL); (0x2000, sample_handle); (0x2100, sample_handle)].
Definition race_args : list (Z * Z * Z) := [(0x2000, 2, 77); (0x2100, 2, 78)].

Lemma race_handle h : h = 0x2000 \/ h = 0x2100 -> write_once_handle race_mem sample_buffer h.
Proof.
  intros Hh. split; [lia | exists 1 | unfold disjoint_ranges; simpl; layout; unfold handle_flags; lia].
  destruct Hh as [-> | ->]; by_compute.
Qed.

Lemma race_handles : Forall (fun a => write_once_handle race_mem sample_buffer a.1.1) race_args.
Proof.
  unfold race_args. rewrite !Forall_cons, Forall_nil.
  split; [apply race_handle; by left | split; [apply race_handle; by right | done]].
Qed.

(** Both threads find no handle, both store theirs; the second to count is refused. *)
Definition run_step (s : system) (i : nat) : option system :=
  t ← s.2 !! i;
  if finished (t_pc t) then None
  else '(m, pc) ← thread_step sample_buffer s.1 t; Some (m, <[i := set_pc t pc]> s.2).

Fixpoint run_schedule (s : system) (l : list nat) : option system :=
  match l with [] => Some s | i :: l => s ← run_step s i; run_schedule s l end.

Lemma run_schedule_rtc s l s' : run_schedule s l = Some s' -> rtc (step sample_buffer) s s'.
Proof.
  revert s. induction l as [|i l IH]; intros s H; simpl in H; [injection H as ->; apply rtc_refl|].
  apply bind_Some in H as (s1 & H & Hl). eapply rtc_l; [|by apply IH].
  destruct s as [m ts]. apply bind_Some in H as (t & Hi & H). destruct (finished (t_pc t)) eqn:Hf; [done|].
  apply bind_Some in H as ([m' pc] & Hs & [= <-]). by apply step_thread.
Qed.

Definition race_schedule : list nat := [0; 1; 0; 1; 0; 1; 1; 0; 1]%nat.

Lemma write_once_exclusive_witness :
  exists s, run_schedule (race_mem, calls race_args) race_schedule = Some s /\
    t_pc <$> s.2 = [Used; Ready] /\ tally ready s.2 = 1%nat.
Proof.
  destruct (run_schedule (race_mem, calls race_args) race_schedule) as [s|] eqn:E;
    [|exfalso; vm_compute in E; discriminate].
  exists s. split; [reflexivity|].
  assert (t_pc <$> s.2 = [Used; Ready]) as Hpc.
  { assert ((fun s : system => t_pc <$> s.2) <$> run_schedule (race_mem, calls race_args) race_schedule
      = Some [Used; Ready]) as H by (vm_compute; reflexivity).
    rewrite E in H. by injection H. }
  split; [exact Hpc|].
  apply (write_once_exclusive sample_buffer race_mem race_args s);
    [by_compute | by_compute | exact race_handles | by_compute
    | exact (run_schedule_rtc _ _ _ E) | | discriminate].
  change (Forall ((fun pc => finished pc = true) ∘ t_pc) s.2). rewrite <- Forall_fmap, Hpc.
  by_compute.
Defined.

Lemma write_once_ends_witness :
  exists s, rtc (step sample_buffer) (race_mem, calls race_args) s /\ all_finished s.
Proof.
  destruct (write_once_ends sample_buffer race_mem race_args) as [_ H];
    [by_compute | by_compute | exact race_handles | by_compute |].
  apply H, rtc_refl.
Defined.

Lemma write_once_wraps_witness :
  exists m1 m2, attempts 1 race_mem sample_buffer 2 0x2000 77 = Some m1 /\
    bun_writer_init m1 sample_buffer 2 0x2000 77 = Some (m2, None).
Proof.
  destruct (write_once_wraps race_mem sample_buffer 2 0x2000 77 1)
    as (m1 & m2 & res & H1 & H2 & Hres); [by_compute | apply race_handle; by left | by_compute |].
  exists m1, m2. split; [exact H1|]. destruct res as [w|]; [|exact H2].
  exfalso. destruct Hres as [Hres _]. destruct Hres as [H|H]; [by eexists | |];
    vm_compute in H; [discriminate | apply H; reflexivity].
Defined.
