(* ===== verification/Handle.v ===== *)
(** * Handles and dispatch to the backends (src/bun.c, the initialisers of the backends)

    A handle is a structure in memory whose first four words are function
    pointers. [bun_handle_init] clears it and lets the selected backend fill it in;
    the other functions of bun.c call through it. Functions are values of an
    enumeration, their addresses are those the linker chose. *)

From stdpp Require Import gmap.
From S2P Require Import Prelude Memory Stream.

(** ** Functions and their addresses *)

(** The functions whose address the initialisers store. *)
Inductive function : Set :=
| libunwind_unwind
| libunwind_unwind_remote
| libunwind_destroy_handle
| libbacktrace_unwind
| libbacktrace_destroy
| libunwindstack_unwind
| libunwindstack_unwind_context
| libunwindstack_unwind_remote
| libunwindstack_destroy_handle.

#[export] Instance function_eq_dec : EqDecision function.
Proof. solve_decision. Defined.

Definition functions : list function := [
  libunwind_unwind; libunwind_unwind_remote; libunwind_destroy_handle;
  libbacktrace_unwind; libbacktrace_destroy;
  libunwindstack_unwind; libunwindstack_unwind_context; libunwindstack_unwind_remote;
  libunwindstack_destroy_handle ].

(** Where the linker put the functions: at different addresses, none null. *)
Class Linked (address_of : function -> Z) : Prop := {
  linked_range f : 0 < address_of f < 2 ^ 64;
  linked_inj :: Inj (=) (=) address_of
}.

Section Dispatch.
Context (address_of : function -> Z).

(** A call through a pointer: undefined unless it points to a function. *)
Definition function_at (p : Z) : option function :=
  snd <$> list_find (fun f => address_of f = p) functions.

Definition called (m : mem) (h slot : Z) : option function :=
  p ← load_uint m (h + slot) 8; function_at p.

Definition store_function (m : mem) (h slot : Z) (f : function) : option mem :=
  store_uint m (h + slot) 8 (address_of f).

(** ** The initialisers of the backends *)

(** [allocated] is what [malloc] returns for the 8 bytes of the context, [space]
    what [unw_create_addr_space] returns. *)
Definition bun_internal_initialize_libunwind (m : mem) (live : heap) (h allocated space : Z)
  : option (mem * heap * bool) :=
  if decide (allocated = NULL) then Some (m, live, false)
  else
    m ← store_uint m allocated 8 space;
    m ← store_uint m (h + handle_backend_context) 8 allocated;
    m ← store_function m h handle_unwind libunwind_unwind;
    m ← store_function m h handle_unwind_remote libunwind_unwind_remote;
    m ← store_function m h handle_destroy libunwind_destroy_handle;
    Some (m, ({[allocated]} ∪ live), true).

Definition bun_internal_initialize_libbacktrace (m : mem) (live : heap) (h : Z)
  : option (mem * heap * bool) :=
  m ← store_function m h handle_unwind libbacktrace_unwind;
  m ← store_function m h handle_destroy libbacktrace_destroy;
  Some (m, live, true).

(** [i386] is whether the library is built for that processor. *)
Definition bun_internal_initialize_libunwindstack (i386 : bool) (m : mem) (live : heap) (h : Z)
  : option (mem * heap * bool) :=
  if i386 then Some (m, live, false)
  else
    m ← store_function m h handle_unwind libunwindstack_unwind;
    m ← store_function m h handle_unwind_context libunwindstack_unwind_context;
    m ← store_function m h handle_unwind_remote libunwindstack_unwind_remote;
    m ← store_function m h handle_destroy libunwindstack_destroy_handle;
    Some (m, live, true).

(** ** bun.c *)

(** Which backends are compiled in (BUN_..._ENABLED), and for which processor. *)
Record configuration := Configuration {
  LIBUNWIND_ENABLED : bool;
  LIBBACKTRACE_ENABLED : bool;
  LIBUNWINDSTACK_ENABLED : bool;
  for_i386 : bool
}.

Definition bun_handle_init (cfg : configuration) (m : mem) (live : heap) (h backend : Z)
    (allocated space : Z) : option (mem * heap * bool) :=
  m ← memset m h NUL (Z.to_nat sizeof_handle);
  if LIBUNWIND_ENABLED cfg && bool_decide (backend = BUN_BACKEND_LIBUNWIND) then
    bun_internal_initialize_libunwind m live h allocated space
  else if LIBBACKTRACE_ENABLED cfg && bool_decide (backend = BUN_BACKEND_LIBBACKTRACE) then
    bun_internal_initialize_libbacktrace m live h
  else if LIBUNWINDSTACK_ENABLED cfg && bool_decide (backend = BUN_BACKEND_LIBUNWINDSTACK) then
    bun_internal_initialize_libunwindstack (for_i386 cfg) m live h
  else Some (m, live, false).

(** The destructors of the backends. *)
Definition destroy (m : mem) (live : heap) (h : Z) (f : function) : option heap :=
  match f with
  | libunwind_destroy_handle =>
      context ← load_uint m (h + handle_backend_context) 8; free live context
  | libbacktrace_destroy | libunwindstack_destroy_handle => Some live
  | _ => None
  end.

Definition bun_handle_deinit (m : mem) (live : heap) (h : Z) : option heap :=
  f ← called m h handle_destroy; destroy m live h f.

(** The unwinding functions call through their slot; [call] is what the function
    they reach does with the buffer. *)
Definition bun_unwind {A} (m : mem) (h : Z) (call : function -> option A) : option A :=
  f ← called m h handle_unwind; call f.
Definition bun_unwind_context {A} (m : mem) (h : Z) (call : function -> option A) : option A :=
  f ← called m h handle_unwind_context; call f.
Definition bun_unwind_remote {A} (m : mem) (h : Z) (call : function -> option A) : option A :=
  f ← called m h handle_unwind_remote; call f.
End Dispatch.

(** ** What a backend offers *)

Inductive backend : Set := Libunwind | Libbacktrace | Libunwindstack.

#[export] Instance backend_eq_dec : EqDecision backend.
Proof. solve_decision. Defined.

Definition backend_value (k : backend) : Z :=
  match k with
  | Libunwind => BUN_BACKEND_LIBUNWIND
  | Libbacktrace => BUN_BACKEND_LIBBACKTRACE
  | Libunwindstack => BUN_BACKEND_LIBUNWINDSTACK
  end.

Definition backend_enabled (cfg : configuration) (k : backend) : bool :=
  match k with
  | Libunwind => LIBUNWIND_ENABLED cfg
  | Libbacktrace => LIBBACKTRACE_ENABLED cfg
  | Libunwindstack => LIBUNWINDSTACK_ENABLED cfg
  end.

(** The four slots as each backend fills them; [None] is a null pointer. *)
Definition slots (k : backend) : option function * option function * option function * function :=
  match k with
  | Libunwind => (Some libunwind_unwind, None, Some libunwind_unwind_remote, libunwind_destroy_handle)
  | Libbacktrace => (Some libbacktrace_unwind, None, None, libbacktrace_destroy)
  | Libunwindstack =>
      (Some libunwindstack_unwind, Some libunwindstack_unwind_context,
       Some libunwindstack_unwind_remote, libunwindstack_destroy_handle)
  end.

(** ** The fields of a handle *)

Record handle_fields := Fields {
  f_unwind : Z; f_unwind_context : Z; f_unwind_remote : Z; f_destroy : Z;
  f_backend_context : Z; f_flags : Z; f_write_count : Z
}.

Definition load_handle (m : mem) (h : Z) : option handle_fields :=
  u ← load_uint m (h + handle_unwind) 8;
  uc ← load_uint m (h + handle_unwind_context) 8;
  ur ← load_uint m (h + handle_unwind_remote) 8;
  d ← load_uint m (h + handle_destroy) 8;
  c ← load_uint m (h + handle_backend_context) 8;
  fl ← load_uint m (h + handle_flags) 8;
  n ← load_uint m (h + handle_write_count) 4;
  Some (Fields u uc ur d c fl n).

Ltac handle_layout := unfold handle_unwind, handle_unwind_context, handle_unwind_remote,
  handle_destroy, handle_backend_context, handle_flags, handle_write_count, sizeof_handle in *.

Lemma load_handle_zeros m h :
  load_handle (write_bytes m h (replicate 56 NUL)) h = Some (Fields 0 0 0 0 0 0 0).
Proof.
  unfold load_handle. handle_layout. by do 7 (rewrite load_uint_zeros by lia; bind_simpl).
Qed.

Section Lemmas.
Context {address_of : function -> Z} `{!Linked address_of}.

Lemma function_at_address f : function_at address_of (address_of f) = Some f.
Proof.
  unfold function_at.
  destruct (list_find (fun g => address_of g = address_of f) functions) as [[i g]|] eqn:E.
  - apply list_find_Some in E as (_ & Hg%(inj address_of) & _). by simplify_eq.
  - exfalso. apply list_find_None in E. rewrite Forall_forall in E. apply (E f); [|done].
    unfold functions. destruct f; set_solver.
Qed.

Lemma function_at_null : function_at address_of NULL = None.
Proof.
  unfold function_at.
  destruct (list_find (fun g => address_of g = NULL) functions) as [[i g]|] eqn:E; [|done].
  apply list_find_Some in E as (_ & Hg & _). pose proof (linked_range g). unfold NULL in *. lia.
Qed.

(** What the slots of a loaded handle call. *)
Lemma called_fields m h fs :
  load_handle m h = Some fs ->
  called address_of m h handle_unwind = function_at address_of (f_unwind fs) /\
  called address_of m h handle_unwind_context = function_at address_of (f_unwind_context fs) /\
  called address_of m h handle_unwind_remote = function_at address_of (f_unwind_remote fs) /\
  called address_of m h handle_destroy = function_at address_of (f_destroy fs).
Proof.
  unfold load_handle, called. intros H. bind_inv H. injection H as <-.
  rewrite Hx, Hx0, Hx1, Hx2. done.
Qed.

(** The address a slot holds for an optional function. *)
Definition slot_value (f : option function) : Z := default NULL (address_of <$> f).

Lemma function_at_slot f : function_at address_of (slot_value f) = f.
Proof. destruct f; [apply function_at_address | apply function_at_null]. Qed.

(** The handle a backend leaves, with context [c]. *)
Definition filled (k : backend) (c : Z) : handle_fields :=
  Fields (slot_value (slots k).1.1.1) (slot_value (slots k).1.1.2) (slot_value (slots k).1.2)
    (address_of (slots k).2) c 0 0.

(** Stores to the slots of a cleared handle. *)
Ltac store_slots :=
  unfold store_function; handle_layout;
  repeat (rewrite store_uint_mapped by solve_mapped; bind_simpl);
  eexists; split; [reflexivity|].

Lemma initialize_libbacktrace m live h :
  mapped m h sizeof_handle -> load_handle m h = Some (Fields 0 0 0 0 0 0 0) ->
  exists m', bun_internal_initialize_libbacktrace address_of m live h = Some (m', live, true) /\
    load_handle m' h = Some (filled Libbacktrace 0) /\
    same_outside m m' h sizeof_handle.
Proof.
  intros Hm Hh. unfold bun_internal_initialize_libbacktrace. store_slots.
  pose proof (linked_range libbacktrace_unwind). pose proof (linked_range libbacktrace_destroy).
  unfold load_handle in *. bind_inv Hh. handle_layout. injection Hh as -> -> -> -> -> -> ->. split.
  - mem_simp. rewrite Hx0, Hx1, Hx3, Hx4, Hx5. bind_simpl. unfold filled. simpl. by mod_small.
  - repeat (eapply same_outside_trans; [|eapply same_outside_weaken;
      [apply same_outside_write_uint | lia..]]). apply same_outside_refl.
Qed.

Lemma initialize_libunwindstack m live h :
  mapped m h sizeof_handle -> load_handle m h = Some (Fields 0 0 0 0 0 0 0) ->
  exists m', bun_internal_initialize_libunwindstack address_of false m live h = Some (m', live, true) /\
    load_handle m' h = Some (filled Libunwindstack 0) /\
    same_outside m m' h sizeof_handle.
Proof.
  intros Hm Hh. unfold bun_internal_initialize_libunwindstack. store_slots.
  pose proof (linked_range libunwindstack_unwind).
  pose proof (linked_range libunwindstack_unwind_context).
  pose proof (linked_range libunwindstack_unwind_remote).
  pose proof (linked_range libunwindstack_destroy_handle).
  unfold load_handle in *. bind_inv Hh. handle_layout. injection Hh as -> -> -> -> -> -> ->. split.
  - mem_simp. rewrite Hx3, Hx4, Hx5. bind_simpl. unfold filled. simpl. by mod_small.
  - repeat (eapply same_outside_trans; [|eapply same_outside_weaken;
      [apply same_outside_write_uint | lia..]]). apply same_outside_refl.
Qed.

Lemma deinit_filled m live h k c :
  load_handle m h = Some (filled k c) ->
  bun_handle_deinit address_of m live h = (if decide (k = Libunwind) then free live c else Some live).
Proof.
  intros Hf. destruct (called_fields _ _ _ Hf) as (_ & _ & _ & C4).
  unfold load_handle in Hf. bind_inv Hf. injection Hf as _ _ _ _ -> _ _.
  unfold bun_handle_deinit. rewrite C4. unfold filled. cbn [f_destroy].
  rewrite function_at_address. bind_simpl. destruct k; cbn [slots snd destroy]; [|done..].
  by rewrite Hx3.
Qed.

(** What the code relies on [malloc] for: null, or a new mapped block away from
    the handle. *)
Definition malloc_ok (m : mem) (live : heap) (h p n : Z) : Prop :=
  p <> NULL -> 0 < p < 2 ^ 64 /\ ~ (p ∈ live) /\ mapped m p n /\ disjoint_ranges h sizeof_handle p n.

Lemma initialize_libunwind m live h p space :
  mapped m h sizeof_handle -> load_handle m h = Some (Fields 0 0 0 0 0 0 0) ->
  malloc_ok m live h p 8 -> p <> NULL ->
  exists m', bun_internal_initialize_libunwind address_of m live h p space =
      Some (m', ({[p]} ∪ live), true) /\
    load_handle m' h = Some (filled Libunwind p).
Proof.
  intros Hm Hh Hp Hn. destruct (Hp Hn) as (Hr & _ & Hpm & Hd).
  unfold bun_internal_initialize_libunwind. rewrite decide_False by done. store_slots.
  pose proof (linked_range libunwind_unwind).
  pose proof (linked_range libunwind_unwind_remote).
  pose proof (linked_range libunwind_destroy_handle).
  unfold load_handle, disjoint_ranges in *. bind_inv Hh. handle_layout.
  injection Hh as -> -> -> -> -> -> ->.
  mem_simp. rewrite Hx0, Hx4, Hx5. bind_simpl. unfold filled. simpl. by mod_small.
Qed.

(** The backends that [bun_handle_init] can set up. *)
Definition available_backend (cfg : configuration) (allocated : Z) (k : backend) : Prop :=
  backend_enabled cfg k = true /\ (k = Libunwind -> allocated <> NULL) /\
  (k = Libunwindstack -> for_i386 cfg = false).

#[export] Instance available_backend_dec cfg allocated k : Decision (available_backend cfg allocated k).
Proof. unfold available_backend. apply _. Defined.

Lemma backend_value_inj : Inj (=) (=) backend_value.
Proof. intros [] []; done. Qed.

Definition context_of (k : backend) (allocated : Z) : Z :=
  match k with Libunwind => allocated | _ => 0 end.
Definition heap_after (k : backend) (live : heap) (allocated : Z) : heap :=
  match k with Libunwind => {[allocated]} ∪ live | _ => live end.

Lemma handle_init_memset m h :
  mapped m h sizeof_handle ->
  memset m h NUL (Z.to_nat sizeof_handle) = Some (write_bytes m h (replicate 56 NUL)).
Proof. intros Hm. unfold memset, sizeof_handle in *. apply store_mapped. rewrite zlen_replicate. exact Hm. Qed.

Lemma malloc_ok_mapped m m' live h p n : grows m m' -> malloc_ok m live h p n -> malloc_ok m' live h p n.
Proof. intros Hg Hp Hn. destruct (Hp Hn) as (? & ? & ? & ?). eauto using mapped_grows. Qed.

(** [bun_handle_init] for a backend that can be set up, and for everything else. *)
Lemma handle_init_success cfg m live h k allocated space :
  mapped m h sizeof_handle -> malloc_ok m live h allocated 8 -> available_backend cfg allocated k ->
  exists m', bun_handle_init address_of cfg m live h (backend_value k) allocated space =
      Some (m', heap_after k live allocated, true) /\
    load_handle m' h = Some (filled k (context_of k allocated)).
Proof.
  intros Hm Hp (He & Hn & Hi). unfold bun_handle_init.
  rewrite handle_init_memset by done. bind_simpl.
  pose proof (load_handle_zeros m h) as Hz. pose proof (grows_write m h (replicate 56 NUL)) as Hg.
  revert Hz Hg. generalize (write_bytes m h (replicate 56 NUL)). intros m0 Hz Hg.
  eapply mapped_grows in Hm; [|exact Hg]. eapply malloc_ok_mapped in Hp; [|exact Hg].
  destruct k; cbn [backend_enabled] in He; rewrite He; cbn [andb backend_value].
  - rewrite bool_decide_true by done. apply initialize_libunwind; eauto.
  - rewrite andb_false_r.
    destruct (initialize_libbacktrace _ live h Hm Hz) as (m' & H1 & H2 & _). by exists m'.
  - rewrite !andb_false_r, Hi by done.
    destruct (initialize_libunwindstack _ live h Hm Hz) as (m' & H1 & H2 & _). by exists m'.
Qed.

(** Initialisation stores to the handle and, for libunwind, to its context. *)
Definition initialised (h allocated j : Z) : Prop := h <= j < h + sizeof_handle \/ allocated <= j < allocated + 8.

Definition stored_inside (P : Z -> Prop) (m m' : mem) : Prop := grows m m' /\ forall j, ~ P j -> m' !! j = m !! j.

#[export] Instance stored_inside_preorder P : PreOrder (stored_inside P).
Proof.
  split; [by intros m; split|]. intros m1 m2 m3 [G1 E1] [G2 E2]. split; [by etrans|].
  intros j Hj. by rewrite E2, E1.
Qed.

Lemma store_inside (P : Z -> Prop) m a bs m' :
  store m a bs = Some m' -> (forall j, a <= j < a + zlen bs -> P j) -> stored_inside P m m'.
Proof.
  unfold store. intros H HP. bind_inv H. injection H as <-. split; [apply grows_write|].
  intros j Hj. apply (same_outside_write m a bs). auto.
Qed.

Lemma store_slot_inside h allocated slot m v m' :
  store_uint m (h + slot) 8 v = Some m' -> 0 <= slot <= 48 -> stored_inside (initialised h allocated) m m'.
Proof.
  intros H Hs. apply (store_inside _ _ _ _ _ H). rewrite zlen_le_split. intros j Hj. left. handle_layout. lia.
Qed.

Lemma handle_init_outside cfg m live h b allocated space m' live' ok :
  bun_handle_init address_of cfg m live h b allocated space = Some (m', live', ok) ->
  stored_inside (initialised h allocated) m m'.
Proof.
  unfold bun_handle_init. intros H. apply bind_Some in H as (m0 & Hz & H). trans m0.
  { unfold memset in Hz. apply (store_inside _ _ _ _ _ Hz). rewrite zlen_replicate. intros j Hj. left. handle_layout. lia. }
  clear Hz. assert (forall slot m v m', store_uint m (h + slot) 8 v = Some m' -> 0 <= slot <= 48 ->
    stored_inside (initialised h allocated) m m') as Hslot by (intros; by eapply store_slot_inside).
  unfold bun_internal_initialize_libunwind, bun_internal_initialize_libbacktrace,
    bun_internal_initialize_libunwindstack, store_function in H.
  destruct (LIBUNWIND_ENABLED cfg && _); [case_decide|destruct (LIBBACKTRACE_ENABLED cfg && _);
    [|destruct (LIBUNWINDSTACK_ENABLED cfg && _); [destruct (for_i386 cfg)|]]];
    try (injection H as <- _ _; done); bind_inv H; injection H as <- _ _;
    repeat match goal with
      | E : store_uint ?x _ _ _ = Some ?y |- stored_inside _ ?x _ =>
          trans y; [first [by apply (Hslot _ _ _ _ E) | apply (store_inside _ _ _ _ _ E)] | clear E]
      end; try done.
  rewrite zlen_le_split. intros j Hj. right. lia.
Qed.

(** What libunwind finds behind the handle when it is called. *)
Definition context_ready (k : backend) (space : Z) (m : mem) (h : Z) : Prop :=
  k = Libunwind -> exists context,
    load_uint m (h + handle_backend_context) 8 = Some context /\ load_uint m context 8 = Some (u64 space).

Lemma handle_init_context cfg m live h k allocated space m' live' :
  mapped m h sizeof_handle -> malloc_ok m live h allocated 8 -> available_backend cfg allocated k ->
  bun_handle_init address_of cfg m live h (backend_value k) allocated space = Some (m', live', true) ->
  context_ready k space m' h.
Proof.
  intros Hm Hp (He & Hn & _) H ->. specialize (Hn eq_refl). destruct (Hp Hn) as (Hr & _ & Hpm & Hd).
  unfold bun_handle_init in H. rewrite handle_init_memset in H by done. revert H. bind_simpl.
  pose proof (grows_write m h (replicate 56 NUL)) as Hg. revert Hg.
  generalize (write_bytes m h (replicate 56 NUL)). intros m0 Hg.
  eapply mapped_grows in Hm; [|exact Hg]. eapply mapped_grows in Hpm; [|exact Hg].
  cbn [backend_enabled] in He. rewrite He. cbn [andb backend_value]. rewrite bool_decide_true by done.
  unfold bun_internal_initialize_libunwind, store_function, disjoint_ranges in *. rewrite decide_False by done.
  handle_layout. do 5 (rewrite store_uint_mapped by solve_mapped; bind_simpl). intros [= <- _].
  exists allocated. handle_layout. mem_simp. split; [by rewrite Z.mod_small by lia | done].
Qed.

Lemma handle_init_failure cfg m live h b allocated space :
  mapped m h sizeof_handle -> (forall k, b = backend_value k -> ~ available_backend cfg allocated k) ->
  exists m', bun_handle_init address_of cfg m live h b allocated space = Some (m', live, false) /\
    load_handle m' h = Some (Fields 0 0 0 0 0 0 0).
Proof.
  intros Hm Hk. unfold bun_handle_init. rewrite handle_init_memset by done. bind_simpl.
  exists (write_bytes m h (replicate 56 NUL)). split; [|apply load_handle_zeros].
  unfold available_backend in Hk.
  destruct (LIBUNWIND_ENABLED cfg && _) eqn:E1;
    [|destruct (LIBBACKTRACE_ENABLED cfg && _) eqn:E2;
      [|destruct (LIBUNWINDSTACK_ENABLED cfg && _) eqn:E3; [|done]]].
  - apply andb_true_iff in E1 as [E ->%bool_decide_eq_true]. specialize (Hk Libunwind eq_refl).
    unfold bun_internal_initialize_libunwind. rewrite decide_True; [done|].
    destruct (decide (allocated = NULL)); [done|]. exfalso. by apply Hk.
  - apply andb_true_iff in E2 as [E ->%bool_decide_eq_true]. exfalso. by apply (Hk Libbacktrace eq_refl).
  - apply andb_true_iff in E3 as [E ->%bool_decide_eq_true]. specialize (Hk Libunwindstack eq_refl).
    unfold bun_internal_initialize_libunwindstack. destruct (for_i386 cfg); [done|].
    exfalso. by apply Hk.
Qed.
End Lemmas.

(** ** Theorems *)

(** a handle calls its backend. For a backend that is compiled in,
    [bun_handle_init] succeeds and leaves all flags clear, and then each unwinding
    function reaches exactly the function the backend has for it, and faults on a null
    pointer where the backend has none; [bun_handle_deinit] gives back what the
    initialisation allocated, and a second one is undefined for libunwind only. *)
Theorem handle_dispatch address_of cfg m live h k allocated space :
  Linked address_of -> mapped m h sizeof_handle -> malloc_ok m live h allocated 8 ->
  available_backend cfg allocated k ->
  exists m', bun_handle_init address_of cfg m live h (backend_value k) allocated space =
      Some (m', heap_after k live allocated, true) /\
    load_uint m' (h + handle_flags) 8 = Some 0 /\
    (forall A (call : function -> option A),
       bun_unwind address_of m' h call = (slots k).1.1.1 ≫= call /\
       bun_unwind_context address_of m' h call = (slots k).1.1.2 ≫= call /\
       bun_unwind_remote address_of m' h call = (slots k).1.2 ≫= call) /\
    bun_handle_deinit address_of m' (heap_after k live allocated) h = Some live /\
    bun_handle_deinit address_of m' live h = (if decide (k = Libunwind) then None else Some live).
Proof.
  intros HL Hm Hp Hk. destruct (handle_init_success (address_of := address_of) cfg m live h k allocated space Hm Hp Hk)
    as (m' & Hi & Hf).
  exists m'. split; [exact Hi|]. destruct (called_fields (address_of := address_of) _ _ _ Hf) as (C1 & C2 & C3 & C4).
  pose proof Hf as Hl. unfold load_handle in Hl. bind_inv Hl. injection Hl as _ _ _ _ Hc Hfl _.
  destruct Hk as (_ & Hn & _). unfold filled in *.
  split; [by rewrite Hx4, Hfl; destruct k|]. split_and!.
  - intros A call. unfold bun_unwind, bun_unwind_context, bun_unwind_remote. rewrite C1, C2, C3.
    destruct k; cbn [slots f_unwind f_unwind_context f_unwind_remote fst snd];
      by rewrite !function_at_slot.
  - rewrite (deinit_filled (address_of := address_of) _ _ _ _ _ Hf). case_decide as E; [|by destruct k].
    subst k. specialize (Hn eq_refl). destruct (Hp Hn) as (_ & Hfresh & _).
    by apply free_fresh.
  - rewrite (deinit_filled (address_of := address_of) _ _ _ _ _ Hf). case_decide as E; [|done].
    subst k. specialize (Hn eq_refl). destruct (Hp Hn) as (_ & Hfresh & _).
    by apply free_dead.
Qed.

(** a handle whose initialisation failed must not be used. For every other
    backend number [bun_handle_init] returns false with the heap unchanged, and each
    of the unwinding functions and [bun_handle_deinit] then calls a null pointer. *)
Theorem handle_init_refused address_of cfg m live h b allocated space :
  Linked address_of -> mapped m h sizeof_handle ->
  (forall k, b = backend_value k -> ~ available_backend cfg allocated k) ->
  exists m', bun_handle_init address_of cfg m live h b allocated space = Some (m', live, false) /\
    (forall A (call : function -> option A),
       bun_unwind address_of m' h call = None /\ bun_unwind_context address_of m' h call = None /\
       bun_unwind_remote address_of m' h call = None) /\
    bun_handle_deinit address_of m' live h = None.
Proof.
  intros HL Hm Hk. destruct (handle_init_failure (address_of := address_of) cfg m live h b allocated space Hm Hk)
    as (m' & Hi & Hf).
  exists m'. split; [exact Hi|]. destruct (called_fields (address_of := address_of) _ _ _ Hf) as (C1 & C2 & C3 & C4).
  unfold bun_unwind, bun_unwind_context, bun_unwind_remote, bun_handle_deinit.
  rewrite C1, C2, C3, C4. cbn [f_unwind f_unwind_context f_unwind_remote f_destroy].
  pose proof (function_at_null (address_of := address_of)) as H0. unfold NULL in H0. by rewrite H0.
Qed.

(** ** Witnesses *)

(** The functions at 16-byte steps from [0x5000]. *)
Definition sample_address (f : function) : Z :=
  match f with
  | libunwind_unwind => 0x5000 | libunwind_unwind_remote => 0x5010
  | libunwind_destroy_handle => 0x5020 | libbacktrace_unwind => 0x5030
  | libbacktrace_destroy => 0x5040 | libunwindstack_unwind => 0x5050
  | libunwindstack_unwind_context => 0x5060 | libunwindstack_unwind_remote => 0x5070
  | libunwindstack_destroy_handle => 0x5080
  end.

Lemma sample_linked : Linked sample_address.
Proof. split; [intros []; by vm_compute | intros [] []; done]. Qed.

Definition handle_mem : mem := mem_of [(0x2000, replicate 56 Init.Byte.xff); (0x6000, replicate 8 NUL)].
Definition both_enabled : configuration := Configuration true true false false.

Lemma handle_dispatch_witness :
  available_backend both_enabled 0x6000 Libunwind /\
  exists m', bun_handle_init sample_address both_enabled handle_mem ∅ 0x2000 0 0x6000 0x7000 =
      Some (m', {[0x6000]} ∪ ∅, true) /\
    bun_unwind sample_address m' 0x2000 Some = Some libunwind_unwind /\
    bun_unwind_context sample_address m' 0x2000 Some = None.
Proof.
  split; [by_compute|].
  destruct (handle_dispatch sample_address both_enabled handle_mem ∅ 0x2000 Libunwind 0x6000 0x7000)
    as (m' & Hi & _ & Hcall & _); [exact sample_linked | by_compute | | by_compute |].
  { intros _. split_and!; [done | done | by_compute | by_compute | by_compute]. }
  destruct (Hcall function Some) as (H1 & H2 & _).
  exists m'. split; [exact Hi | split; [exact H1 | exact H2]].
Defined.

Lemma handle_init_refused_witness :
  exists m', bun_handle_init sample_address both_enabled handle_mem ∅ 0x2000 (-1) 0 0 =
      Some (m', ∅, false) /\ bun_unwind sample_address m' 0x2000 Some = None.
Proof.
  destruct (handle_init_refused sample_address both_enabled handle_mem ∅ 0x2000 (-1) 0 0)
    as (m' & Hi & Hcall & _); [exact sample_linked | by_compute | intros []; discriminate |].
  destruct (Hcall function Some) as (H1 & _). exists m'. split; [exact Hi | exact H1].
Defined.
