(* ===== verification/Descriptors.v ===== *)
(** * Anonymous files and the cache directory (src/bun_utils.c)

    [bun_memfd_create] tries the system call, then a temporary file that it
    unlinks, then a file in the cache directory. The state is the cache directory,
    the descriptor table with the close-on-exec flag of each descriptor, and the
    live heap blocks; the answers of the operating system are a record of
    functions. *)

From S2P Require Import Prelude Memory.

(** ** The state and the operating system *)

Record state := State {
  bun_internal_cache_dir : option (list byte);
  fds : gmap Z bool;
  live : heap
}.

Definition set_fds (s : state) (f : gmap Z bool) : state :=
  State (bun_internal_cache_dir s) f (live s).
Definition set_live (s : state) (l : heap) : state :=
  State (bun_internal_cache_dir s) (fds s) l.

(** Flags of the C library (Linux, x86-64). *)
Definition O_RDWR : Z := 0x2.
Definition O_CREAT : Z := 0x40.
Definition O_TRUNC : Z := 0x200.
Definition O_CLOEXEC : Z := 0x80000.
Definition O_TMPFILE : Z := 0x410000.
Definition FD_CLOEXEC : Z := 1.

(** The answers to the calls. A descriptor is -1 on failure. [asprintf] gives the
    block it allocated, or nothing; [asprintf_garbage] is what it leaves in its first
    argument when it fails. [mkstemp] also gives the name it made. *)
Record system_calls := SystemCalls {
  sys_memfd_create : option (list byte -> Z);
  asprintf : list byte -> option Z;
  asprintf_garbage : Z;
  mkstemp : list byte -> Z * list byte;
  fcntl_ok : Z -> bool;
  unlink_ok : list byte -> bool;
  open_file : list byte -> Z -> Z
}.

(** What the system promises: a descriptor returned is new, a block allocated is
    new, and a failing [asprintf] leaves a null pointer (as glibc does). *)
Record system_ok (os : system_calls) (s : state) : Prop := {
  so_memfd f name : sys_memfd_create os = Some f -> f name = -1 \/ 0 <= f name /\ fds s !! f name = None;
  so_mkstemp name : (mkstemp os name).1 = -1 \/ 0 <= (mkstemp os name).1 /\ fds s !! (mkstemp os name).1 = None;
  so_open name flags : open_file os name flags = -1 \/
    0 <= open_file os name flags /\ fds s !! open_file os name flags = None;
  so_asprintf text p : asprintf os text = Some p -> p <> NULL /\ ~ (p ∈ live s);
  so_garbage : asprintf_garbage os = NULL
}.

Definition new_fd (s : state) (fd : Z) (cloexec : bool) : state := set_fds s (<[fd := cloexec]> (fds s)).

(** [close]; the result is ignored by the code. *)
Definition close_fd (s : state) (fd : Z) : state := set_fds s (delete fd (fds s)).

(** [fcntl(fd, F_SETFD, arg)]: only the bit [FD_CLOEXEC] of the argument counts. *)
Definition fcntl_setfd (os : system_calls) (s : state) (fd arg : Z) : state * bool :=
  if fcntl_ok os fd
  then (set_fds s (<[fd := bool_decide (Z.land arg FD_CLOEXEC <> 0)]> (fds s)), true)
  else (s, false).

Definition free_block (s : state) (p : Z) : option state :=
  l ← free (live s) p; Some (set_live s l).

(** ** The cache directory *)

Definition bun_cache_dir_set (s : state) (path : option (list byte)) : state :=
  State path (fds s) (live s).
Definition bun_cache_dir_get (s : state) : option (list byte) := bun_internal_cache_dir s.

Section Files.
Context (android : bool) (os : system_calls).

Definition tmp_path (s : state) : list byte :=
  match bun_cache_dir_get s with
  | Some path => path
  | None => bytes_of (if android then "/data/local/tmp" else "/tmp")
  end.

(** The error exits of both functions: close what is open, free the name. *)
Definition fail (s : state) (fd name : Z) : option (Z * state) :=
  let s := if decide (fd <> -1) then close_fd s fd else s in
  s ← free_block s name; Some (-1, s).

Definition open_mkstemp (s : state) (name : list byte) : option (Z * state) :=
  let template := tmp_path s ++ bytes_of "/" ++ name ++ bytes_of ".XXXXXX" in
  match asprintf os template with
  | None => fail s (-1) (asprintf_garbage os)
  | Some filename =>
      let s := set_live s ({[filename]} ∪ live s) in
      let '(fd, made) := mkstemp os template in
      if decide (fd = -1) then fail s fd filename
      else
        let s := new_fd s fd false in
        let '(s, ok) := fcntl_setfd os s fd O_CLOEXEC in
        if (ok : bool) then
          if unlink_ok os made then s ← free_block s filename; Some (fd, s)
          else fail s fd filename
        else fail s fd filename
  end.

(** [asprintf] with a null pointer for [%s] is undefined. The [name] is not used. *)
Definition open_real_file (s : state) (name : list byte) : option (Z * state) :=
  dir ← bun_cache_dir_get s;
  let path := dir ++ bytes_of "/" in
  match asprintf os path with
  | None => fail s (-1) (asprintf_garbage os)
  | Some final_name =>
      let s := set_live s ({[final_name]} ∪ live s) in
      let fd := open_file os path (Z.lor (Z.lor O_TMPFILE O_CLOEXEC) O_RDWR) in
      if decide (fd < 0) then
        let fd := open_file os path (Z.lor (Z.lor (Z.lor O_CREAT O_CLOEXEC) O_TRUNC) O_RDWR) in
        if decide (fd < 0) then fail s fd final_name
        else
          let s := new_fd s fd true in
          if unlink_ok os path then s ← free_block s final_name; Some (fd, s)
          else fail s fd final_name
      else
        let s := new_fd s fd true in
        s ← free_block s final_name; Some (fd, s)
  end.

Definition bun_memfd_create (s : state) (name : list byte) : option (Z * state) :=
  let fd := match sys_memfd_create os with Some f => f name | None => -1 end in
  let s := if decide (fd = -1) then s else new_fd s fd false in
  '(fd, s) ← (if decide (fd = -1) then open_mkstemp s name else Some (fd, s));
  if decide (fd = -1) then open_real_file s name else Some (fd, s).

(** ** Lemmas *)

(** What every way of opening a file keeps: it fails with nothing changed, or it
    adds one new descriptor, with the flag [cloexec]. *)
Definition opened (s : state) (cloexec : bool) (fd : Z) (s' : state) : Prop :=
  fd = -1 /\ s' = s \/ 0 <= fd /\ fds s !! fd = None /\ s' = new_fd s fd cloexec.

Lemma free_new s f p :
  p <> NULL -> ~ (p ∈ live s) -> 
  free_block (State (bun_internal_cache_dir s) f ({[p]} ∪ live s)) p =
  Some (State (bun_internal_cache_dir s) f (live s)).
Proof.
  intros Hn Hp. unfold free_block. cbn [live]. rewrite free_fresh by done. reflexivity.
Qed.

Lemma state_eta s : State (bun_internal_cache_dir s) (fds s) (live s) = s.
Proof. by destruct s. Qed.

(** Closing the descriptor that was opened gives back the table. *)
Lemma fail_closed s f fd p :
  p <> NULL -> ~ (p ∈ live s) -> (if decide (fd <> -1) then delete fd f else f) = fds s ->
  fail (State (bun_internal_cache_dir s) f ({[p]} ∪ live s)) fd p = Some (-1, s).
Proof.
  intros Hn Hp Hf. unfold fail, close_fd, set_fds. cbn [bun_internal_cache_dir fds live].
  case_decide; rewrite free_new by done; bind_simpl; by rewrite Hf, state_eta.
Qed.

Lemma fail_asprintf s : asprintf_garbage os = NULL -> fail s (-1) (asprintf_garbage os) = Some (-1, s).
Proof.
  intros ->. unfold fail. rewrite decide_False by tauto. unfold free_block, free.
  rewrite decide_True by done. bind_simpl. unfold set_live. by rewrite state_eta.
Qed.

Lemma open_mkstemp_opened s name :
  system_ok os s -> exists fd s', open_mkstemp s name = Some (fd, s') /\ opened s false fd s'.
Proof.
  intros [_ Hmk _ Has Hg]. unfold open_mkstemp. set (template := tmp_path s ++ _). clearbody template.
  destruct (asprintf os template) as [p|] eqn:Hp.
  2: { exists (-1), s. rewrite fail_asprintf by done. split; [done | by left]. }
  destruct (Has _ _ Hp) as [Hn Hl]. specialize (Hmk template).
  destruct (mkstemp os template) as [fd made]. cbn [fst] in Hmk.
  unfold fcntl_setfd, new_fd, set_fds, set_live. cbn [bun_internal_cache_dir fds live].
  case_decide as Hfd.
  { exists (-1), s. subst. rewrite fail_closed by done. split; [done | by left]. }
  destruct Hmk as [|[Hpos Hnew]]; [done|].
  destruct (fcntl_ok os fd); cbn [bun_internal_cache_dir fds live]; rewrite ?insert_insert_eq.
  - destruct (unlink_ok os made).
    + rewrite free_new by done. bind_simpl. eexists fd, _. split; [done|]. right. done.
    + exists (-1), s. rewrite fail_closed; [split; [done | by left] | done..|].
      rewrite decide_True by done. by apply delete_insert_id.
  - exists (-1), s. rewrite fail_closed; [split; [done | by left] | done..|].
    rewrite decide_True by done. by apply delete_insert_id.
Qed.

Lemma open_real_file_opened s name :
  system_ok os s -> bun_cache_dir_get s <> None ->
  exists fd s', open_real_file s name = Some (fd, s') /\ opened s true fd s'.
Proof.
  intros [_ _ Hop Has Hg] Hdir. unfold open_real_file.
  destruct (bun_cache_dir_get s) as [dir|]; [|done]. bind_simpl.
  set (path := dir ++ _). clearbody path.
  destruct (asprintf os path) as [p|] eqn:Hp.
  2: { exists (-1), s. rewrite fail_asprintf by done. split; [done | by left]. }
  destruct (Has _ _ Hp) as [Hn Hl].
  unfold new_fd, set_fds, set_live. cbn [bun_internal_cache_dir fds live].
  set (flags1 := Z.lor (Z.lor O_TMPFILE _) _). set (flags2 := Z.lor (Z.lor (Z.lor O_CREAT _) _) _).
  case_decide as Hfd.
  - case_decide as Hfd2.
    { exists (-1), s. destruct (Hop path flags2) as [->|]; [|lia].
      rewrite fail_closed by done. split; [done | by left]. }
    destruct (Hop path flags2) as [|[Hpos Hnew]]; [lia|]. destruct (unlink_ok os path).
    + rewrite free_new by done. bind_simpl. eexists _, _. split; [done|]. by right.
    + exists (-1), s. rewrite fail_closed; [split; [done | by left] | done..|].
      rewrite decide_True by lia. by apply delete_insert_id.
  - destruct (Hop path flags1) as [|[Hpos Hnew]]; [lia|].
    rewrite free_new by done. bind_simpl. eexists _, _. split; [done|]. by right.
Qed.

(** The system call gave the descriptor. *)
Definition from_memfd (name : list byte) : Prop :=
  exists f, sys_memfd_create os = Some f /\ f name <> -1.
End Files.

(** ** Theorems *)

(** no path of [bun_memfd_create] leaks. When the cache directory is set, the
    call is defined for every way the system may answer; it either fails with -1 and
    leaves descriptors and heap as they were, or returns one new descriptor and leaves
    everything else as it was. The descriptor is
    close-on-exec exactly when it comes from [open_real_file]: the flag
    [open_mkstemp] passes to [F_SETFD] is not [FD_CLOEXEC], so it clears the bit. *)
Theorem memfd_create_no_leak android os s name :
  system_ok os s -> bun_cache_dir_get s <> None ->
  exists fd s' cloexec, bun_memfd_create android os s name = Some (fd, s') /\
    opened s cloexec fd s' /\
    (cloexec = true <-> ~ from_memfd os name /\ open_mkstemp android os s name = Some (-1, s)).
Proof.
  intros Hos Hdir. unfold bun_memfd_create.
  assert (forall fd, (match sys_memfd_create os with Some f => f name | None => -1 end) = fd ->
    fd = -1 \/ 0 <= fd /\ fds s !! fd = None /\ from_memfd os name) as Hmem.
  { intros fd <-. destruct (sys_memfd_create os) as [f|] eqn:Hf; [|by left].
    destruct (so_memfd _ _ Hos f name Hf) as [|[]]; [by left|]. right.
    split_and!; [done..|]. exists f. split; [done | lia]. }
  specialize (Hmem _ eq_refl). set (fd := match sys_memfd_create os with Some _ => _ | _ => _ end) in *.
  case_decide as Hfd.
  - assert (~ from_memfd os name) as Hno.
    { intros (f & Hf & Hne). apply Hne. unfold fd in Hfd. by rewrite Hf in Hfd. }
    destruct (open_mkstemp_opened android os s name Hos) as (fd1 & s1 & H1 & Ho1). rewrite H1. bind_simpl.
    case_decide as Hfd1.
    + destruct Ho1 as [[_ ->]|[? _]]; [|lia]. subst fd1.
      destruct (open_real_file_opened os s name Hos Hdir) as (fd2 & s2 & H2 & Ho2).
      by exists fd2, s2, true.
    + exists fd1, s1, false. split_and!; [done..|]. split; [done|]. intros [_ [= -> _]]. done.
  - bind_simpl. rewrite decide_False by done. destruct Hmem as [|(Hpos & Hnew & Hm)]; [done|].
    exists fd, (new_fd s fd false), false. split_and!; [done | by right |]. split; [done | tauto].
Qed.

(** without a cache directory the last resort is undefined. When no cache
    directory is set, [bun_memfd_create] is defined unless both the system call and
    the temporary file fail: then [open_real_file] formats a null pointer. *)
Theorem memfd_create_undefined android os s name :
  system_ok os s -> bun_cache_dir_get s = None ->
  (bun_memfd_create android os s name = None <->
     ~ from_memfd os name /\ open_mkstemp android os s name = Some (-1, s)).
Proof.
  intros Hos Hdir. unfold bun_memfd_create, from_memfd.
  destruct (open_mkstemp_opened android os s name Hos) as (fd1 & s1 & H1 & Ho1).
  destruct (sys_memfd_create os) as [f|].
  - destruct (decide (f name = -1)) as [Hf|Hf]; [rewrite H1|]; bind_simpl.
    + destruct Ho1 as [[-> ->]|(Hpos & _ & _)].
      * rewrite decide_True by done. unfold open_real_file. rewrite Hdir. split; [|done].
        intros _. split; [|done]. intros (g & [= <-] & Hg). done.
      * rewrite decide_False by lia. split; [done|]. intros [_ [= -> _]]. lia.
    + rewrite decide_False by done. split; [done|]. intros [Hno _]. destruct Hno. by exists f.
  - cbv zeta. rewrite !(decide_True (P := (-1 = -1))) by done. rewrite H1. bind_simpl. destruct Ho1 as [[-> ->]|(Hpos & _ & _)].
    + rewrite decide_True by done. unfold open_real_file. rewrite Hdir. split; [|done].
      intros _. split; [|done]. by intros (g & [=] & _).
    + rewrite decide_False by lia. split; [done|]. intros [_ [= -> _]]. lia.
Qed.

(** ** Witnesses *)

(** A kernel without the system call; [fd] is what [mkstemp] returns, and
    descriptor 7 is what [open] returns. *)
Definition old_kernel (fd : Z) : system_calls :=
  SystemCalls None (fun _ => Some 0x9000) NULL (fun t => (fd, t)) (fun _ => true) (fun _ => true)
    (fun _ _ => 7).
Definition with_dir : state := State (Some (bytes_of "/data/cache")) ∅ ∅.
Definition without_dir : state := State None ∅ ∅.

Lemma old_kernel_ok fd s :
  fd = -1 \/ fd = 3 -> fds s = ∅ -> live s = ∅ -> system_ok (old_kernel fd) s.
Proof.
  intros Hfd Hf Hl. split; cbn; rewrite ?Hf, ?Hl.
  - done.
  - intros _. destruct Hfd as [-> | ->]; [by left | by right].
  - intros _ _. by right.
  - intros _ p [= <-]. split; [done | set_solver].
  - done.
Qed.

Lemma memfd_create_no_leak_witness :
  exists fd s', bun_memfd_create false (old_kernel 3) with_dir (bytes_of "x") = Some (fd, s') /\
    opened with_dir false fd s'.
Proof.
  destruct (memfd_create_no_leak false (old_kernel 3) with_dir (bytes_of "x"))
    as (fd & s' & c & H & Ho & Hc); [apply old_kernel_ok; [by right | done | done] | done |].
  exists fd, s'. split; [exact H|]. destruct c; [|exact Ho].
  exfalso. destruct (proj1 Hc eq_refl) as [_ Hm]. vm_compute in Hm. discriminate.
Defined.

Lemma memfd_create_undefined_witness :
  bun_memfd_create false (old_kernel (-1)) without_dir (bytes_of "x") = None.
Proof.
  apply (memfd_create_undefined false (old_kernel (-1)) without_dir (bytes_of "x"));
    [apply old_kernel_ok; [by left | done | done] | done |].
  split; [by intros (f & [=] & _) | vm_compute; reflexivity].
Defined.
