(* ===== verification/Waitpid.v ===== *)
(** * Waiting for a traced process (src/bun_utils.c, [bun_waitpid])

    The loop is run against an environment: a state machine that answers
    [waitpid], [nanosleep] and the two [ptrace] requests. The fuel of the loop counts
    iterations; [None] is a loop that has not returned yet. *)

From S2P Require Import Prelude.

(** ** The answers of the kernel *)

Definition EINTR : Z := 4.
Definition ECHILD : Z := 10.
Definition EINVAL : Z := 22.
Definition ESRCH : Z := 3.

Definition SIGSTOP : Z := 19.
Definition SIGTSTP : Z := 20.
Definition SIGTTIN : Z := 21.
Definition SIGTTOU : Z := 22.

(** [waitpid]: -1 with [errno]; a value that is not the pid; the pid with a status. *)
Inductive wait_answer : Set :=
| Wait_error (errno : Z)
| Wait_other
| Wait_status (status : Z).

(** [sleep_interrupted] is [nanosleep] failing with [EINTR]; [getregs] is whether
    [PTRACE_GETREGS] succeeds; [getsiginfo] is the [errno] of a failing
    [PTRACE_GETSIGINFO]. *)
Record environment := Environment {
  env : Type;
  wait : env -> wait_answer * env;
  sleep_interrupted : env -> bool * env;
  getregs : env -> bool * env;
  getsiginfo : env -> option Z * env
}.

(** The macros of sys/wait.h. *)
Definition WTERMSIG (status : Z) : Z := Z.land status 0x7f.
Definition WIFEXITED (status : Z) : bool := bool_decide (WTERMSIG status = 0).
Definition i8 (z : Z) : Z := (z + 2 ^ 7) `mod` 2 ^ 8 - 2 ^ 7.
Definition WIFSIGNALED (status : Z) : bool :=
  bool_decide (Z.shiftr (i8 (Z.land status 0x7f + 1)) 1 > 0).
Definition WIFSTOPPED (status : Z) : bool := bool_decide (Z.land status 0xff = 0x7f).
Definition WSTOPSIG (status : Z) : Z := Z.shiftr (Z.land status 0xff00) 8.

Section Loop.
Context (E : environment).

(** The inner loop: sleep until not interrupted. *)
Fixpoint sleep (fuel : nat) (e : env E) : option (env E) :=
  match fuel with
  | O => None
  | S fuel =>
      let '(interrupted, e) := sleep_interrupted E e in
      if interrupted then sleep fuel e else Some e
  end.

(** The part after an event: the value the function returns. *)
Definition on_status (status : Z) (e : env E) : Z * env E :=
  if WIFEXITED status || WIFSIGNALED status then (-1, e)
  else if negb (WIFSTOPPED status) then (-1, e)
  else
    let sig := WSTOPSIG status in
    if bool_decide (sig ∈ [SIGSTOP; SIGTSTP; SIGTTIN; SIGTTOU]) then
      let '(failure, e) := getsiginfo E e in
      match failure with
      | None => (0, e)
      | Some errno =>
          if decide (errno = EINVAL) then (0, e)
          else if decide (errno = ESRCH) then (-1, e)
          else (0, e)
      end
    else (0, e).

(** What one iteration of the loop does. *)
Inductive iteration : Set :=
| Return (r : Z)
| Again (msec_timeout loop : Z)
| Undefined.

Definition iterate (fuel : nat) (msec_timeout loop : Z) (e : env E) : option (iteration * env E) :=
  let '(answer, e) := wait E e in
  match answer with
  | Wait_error errno =>
      if decide (errno = EINTR) then Some (Again msec_timeout loop, e)
      else if decide (errno = ECHILD) then Some (Again msec_timeout loop, e)
      else Some (Return (-1), e)
  | Wait_other =>
      e ← sleep fuel e;
      (* msec_timeout -= loop++ & 1, on two signed integers *)
      if decide (loop + 1 < 2 ^ 31 /\ - 2 ^ 31 <= msec_timeout - Z.land loop 1) then
        let msec_timeout := msec_timeout - Z.land loop 1 in
        if decide (msec_timeout > 0) then Some (Again msec_timeout (loop + 1), e)
        else
          let '(stopped, e) := getregs E e in
          Some (Return (if (stopped : bool) then 0 else -1), e)
      else Some (Undefined, e)
  | Wait_status status => let '(r, e) := on_status status e in Some (Return r, e)
  end.

(** [inl r]: the function has returned [r]; [inr tt]: undefined behaviour. *)
Fixpoint wait_loop (fuel : nat) (msec_timeout loop : Z) (e : env E) : option ((Z + unit) * env E) :=
  match fuel with
  | O => None
  | S fuel =>
      '(it, e) ← iterate fuel msec_timeout loop e;
      match it with
      | Return r => Some (inl r, e)
      | Again msec_timeout loop => wait_loop fuel msec_timeout loop e
      | Undefined => Some (inr tt, e)
      end
  end.

Definition bun_waitpid (fuel : nat) (msec_timeout : Z) (e : env E) : option ((Z + unit) * env E) :=
  wait_loop fuel msec_timeout 0 e.

(** ** Lemmas *)

(** Iterations left when nothing happens: [loop & 1] is subtracted, so a
    millisecond takes two iterations. *)
Definition rounds_left (msec_timeout loop : Z) : Z := Z.max 1 (2 * msec_timeout - loop `mod` 2).

Lemma land_1 z : Z.land z 1 = z `mod` 2.
Proof. exact (Z.land_ones z 1 ltac:(done)). Qed.

Lemma rounds_next msec_timeout loop :
  0 <= loop -> msec_timeout - loop `mod` 2 > 0 ->
  rounds_left (msec_timeout - loop `mod` 2) (loop + 1) = rounds_left msec_timeout loop - 1.
Proof.
  intros Hl Ht. unfold rounds_left.
  assert ((loop + 1) `mod` 2 = 1 - loop `mod` 2) as ->.
  { pose proof (Z.mod_pos_bound loop 2 ltac:(done)).
    rewrite <- Zplus_mod_idemp_l. destruct (decide (loop `mod` 2 = 0)) as [->|]; [done|].
    replace (loop `mod` 2) with 1 by lia. done. }
  pose proof (Z.mod_pos_bound loop 2 ltac:(done)). lia.
Qed.

Lemma rounds_last msec_timeout loop :
  0 <= loop -> ~ msec_timeout - loop `mod` 2 > 0 -> rounds_left msec_timeout loop = 1.
Proof. intros. unfold rounds_left. pose proof (Z.mod_pos_bound loop 2 ltac:(done)). lia. Qed.

(** An environment that does not fail for ever: every failure that makes the code
    try again, and every interrupted sleep, lowers [mu]. *)
Record patient (mu : env E -> nat) : Prop := {
  pa_error e errno e' : wait E e = (Wait_error errno, e') ->
    errno = EINTR \/ errno = ECHILD -> (mu e' < mu e)%nat;
  pa_other e e' : wait E e = (Wait_other, e') -> (mu e' <= mu e)%nat;
  pa_interrupted e e' : sleep_interrupted E e = (true, e') -> (mu e' < mu e)%nat;
  pa_slept e e' : sleep_interrupted E e = (false, e') -> (mu e' <= mu e)%nat
}.

Lemma sleep_returns mu fuel e :
  patient mu -> (mu e < fuel)%nat -> exists e', sleep fuel e = Some e' /\ (mu e' <= mu e)%nat.
Proof.
  intros Hp. revert e. induction fuel as [|fuel IH]; intros e Hf; [lia|]. cbn [sleep].
  destruct (sleep_interrupted E e) as [[] e1] eqn:Hs.
  - pose proof (pa_interrupted _ Hp _ _ Hs). destruct (IH e1) as (e' & He & Hm); [lia|].
    exists e'. split; [done | lia].
  - exists e1. split; [done|]. by eapply pa_slept.
Qed.

Lemma on_status_verdict status e :
  exists r e', on_status status e = (r, e') /\ (r = 0 \/ r = -1).
Proof.
  unfold on_status.
  repeat first [case_match | case_decide]; eauto.
Qed.

Lemma wait_loop_returns mu fuel msec_timeout loop e :
  patient mu -> 0 <= loop -> loop + rounds_left msec_timeout loop < 2 ^ 31 ->
  - 2 ^ 31 + 1 <= msec_timeout ->
  (Z.of_nat (mu e) + rounds_left msec_timeout loop + 1 <= Z.of_nat fuel) ->
  exists r e', wait_loop fuel msec_timeout loop e = Some (inl r, e') /\ (r = 0 \/ r = -1).
Proof.
  intros Hp. revert msec_timeout loop e.
  induction fuel as [|fuel IH]; intros t l e Hl Hlim Hmin Hf; [unfold rounds_left in Hf; lia|].
  cbn [wait_loop]. unfold iterate. destruct (wait E e) as [[errno| |status] e1] eqn:Hw.
  - destruct (decide (errno = EINTR)) as [->|H1]; [|destruct (decide (errno = ECHILD)) as [->|H2]];
      bind_simpl; [| |by eauto];
      (pose proof (pa_error _ Hp _ _ _ Hw ltac:(auto)); apply IH; auto; lia).
  - pose proof (pa_other _ Hp _ _ Hw).
    destruct (sleep_returns mu fuel e1 Hp) as (e2 & -> & Hm); [unfold rounds_left in Hf; lia|].
    bind_simpl. rewrite land_1. pose proof (Z.mod_pos_bound l 2 ltac:(done)).
    rewrite decide_True by (unfold rounds_left in Hlim; lia).
    destruct (decide (t - l `mod` 2 > 0)) as [Hpos|Hneg]; bind_simpl.
    + pose proof (rounds_next t l Hl Hpos) as Hr. apply IH; rewrite ?Hr; lia.
    + destruct (getregs E e2) as [[] e3]; eauto.
  - destruct (on_status_verdict status e1) as (r & e2 & -> & Hr). bind_simpl. eauto.
Qed.

(** An environment in which nothing happens: [waitpid] reports nothing, no sleep is
    interrupted. *)
Definition quiet (w s : env E -> env E) : Prop :=
  (forall e, wait E e = (Wait_other, w e)) /\ (forall e, sleep_interrupted E e = (false, s e)).

Definition registers_readable (e : env E) : Z * env E :=
  let '(stopped, e) := getregs E e in (if (stopped : bool) then 0 else -1, e).

Lemma quiet_round w s fuel t l e :
  quiet w s -> 0 <= l < 2 ^ 31 - 1 -> - 2 ^ 31 + 1 <= t ->
  wait_loop (S (S fuel)) t l e =
  if decide (t - l `mod` 2 > 0) then wait_loop (S fuel) (t - l `mod` 2) (l + 1) (s (w e))
  else Some (inl (registers_readable (s (w e))).1, (registers_readable (s (w e))).2).
Proof.
  intros [Hw Hs] Hl Ht. pose proof (Z.mod_pos_bound l 2 ltac:(done)).
  change (wait_loop (S (S fuel)) t l e) with
    ('(it, e) ← iterate (S fuel) t l e;
     match it with
     | Return r => Some (inl r, e)
     | Again t l => wait_loop (S fuel) t l e
     | Undefined => Some (inr tt, e)
     end).
  unfold iterate. rewrite Hw. cbn [sleep]. rewrite Hs. bind_simpl.
  rewrite land_1, decide_True by lia. case_decide; [done|].
  unfold registers_readable. by destruct (getregs E (s (w e))) as [[] e'].
Qed.

Lemma quiet_loop w s : quiet w s -> forall k fuel t l e,
  0 <= l -> rounds_left t l = Z.of_nat (S k) -> l + rounds_left t l < 2 ^ 31 ->
  - 2 ^ 31 + 1 <= t -> (S k < fuel)%nat ->
  wait_loop fuel t l e =
    Some (inl (registers_readable (Nat.iter (S k) (s ∘ w) e)).1, (registers_readable (Nat.iter (S k) (s ∘ w) e)).2).
Proof.
  intros Hq. induction k as [|k IH]; intros fuel t l e Hl Hk Hlim Ht Hf;
    destruct fuel as [|[|fuel]]; try lia; rewrite (quiet_round w s) by (done || lia);
    case_decide as Hpos.
  - pose proof (rounds_next t l Hl Hpos). unfold rounds_left in *. lia.
  - done.
  - pose proof (rounds_next t l Hl Hpos).
    rewrite IH by (unfold rounds_left in *; lia). rewrite (Nat.iter_succ_r (S k)). done.
  - pose proof (rounds_last t l Hl Hpos). lia.
Qed.

Lemma quiet_overflow w s : quiet w s -> forall k t l e fuel,
  0 <= l -> l + Z.of_nat k = 2 ^ 31 - 1 -> 2 ^ 31 <= l + rounds_left t l -> - 2 ^ 31 + 1 <= t ->
  (S k < fuel)%nat -> exists e', wait_loop fuel t l e = Some (inr tt, e').
Proof.
  intros Hq. induction k as [|k IH]; intros t l e fuel Hl Hk Hlim Ht Hf;
    destruct fuel as [|[|fuel]]; try lia.
  - destruct Hq as [Hw Hs].
    change (exists e', ('(it, e) ← iterate (S fuel) t l e;
     match it with
     | Return r => Some (inl r, e)
     | Again t l => wait_loop (S fuel) t l e
     | Undefined => Some (inr tt, e)
     end) = Some (inr tt, e')).
    unfold iterate. rewrite Hw. cbn [sleep]. rewrite Hs. bind_simpl.
    rewrite decide_False by lia. bind_simpl. eauto.
  - rewrite (quiet_round w s) by (done || lia). case_decide as Hpos.
    + pose proof (rounds_next t l Hl Hpos). apply IH; lia.
    + pose proof (rounds_last t l Hl Hpos). lia.
Qed.

(** An environment in which [waitpid] always fails with an error that makes the
    code try again. *)
Lemma retry_forever errno fuel t l e :
  errno = EINTR \/ errno = ECHILD -> (forall e, exists e', wait E e = (Wait_error errno, e')) ->
  wait_loop fuel t l e = None.
Proof.
  intros He Hw. revert t l e. induction fuel as [|fuel IH]; intros t l e; [done|].
  cbn [wait_loop]. unfold iterate. destruct (Hw e) as [e' ->].
  destruct (decide (errno = EINTR)); [apply IH|].
  rewrite decide_True by tauto. apply IH.
Qed.
End Loop.

(** ** Events *)

(** What [waitpid] reports of a process, with the encoding of the kernel. *)
Inductive event : Set :=
| Exited (code : Z)
| Killed (sig : Z) (core : bool)
| Stopped (sig : Z)
| Continued.

Definition event_ok (ev : event) : Prop :=
  match ev with
  | Exited code => 0 <= code < 256
  | Killed sig _ => 1 <= sig < 127
  | Stopped sig => 1 <= sig < 256
  | Continued => True
  end.

#[export] Instance event_ok_dec ev : Decision (event_ok ev).
Proof. destruct ev; apply _. Defined.

Definition status_of (ev : event) : Z :=
  match ev with
  | Exited code => 256 * code
  | Killed sig core => sig + (if core then 128 else 0)
  | Stopped sig => 256 * sig + 0x7f
  | Continued => 0xffff
  end.

(** What the code makes of an event: [None] is failure, a signal is a stop. *)
Definition classify (status : Z) : option Z :=
  if WIFEXITED status || WIFSIGNALED status then None
  else if negb (WIFSTOPPED status) then None else Some (WSTOPSIG status).

Lemma on_status_classify E status e :
  on_status E status e =
  match classify status with
  | None => (-1, e)
  | Some sig =>
      if bool_decide (sig ∈ [SIGSTOP; SIGTSTP; SIGTTIN; SIGTTOU]) then
        let '(failure, e) := getsiginfo E e in
        (if decide (failure = Some ESRCH) then -1 else 0, e)
      else (0, e)
  end.
Proof.
  unfold on_status, classify. repeat (case_match; [done|]).
  case_match; [|done]. destruct (getsiginfo E e) as [[errno|] e1]; [|done].
  unfold EINVAL, ESRCH. repeat case_decide; simplify_eq; done.
Qed.

Lemma classify_event ev :
  event_ok ev -> classify (status_of ev) = match ev with Stopped sig => Some sig | _ => None end.
Proof.
  intros Hok. destruct ev as [code|sig core|sig|]; cbn [event_ok status_of] in *.
  - assert (forall c, c ∈ seqZ 0 256 -> classify (256 * c) = None) as H; [|apply H, elem_of_seqZ; lia].
    rewrite <- Forall_forall. apply (bool_decide_unpack _). vm_compute. exact I.
  - assert (forall c, c ∈ seqZ 1 126 -> forall b, classify (c + (if b : bool then 128 else 0)) = None) as H;
      [|apply H, elem_of_seqZ; lia].
    assert (forall b : bool, Forall (fun c => classify (c + (if b then 128 else 0)) = None) (seqZ 1 126)) as H.
    { intros []; apply (bool_decide_unpack _); vm_compute; exact I. }
    intros c Hc b. specialize (H b). rewrite Forall_forall in H. by apply H.
  - assert (forall c, c ∈ seqZ 1 255 -> classify (256 * c + 0x7f) = Some c) as H; [|apply H, elem_of_seqZ; lia].
    rewrite <- Forall_forall. apply (bool_decide_unpack _). vm_compute. exact I.
  - done.
Qed.

(** ** Theorems *)

(** C38: waiting ends. In an environment that does not fail or interrupt for ever,
    and for timeouts below 2^30 milliseconds, [bun_waitpid] returns 0 or -1 after a
    number of iterations bounded by the failures and twice the timeout. *)
Theorem waitpid_returns E mu msec_timeout e fuel :
  patient E mu -> - 2 ^ 31 < msec_timeout < 2 ^ 30 ->
  Z.of_nat (mu e) + Z.max 1 (2 * msec_timeout) + 1 <= Z.of_nat fuel ->
  exists r e', bun_waitpid E fuel msec_timeout e = Some (inl r, e') /\ (r = 0 \/ r = -1).
Proof.
  intros Hp Ht Hf. apply (wait_loop_returns E mu); try done;
    unfold rounds_left; change (0 `mod` 2) with 0; lia.
Qed.

(** the timeout. When nothing happens, the function sleeps twice per
    millisecond of its timeout (once if the timeout is not positive), then reports
    success exactly if the registers of the process can be read; a timeout of 2^30 or
    more overflows the loop counter, which is undefined. *)
Theorem waitpid_timeout E w s msec_timeout e fuel :
  quiet E w s -> - 2 ^ 31 < msec_timeout < 2 ^ 31 -> 2 ^ 31 < Z.of_nat fuel ->
  let e' := Nat.iter (Z.to_nat (Z.max 1 (2 * msec_timeout))) (s ∘ w) e in
  (msec_timeout < 2 ^ 30 -> bun_waitpid E fuel msec_timeout e =
     Some (inl (if (getregs E e').1 then 0 else -1), (getregs E e').2)) /\
  (2 ^ 30 <= msec_timeout -> exists e'', bun_waitpid E fuel msec_timeout e = Some (inr tt, e'')).
Proof.
  intros Hq Ht Hf. cbv zeta. unfold bun_waitpid.
  assert (rounds_left msec_timeout 0 = Z.max 1 (2 * msec_timeout)) as Hr
    by (unfold rounds_left; change (0 `mod` 2) with 0; lia).
  split; intros Hlim.
  - rewrite <- Hr. destruct (Z.to_nat (rounds_left msec_timeout 0)) as [|k] eqn:Hk; [lia|].
    rewrite (quiet_loop E w s Hq k) by lia. unfold registers_readable. by destruct (getregs E _).
  - apply (quiet_overflow E w s Hq (Z.to_nat (2 ^ 31 - 1))); lia.
Qed.

(** a missing child is waited for without end. While [waitpid] fails with
    [ECHILD] (or [EINTR]) the loop neither counts nor sleeps: whatever the timeout, no
    number of iterations makes it return. *)
Theorem waitpid_retries_forever E errno msec_timeout e fuel :
  errno = EINTR \/ errno = ECHILD -> (forall e, exists e', wait E e = (Wait_error errno, e')) ->
  bun_waitpid E fuel msec_timeout e = None.
Proof. apply retry_forever. Qed.

(** what counts as stopped. When [waitpid] reports an event at the first call,
    the function returns -1 if the process has exited, was killed or continued, and 0
    if it is stopped, except that a stop by a job-control signal is a failure when
    [PTRACE_GETSIGINFO] finds the process gone. *)
Theorem waitpid_event E ev msec_timeout e e1 fuel :
  event_ok ev -> wait E e = (Wait_status (status_of ev), e1) ->
  exists e2, bun_waitpid E (S fuel) msec_timeout e =
    Some (inl (match ev with
      | Stopped sig =>
          if decide (sig ∈ [SIGSTOP; SIGTSTP; SIGTTIN; SIGTTOU] /\ (getsiginfo E e1).1 = Some ESRCH)
          then -1 else 0
      | _ => -1
      end), e2).
Proof.
  intros Hok Hw. unfold bun_waitpid. cbn [wait_loop]. unfold iterate. rewrite Hw.
  rewrite on_status_classify, classify_event by done.
  destruct ev as [code|sig core|sig|]; try by (bind_simpl; eauto).
  case_bool_decide as Hsig; bind_simpl.
  - destruct (getsiginfo E e1) as [failure e2]. bind_simpl. exists e2. do 3 f_equal.
    repeat case_decide; try done; tauto.
  - exists e1. do 3 f_equal. rewrite decide_False by tauto. done.
Qed.

(** ** Witnesses *)

(** The state is the number of answers so far; nothing happens, the registers can
    be read. *)
Definition idle : environment :=
  Environment nat (fun e => (Wait_other, S e)) (fun e => (false, S e)) (fun e => (true, S e))
    (fun e => (None, e)).

(** [waitpid] is interrupted until the state, a number, has come down to zero. *)
Definition interrupted : environment :=
  Environment nat (fun e => match e with O => (Wait_status 0x137f, O) | S e => (Wait_error EINTR, e) end)
    (fun e => (false, e)) (fun e => (true, e)) (fun e => (None, e)).

Lemma waitpid_returns_witness :
  exists r e', bun_waitpid interrupted 30 10 5%nat = Some (inl r, e') /\ (r = 0 \/ r = -1).
Proof.
  apply (waitpid_returns interrupted id 10 5%nat 30); [|lia|by_compute].
  split; simpl.
  - intros [|e] errno e' [= <- <-] _. unfold id. lia.
  - intros [|e] e' [=].
  - intros e e' [=].
  - intros e e' [= <-]. lia.
Defined.

Lemma waitpid_timeout_witness :
  bun_waitpid idle (Z.to_nat (2 ^ 31 + 1)) 3 0%nat = Some (inl 0, 13%nat).
Proof.
  destruct (waitpid_timeout idle S S 3 0%nat (Z.to_nat (2 ^ 31 + 1))) as [H _]; [done | lia | lia |].
  rewrite H by lia. reflexivity.
Defined.

(** No such child. *)
Definition orphan : environment :=
  Environment unit (fun e => (Wait_error ECHILD, e)) (fun e => (false, e)) (fun e => (true, e))
    (fun e => (None, e)).

Lemma waitpid_retries_forever_witness : bun_waitpid orphan 1000 5 tt = None.
Proof. apply (waitpid_retries_forever orphan ECHILD); [by right | intros e; by exists e]. Defined.

Lemma waitpid_event_witness :
  wait interrupted 0%nat = (Wait_status (status_of (Stopped 19)), 0%nat) /\
  exists e2, bun_waitpid interrupted 1 5 0%nat = Some (inl 0, e2).
Proof.
  split; [reflexivity|].
  destruct (waitpid_event interrupted (Stopped 19) 5 0%nat 0%nat 0) as [e2 H];
    [by_compute | reflexivity |].
  exists e2. exact H.
Defined.
