(* ===== verification/Utils.v ===== *)
(** * Signal handlers and demangling (src/bun_utils.c, src/bun_cpp_utils.cpp)

    [bun_register_signal_handler] on the table of signal dispositions, and
    [bun_unwind_demangle] on memory, with the demangler of the C++ runtime as a
    function on strings. *)

From S2P Require Import Prelude Memory.

(** ** Signal handlers *)

Definition SIGILL : Z := 4.
Definition SIGTRAP : Z := 5.
Definition SIGABRT : Z := 6.
Definition SIGBUS : Z := 7.
Definition SIGSEGV : Z := 11.
Definition SIGSYS : Z := 31.
Definition SA_SIGINFO : Z := 4.

(** [struct sigaction], as far as the code sets it. *)
Record sigaction := Sigaction { sa_sigaction : Z; sa_flags : Z }.

Definition signals : list Z := [SIGABRT; SIGBUS; SIGSEGV; SIGILL; SIGSYS; SIGTRAP].

(** The loop over the signals; [accepts] is whether the system call succeeds. *)
Fixpoint install (accepts : Z -> bool) (action : sigaction) (table : gmap Z sigaction) (l : list Z)
  : gmap Z sigaction * bool :=
  match l with
  | [] => (table, true)
  | s :: l => if accepts s then install accepts action (<[s := action]> table) l else (table, false)
  end.

Definition bun_register_signal_handler (accepts : Z -> bool) (table : gmap Z sigaction) (handler : Z)
  : gmap Z sigaction * bool :=
  install accepts (Sigaction handler SA_SIGINFO) table signals.

(** The signals before the first one that is refused. *)
Fixpoint accepted (accepts : Z -> bool) (l : list Z) : list Z :=
  match l with
  | [] => []
  | s :: l => if accepts s then s :: accepted accepts l else []
  end.

Lemma install_spec accepts action table l :
  install accepts action table l =
  (foldl (fun t s => <[s := action]> t) table (accepted accepts l), forallb accepts l).
Proof.
  revert table. induction l as [|s l IH]; intros table; simpl; [done|].
  destruct (accepts s); simpl; [apply IH | done].
Qed.

Lemma foldl_insert_lookup {A} (table : gmap Z A) v l s :
  foldl (fun t s => <[s := v]> t) table l !! s = if decide (s ∈ l) then Some v else table !! s.
Proof.
  revert table. induction l as [|x l IH]; intros table; cbn [foldl].
  - by rewrite decide_False by apply not_elem_of_nil.
  - rewrite IH. destruct (decide (s ∈ l)) as [Hin|Hin].
    + by rewrite decide_True by (by apply list_elem_of_further).
    + destruct (decide (s = x)) as [->|Hne].
      * rewrite lookup_insert_eq, decide_True; [done|]. apply list_elem_of_here.
      * rewrite lookup_insert_ne by done. rewrite decide_False; [done|].
        intros [?|?]%elem_of_cons; done.
Qed.

Lemma accepted_all accepts l : forallb accepts l = true -> accepted accepts l = l.
Proof.
  induction l as [|s l IH]; simpl; [done|]. intros [Hs Hl]%andb_true_iff. by rewrite Hs, IH.
Qed.

(** ** Demangling *)

Section Demangle.
(** [abi::__cxa_demangle]: the demangled name, or nothing. *)
Context (cxa_demangle : list byte -> option (list byte)).

Definition bun_unwind_demangle (m : mem) (dest dest_size src : Z) : option (mem * bool) :=
  name ← cstring m src;
  match cxa_demangle name with
  | Some result =>
      if decide (zlen result >= dest_size) then Some (m, false)
      else m ← strcpy_bytes m dest result; Some (m, true)
  | None => Some (m, false)
  end.

Lemma demangle_result m dest dest_size src name :
  cstring m src = Some name -> mapped m dest dest_size ->
  bun_unwind_demangle m dest dest_size src =
  match cxa_demangle name with
  | Some r => if decide (zlen r < dest_size) then Some (write_bytes m dest (r ++ [NUL]), true)
      else Some (m, false)
  | None => Some (m, false)
  end.
Proof.
  intros Hs Hm. unfold bun_unwind_demangle. rewrite Hs. bind_simpl.
  destruct (cxa_demangle name) as [r|]; [|done]. pose proof (zlen_nonneg r).
  destruct (decide (zlen r < dest_size)).
  - rewrite decide_False by lia. unfold strcpy_bytes.
    by rewrite store_mapped by (zlen_norm; apply (mapped_sub _ _ _ _ _ Hm); lia).
  - by rewrite decide_True by lia.
Qed.
End Demangle.

(** ** Theorems *)

(** registering the handlers. The call returns true exactly when the system
    accepts all six signals; whatever it returns, the signals in front of the first
    refused one have the handler, with [SA_SIGINFO], and every other signal, those
    behind it included, keeps its disposition. *)
Theorem signal_handler_spec accepts table handler :
  (bun_register_signal_handler accepts table handler).2 = forallb accepts signals /\
  (forall s, (bun_register_signal_handler accepts table handler).1 !! s =
     if decide (s ∈ accepted accepts signals) then Some (Sigaction handler SA_SIGINFO) else table !! s) /\
  ((bun_register_signal_handler accepts table handler).2 = true -> accepted accepts signals = signals).
Proof.
  unfold bun_register_signal_handler. rewrite install_spec. cbn [fst snd]. split_and!.
  - done.
  - intros s. apply foldl_insert_lookup.
  - apply accepted_all.
Qed.

(** demangling writes all or nothing. For a source string and a mapped
    destination the call is defined; it returns true exactly when the demangled name
    and its terminator fit in [dest_size] bytes, then the destination holds that
    string and no byte beyond its terminator has changed; otherwise memory is
    unchanged. *)
Theorem demangle_spec cxa_demangle m dest dest_size src name :
  cstring m src = Some name -> mapped m dest dest_size ->
  (forall s r, cxa_demangle s = Some r -> no_nul r) ->
  exists m' ok, bun_unwind_demangle cxa_demangle m dest dest_size src = Some (m', ok) /\
    (ok = true -> exists r, cxa_demangle name = Some r /\ zlen r < dest_size /\
       cstring m' dest = Some r /\ same_outside m m' dest (zlen r + 1)) /\
    (ok = false -> m' = m /\ forall r, cxa_demangle name = Some r -> dest_size <= zlen r).
Proof.
  intros Hs Hm Hd. rewrite (demangle_result _ _ _ _ _ name) by done.
  destruct (cxa_demangle name) as [r|] eqn:Hr; [|by exists m, false].
  case_decide as Hfit.
  - eexists _, true. split; [done|]. split; [|done]. intros _. exists r. split_and!; [done..| |].
    + apply cstring_spec. split; [apply at_addr_write | by eapply Hd].
    + pose proof (same_outside_write m dest (r ++ [NUL])) as Ho. by zlen_norm.
  - exists m, false. split_and!; [done..|]. intros _. split; [done|]. intros ? [= <-]. lia.
Qed.

(** ** Witnesses *)

Definition demangle_sample (s : list byte) : option (list byte) :=
  if decide (s = bytes_of "_Z1fv") then Some (bytes_of "f()") else None.

Lemma demangle_spec_witness :
  exists m' ok, bun_unwind_demangle demangle_sample (mem_of [(0x100, bytes_of "_Z1fv" ++ [NUL])]) 0x100 6 0x100 =
    Some (m', ok) /\ (ok = true -> cstring m' 0x100 = Some (bytes_of "f()")).
Proof.
  destruct (demangle_spec demangle_sample (mem_of [(0x100, bytes_of "_Z1fv" ++ [NUL])]) 0x100 6 0x100
    (bytes_of "_Z1fv")) as (m' & ok & H & Ht & _).
  - by_compute.
  - by_compute.
  - intros s r. unfold demangle_sample. case_decide; [|discriminate]. intros [= <-]. by_compute.
  - exists m', ok. split; [exact H|]. intros E. destruct (Ht E) as (r & Hr & _ & Hc & _).
    vm_compute in Hr. injection Hr as <-. exact Hc.
Defined.
