(* ===== verification/Backend.v ===== *)
(** * What the backends share: filling a buffer with the frames of an unwinder

    Every backend opens a writer, stamps the header and appends one frame per
    step of its unwinder until the unwinder stops or a frame is refused. This file
    has the state of a buffer that is being filled, the interface between a backend
    and the stream - how it builds the frame of one step in its own memory - and the
    theory of the loop, proved against that interface. *)

From S2P Require Import Prelude Memory Stream Frame FrameWrite FrameRead RoundTrip.

(** ** A buffer that is being filled *)

Section Written.
Context (b : bun_buffer) (h : Z).

(** The payload holds the records [ds] behind the header of a stream with thread
    [tid] and backend [bk], and [w] is the writer positioned behind them. *)
Record written (tid bk : Z) (m : mem) (w : bun_writer) (ds : list frame_data) : Prop := {
  wr_buffer : buffer_ok m b;
  wr_writer : w = set_cursor (initial_base b h) (cursor (initial_base b h) + stream_size ds);
  wr_base : base_ok m w;
  wr_bytes : at_addr m (cursor (initial_base b h)) (stream_bytes ds);
  wr_size : load_uint m (bun_buffer_payload b + header_size) 4 =
    Some (u32 (sizeof_payload_header + stream_counted ds));
  wr_magic : load_uint m (bun_buffer_payload b + header_magic) 8 = Some BUN_HEADER_MAGIC;
  wr_tid : load_uint m (bun_buffer_payload b + header_tid) 4 = Some tid;
  wr_backend : load_uint m (bun_buffer_payload b + header_backend) 2 = Some bk;
  wr_data : Forall data_ok ds
}.

(** Memory that differs at most outside the payload. *)
Definition same_payload (m m' : mem) : Prop :=
  forall j, bun_buffer_payload b <= j < bun_buffer_payload b + bun_buffer_payload_size b ->
    m' !! j = m !! j.

Lemma load_uint_same_payload m m' a n :
  same_payload m m' -> bun_buffer_payload b <= a ->
  a + Z.of_nat n <= bun_buffer_payload b + bun_buffer_payload_size b ->
  load_uint m' a n = load_uint m a n.
Proof. intros Hs Ha Hn. unfold load_uint. f_equal. apply load_agree. intros j Hj. apply Hs. lia. Qed.

Lemma at_addr_same_payload m m' a bs :
  same_payload m m' -> bun_buffer_payload b <= a ->
  a + zlen bs <= bun_buffer_payload b + bun_buffer_payload_size b ->
  at_addr m a bs -> at_addr m' a bs.
Proof.
  intros Hs Ha Hn Hat. unfold at_addr in *. rewrite <- Hat. apply load_agree.
  intros j Hj. apply Hs. unfold zlen in Hn. lia.
Qed.

Lemma written_room m tid bk w ds :
  written tid bk m w ds ->
  0 <= stream_size ds <= buffer_size b - sizeof_buffer_payload /\
  bun_buffer_payload_size b = buffer_size b - payload_header /\
  available w = buffer_size b - sizeof_buffer_payload - stream_size ds.
Proof.
  intros [Hb -> Hok _ _ _ _ _ _]. pose proof (payload_size_ok _ _ Hb) as Hs.
  pose proof (stream_size_nonneg ds).
  unfold available. destruct Hok. cbn [initial_base set_cursor buffer cursor size] in *. rewrite Hs in *.
  unfold bun_buffer_payload in *. layout. lia.
Qed.

(** Memory may change outside the payload. *)
Lemma written_frame m m' tid bk w ds :
  written tid bk m w ds -> grows m m' -> same_payload m m' -> written tid bk m' w ds.
Proof.
  intros Hw Hg Hs. destruct (written_room _ _ _ _ _ Hw) as (Hr & Hp & _).
  destruct Hw as [Hb Hwr Hok Hat Hsz Hmg Ht Hk Hd]. destruct (id Hb). split; try done.
  - by eapply buffer_ok_mapped.
  - by eapply base_ok_mapped.
  - eapply at_addr_same_payload; [done | | |done]; change (zlen (stream_bytes ds)) with (stream_size ds);
      cbn [initial_base cursor]; layout; lia.
  - rewrite <- Hsz. apply load_uint_same_payload; [done | layout; lia..].
  - rewrite <- Hmg. apply load_uint_same_payload; [done | layout; lia..].
  - rewrite <- Ht. apply load_uint_same_payload; [done | layout; lia..].
  - rewrite <- Hk. apply load_uint_same_payload; [done | layout; lia..].
Qed.

Lemma stream_bytes_snoc ds d : stream_bytes (ds ++ [d]) = stream_bytes ds ++ encode d.
Proof. unfold stream_bytes. rewrite bind_app. simpl. by rewrite app_nil_r. Qed.

Lemma stream_counted_snoc ds d : stream_counted (ds ++ [d]) = stream_counted ds + counted d.
Proof.
  unfold stream_counted, counted. rewrite stream_size_app, stream_size_cons.
  change (stream_size []) with 0. zlia.
Qed.

(** Appending a frame that fits. *)
Lemma written_append m tid bk w ds f d :
  written tid bk m w ds -> frame_repr m f d -> data_ok d ->
  frame_outside (bun_buffer_payload b) (bun_buffer_payload_size b) f d ->
  record_size d <= available w ->
  exists m' w', bun_frame_write m w f = Some (m', w', counted d) /\
    written tid bk m' w' (ds ++ [d]) /\ grows m m' /\
    same_outside m m' (bun_buffer_payload b) (bun_buffer_payload_size b).
Proof.
  intros Hw Hr Hd Hout Hfit. destruct (written_room _ _ _ _ _ Hw) as (Hroom & Hp & Hav).
  pose proof (record_size_pos d). pose proof (zlen_encode d) as Hel.
  assert (stream_size (ds ++ [d]) = stream_size ds + record_size d) as Hss
    by (rewrite stream_size_app, stream_size_cons; change (stream_size []) with 0; lia).
  destruct Hw as [Hb -> Hok Hat Hsz Hmg Ht Hk Hds]. destruct (id Hb).
  destruct (frame_write_appends m (set_cursor (initial_base b h) (cursor (initial_base b h) + stream_size ds))
    f d (u32 (sizeof_payload_header + stream_counted ds))) as (m' & w' & Hwr & Happ); try done.
  { eapply frame_outside_weaken; [exact Hout|..]; cbn [initial_base set_cursor cursor]; layout; lia. }
  destruct Happ as (Hok' & -> & Hat' & Hh' & Hg & Ho).
  cbn [initial_base set_cursor cursor buffer] in *.
  eexists m', _. split; [exact Hwr|]. split_and!; [|done|].
  - split; cbn [initial_base set_cursor cursor buffer]; try done.
    + by eapply buffer_ok_mapped.
    + rewrite Hss. unfold set_cursor. cbn. f_equal. lia.
    + rewrite stream_bytes_snoc. apply at_addr_app. split; [|exact Hat'].
      unfold at_addr in *. rewrite <- Hat. apply load_agree. intros j Hj.
      change (Z.of_nat (length (stream_bytes ds))) with (stream_size ds) in Hj.
      apply Ho; layout; lia.
    + rewrite Hh', stream_counted_snoc. unfold u32. f_equal. rewrite Zplus_mod_idemp_l. f_equal. lia.
    + rewrite <- Hmg. unfold load_uint. f_equal. apply load_agree. intros j Hj. apply Ho; layout; lia.
    + rewrite <- Ht. unfold load_uint. f_equal. apply load_agree. intros j Hj. apply Ho; layout; lia.
    + rewrite <- Hk. unfold load_uint. f_equal. apply load_agree. intros j Hj. apply Ho; layout; lia.
    + apply Forall_app. split; [done|]. by constructor.
  - intros j Hj. apply Ho; layout; lia.
Qed.

(** A reader on the result delivers the records the size field covers. *)
Lemma written_read m tid bk w ds h' f0 :
  written tid bk m w ds -> buffer_data b + buffer_size b < 2 ^ 63 -> buffer_size b <= 2 ^ 32 ->
  bun_reader_init m b h' = Some (Some (initial_base b h')) /\
  exists r' gs, read_all (read_fuel (initial_base b h')) m (initial_base b h') f0 = Some (r', gs) /\
    Forall2 (frame_shows m) gs (readable (stream_counted ds) ds).
Proof.
  intros Hw Htop Hsz. destruct (written_room _ _ _ _ _ Hw) as (Hroom & Hp & _).
  destruct Hw as [Hb _ _ Hat Hh Hmg _ _ Hd]. split.
  { by rewrite (reader_init_cases _ _ _ _ Hb Hmg), decide_True. }
  pose proof (stream_size_lower ds). pose proof (zlen_nonneg ds).
  assert (base_ok m (initial_base b h')) as Hokr by (by apply initial_base_ok).
  rewrite u32_small in Hh by (unfold stream_counted; layout; lia).
  destruct (read_all_lemma ds m (initial_base b h') f0 (sizeof_payload_header + stream_counted ds))
    as (r' & gs & Hrd & Hshow); try done; cbn [initial_base buffer size cursor].
  - rewrite Hp. unfold bun_buffer_payload. layout. lia.
  - rewrite Hp. layout. lia.
  - unfold stream_counted. lia.
  - cbn [initial_base buffer size cursor] in Hshow. exists r', gs. split.
    + eapply read_all_mono; [|done]. unfold read_fuel. cbn [initial_base size]. rewrite Hp.
      unfold zlen in *. layout. lia.
    + by replace (stream_counted ds) with (sizeof_payload_header + stream_counted ds -
        (bun_buffer_payload b + sizeof_payload_header - bun_buffer_payload b)) by lia.
Qed.
End Written.

(** A copy of the bytes of a buffer, at any address of any memory, is a buffer with the same stream. *)
Lemma written_moved m tid bk w ds b h m' b' h' :
  written b h tid bk m w ds -> buffer_ok m' b' -> buffer_size b' = buffer_size b ->
  (forall i, 0 <= i < buffer_size b -> m' !! (buffer_data b' + i) = m !! (buffer_data b + i)) ->
  exists w', written b' h' tid bk m' w' ds.
Proof.
  intros Hw Hb' Hsize Hsame. destruct (written_room _ _ _ _ _ _ _ Hw) as (Hroom & Hp & _).
  pose proof (payload_size_ok _ _ Hb') as Hp'. pose proof (payload_size_ok _ _ (wr_buffer _ _ _ _ _ _ _ Hw)) as Hp0.
  assert (forall a n, payload_header <= a -> a + Z.of_nat n <= buffer_size b ->
    load m' (buffer_data b' + a) n = load m (buffer_data b + a) n) as Hload.
  { intros a n Ha Hn. apply load_moved. intros i Hi. rewrite <- !Z.add_assoc. apply Hsame. layout. lia. }
  assert (forall a n, 0 <= a -> a + Z.of_nat n <= buffer_size b - payload_header ->
    load_uint m' (bun_buffer_payload b' + a) n = load_uint m (bun_buffer_payload b + a) n) as Huint.
  { intros a n Ha Hn. unfold load_uint, bun_buffer_payload. rewrite <- !Z.add_assoc. f_equal. apply Hload; layout; lia. }
  destruct Hw as [Hb _ _ Hat Hsz Hmg Ht Hk Hd]. destruct (id Hb) as [_ _ Hmin _].
  eexists. split; [done | reflexivity | | | | | | | done].
  - pose proof (initial_base_ok _ _ h' Hb') as [Hnn Htop Haft Hin Hmap]. unfold initial_base, bun_buffer_payload in *.
    split; cbn [set_cursor buffer cursor size] in *; try done; layout; lia.
  - unfold at_addr in *. cbn [initial_base cursor] in *. unfold bun_buffer_payload in *. rewrite <- !Z.add_assoc in *.
    rewrite Hload; [done | layout; lia |]. change (Z.of_nat (length (stream_bytes ds))) with (stream_size ds). layout. lia.
  - rewrite Huint by (layout; lia). done.
  - rewrite Huint by (layout; lia). done.
  - rewrite Huint by (layout; lia). done.
  - rewrite Huint by (layout; lia). done.
Qed.

(** ** Opening the stream *)

Lemma writer_init_opened m b arch h tid count r flags :
  init_allowed m b h count r flags ->
  exists m', bun_writer_init m b arch h tid = Some (m', Some (initial_base b h)) /\
    buffer_ok m' b /\ grows m m' /\ same_outside m m' (buffer_data b) 38 /\
    load_header m' (bun_buffer_payload b) =
      Some (Header BUN_HEADER_MAGIC 1 (u16 arch) sizeof_payload_header (u32 tid) (2 ^ 16 - 1)).
Proof.
  intros [Hb Hh Hs Hf Hc Hu]. erewrite writer_init_cases by done. rewrite decide_False by done. cbv zeta.
  rewrite decide_False by done. eexists. split; [done|].
  assert (grows m (attached_mem m b r h)) as Hg1
    by (unfold attached_mem; case_decide; [apply grows_write | done]).
  set (m1 := attached_mem m b r h) in *.
  set (m2 := claimed_mem m1 b (effective_handle r h) flags count).
  assert (grows m1 m2) as Hg2 by (unfold m2, claimed_mem; case_decide; [apply grows_write | done]).
  pose proof (header_written_grows m2 (bun_buffer_payload b) arch tid) as Hg3.
  split_and!.
  - eapply buffer_ok_mapped; [exact Hg3|]. eapply buffer_ok_mapped; [exact Hg2|].
    by eapply buffer_ok_mapped.
  - by etrans; [|etrans].
  - pose proof (attached_outside m b r h). pose proof (claimed_outside m1 b (effective_handle r h) flags count).
    pose proof (header_written_outside m2 (bun_buffer_payload b) arch tid).
    unfold bun_buffer_payload in *. layout.
    repeat (eapply same_outside_trans; [|eapply same_outside_weaken; [done|lia..]]).
    apply same_outside_refl.
  - apply header_written_load.
Qed.

(** The writer and the stamp of the backend, as every backend begins. *)
Definition open_stream (m : mem) (b : bun_buffer) (arch h self : Z) (garbage : bun_writer) (backend : Z)
  : option (mem * bun_writer) :=
  '(m, opened) ← bun_writer_init m b arch h self;
  let w := default garbage opened in
  m ← bun_header_backend_set m w backend;
  Some (m, w).

Lemma header_written_fields m b h tid bk hd :
  buffer_ok m b -> load_header m (bun_buffer_payload b) = Some hd ->
  h_magic hd = BUN_HEADER_MAGIC -> h_size hd = sizeof_payload_header ->
  h_tid hd = tid -> h_backend hd = bk ->
  written b h tid bk m (initial_base b h) [].
Proof.
  intros Hb Hh Hmg Hsz Ht Hk. destruct (header_fields _ _ _ Hh) as (H1 & H2 & H3).
  pose proof (header_magic_of_load _ _ _ Hh) as H0.
  split; rewrite ?H0, ?H1, ?H2, ?H3, ?Hmg, ?Hsz, ?Ht, ?Hk; try done.
  - change (stream_size []) with 0. unfold set_cursor, initial_base. cbn. by rewrite Z.add_0_r.
  - by apply initial_base_ok.
Qed.

Lemma open_stream_spec m b arch h self garbage backend count r flags :
  init_allowed m b h count r flags ->
  exists m', open_stream m b arch h self garbage backend = Some (m', initial_base b h) /\
    written b h (u32 self) (u16 backend) m' (initial_base b h) [] /\ grows m m' /\
    same_outside m m' (buffer_data b) sizeof_buffer_payload /\
    forall tid, exists m'', bun_header_tid_set m' (initial_base b h) tid = Some m'' /\
      written b h (u32 tid) (u16 backend) m'' (initial_base b h) [] /\ grows m m'' /\
      same_outside m m'' (buffer_data b) sizeof_buffer_payload.
Proof.
  intros Hi. destruct (writer_init_opened m b arch h self count r flags Hi) as (m1 & Hw & Hb1 & Hg1 & Ho1 & Hh1).
  pose proof (initial_base_ok m1 b h Hb1) as Hok1.
  destruct (backend_set_header m1 (initial_base b h) backend _ Hok1 Hh1) as (m2 & Hk & Hg2 & Ho2 & Hh2).
  assert (buffer_ok m2 b) as Hb2 by (by eapply buffer_ok_mapped).
  unfold open_stream. rewrite Hw. bind_simpl. cbn [default from_option]. unfold id. rewrite Hk. bind_simpl.
  assert (same_outside m m2 (buffer_data b) sizeof_buffer_payload) as Hout2.
  { eapply same_outside_trans; [eapply same_outside_weaken; [exact Ho1 | layout; lia..]|].
    eapply same_outside_weaken; [exact Ho2 | |]; cbn [initial_base buffer];
      unfold bun_buffer_payload; layout; lia. }
  exists m2. split_and!; [done | | by etrans | done |].
  { by eapply header_written_fields. }
  intros tid. pose proof (initial_base_ok m2 b h Hb2) as Hok2.
  destruct (tid_set_header m2 (initial_base b h) tid _ Hok2 Hh2) as (m3 & Ht & Hg3 & Ho3 & Hh3).
  exists m3. split_and!; [done | | by etrans; [|etrans] |].
  - eapply header_written_fields; [by eapply buffer_ok_mapped | exact Hh3 | done..].
  - eapply same_outside_trans; [exact Hout2|].
    eapply same_outside_weaken; [exact Ho3 | |]; cbn [initial_base buffer];
      unfold bun_buffer_payload; layout; lia.
Qed.

(** When the writer is refused, the stamp goes through the uninitialised writer. *)
Lemma open_stream_refused m m' b arch h self garbage backend :
  bun_writer_init m b arch h self = Some (m', None) ->
  open_stream m b arch h self garbage backend =
  (m' ← store_uint m' (buffer garbage + header_backend) 2 (u16 backend); Some (m', garbage)).
Proof. intros H. unfold open_stream. by rewrite H. Qed.

(** ** The interface between a backend and the stream *)

(** A builder makes, from one step [x] of the unwinder, the frame to be written,
    or none if the step is skipped. It works in memory of its own, [own], outside the
    buffer [b]; [ready] says that this memory is there and that memory outside the
    buffer holds what the builder reads for the steps in [possible]. [data] is the
    record the frame stands for. *)
Class FrameBuilder {X : Type} (b : bun_buffer) (build : mem -> X -> option (mem * option bun_frame))
    (data : X -> option frame_data) (possible : X -> Prop) (ready : mem -> Prop) (own : Z -> Prop) : Prop := {
  fb_own j : own j -> ~ (buffer_data b <= j < buffer_data b + buffer_size b);
  fb_stable m m' : ready m -> grows m m' ->
    (forall j, ~ (buffer_data b <= j < buffer_data b + buffer_size b) -> m' !! j = m !! j) -> ready m';
  fb_build m x : ready m -> possible x ->
    exists m1 f, build m x = Some (m1, f) /\ ready m1 /\ grows m m1 /\
      (forall j, ~ own j -> m1 !! j = m !! j) /\
      match f, data x with
      | Some f, Some d => frame_repr m1 f d /\ data_ok d /\
          frame_outside (bun_buffer_payload b) (bun_buffer_payload_size b) f d
      | None, None => True
      | _, _ => False
      end
}.

(** One step: build the frame and append it; false when the frame is refused. *)
Definition emit {X} (build : mem -> X -> option (mem * option bun_frame)) (m : mem) (w : bun_writer) (x : X)
  : option (mem * bun_writer * bool) :=
  '(m, f) ← build m x;
  match f with
  | None => Some (m, w, true)
  | Some f => '(m, w, n) ← bun_frame_write m w f; Some (m, w, bool_decide (n <> 0))
  end.

(** The steps in order, up to the first refusal. *)
Fixpoint emit_all {X} (build : mem -> X -> option (mem * option bun_frame)) (m : mem) (w : bun_writer)
    (xs : list X) : option (mem * bun_writer * bool) :=
  match xs with
  | [] => Some (m, w, true)
  | x :: xs =>
      '(m, w, ok) ← emit build m w x;
      if (ok : bool) then emit_all build m w xs else Some (m, w, false)
  end.

Section Emit.
Context {X : Type} (b : bun_buffer) (h : Z) (build : mem -> X -> option (mem * option bun_frame)).
Context (data : X -> option frame_data) (possible : X -> Prop) (ready : mem -> Prop) (own : Z -> Prop).
Context `{HB : !FrameBuilder b build data possible ready own}.

(** What the steps keep: the builder's memory, and all memory that is neither the
    builder's nor the buffer's. *)
Definition untouched (m m' : mem) : Prop :=
  forall j, ~ own j -> ~ (buffer_data b <= j < buffer_data b + buffer_size b) -> m' !! j = m !! j.

Lemma payload_in_buffer m j :
  buffer_ok m b -> bun_buffer_payload b <= j < bun_buffer_payload b + bun_buffer_payload_size b ->
  buffer_data b <= j < buffer_data b + buffer_size b.
Proof.
  intros Hb Hj. rewrite (payload_size_ok _ _ Hb) in Hj. unfold bun_buffer_payload in Hj. layout. lia.
Qed.

(** A change of the payload leaves the builder ready. *)
Lemma ready_payload m m' :
  buffer_ok m b -> ready m -> grows m m' ->
  same_outside m m' (bun_buffer_payload b) (bun_buffer_payload_size b) -> ready m'.
Proof.
  intros Hb Hr Hg Ho. apply (fb_stable m); [done..|]. intros j Hj. apply Ho. intros Hin.
  apply Hj. by eapply payload_in_buffer.
Qed.

Lemma build_payload m m1 :
  buffer_ok m b -> (forall j, ~ own j -> m1 !! j = m !! j) -> same_payload b m m1.
Proof.
  intros Hb Ho j Hj. apply Ho. intros Hown. apply (fb_own j Hown). by eapply payload_in_buffer.
Qed.

Lemma emit_fits m w tid bk ds x :
  written b h tid bk m w ds -> ready m -> possible x ->
  (forall d, data x = Some d -> record_size d <= available w) ->
  exists m' w', emit build m w x = Some (m', w', true) /\
    written b h tid bk m' w' (ds ++ option_list (data x)) /\ ready m' /\ untouched m m'.
Proof.
  intros Hw Hr Hx Hfit. destruct (fb_build m x Hr Hx) as (m1 & f & Hb & Hr1 & Hg1 & Ho1 & Hf).
  pose proof (wr_buffer _ _ _ _ _ _ _ Hw) as Hbuf.
  assert (written b h tid bk m1 w ds) as Hw1.
  { eapply written_frame; [done..|]. by apply build_payload. }
  unfold emit. rewrite Hb. bind_simpl. destruct f as [f|], (data x) as [d|]; try done.
  - destruct Hf as (Hrep & Hd & Hout).
    destruct (written_append b h _ _ _ _ _ f d Hw1 Hrep Hd Hout) as (m2 & w2 & Hwr & Hw2 & Hg2 & Ho2);
      [by apply Hfit|].
    rewrite Hwr. bind_simpl. rewrite bool_decide_true
      by (unfold counted; pose proof (record_size_pos d); lia).
    exists m2, w2. split_and!; [done..| |].
    + apply (ready_payload m1); try done. apply (wr_buffer _ _ _ _ _ _ _ Hw1).
    + intros j Hown Hbj. rewrite Ho2; [by apply Ho1|]. intros Hj. apply Hbj.
      by eapply payload_in_buffer.
  - exists m1, w. change (option_list None) with (@nil frame_data). rewrite app_nil_r. split_and!; [done..|].
    intros j Hown _. by apply Ho1.
Qed.

Lemma emit_refused m w tid bk ds x d :
  written b h tid bk m w ds -> ready m -> possible x -> data x = Some d ->
  counted d < 2 ^ 64 -> available w < counted d ->
  exists m', emit build m w x = Some (m', w, false) /\
    written b h tid bk m' w ds /\ ready m' /\ untouched m m'.
Proof.
  intros Hw Hr Hpos Hx Hlt Hfull. destruct (fb_build m x Hr Hpos) as (m1 & f & Hb & Hr1 & Hg1 & Ho1 & Hf).
  pose proof (wr_buffer _ _ _ _ _ _ _ Hw) as Hbuf.
  unfold emit. rewrite Hb. bind_simpl. rewrite Hx in Hf. destruct f as [f|]; [|done].
  destruct Hf as (Hrep & Hd & Hout).
  assert (written b h tid bk m1 w ds) as Hw1.
  { eapply written_frame; [done..|]. by apply build_payload. }
  rewrite (frame_write_refuse m1 w f d) by (first [done | lia | apply (wr_base _ _ _ _ _ _ _ Hw1)]).
  bind_simpl. exists m1. split_and!; [done..|]. intros j Hown _. by apply Ho1.
Qed.

(** The records of a list of steps. *)
Definition records (xs : list X) : list frame_data := omap data xs.

Lemma records_cons x xs : records (x :: xs) = option_list (data x) ++ records xs.
Proof. unfold records. cbn [omap list_omap]. by destruct (data x). Qed.

Lemma untouched_trans m1 m2 m3 : untouched m1 m2 -> untouched m2 m3 -> untouched m1 m3.
Proof. intros H1 H2 j Hj Hb. by rewrite H2, H1. Qed.

Lemma emit_all_fits xs : forall m w tid bk ds,
  written b h tid bk m w ds -> ready m -> Forall possible xs -> stream_size (records xs) <= available w ->
  exists m' w', emit_all build m w xs = Some (m', w', true) /\
    written b h tid bk m' w' (ds ++ records xs) /\ ready m' /\ untouched m m'.
Proof.
  induction xs as [|x xs IH]; intros m w tid bk ds Hw Hr Hpos Hfit.
  { exists m, w. rewrite app_nil_r. by split_and!. }
  rewrite records_cons, stream_size_app in Hfit. pose proof (stream_size_nonneg (records xs)).
  apply Forall_cons in Hpos as [Hx Hpos].
  destruct (emit_fits m w tid bk ds x Hw Hr Hx) as (m1 & w1 & He & Hw1 & Hr1 & Hu1).
  { intros d Hd. rewrite Hd in Hfit. change (option_list (Some d)) with [d] in Hfit.
    rewrite stream_size_cons in Hfit. change (stream_size []) with 0 in Hfit. lia. }
  destruct (written_room b h m _ _ _ _ Hw) as (_ & _ & Hav).
  destruct (written_room b h m1 _ _ _ _ Hw1) as (_ & _ & Hav1). rewrite stream_size_app in Hav1.
  destruct (IH m1 w1 tid bk _ Hw1 Hr1 Hpos) as (m2 & w2 & Hes & Hw2 & Hr2 & Hu2); [lia|].
  exists m2, w2. cbn [emit_all]. rewrite He. bind_simpl.
  rewrite records_cons, app_assoc. split_and!; try done. by eapply untouched_trans.
Qed.

Lemma emit_all_refused xs x d xs' m w tid bk ds :
  written b h tid bk m w ds -> ready m -> Forall possible xs -> possible x ->
  stream_size (records xs) <= available w ->
  data x = Some d -> counted d < 2 ^ 64 -> available w - stream_size (records xs) < counted d ->
  exists m' w', emit_all build m w (xs ++ x :: xs') = Some (m', w', false) /\
    written b h tid bk m' w' (ds ++ records xs) /\ ready m' /\ untouched m m'.
Proof.
  revert m w ds. induction xs as [|y xs IH]; intros m w ds Hw Hr Hpos Hpx Hfit Hx Hlt Hfull.
  { destruct (emit_refused m w tid bk ds x d) as (m' & He & Hw' & Hr' & Hu'); try done.
    { change (stream_size (records [])) with 0 in Hfull. lia. }
    exists m', w. rewrite app_nil_r. cbn [app emit_all]. rewrite He. by split_and!. }
  rewrite records_cons, stream_size_app in Hfit, Hfull. pose proof (stream_size_nonneg (records xs)).
  apply Forall_cons in Hpos as [Hy Hpos].
  destruct (emit_fits m w tid bk ds y Hw Hr Hy) as (m1 & w1 & He & Hw1 & Hr1 & Hu1).
  { intros d' Hd'. rewrite Hd' in Hfit. change (option_list (Some d')) with [d'] in Hfit.
    rewrite stream_size_cons in Hfit. change (stream_size []) with 0 in Hfit. lia. }
  destruct (written_room b h m _ _ _ _ Hw) as (_ & _ & Hav).
  destruct (written_room b h m1 _ _ _ _ Hw1) as (_ & _ & Hav1). rewrite stream_size_app in Hav1.
  destruct (IH m1 w1 _ Hw1 Hr1 Hpos Hpx) as (m2 & w2 & Hes & Hw2 & Hr2 & Hu2); [lia | done | done | lia |].
  exists m2, w2. cbn [app emit_all]. rewrite He. bind_simpl.
  rewrite records_cons, app_assoc. split_and!; try done. by eapply untouched_trans.
Qed.
End Emit.

(** Builders that skip no step. *)
Lemma records_fmap {X} (data : X -> frame_data) xs :
  records (fun x => Some (data x)) xs = data <$> xs.
Proof. induction xs as [|x xs IH]; [done|]. rewrite records_cons, IH. done. Qed.
