(* ===== verification/Libunwind.v ===== *)
(** * The libunwind backend (src/backend/libunwind/bun_libunwind.c)

    libunwind, [dladdr] and the demangler are arguments of the model; the arrays
    the loop builds a frame in are addresses in memory, and the contents of variables
    the code reads before they are set are arguments too. *)

From Stdlib Require Import String.
From S2P Require Import Prelude Memory Registers Stream Frame FrameWrite FrameRead RoundTrip FrameRegisters Waitpid Utils Backend.

(** ** The register map of each processor *)

Definition register_map (p : processor) : list (Z * string) :=
  (match p with
  | X86_64 => [
      (bun_register_value BUN_REGISTER_X86_64_RAX, "UNW_X86_64_RAX");
      (bun_register_value BUN_REGISTER_X86_64_RBX, "UNW_X86_64_RBX");
      (bun_register_value BUN_REGISTER_X86_64_RCX, "UNW_X86_64_RCX");
      (bun_register_value BUN_REGISTER_X86_64_RDX, "UNW_X86_64_RDX");
      (bun_register_value BUN_REGISTER_X86_64_RSI, "UNW_X86_64_RSI");
      (bun_register_value BUN_REGISTER_X86_64_RDI, "UNW_X86_64_RDI");
      (bun_register_value BUN_REGISTER_X86_64_RBP, "UNW_X86_64_RBP");
      (bun_register_value BUN_REGISTER_X86_64_R8, "UNW_X86_64_R8");
      (bun_register_value BUN_REGISTER_X86_64_R9, "UNW_X86_64_R9");
      (bun_register_value BUN_REGISTER_X86_64_R10, "UNW_X86_64_R10");
      (bun_register_value BUN_REGISTER_X86_64_R11, "UNW_X86_64_R11");
      (bun_register_value BUN_REGISTER_X86_64_R12, "UNW_X86_64_R12");
      (bun_register_value BUN_REGISTER_X86_64_R13, "UNW_X86_64_R13");
      (bun_register_value BUN_REGISTER_X86_64_R14, "UNW_X86_64_R14");
      (bun_register_value BUN_REGISTER_X86_64_R15, "UNW_X86_64_R15");
      (bun_register_value BUN_REGISTER_X86_64_RIP, "UNW_X86_64_RIP") ]
  | I386 => [
      (bun_register_value BUN_REGISTER_X86_EAX, "UNW_X86_EAX");
      (bun_register_value BUN_REGISTER_X86_EBX, "UNW_X86_EBX");
      (bun_register_value BUN_REGISTER_X86_ECX, "UNW_X86_ECX");
      (bun_register_value BUN_REGISTER_X86_EDX, "UNW_X86_EDX");
      (bun_register_value BUN_REGISTER_X86_ESI, "UNW_X86_ESI");
      (bun_register_value BUN_REGISTER_X86_EDI, "UNW_X86_EDI");
      (bun_register_value BUN_REGISTER_X86_EBP, "UNW_X86_EBP");
      (bun_register_value BUN_REGISTER_X86_ESP, "UNW_X86_ESP");
      (bun_register_value BUN_REGISTER_X86_EIP, "UNW_X86_EIP");
      (BUN_REGISTER_X86_END, "UNW_X86_END") ]
  | Aarch64 => [
      (bun_register_value BUN_REGISTER_AARCH64_X0, "UNW_AARCH64_X0");
      (bun_register_value BUN_REGISTER_AARCH64_X1, "UNW_AARCH64_X1");
      (bun_register_value BUN_REGISTER_AARCH64_X2, "UNW_AARCH64_X2");
      (bun_register_value BUN_REGISTER_AARCH64_X3, "UNW_AARCH64_X3");
      (bun_register_value BUN_REGISTER_AARCH64_X4, "UNW_AARCH64_X4");
      (bun_register_value BUN_REGISTER_AARCH64_X5, "UNW_AARCH64_X5");
      (bun_register_value BUN_REGISTER_AARCH64_X6, "UNW_AARCH64_X6");
      (bun_register_value BUN_REGISTER_AARCH64_X7, "UNW_AARCH64_X7");
      (bun_register_value BUN_REGISTER_AARCH64_X8, "UNW_AARCH64_X8");
      (bun_register_value BUN_REGISTER_AARCH64_X9, "UNW_AARCH64_X9");
      (bun_register_value BUN_REGISTER_AARCH64_X10, "UNW_AARCH64_X10");
      (bun_register_value BUN_REGISTER_AARCH64_X11, "UNW_AARCH64_X11");
      (bun_register_value BUN_REGISTER_AARCH64_X12, "UNW_AARCH64_X12");
      (bun_register_value BUN_REGISTER_AARCH64_X13, "UNW_AARCH64_X13");
      (bun_register_value BUN_REGISTER_AARCH64_X14, "UNW_AARCH64_X14");
      (bun_register_value BUN_REGISTER_AARCH64_X15, "UNW_AARCH64_X15");
      (bun_register_value BUN_REGISTER_AARCH64_X16, "UNW_AARCH64_X16");
      (bun_register_value BUN_REGISTER_AARCH64_X17, "UNW_AARCH64_X17");
      (bun_register_value BUN_REGISTER_AARCH64_X18, "UNW_AARCH64_X18");
      (bun_register_value BUN_REGISTER_AARCH64_X19, "UNW_AARCH64_X19");
      (bun_register_value BUN_REGISTER_AARCH64_X20, "UNW_AARCH64_X20");
      (bun_register_value BUN_REGISTER_AARCH64_X21, "UNW_AARCH64_X21");
      (bun_register_value BUN_REGISTER_AARCH64_X22, "UNW_AARCH64_X22");
      (bun_register_value BUN_REGISTER_AARCH64_X23, "UNW_AARCH64_X23");
      (bun_register_value BUN_REGISTER_AARCH64_X24, "UNW_AARCH64_X24");
      (bun_register_value BUN_REGISTER_AARCH64_X25, "UNW_AARCH64_X25");
      (bun_register_value BUN_REGISTER_AARCH64_X26, "UNW_AARCH64_X26");
      (bun_register_value BUN_REGISTER_AARCH64_X27, "UNW_AARCH64_X27");
      (bun_register_value BUN_REGISTER_AARCH64_X28, "UNW_AARCH64_X28");
      (bun_register_value BUN_REGISTER_AARCH64_X29, "UNW_AARCH64_X29");
      (bun_register_value BUN_REGISTER_AARCH64_X30, "UNW_AARCH64_X30");
      (bun_register_value BUN_REGISTER_AARCH64_PC, "UNW_AARCH64_PC");
      (bun_register_value BUN_REGISTER_AARCH64_PSTATE, "UNW_AARCH64_PSTATE") ]
  | Arm => [
      (bun_register_value BUN_REGISTER_ARM_R0, "UNW_ARM_R0");
      (bun_register_value BUN_REGISTER_ARM_R1, "UNW_ARM_R1");
      (bun_register_value BUN_REGISTER_ARM_R2, "UNW_ARM_R2");
      (bun_register_value BUN_REGISTER_ARM_R3, "UNW_ARM_R3");
      (bun_register_value BUN_REGISTER_ARM_R4, "UNW_ARM_R4");
      (bun_register_value BUN_REGISTER_ARM_R5, "UNW_ARM_R5");
      (bun_register_value BUN_REGISTER_ARM_R6, "UNW_ARM_R6");
      (bun_register_value BUN_REGISTER_ARM_R7, "UNW_ARM_R7");
      (bun_register_value BUN_REGISTER_ARM_R8, "UNW_ARM_R8");
      (bun_register_value BUN_REGISTER_ARM_R9, "UNW_ARM_R9");
      (bun_register_value BUN_REGISTER_ARM_R10, "UNW_ARM_R10");
      (bun_register_value BUN_REGISTER_ARM_R11, "UNW_ARM_R11");
      (bun_register_value BUN_REGISTER_ARM_R12, "UNW_ARM_R12");
      (bun_register_value BUN_REGISTER_ARM_R13, "UNW_ARM_R13");
      (bun_register_value BUN_REGISTER_ARM_R14, "UNW_ARM_R14");
      (bun_register_value BUN_REGISTER_ARM_R15, "UNW_ARM_R15") ]
  end)%string.

(** ** libunwind *)

(** A cursor and the functions on it. [unw_get_reg] gives the value if it returns
    0; [unw_get_proc_name] gives its result, the bytes it stores at the start of the
    buffer, and the offset if it stores one. *)
Record libunwind := LibunwindApi {
  cursor_t : Type;
  unw_step : cursor_t -> Z * cursor_t;
  unw_get_reg : cursor_t -> string -> option Z;
  unw_get_proc_name : cursor_t -> Z -> Z * list byte * option Z;
  UNW_ENOMEM : Z
}.

Inductive bun_unwind_signal_safety : Set :=
| BUN_UNWIND_SIGNAL_SAFETY_NOT_REQUIRED
| BUN_UNWIND_SIGNAL_SAFETY_REQUIRED.

#[export] Instance signal_safety_eq_dec : EqDecision bun_unwind_signal_safety.
Proof. solve_decision. Defined.

(** The local variables: the addresses of the two arrays, and what the stack holds
    where [ip], [off] and [writer] are. *)
Record locals := Locals {
  l_symbol : Z;
  l_registers : Z;
  stale_ip : Z;
  stale_off : Z;
  stale_writer : bun_writer
}.

Definition sizeof_symbol : Z := 256.
Definition sizeof_registers : Z := 512.
Definition unknown : list byte := bytes_of "<unknown>".

Section Libunwind.
Context (L : libunwind).
(** [dladdr]: nothing if it returns 0, else [dli_sname], which may be null. *)
Context (dladdr : Z -> option (option (list byte))).
Context (cxa_demangle : list byte -> option (list byte)).
Context (p : processor) (arch : Z) (l : locals).

Definition fallback_dladdr_function_name (m : mem) (symbol buffer_size ip : Z) : option mem :=
  match dladdr ip with
  | Some (Some sname) =>
      if decide (zlen sname >= buffer_size) then
        m ← store m symbol (strncpy_bytes (Z.to_nat (buffer_size - 1)) sname);
        store m (symbol + (buffer_size - 1)) [NUL]
      else strcpy_bytes m symbol sname
  | _ => strcpy_bytes m symbol unknown
  end.

(** Lines 171-193: the array [symbol] and what the code does to it. The offset is
    the one stored, or what was on the stack. *)
Definition unwind_symbol (m : mem) (c : cursor_t L) (ip : Z) (safety : bun_unwind_signal_safety)
  : option (mem * Z) :=
  m ← store m (l_symbol l)
        (unknown ++ replicate (Z.to_nat sizeof_symbol - length unknown) NUL);
  let '(get_proc_name_result, name, off) := unw_get_proc_name L c sizeof_symbol in
  m ← store m (l_symbol l) name;
  m ← (if decide (get_proc_name_result <> 0 /\ get_proc_name_result <> UNW_ENOMEM L)
       then fallback_dladdr_function_name m (l_symbol l) sizeof_symbol ip else Some m);
  '(m, _) ← (if decide (safety = BUN_UNWIND_SIGNAL_SAFETY_NOT_REQUIRED)
       then bun_unwind_demangle cxa_demangle m (l_symbol l) sizeof_symbol (l_symbol l)
       else Some (m, false));
  Some (m, default (stale_off l) off).

(** Lines 304-307. *)
Fixpoint get_registers (m : mem) (f : bun_frame) (c : cursor_t L) (map : list (Z * string))
  : option (mem * bun_frame) :=
  match map with
  | [] => Some (m, f)
  | (bun_reg, unw_reg) :: map =>
      match unw_get_reg L c unw_reg with
      | Some value => '(m, f, _) ← bun_frame_register_append m f bun_reg value; get_registers m f c map
      | None => get_registers m f c map
      end
  end.

(** The body of the loop up to [bun_frame_write]. *)
Definition build_frame (safety : bun_unwind_signal_safety) (m : mem) (c : cursor_t L)
  : option (mem * option bun_frame) :=
  m ← store m (l_registers l) (replicate (Z.to_nat sizeof_registers) NUL);
  let ip := default (stale_ip l) (unw_get_reg L c "UNW_REG_IP") in
  '(m, off) ← unwind_symbol m c ip safety;
  symbol_length ← strlen m (l_symbol l);
  let frame := Frame ip (l_symbol l) symbol_length NULL 0 0 off 0 sizeof_registers (l_registers l) in
  '(m, frame) ← get_registers m frame c (register_map p);
  Some (m, Some frame).

(** The loop: each step of the cursor appends a frame; true when the cursor ends,
    false when a frame is refused. *)
Fixpoint unwind_loop (fuel : nat) (safety : bun_unwind_signal_safety) (m : mem) (w : bun_writer)
    (c : cursor_t L) : option (mem * bool) :=
  match fuel with
  | O => None
  | S fuel =>
      let '(r, c) := unw_step L c in
      if decide (r > 0) then
        '(m, w, ok) ← emit (build_frame safety) m w c;
        if (ok : bool) then unwind_loop fuel safety m w c else Some (m, false)
      else Some (m, true)
  end.

(** [self] is the thread that calls, [tid] the thread that is unwound. *)
Definition libunwind_unwind_impl (fuel : nat) (m : mem) (c : cursor_t L) (h : Z) (b : bun_buffer)
    (self tid : Z) (safety : bun_unwind_signal_safety) : option (mem * Z) :=
  '(m, w) ← open_stream m b arch h self (stale_writer l) BUN_BACKEND_LIBUNWIND;
  m ← bun_header_tid_set m w tid;
  '(m, ok) ← unwind_loop fuel safety m w c;
  if (ok : bool) then
    size ← load_uint m (bun_buffer_payload b + header_size) 4; Some (m, size)
  else Some (m, 0).

(** The local entry point: [c] is the cursor [unw_init_local] makes. *)
Definition libunwind_unwind (fuel : nat) (m : mem) (c : cursor_t L) (h : Z) (b : bun_buffer) (self : Z)
  : option (mem * Z) :=
  libunwind_unwind_impl fuel m c h b self self BUN_UNWIND_SIGNAL_SAFETY_REQUIRED.

(** What the remote entry point holds of the traced process: whether it is
    attached, and the live [_UPT] contexts. *)
Record tracing := Tracing { attached : bool; contexts : heap }.

(** [created] is what [_UPT_create] returns, [attaches] whether [PTRACE_ATTACH]
    succeeds, [init_remote] the result of [unw_init_remote] with its cursor, [E] the
    environment [bun_waitpid] waits in. *)
Definition libunwind_unwind_remote (fuel : nat) (m : mem) (t : tracing) (h : Z) (b : bun_buffer)
    (self tid created : Z) (attaches : bool) (E : environment) (e : env E)
    (init_remote : Z -> Z * cursor_t L) : option (mem * tracing * Z) :=
  let t := Tracing (attached t) ({[created]} ∪ contexts t) in
  libunwind_context ← load_uint m (h + handle_backend_context) 8;
  let error := Some (m, Tracing false (contexts t), 0) in
  if attaches then
    let t := Tracing true (contexts t) in
    '(waited, _) ← bun_waitpid E fuel 5000 e;
    match waited with
    | inr _ => None
    | inl r =>
        if decide (r < 0) then error
        else
          addr_space ← load_uint m libunwind_context 8;
          let '(err, c) := init_remote addr_space in
          if decide (err <> 0) then error
          else
            '(m, bytes_written) ← libunwind_unwind_impl fuel m c h b self tid
              BUN_UNWIND_SIGNAL_SAFETY_NOT_REQUIRED;
            live ← free (contexts t) created;
            Some (m, Tracing false live, bytes_written)
    end
  else error.

(** ** What the code relies on *)

(** Values have the width of their types; a name fits in the buffer and a
    successful [unw_get_proc_name] terminates it; errors are negative, and the
    constants positive; strings of [dladdr] and the demangler are C strings. *)
Record libunwind_ok : Prop := {
  lo_reg c r v : unw_get_reg L c r = Some v -> 0 <= v < 2 ^ 64;
  lo_name c r name off : unw_get_proc_name L c sizeof_symbol = (r, name, off) ->
    zlen name <= sizeof_symbol /\ (r = 0 -> NUL ∈ name) /\ r <= 0 /\
    (forall o, off = Some o -> 0 <= o < 2 ^ 64);
  lo_enomem : 0 < UNW_ENOMEM L;
  lo_dladdr ip s : dladdr ip = Some (Some s) -> no_nul s;
  lo_demangle s r : cxa_demangle s = Some r -> no_nul r;
  lo_stale_ip : 0 <= stale_ip l < 2 ^ 64;
  lo_stale_off : 0 <= stale_off l < 2 ^ 64
}.

(** The arrays: mapped, apart from each other and from the buffer. *)
Definition arrays_mapped (m : mem) : Prop :=
  mapped m (l_symbol l) sizeof_symbol /\ mapped m (l_registers l) sizeof_registers.

Definition arrays_apart (b : bun_buffer) : Prop :=
  0 < l_symbol l /\
  disjoint_ranges (l_symbol l) sizeof_symbol (l_registers l) sizeof_registers /\
  disjoint_ranges (buffer_data b) (buffer_size b) (l_symbol l) sizeof_symbol /\
  disjoint_ranges (buffer_data b) (buffer_size b) (l_registers l) sizeof_registers.

#[export] Instance arrays_mapped_dec m : Decision (arrays_mapped m).
Proof. unfold arrays_mapped. apply _. Defined.
#[export] Instance arrays_apart_dec b : Decision (arrays_apart b).
Proof. unfold arrays_apart. apply _. Defined.

Definition in_arrays (j : Z) : Prop :=
  l_symbol l <= j < l_symbol l + sizeof_symbol \/ l_registers l <= j < l_registers l + sizeof_registers.

(** ** The record of a step *)

Definition step_ip (c : cursor_t L) : Z := default (stale_ip l) (unw_get_reg L c "UNW_REG_IP").

(** The name before demangling. *)
Definition raw_symbol (c : cursor_t L) : list byte :=
  let '(r, name, _) := unw_get_proc_name L c sizeof_symbol in
  if decide (r = 0) then c_str name
  else
    match dladdr (step_ip c) with
    | Some (Some sname) => take 255 sname
    | _ => unknown
    end.

Definition step_symbol (safety : bun_unwind_signal_safety) (c : cursor_t L) : list byte :=
  if decide (safety = BUN_UNWIND_SIGNAL_SAFETY_NOT_REQUIRED) then
    match cxa_demangle (raw_symbol c) with
    | Some name => if decide (zlen name < sizeof_symbol) then name else raw_symbol c
    | None => raw_symbol c
    end
  else raw_symbol c.

Definition step_offset (c : cursor_t L) : Z :=
  let '(_, _, off) := unw_get_proc_name L c sizeof_symbol in default (stale_off l) off.

Definition step_registers (c : cursor_t L) (map : list (Z * string)) : list (Z * Z) :=
  omap (fun e => (fun v => (e.1, v)) <$> unw_get_reg L c e.2) map.

Definition step_data (safety : bun_unwind_signal_safety) (c : cursor_t L) : frame_data :=
  Data (step_ip c) 0 (step_offset c) (step_symbol safety c) [] (step_registers c (register_map p)).

(** ** Lemmas: the symbol *)

Lemma store_string m s :
  mapped m (l_symbol l) sizeof_symbol -> no_nul s -> zlen s < sizeof_symbol ->
  exists m', strcpy_bytes m (l_symbol l) s = Some m' /\ cstring m' (l_symbol l) = Some s /\
    grows m m' /\ same_outside m m' (l_symbol l) sizeof_symbol.
Proof.
  intros Hm Hs Hlt. unfold strcpy_bytes.
  rewrite store_mapped by (zlen_norm; apply (mapped_sub _ _ _ _ _ Hm); lia).
  eexists. split; [done|]. split_and!.
  - apply cstring_spec. split; [apply at_addr_write | done].
  - apply grows_write.
  - eapply same_outside_weaken; [apply same_outside_write|lia|zlen_norm; lia].
Qed.

Lemma fallback_spec m ip :
  libunwind_ok -> mapped m (l_symbol l) sizeof_symbol ->
  exists m', fallback_dladdr_function_name m (l_symbol l) sizeof_symbol ip = Some m' /\
    cstring m' (l_symbol l) = Some (match dladdr ip with
      | Some (Some sname) => take 255 sname | _ => unknown end) /\
    grows m m' /\ same_outside m m' (l_symbol l) sizeof_symbol.
Proof.
  intros Hok Hm. unfold fallback_dladdr_function_name.
  assert (no_nul unknown /\ zlen unknown < sizeof_symbol) as [Hu1 Hu2] by (split; by_compute).
  destruct (dladdr ip) as [[sname|]|] eqn:Hd; try by apply store_string.
  pose proof (lo_dladdr Hok _ _ Hd) as Hs. case_decide as Hlen.
  - change (Z.to_nat (sizeof_symbol - 1)) with 255%nat. change (sizeof_symbol - 1) with (Z.of_nat 255).
    by apply strncpy_terminated.
  - rewrite take_ge by (unfold zlen, sizeof_symbol in *; lia). apply store_string; [done..|lia].
Qed.

Lemma raw_symbol_no_nul c : libunwind_ok -> no_nul (raw_symbol c).
Proof.
  intros Hok. unfold raw_symbol. destruct (unw_get_proc_name L c sizeof_symbol) as [[r name] off] eqn:Hn.
  destruct (lo_name Hok _ _ _ _ Hn) as (_ & Hz & _).
  case_decide as Hr; [by destruct (c_str_split name (Hz Hr)) as (? & _ & ?)|].
  destruct (dladdr (step_ip c)) as [[sname|]|] eqn:Hd; try by_compute.
  apply Forall_take. by eapply lo_dladdr.
Qed.

Lemma step_symbol_no_nul safety c : libunwind_ok -> no_nul (step_symbol safety c).
Proof.
  intros Hok. unfold step_symbol. case_decide; [|by apply raw_symbol_no_nul].
  destruct (cxa_demangle _) eqn:Hd; [case_decide|]; eauto using raw_symbol_no_nul, lo_demangle.
Qed.

Lemma unwind_symbol_spec m c safety :
  libunwind_ok -> mapped m (l_symbol l) sizeof_symbol ->
  exists m', unwind_symbol m c (step_ip c) safety = Some (m', step_offset c) /\
    cstring m' (l_symbol l) = Some (step_symbol safety c) /\
    grows m m' /\ same_outside m m' (l_symbol l) sizeof_symbol.
Proof.
  intros Hok Hm. unfold unwind_symbol, step_offset.
  set (blank := unknown ++ _). assert (zlen blank = sizeof_symbol) as Hbl by (vm_compute; done).
  rewrite store_mapped by (by rewrite Hbl). bind_simpl.
  pose proof (same_outside_write m (l_symbol l) blank) as Ho0. rewrite Hbl in Ho0.
  pose proof (grows_write m (l_symbol l) blank) as Hg0.
  set (m0 := write_bytes m (l_symbol l) blank) in *. clearbody m0. clear Hbl blank.
  assert (mapped m0 (l_symbol l) sizeof_symbol) as Hm0 by (by eapply mapped_grows).
  pose proof (step_symbol_no_nul safety c Hok) as Hno. unfold step_symbol, raw_symbol in *.
  destruct (unw_get_proc_name L c sizeof_symbol) as [[r name] off] eqn:Hn.
  destruct (lo_name Hok _ _ _ _ Hn) as (Hlen & Hz & Hneg & _). pose proof (zlen_nonneg name).
  rewrite store_mapped by (apply (mapped_sub _ _ _ _ _ Hm0); lia). bind_simpl.
  set (m1 := write_bytes m0 (l_symbol l) name).
  assert (mapped m1 (l_symbol l) sizeof_symbol) as Hm1 by (by apply mapped_write).
  assert (exists m2, (if decide (r <> 0 /\ r <> UNW_ENOMEM L)
      then fallback_dladdr_function_name m1 (l_symbol l) sizeof_symbol (step_ip c) else Some m1) = Some m2 /\
    cstring m2 (l_symbol l) = Some (if decide (r = 0) then c_str name else
      match dladdr (step_ip c) with Some (Some sname) => take 255 sname | _ => unknown end) /\
    grows m m2 /\ same_outside m m2 (l_symbol l) sizeof_symbol) as (m2 & -> & Hc2 & Hg2 & Ho2).
  { assert (grows m m1) as Hg1 by (etrans; [exact Hg0 | apply grows_write]).
    assert (same_outside m m1 (l_symbol l) sizeof_symbol) as Ho1.
    { eapply same_outside_trans; [exact Ho0|].
      eapply same_outside_weaken; [apply same_outside_write | lia | lia]. }
    pose proof (lo_enomem Hok). destruct (decide (r = 0)) as [Hr|Hr].
    - rewrite decide_False by tauto. exists m1. split_and!; try done.
      apply cstring_prefix; [apply at_addr_write | by apply Hz].
    - rewrite decide_True by lia. destruct (fallback_spec m1 (step_ip c) Hok Hm1) as (m2 & H1 & H2 & H3 & H4).
      exists m2. split_and!; [done | done | by etrans | by eapply same_outside_trans]. }
  bind_simpl. assert (mapped m2 (l_symbol l) sizeof_symbol) as Hm2 by (by eapply mapped_grows).
  revert Hno Hc2. generalize (if decide (r = 0) then c_str name else
    match dladdr (step_ip c) with Some (Some sname) => take 255 sname | _ => unknown end).
  intros raw Hno Hc2.
  destruct (decide (safety = BUN_UNWIND_SIGNAL_SAFETY_NOT_REQUIRED)); bind_simpl; [|by exists m2].
  rewrite (demangle_result _ _ _ _ _ _ Hc2 Hm2).
  destruct (cxa_demangle raw) as [dem|] eqn:Hdem; [|by exists m2].
  destruct (decide (zlen dem < sizeof_symbol)) as [Hfit|]; bind_simpl; [|by exists m2].
  eexists. split; [done|]. split_and!.
  - apply cstring_spec. split; [apply at_addr_write | done].
  - etrans; [exact Hg2 | apply grows_write].
  - eapply same_outside_trans; [exact Ho2|].
    eapply same_outside_weaken; [apply same_outside_write | lia | zlen_norm; lia].
Qed.

(** ** Lemmas: the registers *)

Definition map_ok (map : list (Z * string)) : Prop := Forall (fun e => 0 <= e.1 < 2 ^ 16) map.

Lemma register_map_ok q : map_ok (register_map q).
Proof. destruct q; apply (bool_decide_unpack _); vm_compute; exact I. Qed.

(** Every map fits in the 512 bytes of the array. *)
Lemma register_map_fits q : REGISTER_SIZE * zlen (register_map q) <= sizeof_registers.
Proof. destruct q; vm_compute; discriminate. Qed.

Lemma step_registers_cons c e map :
  step_registers c (e :: map) =
  option_list ((fun v => (e.1, v)) <$> unw_get_reg L c e.2) ++ step_registers c map.
Proof. unfold step_registers. cbn [omap list_omap]. by destruct (unw_get_reg L c e.2). Qed.

Lemma step_registers_ok c map :
  libunwind_ok -> map_ok map -> Forall register_ok (step_registers c map).
Proof.
  intros Hok. induction 1 as [|e map He _ IH]; [constructor|]. rewrite step_registers_cons.
  apply Forall_app. split; [|done].
  destruct (unw_get_reg L c e.2) as [v|] eqn:Hv; [|constructor].
  repeat constructor; cbn; try apply He; by eapply lo_reg.
Qed.

Lemma zlen_step_registers c map : zlen (step_registers c map) <= zlen map.
Proof.
  induction map as [|e map IH]; [done|]. rewrite step_registers_cons, zlen_app, zlen_cons.
  destruct (unw_get_reg L c e.2); simpl; zlia.
Qed.

(** The loop appends what [unw_get_reg] reports. *)
Lemma get_registers_append c map : forall m f,
  get_registers m f c map = append_all m f (step_registers c map).
Proof.
  induction map as [|[br ur] map IH]; intros m f; [done|].
  rewrite step_registers_cons. cbn [get_registers fst snd].
  destruct (unw_get_reg L c ur) as [v|]; cbn [fmap option_fmap option_map]; [|apply IH].
  change (option_list (Some (br, v))) with [(br, v)]. cbn [app append_all].
  destruct (bun_frame_register_append m f br v) as [[[m1 f1] ok]|]; bind_simpl; [apply IH | done].
Qed.

Lemma get_registers_spec c map m f regs :
  libunwind_ok -> map_ok map -> registers_repr m f regs ->
  zlen regs + zlen map <= register_capacity f ->
  exists m' f', get_registers m f c map = Some (m', f') /\
    f' = set_register_count f (zlen (regs ++ step_registers c map)) /\
    registers_repr m' f' (regs ++ step_registers c map) /\ grows m m' /\
    same_outside m m' (register_data f) (register_buffer_size f).
Proof.
  intros Hok Hmap Hr Hcap. rewrite get_registers_append. apply append_all_spec; [by apply step_registers_ok | done|].
  pose proof (zlen_step_registers c map). lia.
Qed.

(** ** The backend as a builder of frames *)

Lemma raw_symbol_fits c : libunwind_ok -> zlen (raw_symbol c) < sizeof_symbol.
Proof.
  intros Hok. unfold raw_symbol. destruct (unw_get_proc_name L c sizeof_symbol) as [[r name] off] eqn:Hn.
  destruct (lo_name Hok _ _ _ _ Hn) as (Hl & Hz & _). case_decide as Hr.
  - destruct (c_str_split name (Hz Hr)) as (rest & E & _). rewrite E in Hl. zlia.
  - destruct (dladdr (step_ip c)) as [[sname|]|]; try by vm_compute.
    unfold zlen, sizeof_symbol. rewrite length_take. lia.
Qed.

Lemma step_symbol_fits safety c : libunwind_ok -> zlen (step_symbol safety c) < sizeof_symbol.
Proof.
  intros Hok. pose proof (raw_symbol_fits c Hok). unfold step_symbol.
  case_decide; [|done]. destruct (cxa_demangle _); [|done]. by case_decide.
Qed.

Lemma step_data_ok safety c : libunwind_ok -> data_ok (step_data safety c).
Proof.
  intros Hok. split; cbn [step_data d_addr d_line d_offset d_symbol d_filename d_registers]; try done.
  - unfold step_ip. destruct (unw_get_reg L c "UNW_REG_IP") eqn:Hv; simpl; [by eapply lo_reg | apply Hok].
  - unfold step_offset. destruct (unw_get_proc_name L c sizeof_symbol) as [[r name] off] eqn:Hn.
    destruct (lo_name Hok _ _ _ _ Hn) as (_ & _ & _ & Ho).
    destruct off as [o|]; simpl; [by apply Ho | apply Hok].
  - by apply step_symbol_no_nul.
  - constructor.
  - apply step_registers_ok; [done | apply register_map_ok].
  - pose proof (zlen_step_registers c (register_map p)). pose proof (register_map_fits p).
    unfold REGISTER_SIZE, sizeof_registers in *. lia.
Qed.

Lemma libunwind_builder b safety :
  libunwind_ok -> arrays_apart b -> 0 <= bun_buffer_payload_size b <= buffer_size b - payload_header ->
  FrameBuilder b (build_frame safety) (fun c => Some (step_data safety c)) (fun _ => True) arrays_mapped in_arrays.
Proof.
  intros Hok (Hpos & Hd & Hb1 & Hb2) Hps. split.
  - intros j Hj. unfold in_arrays, disjoint_ranges, sizeof_symbol, sizeof_registers in *. lia.
  - intros m m' [] Hg _. split; by eapply mapped_grows.
  - intros m c [Hms Hmr] _. unfold build_frame.
    rewrite store_mapped by done. bind_simpl.
    set (m0 := write_bytes m (l_registers l) (replicate (Z.to_nat sizeof_registers) NUL)).
    assert (grows m m0) as Hg0 by apply grows_write.
    assert (same_outside m m0 (l_registers l) sizeof_registers) as Ho0
      by exact (same_outside_write m (l_registers l) (replicate 512 NUL)).
    destruct (unwind_symbol_spec m0 c safety Hok) as (m1 & Hu & Hc1 & Hg1 & Ho1);
      [by eapply mapped_grows|].
    clearbody m0. fold (step_ip c). rewrite Hu. bind_simpl.
    unfold strlen. rewrite Hc1. bind_simpl.
    set (f0 := Frame _ _ _ _ _ _ _ _ _ _).
    assert (registers_repr m1 f0 []) as Hr0.
    { apply registers_repr_empty; [done | done |]. cbn [f0 register_data register_buffer_size].
      eapply mapped_grows; [|exact Hmr]. by etrans. }
    destruct (get_registers_spec c (register_map p) m1 f0 [] Hok (register_map_ok p) Hr0)
      as (m2 & f2 & Hgr & -> & Hr2 & Hg2 & Ho2).
    { change (register_capacity f0) with 51. change (zlen []) with 0.
      pose proof (register_map_fits p). unfold REGISTER_SIZE, sizeof_registers in *. lia. }
    rewrite Hgr. bind_simpl. cbn [app f0 register_data register_buffer_size] in Ho2, Hr2.
    eexists m2, _. split; [done|]. split; [|split; [|split]].
    + split; (eapply mapped_grows; [|done]); (etrans; [exact Hg0 | by etrans]).
    + etrans; [exact Hg0 | by etrans].
    + intros j Hj. unfold in_arrays in Hj. rewrite Ho2, Ho1, Ho0 by tauto. done.
    + split_and!; [| by apply step_data_ok |].
      * destruct Hr2 as [_ Hn2 _ _ Hat2 _].
        split; cbn [set_register_count f0 addr line_no offset symbol symbol_length filename filename_length
          register_count register_data step_data d_addr d_line d_offset d_symbol d_filename d_registers];
          try done.
        unfold string_repr. rewrite decide_False by (unfold NULL; lia). split; [|by right].
        eapply at_addr_string_disjoint; [exact Ho2 | | exact Hc1].
        pose proof (step_symbol_fits safety c Hok). unfold disjoint_ranges, sizeof_symbol in *. lia.
      * pose proof (step_symbol_fits safety c Hok). pose proof (zlen_nonneg (step_symbol safety c)).
        pose proof (zlen_step_registers c (register_map p)). pose proof (register_map_fits p).
        pose proof (zlen_nonneg (step_registers c (register_map p))).
        unfold sizeof_symbol, sizeof_registers, REGISTER_SIZE in *.
        split; cbn [set_register_count f0 symbol filename register_data step_data d_symbol d_filename d_registers];
          [intros _ | done |]; unfold disjoint_ranges, bun_buffer_payload, REGISTER_SIZE in *; layout; lia.
Qed.

(** ** The loop *)

(** The steps of the unwinder from [c], to the cursor they end at. *)
Inductive walk : cursor_t L -> list (cursor_t L) -> cursor_t L -> Prop :=
| walk_nil c : walk c [] c
| walk_cons c r c' cs c'' :
    unw_step L c = (r, c') -> r > 0 -> walk c' cs c'' -> walk c (c' :: cs) c''.

Lemma unwind_loop_walk safety c cs c' : walk c cs c' -> forall fuel m w,
  unwind_loop (length cs + fuel) safety m w c =
  ('(m, w, ok) ← emit_all (build_frame safety) m w cs;
   if (ok : bool) then unwind_loop fuel safety m w c' else Some (m, false)).
Proof.
  induction 1 as [c|c r c' cs c'' Hs Hr _ IH]; intros fuel m w; [done|].
  cbn [length Nat.add unwind_loop emit_all]. rewrite Hs, decide_True by done.
  destruct (emit (build_frame safety) m w c') as [[[m1 w1] []]|]; bind_simpl; first [done | apply IH].
Qed.

(** Whatever the unwinder does, it ends within [n] steps or makes [n] steps. *)
Lemma walk_total n c :
  exists cs c', walk c cs c' /\
    (length cs = n \/ (length cs < n)%nat /\ ~ (unw_step L c').1 > 0).
Proof.
  revert c. induction n as [|n IH]; intros c.
  { exists [], c. split; [constructor | by left]. }
  destruct (unw_step L c) as [r c1] eqn:Hs. destruct (decide (r > 0)) as [Hr|Hr].
  - destruct (IH c1) as (cs & c' & Hw & Hl). exists (c1 :: cs), c'. split; [by eapply walk_cons|].
    simpl. destruct Hl as [|[]]; [left | right]; [lia | split; [lia | done]].
  - exists [], c. split; [constructor|]. right. rewrite Hs. split; [simpl; lia | done].
Qed.

Lemma all_possible {X} (xs : list X) : Forall (fun _ => True) xs.
Proof. by apply Forall_forall. Qed.

(** What a call leaves in the buffer: the records [ds] under the stamp of the
    backend, readable by any reader, and memory outside the buffer and the arrays as it
    was. *)
Definition unwound (b : bun_buffer) (h tid : Z) (ds : list frame_data) (m m' : mem) : Prop :=
  (exists w, written b h (u32 tid) BUN_BACKEND_LIBUNWIND m' w ds) /\
  untouched b in_arrays m m'.

Section Call.
Context (b : bun_buffer) (m : mem) (h count r flags self tid : Z) (safety : bun_unwind_signal_safety).
Hypothesis Hok : libunwind_ok.
Hypothesis Hap : arrays_apart b.
Hypothesis Ham : arrays_mapped m.
Hypothesis Hinit : init_allowed m b h count r flags.

Lemma libunwind_begin :
  exists m1, arrays_mapped m1 /\ untouched b in_arrays m m1 /\
    written b h (u32 tid) BUN_BACKEND_LIBUNWIND m1 (initial_base b h) [] /\
    forall fuel c, libunwind_unwind_impl fuel m c h b self tid safety =
      ('(m, ok) ← unwind_loop fuel safety m1 (initial_base b h) c;
       if (ok : bool) then
         size ← load_uint m (bun_buffer_payload b + header_size) 4; Some (m, size)
       else Some (m, 0)).
Proof.
  destruct (open_stream_spec m b arch h self (stale_writer l) BUN_BACKEND_LIBUNWIND count r flags Hinit)
    as (m0 & Ho & _ & Hg0 & _ & Ht).
  destruct (Ht tid) as (m1 & Hset & Hw & Hg & Hout). exists m1.
  destruct Ham. split; [split; by eapply mapped_grows|]. split_and!; [|done|].
  - intros j _ Hj. apply Hout. pose proof (bok_size _ _ (ia_buffer _ _ _ _ _ _ Hinit)). lia.
  - intros fuel c. unfold libunwind_unwind_impl. rewrite Ho. bind_simpl. by rewrite Hset.
Qed.

Lemma builder_here :
  FrameBuilder b (build_frame safety) (fun c => Some (step_data safety c)) (fun _ => True) arrays_mapped in_arrays.
Proof.
  apply libunwind_builder; [done..|]. pose proof (ia_buffer _ _ _ _ _ _ Hinit) as Hb.
  rewrite (payload_size_ok _ _ Hb). destruct Hb. layout. lia.
Qed.

Lemma libunwind_fits cs c c' fuel :
  walk c cs c' -> ~ (unw_step L c').1 > 0 -> (length cs < fuel)%nat ->
  stream_size (step_data safety <$> cs) <= buffer_size b - sizeof_buffer_payload ->
  exists m', libunwind_unwind_impl fuel m c h b self tid safety =
      Some (m', u32 (sizeof_payload_header + stream_counted (step_data safety <$> cs))) /\
    unwound b h tid (step_data safety <$> cs) m m'.
Proof.
  intros Hwalk Hend Hfuel Hfit. destruct libunwind_begin as (m1 & Ham1 & Hu1 & Hw1 & ->).
  pose proof builder_here as HB. destruct (written_room b h m1 _ _ _ _ Hw1) as (_ & _ & Hav).
  change (stream_size []) with 0 in Hav.
  destruct (emit_all_fits b h (build_frame safety) (fun c => Some (step_data safety c)) (fun _ => True) arrays_mapped in_arrays
    cs m1 (initial_base b h) _ _ [] Hw1 Ham1 (all_possible cs)) as (m2 & w2 & He & Hw2 & _ & Hu2).
  { rewrite records_fmap. lia. }
  rewrite records_fmap in Hw2. cbn [app] in Hw2.
  replace fuel with (length cs + S (fuel - length cs - 1))%nat by lia.
  rewrite (unwind_loop_walk _ _ _ _ Hwalk), He. bind_simpl. cbn [unwind_loop].
  destruct (unw_step L c') as [r' c2]. cbn [fst] in Hend. rewrite decide_False by done. bind_simpl.
  rewrite (wr_size _ _ _ _ _ _ _ Hw2). bind_simpl. exists m2. split; [done|].
  split; [by exists w2 | by eapply untouched_trans].
Qed.

Lemma libunwind_refused cs x c c' fuel :
  walk c (cs ++ [x]) c' -> (length cs < fuel)%nat ->
  stream_size (step_data safety <$> cs) <= buffer_size b - sizeof_buffer_payload ->
  counted (step_data safety x) < 2 ^ 64 ->
  buffer_size b - sizeof_buffer_payload - stream_size (step_data safety <$> cs) <
    counted (step_data safety x) ->
  exists m', libunwind_unwind_impl fuel m c h b self tid safety = Some (m', 0) /\
    unwound b h tid (step_data safety <$> cs) m m'.
Proof.
  intros Hwalk Hfuel Hfit Hlt Hfull. destruct libunwind_begin as (m1 & Ham1 & Hu1 & Hw1 & ->).
  pose proof builder_here as HB. destruct (written_room b h m1 _ _ _ _ Hw1) as (_ & _ & Hav).
  change (stream_size []) with 0 in Hav.
  destruct (emit_all_refused b h (build_frame safety) (fun c => Some (step_data safety c)) (fun _ => True) arrays_mapped in_arrays
    cs x (step_data safety x) [] m1 (initial_base b h) _ _ [] Hw1 Ham1 (all_possible cs) I) as (m2 & w2 & He & Hw2 & _ & Hu2);
    rewrite ?records_fmap; try done; try lia.
  rewrite records_fmap in Hw2. cbn [app] in Hw2.
  replace fuel with (length (cs ++ [x]) + (fuel - length cs - 1))%nat by (rewrite length_app; simpl; lia).
  rewrite (unwind_loop_walk _ _ _ _ Hwalk), He. bind_simpl. exists m2. split; [done|].
  split; [by exists w2 | by eapply untouched_trans].
Qed.
End Call.
End Libunwind.

(** ** Theorems *)

(** C3: a local or remote unwind is what the reader gets. On a buffer with room for
    the frames of all steps, [libunwind_unwind_impl] returns the size of the stream and
    leaves exactly one record per step of the cursor, with the symbol (demangled only
    where that is allowed), the address, the offset and the registers libunwind reports;
    a reader on the buffer finds the thread, the backend and those records, as far as
    the size field covers them; nothing outside the buffer and the call's own arrays has
    changed. *)
Theorem libunwind_complete L dladdr cxa_demangle p arch l m b h count r flags self tid safety cs c c' fuel h' f0 :
  libunwind_ok L dladdr cxa_demangle l -> arrays_apart l b -> arrays_mapped l m ->
  init_allowed m b h count r flags -> buffer_data b + buffer_size b < 2 ^ 63 -> buffer_size b <= 2 ^ 32 ->
  walk L c cs c' -> (unw_step L c').1 <= 0 -> (length cs < fuel)%nat ->
  let ds := step_data L dladdr cxa_demangle p l safety <$> cs in
  stream_size ds <= buffer_size b - sizeof_buffer_payload ->
  exists m' r' gs,
    libunwind_unwind_impl L dladdr cxa_demangle p arch l fuel m c h b self tid safety =
      Some (m', sizeof_payload_header + stream_counted ds) /\
    bun_reader_init m' b h' = Some (Some (initial_base b h')) /\
    bun_header_tid_get m' (initial_base b h') = Some (u32 tid) /\
    bun_header_backend_get m' (initial_base b h') = Some BUN_BACKEND_LIBUNWIND /\
    read_all (read_fuel (initial_base b h')) m' (initial_base b h') f0 = Some (r', gs) /\
    Forall2 (frame_shows m') gs (readable (stream_counted ds) ds) /\
    untouched b (in_arrays l) m m'.
Proof.
  intros Hok Hap Ham Hinit Htop Hsz Hwalk Hend Hfuel ds Hfit.
  destruct (libunwind_fits L dladdr cxa_demangle p arch l b m h count r flags self tid safety Hok Hap Ham
    Hinit cs c c' fuel) as (m' & Hi & [w Hw] & Hu); try done. fold ds in Hi, Hw.
  destruct (written_read _ _ _ _ _ _ _ h' f0 Hw Htop Hsz) as (Hrd & r' & gs & Hall & Hshow).
  exists m', r', gs. split_and!; try done.
  - rewrite Hi. do 2 f_equal. pose proof (stream_size_lower ds). pose proof (zlen_nonneg ds).
    apply u32_small. unfold stream_counted. layout. lia.
  - apply (wr_tid _ _ _ _ _ _ _ Hw).
  - apply (wr_backend _ _ _ _ _ _ _ Hw).
Qed.

(** No record is one or two bytes longer than the room its predecessors leave. *)
Definition no_overrun (room : Z) (ds : list frame_data) : Prop :=
  forall k d, ds !! k = Some d ->
    record_size d <= room - stream_size (take k ds) \/ counted d > room - stream_size (take k ds).

(** Either all records fit, or there is a first one that does not. *)
Lemma first_refused room ds :
  no_overrun room ds -> 0 <= room ->
  stream_size ds <= room \/
  exists ds1 d ds2, ds = ds1 ++ d :: ds2 /\ stream_size ds1 <= room /\ room - stream_size ds1 < counted d.
Proof.
  revert room. induction ds as [|d ds IH]; intros room Hno Hroom; [by left|].
  pose proof (Hno 0%nat d eq_refl) as H0. simpl in H0. change (stream_size []) with 0 in H0.
  destruct (decide (record_size d <= room)) as [Hfit|Hfit].
  - destruct (IH (room - record_size d)) as [Hall|(ds1 & x & ds2 & -> & H1 & H2)].
    + intros k x Hk. specialize (Hno (S k) x Hk). simpl in Hno. rewrite stream_size_cons in Hno. lia.
    + lia.
    + left. rewrite stream_size_cons. lia.
    + right. exists (d :: ds1), x, ds2. rewrite stream_size_cons. split; [done | lia].
  - right. exists [], d, ds. change (stream_size []) with 0. split; [done | lia].
Qed.


(** a refused writer is used all the same. [libunwind_unwind_impl] ignores the
    result of [bun_writer_init]: when that returns false, the backend and the thread are
    stored through the uninitialised writer, at whatever address the stack holds. If
    nothing is mapped there the call faults; if something is, those six bytes are
    overwritten, and an unwinder without steps makes the call return the size of the
    stream another call has left in the buffer, as if it were its own. *)
Theorem libunwind_refused_writer L dladdr cxa_demangle p arch l m m1 b h self tid safety c fuel :
  bun_writer_init m b arch h self = Some (m1, None) ->
  let address := buffer (stale_writer l) in
  (~ mapped m1 (address + header_backend) 2 ->
     libunwind_unwind_impl L dladdr cxa_demangle p arch l fuel m c h b self tid safety = None) /\
  (mapped m1 (address + header_tid) 6 -> (unw_step L c).1 <= 0 -> (0 < fuel)%nat ->
   let m' := write_uint (write_uint m1 (address + header_backend) 2 BUN_BACKEND_LIBUNWIND)
     (address + header_tid) 4 (u32 tid) in
   libunwind_unwind_impl L dladdr cxa_demangle p arch l fuel m c h b self tid safety =
     (size ← load_uint m' (bun_buffer_payload b + header_size) 4; Some (m', size))).
Proof.
  intros Hw address. unfold libunwind_unwind_impl.
  rewrite (open_stream_refused m m1 b arch h self (stale_writer l) BUN_BACKEND_LIBUNWIND Hw).
  fold address. change (u16 BUN_BACKEND_LIBUNWIND) with BUN_BACKEND_LIBUNWIND. split.
  - intros Hm. unfold store_uint. rewrite store_unmapped; [done|]. by rewrite zlen_le_split.
  - intros Hm Hend Hfuel. cbv zeta.
    rewrite store_uint_mapped by (layout; apply (mapped_sub _ _ _ _ _ Hm); lia). bind_simpl.
    unfold bun_header_tid_set. fold address.
    rewrite store_uint_mapped by (apply mapped_write_uint, (mapped_sub _ _ _ _ _ Hm); layout; lia). bind_simpl.
    destruct fuel as [|fuel]; [lia|]. cbn [unwind_loop]. destruct (unw_step L c) as [r c'].
    cbn [fst] in Hend. rewrite decide_False by lia. done.
Qed.

(** the remote unwind detaches but leaks. Whether attaching, waiting or
    [unw_init_remote] fails, the call returns 0, leaves memory as it was and the process
    detached, but keeps the [_UPT] context it has made; when nothing fails it returns
    what [libunwind_unwind_impl] returns, detached and with the context released. *)
Theorem libunwind_remote_paths L dladdr cxa_demangle p arch l fuel m t h b self tid created attaches E e
    init_remote context space r e' :
  load_uint m (h + handle_backend_context) 8 = Some context -> load_uint m context 8 = Some space ->
  created <> NULL -> ~ (created ∈ contexts t) ->
  bun_waitpid E fuel 5000 e = Some (inl r, e') ->
  (attaches = false \/ r < 0 \/ (init_remote space).1 <> 0 ->
     libunwind_unwind_remote L dladdr cxa_demangle p arch l fuel m t h b self tid created attaches E e init_remote =
       Some (m, Tracing false ({[created]} ∪ contexts t), 0)) /\
  (attaches = true -> 0 <= r -> (init_remote space).1 = 0 -> forall m' n,
     libunwind_unwind_impl L dladdr cxa_demangle p arch l fuel m (init_remote space).2 h b self tid
       BUN_UNWIND_SIGNAL_SAFETY_NOT_REQUIRED = Some (m', n) ->
     libunwind_unwind_remote L dladdr cxa_demangle p arch l fuel m t h b self tid created attaches E e init_remote =
       Some (m', Tracing false (contexts t), n)).
Proof.
  intros Hc Hs Hn Hf Hw. unfold libunwind_unwind_remote. rewrite Hc. bind_simpl. split.
  - intros Hcase. destruct attaches; [|done]. rewrite Hw. bind_simpl.
    destruct (decide (r < 0)); [done|]. rewrite Hs. bind_simpl.
    destruct (init_remote space) as [err c]. cbn [fst] in Hcase. rewrite decide_True; [done|].
    destruct Hcase as [|[]]; done.
  - intros -> Hr Herr m' n Hi. rewrite Hw. bind_simpl. rewrite decide_False by lia.
    rewrite Hs. bind_simpl. destruct (init_remote space) as [err c]. cbn [fst snd] in *.
    rewrite decide_False by tauto. rewrite Hi. bind_simpl. cbn [contexts].
    by rewrite free_fresh.
Qed.

(** each register map is consistent. It fits in the 512-byte array of the frame,
    and pairs every register of libbun with the register of libunwind of the same name,
    except for the end marker that the map for i386 repeats. *)
Theorem register_map_consistent p :
  REGISTER_SIZE * zlen (register_map p) <= sizeof_registers /\
  forall v name, (v, name) ∈ register_map p ->
    bun_register_to_string v = ("BUN_REGISTER_" ++ substring 4 (String.length name) name)%string \/
    p = I386 /\ name = "UNW_X86_END"%string.
Proof.
  split; [apply register_map_fits|].
  assert (Forall (fun e => bun_register_to_string e.1 =
      ("BUN_REGISTER_" ++ substring 4 (String.length e.2) e.2)%string \/
      p = I386 /\ e.2 = "UNW_X86_END"%string) (register_map p)) as H.
  { destruct p; apply (bool_decide_unpack _); vm_compute; exact I. }
  intros v name Hin. rewrite Forall_forall in H. exact (H _ Hin).
Qed.

(** ** Witnesses *)

(** A cursor that counts down; the function of the last step has no name. *)
Definition countdown : libunwind := LibunwindApi nat
  (fun c => match c with O => (0, O) | S c => (1, c) end)
  (fun c r => if decide (r = "UNW_REG_IP"%string) then Some 0x401136
    else if decide (r = "UNW_X86_64_RAX"%string) then Some 7 else None)
  (fun c n => match c with O => (-10, [], None) | S _ => (0, bytes_of "main" ++ [NUL], Some 4) end)
  2.

Definition no_dladdr (_ : Z) : option (option (list byte)) := None.
Definition no_demangle (_ : list byte) : option (list byte) := None.
Definition sample_locals : locals := Locals 0x7000 0x7200 0 0 (Base 0x8000 0 0 0 false).
Definition unwind_buffer : bun_buffer := BunBuffer 0x1000 256.
Definition unwind_mem : mem :=
  mem_of [(0x1000, replicate 256 NUL); (0x2000, sample_handle); (0x7000, replicate 1024 NUL)].

Lemma countdown_ok : libunwind_ok countdown no_dladdr no_demangle sample_locals.
Proof.
  split; try done.
  - intros c r v. cbn. repeat case_decide; intros [= <-]; lia.
  - intros [|c] r name off; cbn; intros [= <- <- <-]; split_and!; try by_compute; try done.
    intros o [= <-]. lia.
Qed.

Lemma countdown_arrays : arrays_apart sample_locals unwind_buffer.
Proof. by_compute. Qed.

Lemma countdown_walk : walk countdown 2%nat [1; 0]%nat 0%nat.
Proof. eapply walk_cons; [reflexivity | lia | eapply walk_cons; [reflexivity | lia | constructor]]. Qed.

Lemma countdown_mapped : arrays_mapped sample_locals unwind_mem.
Proof. by_compute. Qed.

Lemma libunwind_complete_witness :
  init_allowed unwind_mem unwind_buffer 0x2000 0 0 1 /\
  exists m', libunwind_unwind_impl countdown no_dladdr no_demangle X86_64 2 sample_locals 3 unwind_mem 2%nat
      0x2000 unwind_buffer 77 77 BUN_UNWIND_SIGNAL_SAFETY_REQUIRED = Some (m', 109) /\
    bun_header_backend_get m' (initial_base unwind_buffer 0) = Some BUN_BACKEND_LIBUNWIND.
Proof.
  split; [by_compute|].
  destruct (libunwind_complete countdown no_dladdr no_demangle X86_64 2 sample_locals unwind_mem unwind_buffer
    0x2000 0 0 1 77 77 BUN_UNWIND_SIGNAL_SAFETY_REQUIRED [1; 0]%nat 2%nat 0%nat 3 0 zero_frame)
    as (m' & r' & gs & Hi & _ & _ & Hk & _);
    [exact countdown_ok | exact countdown_arrays | exact countdown_mapped | by_compute | by_compute
    | by_compute | exact countdown_walk | by_compute | by_compute | by_compute |].
  exists m'. split; [|exact Hk].
  assert (sizeof_payload_header + stream_counted (step_data countdown no_dladdr no_demangle X86_64 sample_locals
    BUN_UNWIND_SIGNAL_SAFETY_REQUIRED <$> [1; 0]%nat) = 109) as E by (vm_compute; reflexivity).
  rewrite E in Hi. exact Hi.
Defined.

Lemma fits_no_overrun room ds : stream_size ds <= room -> no_overrun room ds.
Proof.
  intros Hfit k d Hk. left. rewrite <- (take_drop_middle ds k d Hk) in Hfit.
  rewrite stream_size_app, stream_size_cons in Hfit. pose proof (stream_size_nonneg (drop (S k) ds)). lia.
Qed.

Lemma countdown_walks cs c' : walk countdown 2%nat cs c' -> cs = [] \/ cs = [1]%nat \/ cs = [1; 0]%nat.
Proof.
  intros H. inversion H as [|? ? ? cs1 ? E _ H1]; subst; [by left|]. injection E as <- <-.
  inversion H1 as [|? ? ? cs2 ? E _ H2]; subst; [by right; left|]. injection E as <- <-.
  inversion H2 as [|? ? ? cs3 ? E Hr _]; subst; [by right; right|]. injection E as <- <-. lia.
Qed.


(** A buffer that has been handed out already. *)
Definition used_mem : mem :=
  mem_of [(0x1000, le_split 4 1 ++ replicate 4 NUL ++ le_split 8 0x2000 ++ replicate 240 NUL);
    (0x2000, sample_handle)].

Lemma libunwind_refused_writer_witness :
  exists m1, bun_writer_init used_mem unwind_buffer 2 0x2000 77 = Some (m1, None) /\
    libunwind_unwind_impl countdown no_dladdr no_demangle X86_64 2 sample_locals 3 used_mem 2%nat 0x2000
      unwind_buffer 77 77 BUN_UNWIND_SIGNAL_SAFETY_REQUIRED = None.
Proof.
  destruct (bun_writer_init used_mem unwind_buffer 2 0x2000 77) as [[m1 [w|]]|] eqn:E;
    [exfalso; vm_compute in E; discriminate | | exfalso; vm_compute in E; discriminate].
  exists m1. split; [reflexivity|].
  destruct (libunwind_refused_writer countdown no_dladdr no_demangle X86_64 2 sample_locals used_mem m1
    unwind_buffer 0x2000 77 77 BUN_UNWIND_SIGNAL_SAFETY_REQUIRED 2%nat 3 E) as [H _].
  apply H. intros Hm.
  assert ((fun x : mem * option bun_writer => bool_decide (mapped x.1 (0x8000 + header_backend) 2)) <$>
    bun_writer_init used_mem unwind_buffer 2 0x2000 77 = Some false) as Hc by (vm_compute; reflexivity).
  rewrite E in Hc. injection Hc as Hc. apply bool_decide_eq_false in Hc. exact (Hc Hm).
Defined.

Definition remote_mem : mem := mem_of [(0x2000, replicate 32 NUL ++ le_split 8 0x6000); (0x6000, le_split 8 0x9000)].

Lemma libunwind_remote_paths_witness :
  libunwind_unwind_remote countdown no_dladdr no_demangle X86_64 2 sample_locals 3 remote_mem
    (Tracing false ∅) 0x2000 unwind_buffer 77 78 0xa000 true interrupted 0%nat (fun _ => (-1, 2%nat)) =
  Some (remote_mem, Tracing false ({[0xa000]} ∪ ∅), 0).
Proof.
  destruct (libunwind_remote_paths countdown no_dladdr no_demangle X86_64 2 sample_locals 3 remote_mem
    (Tracing false ∅) 0x2000 unwind_buffer 77 78 0xa000 true interrupted 0%nat (fun _ => (-1, 2%nat))
    0x6000 0x9000 0 0%nat) as [H _];
    [by_compute | by_compute | discriminate | set_solver | vm_compute; reflexivity |].
  apply H. right. right. discriminate.
Defined.
