(* ===== verification/Libbacktrace.v ===== *)
(** * The libbacktrace backend (src/backend/libbacktrace/bun_libbacktrace.c)

    libbacktrace walks the stack itself and calls back once per frame. The model
    runs the callback over the list of frames the library reports; what
    [backtrace_syminfo] reports for an address is an argument. *)

From S2P Require Import Prelude Memory Stream Frame FrameWrite FrameRead RoundTrip Backend.

Definition LIBBACKTRACE_MAX_SYMBOL_NAME : Z := 256.
Definition BUN_WRITE_ERROR : Z := -1.

(** The static variable: the state is created once. [created] is what
    [backtrace_create_state] returns. *)
Definition get_backtrace_state (state created : Z) : Z :=
  if decide (state = NULL) then created else state.

(** The arguments of a callback. *)
Record bt_frame := BtFrame { bt_pc : Z; bt_filename : Z; bt_lineno : Z; bt_function : Z }.

Section Libbacktrace.
(** [backtrace_syminfo] of an address: nothing if it calls the error callback,
    else the name it passes on, which may be null. *)
Context (syminfo : Z -> option (option (list byte))).
(** The address of [function_name] in [full_callback], the contents of an
    uninitialised writer, and the architecture. *)
Context (array : Z) (stale_writer : bun_writer) (arch : Z).

Definition syminfo_callback (m : mem) (str : Z) (symname : option (list byte)) : option mem :=
  match symname with
  | None => Some m
  | Some s =>
      m ← store m str (strncpy_bytes (Z.to_nat (LIBBACKTRACE_MAX_SYMBOL_NAME - 1)) s);
      store m (str + (LIBBACKTRACE_MAX_SYMBOL_NAME - 1)) [NUL]
  end.

(** The frame [full_callback] passes to [bun_frame_write]. *)
Definition callback_frame (m : mem) (x : bt_frame) : option (mem * option bun_frame) :=
  let frame := Frame (bt_pc x) (bt_function x) 0 (bt_filename x) 0 (u64 (bt_lineno x)) 0 0 0 NULL in
  if decide (bt_function x = NULL) then Some (m, Some frame)
  else
    m ← store m array (replicate (Z.to_nat LIBBACKTRACE_MAX_SYMBOL_NAME) NUL);
    m ← match syminfo (bt_pc x) with
        | Some symname => syminfo_callback m array symname
        | None => Some m
        end;
    length ← strlen m array;
    Some (m, Some (Frame (bt_pc x) array length (bt_filename x) 0 (u64 (bt_lineno x)) 0 0 0 NULL)).

Definition full_callback (m : mem) (w : bun_writer) (x : bt_frame) : option (mem * bun_writer * Z) :=
  '(m, w, ok) ← emit callback_frame m w x;
  Some (m, w, if (ok : bool) then 0 else BUN_WRITE_ERROR).

(** [backtrace_full] over the frames [xs]: it stops at the first callback that does
    not return 0, and otherwise returns [finish]. *)
Fixpoint backtrace_full (m : mem) (w : bun_writer) (xs : list bt_frame) (finish : Z)
  : option (mem * bun_writer * Z) :=
  match xs with
  | [] => Some (m, w, finish)
  | x :: xs =>
      '(m, w, r) ← full_callback m w x;
      if decide (r <> 0) then Some (m, w, r) else backtrace_full m w xs finish
  end.

Definition libbacktrace_unwind (m : mem) (h : Z) (b : bun_buffer) (self : Z) (xs : list bt_frame) (finish : Z)
  : option (mem * Z) :=
  '(m, w) ← open_stream m b arch h self stale_writer BUN_BACKEND_LIBBACKTRACE;
  '(m, _, r) ← backtrace_full m w xs finish;
  if decide (r <> 0) then Some (m, 0)
  else size ← load_uint m (bun_buffer_payload b + header_size) 4; Some (m, size).

(** ** The record of a frame *)

(** The strings libbacktrace passes live in its own memory: [string_at] is their
    contents. *)
Context (string_at : Z -> list byte).

Definition callback_symbol (x : bt_frame) : list byte :=
  if decide (bt_function x = NULL) then []
  else match syminfo (bt_pc x) with Some (Some s) => take 255 s | _ => [] end.

Definition callback_filename (x : bt_frame) : list byte :=
  if decide (bt_filename x = NULL) then [] else string_at (bt_filename x).

Definition callback_data (x : bt_frame) : frame_data :=
  Data (bt_pc x) (u64 (bt_lineno x)) 0 (callback_symbol x) (callback_filename x) [].

(** Names are C strings. *)
Definition syminfo_ok : Prop := forall pc s, syminfo pc = Some (Some s) -> no_nul s.

(** What the code relies on for a frame: an address of the machine's width and a
    file name that is null or a C string outside the buffer and the array. *)
Record frame_ok (b : bun_buffer) (m : mem) (x : bt_frame) : Prop := {
  bo_pc : 0 <= bt_pc x < 2 ^ 64;
  bo_filename : bt_filename x <> NULL ->
    cstring m (bt_filename x) = Some (string_at (bt_filename x)) /\
    disjoint_ranges (buffer_data b) (buffer_size b) (bt_filename x) (zlen (string_at (bt_filename x)) + 1) /\
    disjoint_ranges array LIBBACKTRACE_MAX_SYMBOL_NAME (bt_filename x)
      (zlen (string_at (bt_filename x)) + 1)
}.

#[export] Instance frame_ok_dec b m x : Decision (frame_ok b m x).
Proof.
  clear syminfo stale_writer arch. refine (cast_if (decide (0 <= bt_pc x < 2 ^ 64 /\ (bt_filename x <> NULL ->
    cstring m (bt_filename x) = Some (string_at (bt_filename x)) /\
    disjoint_ranges (buffer_data b) (buffer_size b) (bt_filename x) (zlen (string_at (bt_filename x)) + 1) /\
    disjoint_ranges array LIBBACKTRACE_MAX_SYMBOL_NAME (bt_filename x)
      (zlen (string_at (bt_filename x)) + 1))))); [constructor; tauto | intros []; tauto].
Defined.

Definition in_array (j : Z) : Prop := array <= j < array + LIBBACKTRACE_MAX_SYMBOL_NAME.

Definition array_ok (b : bun_buffer) (m : mem) : Prop :=
  0 < array /\ mapped m array LIBBACKTRACE_MAX_SYMBOL_NAME /\
  disjoint_ranges (buffer_data b) (buffer_size b) array LIBBACKTRACE_MAX_SYMBOL_NAME.

#[export] Instance array_ok_dec b m : Decision (array_ok b m).
Proof. unfold array_ok. apply _. Defined.

Definition ready (b : bun_buffer) (xs : list bt_frame) (m : mem) : Prop :=
  array_ok b m /\ Forall (frame_ok b m) xs.

(** ** Lemmas *)

Lemma callback_symbol_ok x : syminfo_ok -> no_nul (callback_symbol x) /\ zlen (callback_symbol x) < 256.
Proof.
  intros Hs. unfold callback_symbol. case_decide; [split; [constructor | done]|].
  destruct (syminfo (bt_pc x)) as [[s|]|] eqn:E; try (split; [constructor | done]).
  split; [apply Forall_take; by eapply Hs|]. unfold zlen. rewrite length_take. lia.
Qed.

(** The array after the callbacks of [backtrace_syminfo]. *)
Lemma array_symbol m x :
  syminfo_ok -> mapped m array LIBBACKTRACE_MAX_SYMBOL_NAME -> bt_function x <> NULL ->
  exists m', (m ← store m array (replicate (Z.to_nat LIBBACKTRACE_MAX_SYMBOL_NAME) NUL);
      match syminfo (bt_pc x) with
      | Some symname => syminfo_callback m array symname
      | None => Some m
      end) = Some m' /\ cstring m' array = Some (callback_symbol x) /\ grows m m' /\
    same_outside m m' array LIBBACKTRACE_MAX_SYMBOL_NAME.
Proof.
  intros Hs Hm Hf. unfold callback_symbol. rewrite decide_False by done.
  rewrite store_mapped by done. bind_simpl.
  pose proof (same_outside_write m array (replicate 256 NUL)) as Ho0.
  pose proof (grows_write m array (replicate 256 NUL)) as Hg0.
  assert (cstring (write_bytes m array (replicate 256 NUL)) array = Some []) as Hc0.
  { apply cstring_spec. split; [|constructor].
    pose proof (at_addr_write m array (replicate 256 NUL)) as Hat.
    change (replicate 256 NUL) with ([NUL] ++ replicate 255 NUL) in Hat at 2.
    by apply at_addr_app in Hat as [Hat _]. }
  change (Z.to_nat LIBBACKTRACE_MAX_SYMBOL_NAME) with 256%nat.
  set (m0 := write_bytes m array (replicate 256 NUL)) in *. clearbody m0.
  change (zlen (replicate 256 NUL)) with LIBBACKTRACE_MAX_SYMBOL_NAME in Ho0.
  destruct (syminfo (bt_pc x)) as [[s|]|] eqn:E; cbn [syminfo_callback]; try by exists m0.
  destruct (strncpy_terminated m0 array 255 s) as (m1 & H1 & Hc & Hg & Ho);
    [by eapply mapped_grows | by eapply Hs |].
  exists m1. split_and!; [exact H1 | done | by etrans | by eapply same_outside_trans].
Qed.

Lemma frame_ok_outside b m m' a n x :
  same_outside m m' a n -> frame_ok b m x ->
  (bt_filename x <> NULL -> disjoint_ranges a n (bt_filename x) (zlen (string_at (bt_filename x)) + 1)) ->
  frame_ok b m' x.
Proof.
  intros Ho [Hp Hf] Hd. split; [done|]. intros Hn. destruct (Hf Hn) as (Hc & H1 & H2).
  split_and!; [|done..]. eapply at_addr_string_disjoint; [exact Ho | by apply Hd | done].
Qed.

Lemma frame_ok_array b m m' x :
  same_outside m m' array LIBBACKTRACE_MAX_SYMBOL_NAME -> frame_ok b m x -> frame_ok b m' x.
Proof. intros Ho Hx. eapply frame_ok_outside; [exact Ho | done|]. intros Hn. by apply Hx. Qed.

Lemma frame_ok_buffer b m m' x :
  same_outside m m' (buffer_data b) (buffer_size b) -> frame_ok b m x -> frame_ok b m' x.
Proof. intros Ho Hx. eapply frame_ok_outside; [exact Ho | done|]. intros Hn. by apply Hx. Qed.

Lemma callback_data_ok b m x : syminfo_ok -> frame_ok b m x -> data_ok (callback_data x).
Proof.
  intros Hs [Hp Hf]. split; cbn [callback_data d_addr d_line d_offset d_symbol d_filename d_registers];
    try done; auto with width.
  - by apply callback_symbol_ok.
  - unfold callback_filename. case_decide as Hn; [constructor|]. destruct (Hf Hn) as (Hc & _).
    by apply cstring_spec in Hc as [_ Hc].
Qed.

(** The string member for the file name. *)
Lemma filename_repr b m x :
  frame_ok b m x -> string_repr m (bt_filename x) 0 (callback_filename x).
Proof.
  intros [_ Hf]. unfold string_repr, callback_filename. case_decide as Hn; [done|].
  destruct (Hf Hn) as (Hc & _). split; [done | by left].
Qed.

Lemma libbacktrace_builder b xs :
  syminfo_ok -> 0 <= bun_buffer_payload_size b <= buffer_size b - payload_header ->
  0 < buffer_data b -> disjoint_ranges (buffer_data b) (buffer_size b) array LIBBACKTRACE_MAX_SYMBOL_NAME ->
  FrameBuilder b callback_frame (fun x => Some (callback_data x)) (fun x => x ∈ xs) (ready b xs) in_array.
Proof.
  intros Hs Hps Hpos0 Hdis. split.
  - intros j Hj. unfold in_array, disjoint_ranges, LIBBACKTRACE_MAX_SYMBOL_NAME in *. lia.
  - intros m m' [(Ha & Hm & Hd) Hx] Hg Ho. split.
    + split_and!; [done | by eapply mapped_grows | done].
    + eapply Forall_impl; [exact Hx|]. intros x. by apply frame_ok_buffer.
  - intros m x [(Ha & Hm & Hd) Hall] Hin. pose proof Hall as Hx. rewrite Forall_forall in Hx.
    specialize (Hx x Hin). unfold callback_frame.
    assert (disjoint_ranges (bun_buffer_payload b) (bun_buffer_payload_size b)
        (bt_filename x) (zlen (callback_filename x) + 1) \/ bt_filename x = NULL) as Hfo.
    { destruct (decide (bt_filename x = NULL)) as [|Hn]; [by right|]. left.
      unfold callback_filename. rewrite decide_False by done. destruct (bo_filename _ _ _ Hx Hn) as (_ & H & _).
      unfold disjoint_ranges, bun_buffer_payload in *. layout. lia. }
    destruct (decide (bt_function x = NULL)) as [Hf|Hf].
    + eexists m, _. split; [done|]. split; [done|]. split; [done|]. split; [done|].
      assert (callback_symbol x = []) as Hsym by (unfold callback_symbol; by rewrite decide_True).
      split_and!; [|by eapply callback_data_ok|].
      * split; cbn [addr line_no offset symbol symbol_length filename filename_length register_count
          register_data callback_data d_addr d_line d_offset d_symbol d_filename d_registers]; try done.
        -- unfold string_repr. by rewrite decide_True.
        -- by eapply filename_repr.
      * split; cbn [symbol filename register_data callback_data d_symbol d_filename d_registers].
        -- intros Hn. done.
        -- intros Hn. by destruct Hfo.
        -- unfold disjoint_ranges, bun_buffer_payload, REGISTER_SIZE, NULL. change (zlen []) with 0. layout. lia.
    + destruct (array_symbol m x Hs Hm Hf) as (m1 & Hst & Hc & Hg & Ho).
      assert (exists m0, store m array (replicate (Z.to_nat LIBBACKTRACE_MAX_SYMBOL_NAME) NUL) = Some m0 /\
        match syminfo (bt_pc x) with
        | Some symname => syminfo_callback m0 array symname | None => Some m0 end = Some m1) as (m0 & H0 & H1)
        by (by apply bind_Some in Hst).
      rewrite H0. bind_simpl. rewrite H1. bind_simpl. unfold strlen. rewrite Hc. bind_simpl.
      destruct (callback_symbol_ok x Hs) as [_ Hlen]. pose proof (zlen_nonneg (callback_symbol x)).
      eexists m1, _. split; [done|]. split; [|split; [done|split]].
      * split; [split_and!; [done | by eapply mapped_grows | done]|].
        eapply Forall_impl; [exact Hall|]. intros y. by apply frame_ok_array.
      * intros j Hj. by apply Ho.
      * split_and!; [|by eapply callback_data_ok|].
        -- split; cbn [addr line_no offset symbol symbol_length filename filename_length register_count
             register_data callback_data d_addr d_line d_offset d_symbol d_filename d_registers]; try done.
           ++ unfold string_repr. rewrite decide_False by (unfold NULL; lia). split; [done | by right].
           ++ eapply filename_repr. by eapply frame_ok_array.
        -- split; cbn [symbol filename register_data callback_data d_symbol d_filename d_registers].
           ++ intros _. unfold disjoint_ranges, bun_buffer_payload, LIBBACKTRACE_MAX_SYMBOL_NAME in *. layout. lia.
           ++ intros Hn. by destruct Hfo.
           ++ unfold disjoint_ranges, bun_buffer_payload, REGISTER_SIZE, NULL. change (zlen []) with 0. layout. lia.
Qed.

Lemma backtrace_full_emit m w xs finish :
  backtrace_full m w xs finish =
  ('(m, w, ok) ← emit_all callback_frame m w xs;
   Some (m, w, if (ok : bool) then finish else BUN_WRITE_ERROR)).
Proof.
  revert m w. induction xs as [|x xs IH]; intros m w; [done|].
  cbn [backtrace_full emit_all]. unfold full_callback.
  destruct (emit callback_frame m w x) as [[[m1 w1] []]|]; bind_simpl; [|done..].
  rewrite decide_False by tauto. apply IH.
Qed.

(** The start of a call, and the builder in its memory. *)
Lemma libbacktrace_begin m b h count r flags self xs :
  init_allowed m b h count r flags -> ready b xs m ->
  exists m1, ready b xs m1 /\ untouched b in_array m m1 /\
    written b h (u32 self) BUN_BACKEND_LIBBACKTRACE m1 (initial_base b h) [] /\
    forall finish, libbacktrace_unwind m h b self xs finish =
      ('(m, _, ok) ← emit_all callback_frame m1 (initial_base b h) xs;
       if decide ((if (ok : bool) then finish else BUN_WRITE_ERROR) <> 0) then Some (m, 0)
       else size ← load_uint m (bun_buffer_payload b + header_size) 4; Some (m, size)).
Proof.
  intros Hi [(Ha & Hm & Hd) Hx].
  destruct (open_stream_spec m b arch h self stale_writer BUN_BACKEND_LIBBACKTRACE count r flags Hi)
    as (m1 & Ho & Hw & Hg & Hout & _).
  assert (same_outside m m1 (buffer_data b) (buffer_size b)) as Hb.
  { eapply same_outside_weaken; [exact Hout | lia|]. pose proof (bok_size _ _ (ia_buffer _ _ _ _ _ _ Hi)). lia. }
  exists m1. split; [|split_and!].
  - split; [split_and!; [done | by eapply mapped_grows | done]|].
    eapply Forall_impl; [exact Hx|]. intros x. by apply frame_ok_buffer.
  - intros j _ Hj. by apply Hb.
  - exact Hw.
  - intros finish. unfold libbacktrace_unwind. rewrite Ho. bind_simpl. rewrite backtrace_full_emit.
    by destruct (emit_all callback_frame m1 (initial_base b h) xs) as [[[m2 w2] ok]|].
Qed.
End Libbacktrace.

(** ** Theorems *)

(** C17: the libbacktrace backend writes what libbacktrace reports. When the records
    of all frames fit, the buffer holds exactly one record per frame - with the name
    [backtrace_syminfo] gives, cut to 255 bytes, the file name and the line - which a
    reader gets back, and the call returns the size of the stream, or 0 if libbacktrace
    itself reports an error; when a frame is refused, the call returns 0 and the records
    in front of it are in the buffer. Nothing else in memory changes but the array of the
    callback. *)
Theorem libbacktrace_spec syminfo array stale arch string_at m b h count r flags self xs finish h' f0 :
  syminfo_ok syminfo -> init_allowed m b h count r flags -> ready array string_at b xs m ->
  buffer_data b + buffer_size b < 2 ^ 63 -> buffer_size b <= 2 ^ 32 ->
  let room := buffer_size b - sizeof_buffer_payload in
  let data := callback_data syminfo string_at in
  (stream_size (data <$> xs) <= room ->
   exists m' r' gs,
     libbacktrace_unwind syminfo array stale arch m h b self xs finish =
       Some (m', if decide (finish = 0) then sizeof_payload_header + stream_counted (data <$> xs) else 0) /\
     bun_reader_init m' b h' = Some (Some (initial_base b h')) /\
     bun_header_backend_get m' (initial_base b h') = Some BUN_BACKEND_LIBBACKTRACE /\
     read_all (read_fuel (initial_base b h')) m' (initial_base b h') f0 = Some (r', gs) /\
     Forall2 (frame_shows m') gs (readable (stream_counted (data <$> xs)) (data <$> xs)) /\
     untouched b (in_array array) m m') /\
  (forall xs1 x xs2, xs = xs1 ++ x :: xs2 -> stream_size (data <$> xs1) <= room ->
   counted (data x) < 2 ^ 64 -> room - stream_size (data <$> xs1) < counted (data x) ->
   exists m' w, libbacktrace_unwind syminfo array stale arch m h b self xs finish = Some (m', 0) /\
     written b h (u32 self) BUN_BACKEND_LIBBACKTRACE m' w (data <$> xs1) /\
     untouched b (in_array array) m m').
Proof.
  intros Hs Hi Hr Htop Hsz room data.
  destruct (libbacktrace_begin syminfo array stale arch string_at m b h count r flags self xs Hi Hr)
    as (m1 & Hr1 & Hu1 & Hw1 & Hcall).
  pose proof (ia_buffer _ _ _ _ _ _ Hi) as Hb. destruct (id Hb).
  assert (FrameBuilder b (callback_frame syminfo array) (fun x => Some (data x)) (fun x => x ∈ xs)
    (ready array string_at b xs) (in_array array)) as HB.
  { apply libbacktrace_builder; try done; [|apply Hr].
    rewrite (payload_size_ok _ _ Hb). layout. lia. }
  destruct (written_room b h m1 _ _ _ _ Hw1) as (_ & _ & Hav). change (stream_size []) with 0 in Hav.
  assert (Forall (fun x => x ∈ xs) xs) as Hin by (by apply Forall_forall). split.
  - intros Hfit.
    destruct (emit_all_fits b h (callback_frame syminfo array) (fun x => Some (data x)) (fun x => x ∈ xs)
      (ready array string_at b xs) (in_array array) xs m1 (initial_base b h) _ _ [] Hw1 Hr1 Hin)
      as (m2 & w2 & He & Hw2 & _ & Hu2).
    { rewrite records_fmap. unfold room in Hfit. lia. }
    rewrite records_fmap in Hw2. cbn [app] in Hw2.
    destruct (written_read _ _ _ _ _ _ _ h' f0 Hw2 Htop Hsz) as (Hrd & r' & gs & Hall & Hshow).
    exists m2, r', gs. split_and!; try done; [|apply (wr_backend _ _ _ _ _ _ _ Hw2)
      | by eapply untouched_trans].
    rewrite Hcall, He. bind_simpl. rewrite (wr_size _ _ _ _ _ _ _ Hw2). bind_simpl.
    pose proof (stream_size_lower (data <$> xs)). pose proof (zlen_nonneg (data <$> xs)).
    rewrite u32_small by (unfold stream_counted, room in *; layout; lia).
    destruct (decide (finish = 0)); [by rewrite decide_False by tauto | by rewrite decide_True].
  - intros xs1 x xs2 E Hfit Hlt Hfull. rewrite E in Hin.
    apply Forall_app in Hin as [Hin1 [Hinx _]%Forall_cons].
    destruct (emit_all_refused b h (callback_frame syminfo array) (fun x => Some (data x)) (fun x => x ∈ xs)
      (ready array string_at b xs) (in_array array) xs1 x (data x) xs2 m1 (initial_base b h) _ _ [] Hw1 Hr1)
      as (m2 & w2 & He & Hw2 & _ & Hu2); rewrite ?records_fmap; try done;
      try (by rewrite E); try (unfold room in *; lia).
    rewrite records_fmap in Hw2. cbn [app] in Hw2.
    exists m2, w2. split_and!; [|done | by eapply untouched_trans].
    rewrite Hcall, E, He. bind_simpl. by rewrite decide_True.
Qed.

(** ** Witness *)

Definition sample_syminfo (pc : Z) : option (option (list byte)) :=
  if decide (pc = 0x401136) then Some (Some (bytes_of "main")) else None.
Definition sample_string (p : Z) : list byte := if decide (p = 0x4000) then bytes_of "main.c" else [].
Definition sample_frames : list bt_frame :=
  [BtFrame 0x401136 0x4000 12 0x4010; BtFrame 0x401000 0 0 0].
Definition backtrace_mem : mem :=
  mem_of [(0x1000, replicate 128 NUL); (0x2000, sample_handle); (0x4000, bytes_of "main.c" ++ [NUL]);
    (0x7000, replicate 256 NUL)].

Lemma libbacktrace_spec_witness :
  stream_size (callback_data sample_syminfo sample_string <$> sample_frames) <= 88 /\
  exists m', libbacktrace_unwind sample_syminfo 0x7000 (Base 0 0 0 0 false) 2 backtrace_mem 0x2000 sample_buffer 77
    sample_frames 0 = Some (m', 86).
Proof.
  split; [by_compute|].
  destruct (libbacktrace_spec sample_syminfo 0x7000 (Base 0 0 0 0 false) 2 sample_string backtrace_mem
    sample_buffer 0x2000 0 0 1 77 sample_frames 0 0 zero_frame) as [H _];
    [ | by_compute | | by_compute | by_compute |].
  - intros pc s. unfold sample_syminfo. case_decide; [|discriminate]. intros [= <-]. by_compute.
  - split; [by_compute|]. apply (bool_decide_unpack _). vm_compute. exact I.
  - destruct H as (m' & r' & gs & Hi & _); [by_compute|]. exists m'.
    assert (sizeof_payload_header + stream_counted (callback_data sample_syminfo sample_string <$> sample_frames) = 86)
      as E by (vm_compute; reflexivity).
    rewrite E in Hi. exact Hi.
Defined.
