(* ===== verification/Unwindstack.v ===== *)
(** * The libunwindstack backend (src/backend/libunwindstack/bun_libunwindstack.cpp)

    libunwindstack - the maps, the unwinder, the registers it keeps - and the kernel are
    arguments of the model. A C++ string is the address of its characters with its contents.
    [None] as a result is undefined behaviour or an exception. *)

From S2P Require Import Prelude Memory Registers Stream Frame FrameWrite FrameRead RoundTrip FrameRegisters Waitpid Utils Backend.

(** ** The registers of a processor *)

(** [unwindstack::Regs]: the implementation with 64-bit or with 32-bit registers. *)
Record Regs := MakeRegs { regs_wide : bool; regs_values : list Z }.

(** The implementation each function casts to, and the registers in the order of the indices. *)
Definition register_table (p : processor) : option (bool * list bun_register) :=
  match p with
  | X86_64 => Some (true, [
      BUN_REGISTER_X86_64_RAX; BUN_REGISTER_X86_64_RDX; BUN_REGISTER_X86_64_RCX;
      BUN_REGISTER_X86_64_RBX; BUN_REGISTER_X86_64_RSI; BUN_REGISTER_X86_64_RDI;
      BUN_REGISTER_X86_64_RBP; BUN_REGISTER_X86_64_RSP; BUN_REGISTER_X86_64_R8;
      BUN_REGISTER_X86_64_R9; BUN_REGISTER_X86_64_R10; BUN_REGISTER_X86_64_R11;
      BUN_REGISTER_X86_64_R12; BUN_REGISTER_X86_64_R13; BUN_REGISTER_X86_64_R14;
      BUN_REGISTER_X86_64_R15; BUN_REGISTER_X86_64_RIP])
  | I386 => None
  | Aarch64 => Some (true, [
      BUN_REGISTER_AARCH64_X0; BUN_REGISTER_AARCH64_X1; BUN_REGISTER_AARCH64_X2;
      BUN_REGISTER_AARCH64_X3; BUN_REGISTER_AARCH64_X4; BUN_REGISTER_AARCH64_X5;
      BUN_REGISTER_AARCH64_X6; BUN_REGISTER_AARCH64_X7; BUN_REGISTER_AARCH64_X8;
      BUN_REGISTER_AARCH64_X9; BUN_REGISTER_AARCH64_X10; BUN_REGISTER_AARCH64_X11;
      BUN_REGISTER_AARCH64_X12; BUN_REGISTER_AARCH64_X13; BUN_REGISTER_AARCH64_X14;
      BUN_REGISTER_AARCH64_X15; BUN_REGISTER_AARCH64_X16; BUN_REGISTER_AARCH64_X17;
      BUN_REGISTER_AARCH64_X18; BUN_REGISTER_AARCH64_X19; BUN_REGISTER_AARCH64_X20;
      BUN_REGISTER_AARCH64_X21; BUN_REGISTER_AARCH64_X22; BUN_REGISTER_AARCH64_X23;
      BUN_REGISTER_AARCH64_X24; BUN_REGISTER_AARCH64_X25; BUN_REGISTER_AARCH64_X26;
      BUN_REGISTER_AARCH64_X27; BUN_REGISTER_AARCH64_X28; BUN_REGISTER_AARCH64_X29;
      BUN_REGISTER_AARCH64_X30; BUN_REGISTER_AARCH64_X31; BUN_REGISTER_AARCH64_PC;
      BUN_REGISTER_AARCH64_PSTATE])
  | Arm => Some (false, [
      BUN_REGISTER_ARM_R0; BUN_REGISTER_ARM_R1; BUN_REGISTER_ARM_R2; BUN_REGISTER_ARM_R3;
      BUN_REGISTER_ARM_R4; BUN_REGISTER_ARM_R5; BUN_REGISTER_ARM_R6; BUN_REGISTER_ARM_R7;
      BUN_REGISTER_ARM_R8; BUN_REGISTER_ARM_R9; BUN_REGISTER_ARM_R10; BUN_REGISTER_ARM_R11;
      BUN_REGISTER_ARM_R12; BUN_REGISTER_ARM_R13; BUN_REGISTER_ARM_R14; BUN_REGISTER_ARM_R15;
      BUN_REGISTER_ARM_PSTATE])
  end.

(** The lines of a function from index [i] on; an index behind the registers is undefined. *)
Fixpoint populate_from (i : nat) (l : list bun_register) (m : mem) (f : bun_frame) (values : list Z)
  : option (mem * bun_frame) :=
  match l with
  | [] => Some (m, f)
  | reg :: l =>
      value ← values !! i;
      '(m, f, _) ← bun_frame_register_append m f (bun_register_value reg) value;
      populate_from (S i) l m f values
  end.

(** [libunwindstack_populate_regs] with the functions it calls; the cast throws when the
    registers have the other width. *)
Definition libunwindstack_populate_regs (p : processor) (m : mem) (f : bun_frame) (registers : Regs)
  : option (mem * bun_frame) :=
  match register_table p with
  | None => Some (m, f)
  | Some (wide, l) =>
      if decide (regs_wide registers = wide) then populate_from 0 l m f (regs_values registers) else None
  end.

(** ** A frame of the unwinder *)

Record cpp_string := CppString { c_str : Z; contents : list byte }.

Record FrameData := MakeFrameData {
  pc : Z; function_name : cpp_string; map_name : cpp_string; function_offset : Z
}.

Definition sizeof_demangle_buffer : Z := 4096.
Definition sizeof_register_buf : Z := 340.

(** [size()] of a string. *)
Definition string_size (s : cpp_string) : Z := zlen (contents s).

(** libunwindstack: looking up the code of an address ([LocalMaps::Find] and [GetElf] in one),
    and a step from it. *)
Record libunwindstack := UnwindstackApi {
  elf_t : Type;
  regs_pc : Regs -> Z;
  Find : Z -> option elf_t;
  GetRelPc : elf_t -> Z -> Z;
  GetPcAdjustment : Z -> elf_t -> Z;
  (** The registers behind the step, unless it returns false. *)
  Step : elf_t -> Z -> Z -> Regs -> option Regs;
  BuildFrameFromPcOnly : Z -> FrameData
}.

Section Unwindstack.
Context (cxa_demangle : list byte -> option (list byte)) (p : processor) (arch : Z).
(** The addresses of [demangle_buffer] and [register_buf], an uninitialised writer. *)
Context (demangle_buffer register_buf : Z) (stale_writer : bun_writer).

(** The name of the function and its length, demangled if the result fits in the buffer. *)
Definition demangle_name (m : mem) (name : cpp_string) : option (mem * Z * Z) :=
  '(m, demangled) ← bun_unwind_demangle cxa_demangle m demangle_buffer sizeof_demangle_buffer (c_str name);
  if (demangled : bool) then len ← strlen m demangle_buffer; Some (m, demangle_buffer, len)
  else Some (m, c_str name, string_size name).

(** The frame [libunwindstack_write_frame] passes to [bun_frame_write]; without a name there is none. *)
Definition build_unwindstack (m : mem) (x : Regs * FrameData) : option (mem * option bun_frame) :=
  let '(registers, frame) := x in
  let symbol := c_str (function_name frame) in
  let filename := c_str (map_name frame) in
  let filename_length := string_size (map_name frame) in
  m ← store m demangle_buffer (replicate (Z.to_nat sizeof_demangle_buffer) NUL);
  if decide (symbol = NULL \/ string_size (function_name frame) = 0) then Some (m, None)
  else
    '(m, symbol, symbol_length) ← demangle_name m (function_name frame);
    let bun_frame := Frame (pc frame) symbol symbol_length filename filename_length
      (function_offset frame) 0 0 sizeof_register_buf register_buf in
    '(m, bun_frame) ← libunwindstack_populate_regs p m bun_frame registers;
    Some (m, Some bun_frame).

Definition libunwindstack_write_frame (m : mem) (w : bun_writer) (frame : FrameData) (registers : Regs)
  : option (mem * bun_writer * bool) :=
  emit build_unwindstack m w (registers, frame).

(** The loop over the frames of an unwinder; all are written with the same registers. *)
Fixpoint write_frames (m : mem) (w : bun_writer) (registers : Regs) (frames : list FrameData)
  : option (mem * bool) :=
  match frames with
  | [] => Some (m, true)
  | frame :: frames =>
      '(m, w, ok) ← libunwindstack_write_frame m w frame registers;
      if (ok : bool) then write_frames m w registers frames else Some (m, false)
  end.

(** The writer and the header, as the three entry points begin. *)
Definition open_unwindstack (m : mem) (b : bun_buffer) (h self tid : Z) : option (mem * bun_writer) :=
  '(m, w) ← open_stream m b arch h self stale_writer BUN_BACKEND_LIBUNWINDSTACK;
  m ← bun_header_tid_set m w tid;
  Some (m, w).

(** [parsed] is the result of [LocalMaps::Parse], [Unwind] the unwinder: from the bound on the
    number of frames, the registers it leaves and its frames. *)
Definition libunwindstack_unwind (m : mem) (h : Z) (b : bun_buffer) (self : Z) (parsed : bool)
    (Unwind : nat -> Regs * list FrameData) : option (mem * Z) :=
  '(m, w) ← open_unwindstack m b h self self;
  if parsed then
    let '(registers, frames) := Unwind 128%nat in
    '(m, ok) ← write_frames m w registers frames;
    if (ok : bool) then
      size ← load_uint m (bun_buffer_payload b + header_size) 4; Some (m, size)
    else Some (m, 0)
  else Some (m, 0).

(** With the traced process: [attaches] is whether [PTRACE_ATTACH] succeeds, [waitpid_status] what
    the variable holds behind [waitpid]. The second component is whether the process is still
    attached. *)
Definition libunwindstack_unwind_remote (m : mem) (h : Z) (b : bun_buffer) (self pid : Z)
    (attaches : bool) (waitpid_status : Z) (parsed : bool) (Unwind : nat -> Regs * list FrameData)
  : option (mem * bool * Z) :=
  '(m, w) ← open_unwindstack m b h self pid;
  if negb attaches then Some (m, false, 0)
  else if negb (WIFSTOPPED waitpid_status) then Some (m, true, 0)
  else if negb parsed then Some (m, false, 0)
  else
    let '(registers, frames) := Unwind 512%nat in
    '(m, ok) ← write_frames m w registers frames;
    if (ok : bool) then
      size ← load_uint m (bun_buffer_payload b + header_size) 4; Some (m, false, size)
    else Some (m, false, 0).

(** The loop of [libunwindstack_unwind_context]; [stale i] is what the uninitialised
    [adjusted_relative_pc] holds when [i] more rounds may follow. *)
Context (U : libunwindstack).

Fixpoint context_loop (n : nat) (stale : nat -> Z) (m : mem) (w : bun_writer) (registers : Regs)
  : option (mem * bool) :=
  match n with
  | O => Some (m, true)
  | S n =>
      match Find U (regs_pc U registers) with
      | None => Some (m, true)
      | Some elf =>
          let relative_pc := GetRelPc U elf (regs_pc U registers) in
          let adjusted_relative_pc :=
            if decide (relative_pc <> 0) then u64 (stale n - GetPcAdjustment U relative_pc elf) else stale n in
          match Step U elf adjusted_relative_pc relative_pc registers with
          | None => Some (m, true)
          | Some registers =>
              '(m, w, ok) ← libunwindstack_write_frame m w (BuildFrameFromPcOnly U relative_pc) registers;
              if (ok : bool) then context_loop n stale m w registers else Some (m, false)
          end
      end
  end.

(** [registers] are those of the context. *)
Definition libunwindstack_unwind_context (m : mem) (h : Z) (b : bun_buffer) (self : Z) (parsed : bool)
    (stale : nat -> Z) (registers : Regs) : option (mem * Z) :=
  '(m, w) ← open_unwindstack m b h self self;
  if parsed then
    '(m, ok) ← context_loop 128 stale m w registers;
    if (ok : bool) then
      size ← load_uint m (bun_buffer_payload b + header_size) 4; Some (m, size)
    else Some (m, 0)
  else Some (m, 0).

(** ** The record of a frame *)

Definition frame_symbol (name : list byte) : list byte :=
  match cxa_demangle name with
  | Some r => if decide (zlen r < sizeof_demangle_buffer) then r else name
  | None => name
  end.

Definition frame_registers (registers : Regs) : list (Z * Z) :=
  match register_table p with
  | None => []
  | Some (_, l) => zip (bun_register_value <$> l) (regs_values registers)
  end.

Definition frame_record (x : Regs * FrameData) : option frame_data :=
  if decide (contents (function_name x.2) = []) then None
  else Some (Data (pc x.2) (function_offset x.2) 0 (frame_symbol (contents (function_name x.2)))
    (contents (map_name x.2)) (frame_registers x.1)).

(** The rounds of the loop over a context, as far as the unwinder goes. *)
Fixpoint context_steps (n : nat) (stale : nat -> Z) (registers : Regs) : list (Regs * FrameData) :=
  match n with
  | O => []
  | S n =>
      match Find U (regs_pc U registers) with
      | None => []
      | Some elf =>
          let relative_pc := GetRelPc U elf (regs_pc U registers) in
          let adjusted_relative_pc :=
            if decide (relative_pc <> 0) then u64 (stale n - GetPcAdjustment U relative_pc elf) else stale n in
          match Step U elf adjusted_relative_pc relative_pc registers with
          | None => []
          | Some registers =>
              (registers, BuildFrameFromPcOnly U relative_pc) :: context_steps n stale registers
          end
      end
  end.

(** ** What the code relies on *)

(** A string is a C string that lies outside the buffer and the two arrays. *)
Record string_ok (b : bun_buffer) (m : mem) (s : cpp_string) : Prop := {
  so_pos : 0 < c_str s;
  so_cstring : cstring m (c_str s) = Some (contents s);
  so_buffer : disjoint_ranges (buffer_data b) (buffer_size b) (c_str s) (zlen (contents s) + 1);
  so_demangle : disjoint_ranges demangle_buffer sizeof_demangle_buffer (c_str s) (zlen (contents s) + 1);
  so_registers : disjoint_ranges register_buf sizeof_register_buf (c_str s) (zlen (contents s) + 1)
}.

(** The registers have the width and the number the processor's function expects. *)
Definition registers_ok (registers : Regs) : Prop :=
  match register_table p with
  | None => True
  | Some (wide, l) =>
      regs_wide registers = wide /\ (length l <= length (regs_values registers))%nat /\
      Forall (fun v => 0 <= v < 2 ^ 64) (regs_values registers)
  end.

Record frame_ok (b : bun_buffer) (m : mem) (x : Regs * FrameData) : Prop := {
  fo_pc : 0 <= pc x.2 < 2 ^ 64;
  fo_offset : 0 <= function_offset x.2 < 2 ^ 64;
  fo_name : string_ok b m (function_name x.2);
  fo_map : string_ok b m (map_name x.2);
  fo_regs : registers_ok x.1
}.

Definition demangle_ok : Prop := forall s r, cxa_demangle s = Some r -> no_nul r.

Definition arrays_ok (b : bun_buffer) (m : mem) : Prop :=
  0 < demangle_buffer /\ mapped m demangle_buffer sizeof_demangle_buffer /\
  mapped m register_buf sizeof_register_buf /\
  disjoint_ranges demangle_buffer sizeof_demangle_buffer register_buf sizeof_register_buf /\
  disjoint_ranges (buffer_data b) (buffer_size b) demangle_buffer sizeof_demangle_buffer /\
  disjoint_ranges (buffer_data b) (buffer_size b) register_buf sizeof_register_buf.

Definition ready (b : bun_buffer) (xs : list (Regs * FrameData)) (m : mem) : Prop :=
  arrays_ok b m /\ Forall (frame_ok b m) xs.

Definition in_arrays (j : Z) : Prop :=
  demangle_buffer <= j < demangle_buffer + sizeof_demangle_buffer \/
  register_buf <= j < register_buf + sizeof_register_buf.

(** ** Lemmas: the registers *)

Lemma populate_append l values : forall i m f,
  (i + length l <= length values)%nat ->
  populate_from i l m f values = append_all m f (zip (bun_register_value <$> l) (drop i values)).
Proof.
  induction l as [|reg l IH]; intros i m f Hi; [done|]. simpl in Hi.
  destruct (lookup_lt_is_Some_2 values i) as [v Hv]; [lia|].
  rewrite (drop_S _ _ _ Hv). cbn [populate_from fmap list_fmap zip zip_with append_all]. rewrite Hv.
  bind_simpl. destruct (bun_frame_register_append m f (bun_register_value reg) v) as [[[m1 f1] ok]|];
    bind_simpl; [|done]. apply IH. lia.
Qed.

(** Every table fits in the 340 bytes of the array. *)
Lemma register_table_fits wide l :
  register_table p = Some (wide, l) ->
  REGISTER_SIZE * zlen l <= sizeof_register_buf /\
  Forall (fun reg => 0 <= bun_register_value reg < 2 ^ 16) l.
Proof.
  destruct p; intros [= <- <-]; (split; [vm_compute; discriminate | by_compute]).
Qed.

Lemma zip_registers_ok (l : list bun_register) values :
  Forall (fun reg => 0 <= bun_register_value reg < 2 ^ 16) l ->
  Forall (fun v => 0 <= v < 2 ^ 64) values ->
  Forall register_ok (zip (bun_register_value <$> l) values).
Proof.
  intros Hl. revert values. induction Hl as [|reg l Hreg _ IH]; intros values Hv; [constructor|].
  destruct Hv as [|v values Hv Hvs]; [constructor|]. constructor; [by split | by apply IH].
Qed.

Lemma frame_registers_ok registers :
  registers_ok registers ->
  Forall register_ok (frame_registers registers) /\
  REGISTER_SIZE * zlen (frame_registers registers) <= sizeof_register_buf.
Proof.
  unfold registers_ok, frame_registers. destruct (register_table p) as [[wide l]|] eqn:E;
    [|split; [constructor | done]].
  destruct (register_table_fits _ _ E) as [Hf Hl]. intros (_ & Hlen & Hv). split.
  - by apply zip_registers_ok.
  - assert (zlen (zip (bun_register_value <$> l) (regs_values registers)) = zlen l) as ->; [|done].
    unfold zlen. rewrite length_zip_with, length_fmap. lia.
Qed.

Lemma populate_spec m f registers :
  registers_ok registers -> registers_repr m f [] -> register_buffer_size f = sizeof_register_buf ->
  exists m' f', libunwindstack_populate_regs p m f registers = Some (m', f') /\
    f' = set_register_count f (zlen (frame_registers registers)) /\
    registers_repr m' f' (frame_registers registers) /\ grows m m' /\
    same_outside m m' (register_data f) sizeof_register_buf.
Proof.
  intros Hok Hr Hsz. destruct (frame_registers_ok _ Hok) as [Hro Hrf].
  assert (libunwindstack_populate_regs p m f registers = append_all m f (frame_registers registers)) as ->.
  { unfold libunwindstack_populate_regs, frame_registers, registers_ok in *.
    destruct (register_table p) as [[wide l]|]; [|done].
    destruct Hok as (Hw & Hlen & _). rewrite decide_True by done. by rewrite populate_append, drop_0. }
  destruct (append_all_spec (frame_registers registers) m f [] Hro Hr) as (m' & f' & Ha & -> & Hr' & Hg & Ho).
  { change (zlen []) with 0. unfold register_capacity. rewrite Hsz.
    change (sizeof_register_buf `div` REGISTER_SIZE) with 34. unfold REGISTER_SIZE, sizeof_register_buf in *. lia. }
  rewrite Hsz in Ho. by eexists m', _.
Qed.

(** ** Lemmas: the strings *)

Lemma string_ok_outside b m m' a n s :
  same_outside m m' a n -> disjoint_ranges a n (c_str s) (zlen (contents s) + 1) ->
  string_ok b m s -> string_ok b m' s.
Proof.
  intros Ho Hd []. split; try done. by eapply at_addr_string_disjoint.
Qed.

Lemma frame_data_outside b m m' a n x :
  same_outside m m' a n ->
  disjoint_ranges a n (c_str (function_name x.2)) (zlen (contents (function_name x.2)) + 1) ->
  disjoint_ranges a n (c_str (map_name x.2)) (zlen (contents (map_name x.2)) + 1) ->
  frame_ok b m x -> frame_ok b m' x.
Proof. intros Ho H1 H2 []. split; try done; by eapply string_ok_outside. Qed.

Lemma frames_ok_outside b m m' a n xs :
  same_outside m m' a n ->
  (a, n) = (demangle_buffer, sizeof_demangle_buffer) \/ (a, n) = (register_buf, sizeof_register_buf) \/
    (a, n) = (buffer_data b, buffer_size b) ->
  Forall (frame_ok b m) xs -> Forall (frame_ok b m') xs.
Proof.
  intros Ho Ha Hx. eapply Forall_impl; [exact Hx|]. intros x Hok.
  eapply frame_data_outside; [exact Ho | | | done]; destruct (fo_name _ _ _ Hok), (fo_map _ _ _ Hok);
    destruct Ha as [[= -> ->]|[[= -> ->]|[= -> ->]]]; done.
Qed.

Lemma string_no_nul b m s : string_ok b m s -> no_nul (contents s).
Proof. intros [_ Hc _ _ _]. by apply cstring_spec in Hc as [_ Hc]. Qed.

(** The name and its length behind the call of the demangler. *)
Lemma demangled_symbol b m s :
  demangle_ok -> string_ok b m s -> mapped m demangle_buffer sizeof_demangle_buffer -> 0 < demangle_buffer ->
  exists m' symbol,
    demangle_name m s = Some (m', symbol, zlen (frame_symbol (contents s))) /\
    cstring m' symbol = Some (frame_symbol (contents s)) /\ 0 < symbol /\
    (symbol = c_str s /\ frame_symbol (contents s) = contents s \/
     symbol = demangle_buffer /\ zlen (frame_symbol (contents s)) < sizeof_demangle_buffer) /\
    grows m m' /\ same_outside m m' demangle_buffer sizeof_demangle_buffer.
Proof.
  intros Hdem [Hp Hc Hb Hd Hr] Hm Hpos. unfold demangle_name. rewrite (demangle_result _ _ _ _ _ _ Hc Hm).
  unfold frame_symbol. destruct (cxa_demangle (contents s)) as [r|] eqn:E;
    [destruct (decide (zlen r < sizeof_demangle_buffer)) as [Hfit|]|]; bind_simpl.
  - assert (cstring (write_bytes m demangle_buffer (r ++ [NUL])) demangle_buffer = Some r) as Hcr.
    { apply cstring_spec. split; [apply at_addr_write | by eapply Hdem]. }
    unfold strlen. rewrite Hcr. bind_simpl. do 2 eexists. split; [done|]. split; [done|].
    split; [done|]. split; [right; done|]. split; [apply grows_write|].
    eapply same_outside_weaken; [apply same_outside_write | lia | zlen_norm; lia].
  - do 2 eexists. split; [done|]. by split_and!; [..|left| |].
  - do 2 eexists. split; [done|]. by split_and!; [..|left| |].
Qed.

(** ** The backend as a builder of frames *)

(** What lies outside the buffer lies outside its payload. *)
Lemma payload_disjoint b a n n' :
  0 <= bun_buffer_payload_size b <= buffer_size b - payload_header ->
  disjoint_ranges (buffer_data b) (buffer_size b) a n -> 0 <= n' -> n' <= n ->
  disjoint_ranges (bun_buffer_payload b) (bun_buffer_payload_size b) a n'.
Proof. unfold disjoint_ranges, bun_buffer_payload. layout. lia. Qed.

(** Both arrays may change. *)
Lemma ready_arrays b xs m m1 m2 :
  grows m m1 -> same_outside m m1 demangle_buffer sizeof_demangle_buffer ->
  grows m1 m2 -> same_outside m1 m2 register_buf sizeof_register_buf ->
  ready b xs m -> ready b xs m2 /\ grows m m2 /\ (forall j, ~ in_arrays j -> m2 !! j = m !! j).
Proof.
  intros Hg1 Ho1 Hg2 Ho2 [(Ha & Hm1 & Hm2 & Hd) Hx].
  assert (grows m m2) as Hg by (by etrans). split; [split|split; [done|]].
  - split_and!; [done | by eapply mapped_grows | by eapply mapped_grows | apply Hd..].
  - eapply frames_ok_outside; [exact Ho2 | by right; left|].
    eapply frames_ok_outside; [exact Ho1 | by left | done].
  - intros j Hj. unfold in_arrays in Hj. rewrite Ho2, Ho1 by tauto. done.
Qed.

Lemma frame_symbol_no_nul b m s : demangle_ok -> string_ok b m s -> no_nul (frame_symbol (contents s)).
Proof.
  intros Hdem Hs. unfold frame_symbol. destruct (cxa_demangle _) eqn:E; [case_decide|];
    eauto using string_no_nul.
Qed.

Lemma record_ok b m x d :
  demangle_ok -> frame_ok b m x -> frame_record x = Some d -> data_ok d.
Proof.
  intros Hdem []. unfold frame_record. case_decide; [done|]. intros [= <-].
  destruct (frame_registers_ok x.1) as [Hr Hf]; [done|].
  split; cbn [d_addr d_line d_offset d_symbol d_filename d_registers]; try done.
  - by eapply frame_symbol_no_nul.
  - by eapply string_no_nul.
  - unfold REGISTER_SIZE, sizeof_register_buf in *. lia.
Qed.

(** The frame in the memory [m2] behind the appended registers. *)
Lemma built_frame b m m1 m2 registers frame sym :
  let symbol' := frame_symbol (contents (function_name frame)) in
  let f := Frame (pc frame) sym (zlen symbol') (c_str (map_name frame)) (string_size (map_name frame))
    (function_offset frame) 0 (zlen (frame_registers registers)) sizeof_register_buf register_buf in
  0 <= bun_buffer_payload_size b <= buffer_size b - payload_header ->
  arrays_ok b m -> frame_ok b m (registers, frame) -> string_ok b m2 (map_name frame) ->
  cstring m1 sym = Some symbol' -> 0 < sym ->
  (sym = c_str (function_name frame) /\ symbol' = contents (function_name frame) \/
   sym = demangle_buffer /\ zlen symbol' < sizeof_demangle_buffer) ->
  registers_repr m2 f (frame_registers registers) -> same_outside m1 m2 register_buf sizeof_register_buf ->
  let d := Data (pc frame) (function_offset frame) 0 symbol' (contents (map_name frame))
    (frame_registers registers) in
  frame_repr m2 f d /\ frame_outside (bun_buffer_payload b) (bun_buffer_payload_size b) f d.
Proof.
  intros symbol' f Hps (_ & _ & _ & Hdd & Hd1 & Hd2) Hx Hmap Hsym Hspos Hwhere Hr2 Ho2 d.
  pose proof (zlen_nonneg symbol'). pose proof (zlen_nonneg (contents (map_name frame))).
  pose proof (fo_name _ _ _ Hx) as Hname. cbn [fst snd] in Hname. split.
  - destruct Hr2 as [_ Hn2 _ _ Hat2 _], Hmap.
    split; cbn [d f addr line_no offset symbol symbol_length filename filename_length
      register_count register_data d_addr d_line d_offset d_symbol d_filename d_registers]; try done.
    + unfold string_repr. rewrite decide_False by (unfold NULL; lia). split; [|by right].
      eapply at_addr_string_disjoint; [exact Ho2 | | exact Hsym].
      destruct Hwhere as [(-> & ->)|(-> & Hlt)]; [apply Hname|].
      unfold disjoint_ranges, sizeof_demangle_buffer in *. lia.
    + unfold string_repr. rewrite decide_False by (unfold NULL; lia). split; [done | by right].
  - destruct (frame_registers_ok registers (fo_regs _ _ _ Hx)) as [_ Hfit].
    pose proof (zlen_nonneg (frame_registers registers)). unfold REGISTER_SIZE in *.
    split; cbn [d f symbol filename register_data d_symbol d_filename d_registers].
    + intros _. destruct Hwhere as [(-> & ->)|(-> & Hlt)];
        (eapply payload_disjoint; [done | first [exact Hd1 | apply Hname] | lia..]).
    + intros _. eapply payload_disjoint; [done | apply Hmap | lia..].
    + eapply payload_disjoint; [done | exact Hd2 | unfold REGISTER_SIZE; lia..].
Qed.

(** Zeroing the buffer of the demangler. *)
Lemma cleared_buffer m :
  mapped m demangle_buffer sizeof_demangle_buffer ->
  exists m0, store m demangle_buffer (replicate (Z.to_nat sizeof_demangle_buffer) NUL) = Some m0 /\
    grows m m0 /\ same_outside m m0 demangle_buffer sizeof_demangle_buffer.
Proof.
  intros Hm. rewrite store_mapped by done. eexists. split; [done|]. split; [apply grows_write|].
  pose proof (same_outside_write m demangle_buffer (replicate (Z.to_nat sizeof_demangle_buffer) NUL)) as H.
  unfold zlen in H. by rewrite length_replicate in H.
Qed.

Lemma build_spec b xs m x :
  demangle_ok -> 0 <= bun_buffer_payload_size b <= buffer_size b - payload_header ->
  ready b xs m -> x ∈ xs ->
  exists m1 f, build_unwindstack m x = Some (m1, f) /\ ready b xs m1 /\ grows m m1 /\
    (forall j, ~ in_arrays j -> m1 !! j = m !! j) /\
    match f, frame_record x with
    | Some f, Some d => frame_repr m1 f d /\ data_ok d /\
        frame_outside (bun_buffer_payload b) (bun_buffer_payload_size b) f d
    | None, None => True
    | _, _ => False
    end.
Proof.
  intros Hdem Hps Hr Hin. pose proof Hr as [Harr Hall]. pose proof Harr as (Ha & Hm1 & Hm2 & _).
  pose proof Hall as Hx. rewrite Forall_forall in Hx. specialize (Hx x Hin). destruct x as [registers frame].
  pose proof (fo_name _ _ _ Hx) as Hname. pose proof (fo_map _ _ _ Hx) as Hmap. cbn [snd] in Hname, Hmap.
  unfold build_unwindstack, frame_record. cbn [fst snd].
  destruct (cleared_buffer m Hm1) as (m0 & -> & Hg0 & Ho0). bind_simpl.
  pose proof (so_pos _ _ _ Hname) as Hnpos.
  destruct (decide (contents (function_name frame) = [])) as [Hnil|Hnil].
  { rewrite decide_True by (right; unfold string_size; by rewrite Hnil).
    destruct (ready_arrays b xs m m0 m0) as (Hr0 & _ & Hoo); try done. by eexists m0, None. }
  rewrite decide_False
    by (unfold NULL; intros [?|Hz]; [lia | apply Hnil; by apply zlen_0]).
  assert (string_ok b m0 (function_name frame)) as Hname0
    by (eapply string_ok_outside; [exact Ho0 | apply Hname | exact Hname]).
  destruct (demangled_symbol b m0 (function_name frame) Hdem Hname0) as
    (m1 & sym & -> & Hsym & Hspos & Hwhere & Hg1 & Ho1); [by eapply mapped_grows | done|].
  bind_simpl. set (f0 := Frame _ _ _ _ _ _ _ _ _ _).
  assert (registers_repr m1 f0 []) as Hr0
    by (apply registers_repr_empty; [done | done | by do 2 (eapply mapped_grows; [done|])]).
  destruct (populate_spec m1 f0 registers (fo_regs _ _ _ Hx) Hr0 eq_refl) as (m2 & f2 & -> & -> & Hr2 & Hg2 & Ho2).
  bind_simpl. cbn [f0 register_data] in Ho2.
  assert (same_outside m m1 demangle_buffer sizeof_demangle_buffer) as Ho01
    by (by eapply same_outside_trans).
  destruct (ready_arrays b xs m m1 m2) as (Hrd & Hg & Hoo); try done; [by etrans|].
  eexists m2, _. split; [done|]. split; [done|]. split; [done|]. split; [done|].
  assert (string_ok b m2 (map_name frame)) as Hmap2.
  { eapply string_ok_outside; [exact Ho2 | apply Hmap|].
    eapply string_ok_outside; [exact Ho01 | apply Hmap | exact Hmap]. }
  destruct (built_frame b m m1 m2 registers frame sym) as [Hrep Hout]; try done.
  split_and!; [exact Hrep | | exact Hout].
  eapply record_ok; [done | exact Hx |]. unfold frame_record. cbn [fst snd]. by rewrite decide_False.
Qed.

Lemma unwindstack_builder b xs :
  demangle_ok -> 0 <= bun_buffer_payload_size b <= buffer_size b - payload_header ->
  disjoint_ranges (buffer_data b) (buffer_size b) demangle_buffer sizeof_demangle_buffer ->
  disjoint_ranges (buffer_data b) (buffer_size b) register_buf sizeof_register_buf ->
  FrameBuilder b build_unwindstack frame_record (fun x => x ∈ xs) (ready b xs) in_arrays.
Proof.
  intros Hdem Hps Hd1 Hd2. split.
  - intros j Hj. unfold in_arrays, disjoint_ranges, sizeof_demangle_buffer, sizeof_register_buf in *. lia.
  - intros m m' [(Ha & Hm1 & Hm2 & Hd) Hx] Hg Ho. split.
    + split_and!; [done | by eapply mapped_grows | by eapply mapped_grows | apply Hd..].
    + eapply frames_ok_outside; [exact Ho | right; right; reflexivity | exact Hx].
  - intros m x Hr Hin. by apply build_spec.
Qed.

(** ** The loops *)

Lemma write_frames_emit registers frames : forall m w,
  write_frames m w registers frames =
  ('(m, _, ok) ← emit_all build_unwindstack m w (pair registers <$> frames); Some (m, ok)).
Proof.
  induction frames as [|frame frames IH]; intros m w; [done|].
  cbn [write_frames fmap list_fmap emit_all]. unfold libunwindstack_write_frame.
  destruct (emit build_unwindstack m w (registers, frame)) as [[[m1 w1] []]|]; bind_simpl;
    first [done | apply IH].
Qed.

Lemma context_loop_emit stale n : forall registers m w,
  context_loop n stale m w registers =
  ('(m, _, ok) ← emit_all build_unwindstack m w (context_steps n stale registers); Some (m, ok)).
Proof.
  induction n as [|n IH]; intros registers m w; [done|]. cbn [context_loop context_steps].
  destruct (Find U (regs_pc U registers)) as [elf|]; [|done].
  destruct (Step U elf _ _ registers) as [registers'|]; [|done].
  cbn [emit_all]. unfold libunwindstack_write_frame.
  destruct (emit build_unwindstack m w _) as [[[m1 w1] []]|]; bind_simpl; first [done | apply IH].
Qed.

(** ** What a call leaves *)

Definition room (b : bun_buffer) : Z := buffer_size b - sizeof_buffer_payload.

(** The buffer holds the records [ds] under the stamp of the backend, and memory outside the
    buffer and the arrays is as it was. *)
Definition unwound (b : bun_buffer) (h tid : Z) (ds : list frame_data) (m m' : mem) : Prop :=
  (exists w, written b h (u32 tid) BUN_BACKEND_LIBUNWINDSTACK m' w ds) /\ untouched b in_arrays m m'.

Section Call.
Context (b : bun_buffer) (m : mem) (h count r flags self tid : Z) (xs : list (Regs * FrameData)).
Hypothesis Hdem : demangle_ok.
Hypothesis Hready : ready b xs m.
Hypothesis Hinit : init_allowed m b h count r flags.

Lemma unwindstack_begin :
  exists m1, ready b xs m1 /\ untouched b in_arrays m m1 /\
    written b h (u32 tid) BUN_BACKEND_LIBUNWINDSTACK m1 (initial_base b h) [] /\
    open_unwindstack m b h self tid = Some (m1, initial_base b h).
Proof.
  destruct (open_stream_spec m b arch h self stale_writer BUN_BACKEND_LIBUNWINDSTACK count r flags Hinit)
    as (m0 & Ho & _ & Hg0 & _ & Ht).
  destruct (Ht tid) as (m1 & Hset & Hw & Hg & Hout). exists m1.
  pose proof (bok_size _ _ (ia_buffer _ _ _ _ _ _ Hinit)) as Hsz.
  assert (same_outside m m1 (buffer_data b) (buffer_size b)) as Hb
    by (eapply same_outside_weaken; [exact Hout | lia..]).
  split_and!; [|by intros j _ Hj; apply Hb | done | unfold open_unwindstack; rewrite Ho; bind_simpl; by rewrite Hset].
  destruct Hready as [(Ha & Hm1 & Hm2 & Hd) Hx]. split.
  - split_and!; [done | by eapply mapped_grows | by eapply mapped_grows | apply Hd..].
  - eapply frames_ok_outside; [exact Hb | right; right; reflexivity | exact Hx].
Qed.

Lemma unwindstack_builder_here :
  FrameBuilder b build_unwindstack frame_record (fun x => x ∈ xs) (ready b xs) in_arrays.
Proof.
  destruct Hready as [(_ & _ & _ & _ & Hd1 & Hd2) _].
  apply unwindstack_builder; [done | | exact Hd1 | exact Hd2].
  pose proof (ia_buffer _ _ _ _ _ _ Hinit) as Hb. rewrite (payload_size_ok _ _ Hb).
  destruct Hb. layout. lia.
Qed.

Lemma unwindstack_fits :
  buffer_size b <= 2 ^ 32 -> stream_size (records frame_record xs) <= room b ->
  exists m1 m2 w2, open_unwindstack m b h self tid = Some (m1, initial_base b h) /\
    emit_all build_unwindstack m1 (initial_base b h) xs = Some (m2, w2, true) /\
    load_uint m2 (bun_buffer_payload b + header_size) 4 =
      Some (sizeof_payload_header + stream_counted (records frame_record xs)) /\
    unwound b h tid (records frame_record xs) m m2.
Proof.
  intros Hsz Hfit. destruct unwindstack_begin as (m1 & Hr1 & Hu1 & Hw1 & Ho).
  pose proof unwindstack_builder_here as HB. destruct (written_room b h m1 _ _ _ _ Hw1) as (Hr0 & _ & Hav).
  change (stream_size []) with 0 in Hav. unfold room in Hfit.
  assert (Forall (fun x => x ∈ xs) xs) as Hin by (by apply Forall_forall).
  destruct (emit_all_fits b h build_unwindstack frame_record (fun x => x ∈ xs) (ready b xs) in_arrays
    xs m1 (initial_base b h) _ _ [] Hw1 Hr1 Hin) as (m2 & w2 & He & Hw2 & _ & Hu2); [lia|].
  cbn [app] in Hw2. exists m1, m2, w2. split_and!; [done | done | |].
  - rewrite (wr_size _ _ _ _ _ _ _ Hw2). f_equal. apply u32_small.
    pose proof (stream_size_lower (records frame_record xs)).
    pose proof (zlen_nonneg (records frame_record xs)). unfold stream_counted. layout. lia.
  - split; [by exists w2 | by eapply untouched_trans].
Qed.

Lemma unwindstack_refused xs1 x xs2 d :
  xs = xs1 ++ x :: xs2 -> stream_size (records frame_record xs1) <= room b ->
  frame_record x = Some d -> counted d < 2 ^ 64 ->
  room b - stream_size (records frame_record xs1) < counted d ->
  exists m1 m2 w2, open_unwindstack m b h self tid = Some (m1, initial_base b h) /\
    emit_all build_unwindstack m1 (initial_base b h) xs = Some (m2, w2, false) /\
    unwound b h tid (records frame_record xs1) m m2.
Proof.
  intros E Hfit Hd Hlt Hfull. destruct unwindstack_begin as (m1 & Hr1 & Hu1 & Hw1 & Ho).
  pose proof unwindstack_builder_here as HB. destruct (written_room b h m1 _ _ _ _ Hw1) as (_ & _ & Hav).
  change (stream_size []) with 0 in Hav. unfold room in *.
  assert (Forall (fun y => y ∈ xs) (xs1 ++ x :: xs2)) as Hin by (rewrite <- E; by apply Forall_forall).
  apply Forall_app in Hin as [Hin1 [Hinx _]%Forall_cons].
  destruct (emit_all_refused b h build_unwindstack frame_record (fun y => y ∈ xs) (ready b xs) in_arrays
    xs1 x d xs2 m1 (initial_base b h) _ _ [] Hw1 Hr1) as (m2 & w2 & He & Hw2 & _ & Hu2); try done; try lia.
  cbn [app] in Hw2. exists m1, m2, w2. split_and!; [done | by rewrite E |].
  split; [by exists w2 | by eapply untouched_trans].
Qed.
End Call.

(** What a reader makes of the buffer: the thread, the backend and the records, and memory
    outside the buffer and the arrays as it was. *)
Definition delivered (b : bun_buffer) (h' tid : Z) (f0 : bun_frame) (ds : list frame_data) (m m' : mem) : Prop :=
  bun_reader_init m' b h' = Some (Some (initial_base b h')) /\
  bun_header_tid_get m' (initial_base b h') = Some (u32 tid) /\
  bun_header_backend_get m' (initial_base b h') = Some BUN_BACKEND_LIBUNWINDSTACK /\
  (exists r' gs, read_all (read_fuel (initial_base b h')) m' (initial_base b h') f0 = Some (r', gs) /\
    Forall2 (frame_shows m') gs (readable (stream_counted ds) ds)) /\
  untouched b in_arrays m m'.

Lemma unwound_delivered b h tid ds m m' h' f0 :
  buffer_data b + buffer_size b < 2 ^ 63 -> buffer_size b <= 2 ^ 32 ->
  unwound b h tid ds m m' -> delivered b h' tid f0 ds m m'.
Proof.
  intros Htop Hsz [[w Hw] Hu].
  destruct (written_read _ _ _ _ _ _ _ h' f0 Hw Htop Hsz) as (Hrd & r' & gs & Hall & Hshow).
  split_and!; [done | apply (wr_tid _ _ _ _ _ _ _ Hw) | apply (wr_backend _ _ _ _ _ _ _ Hw) | by exists r', gs | done].
Qed.

(** ** Theorems *)

(** C16: The libunwindstack backend delivers what the unwinder reports. When the records of the
    frames that have a name fit in the buffer, each of the three entry points returns the size
    of the stream and leaves one record per such frame, which a reader gets back with the
    thread and the backend: the (demangled) name, the map, the address, the offset in the
    function as the line, and the registers of the processor. Locally and remotely these are the same for
    every frame, those the whole unwind has ended with; only over a context are they the
    frame's. The remote unwind leaves the process detached. *)
Theorem libunwindstack_spec b m h count r flags self tid h' f0 :
  demangle_ok -> init_allowed m b h count r flags ->
  buffer_data b + buffer_size b < 2 ^ 63 -> buffer_size b <= 2 ^ 32 ->
  let fits xs := ready b xs m /\ stream_size (records frame_record xs) <= room b in
  let size xs := sizeof_payload_header + stream_counted (records frame_record xs) in
  (forall Unwind registers frames, Unwind 128%nat = (registers, frames) ->
    let xs := pair registers <$> frames in fits xs ->
    exists m', libunwindstack_unwind m h b self true Unwind = Some (m', size xs) /\
      delivered b h' self f0 (records frame_record xs) m m') /\
  (forall Unwind registers frames status, Unwind 512%nat = (registers, frames) -> WIFSTOPPED status = true ->
    let xs := pair registers <$> frames in fits xs ->
    exists m', libunwindstack_unwind_remote m h b self tid true status true Unwind = Some (m', false, size xs) /\
      delivered b h' tid f0 (records frame_record xs) m m') /\
  (forall stale registers,
    let xs := context_steps 128 stale registers in fits xs ->
    exists m', libunwindstack_unwind_context m h b self true stale registers = Some (m', size xs) /\
      delivered b h' self f0 (records frame_record xs) m m').
Proof.
  intros Hdem Hinit Htop Hsz fits size. split_and!.
  - intros Unwind registers frames E xs [Hr Hfit]. subst xs.
    destruct (unwindstack_fits b m h count r flags self self _ Hdem Hr Hinit Hsz Hfit)
      as (m1 & m2 & w2 & Ho & He & Hs & Hu). exists m2.
    split; [|by eapply unwound_delivered]. unfold libunwindstack_unwind. rewrite Ho. bind_simpl.
    rewrite E, write_frames_emit, He. bind_simpl. rewrite Hs. done.
  - intros Unwind registers frames status E Hst xs [Hr Hfit]. subst xs.
    destruct (unwindstack_fits b m h count r flags self tid _ Hdem Hr Hinit Hsz Hfit)
      as (m1 & m2 & w2 & Ho & He & Hs & Hu). exists m2.
    split; [|by eapply unwound_delivered]. unfold libunwindstack_unwind_remote. rewrite Ho. bind_simpl.
    rewrite Hst. simpl negb. cbv iota. rewrite E, write_frames_emit, He. bind_simpl. rewrite Hs. done.
  - intros stale registers xs [Hr Hfit]. subst xs.
    destruct (unwindstack_fits b m h count r flags self self _ Hdem Hr Hinit Hsz Hfit)
      as (m1 & m2 & w2 & Ho & He & Hs & Hu). exists m2.
    split; [|by eapply unwound_delivered]. unfold libunwindstack_unwind_context. rewrite Ho. bind_simpl.
    rewrite context_loop_emit, He. bind_simpl. rewrite Hs. done.
Qed.

(** Every way the remote unwind fails returns 0 and leaves the process detached, with the
    records in front of a refused frame in the buffer, except one: when the process is not
    stopped after the wait the call returns without detaching from it. *)
Theorem libunwindstack_remote_paths b m h count r flags self tid status Unwind xs1 x xs2 d :
  demangle_ok -> init_allowed m b h count r flags -> ready b (xs1 ++ x :: xs2) m ->
  (exists registers frames, Unwind 512%nat = (registers, frames) /\ pair registers <$> frames = xs1 ++ x :: xs2) ->
  stream_size (records frame_record xs1) <= room b -> frame_record x = Some d -> counted d < 2 ^ 64 ->
  room b - stream_size (records frame_record xs1) < counted d ->
  forall attaches parsed, exists m',
    libunwindstack_unwind_remote m h b self tid attaches status parsed Unwind =
      Some (m', attaches && negb (WIFSTOPPED status), 0) /\
    (attaches && WIFSTOPPED status && parsed = true -> unwound b h tid (records frame_record xs1) m m').
Proof.
  intros Hdem Hinit Hr (registers & frames & E & Exs) Hfit Hd Hlt Hfull attaches parsed.
  destruct (unwindstack_refused b m h count r flags self tid (xs1 ++ x :: xs2) Hdem Hr Hinit xs1 x xs2 d)
    as (m1 & m2 & w2 & Ho & He & Hu); try done.
  unfold libunwindstack_unwind_remote. rewrite Ho. bind_simpl.
  destruct attaches; simpl; [|by exists m1]. destruct (WIFSTOPPED status); simpl; [|by exists m1].
  destruct parsed; simpl; [|by exists m1]. exists m2.
  rewrite E, write_frames_emit, Exs, He. bind_simpl. done.
Qed.
End Unwindstack.

(** ** Witnesses *)

Definition sample_name : cpp_string := CppString 0x3000 (bytes_of "main").
Definition sample_map : cpp_string := CppString 0x3010 (bytes_of "a.out").
Definition nameless : cpp_string := CppString 0x3020 [].
Definition sample_registers : Regs := MakeRegs true (Z.of_nat <$> seq 1 17).
Definition sample_frames : list FrameData :=
  [MakeFrameData 0x401136 sample_name sample_map 4; MakeFrameData 0x7f00 nameless sample_map 0].
Definition unwindstack_buffer : bun_buffer := BunBuffer 0x1000 512.
Definition unwindstack_mem : mem :=
  mem_of [(0x1000, replicate 512 NUL); (0x2000, sample_handle); (0x3000, bytes_of "main" ++ [NUL]);
    (0x3010, bytes_of "a.out" ++ [NUL]); (0x3020, [NUL]);
    (0x7000, replicate 4096 NUL); (0x9000, replicate 340 NUL)].

(** An unwinder that finds no code. *)
Definition nowhere : libunwindstack :=
  UnwindstackApi unit (fun _ => 0) (fun _ => None) (fun _ _ => 0) (fun _ _ => 0) (fun _ _ _ _ => None)
    (fun _ => MakeFrameData 0 nameless nameless 0).

Definition no_demangling (s : list byte) : option (list byte) := None.

Lemma no_demangling_ok : demangle_ok no_demangling.
Proof. intros s r [=]. Qed.

Lemma sample_string_ok s :
  s ∈ [sample_name; sample_map; nameless] -> string_ok 0x7000 0x9000 unwindstack_buffer unwindstack_mem s.
Proof. rewrite !elem_of_cons, elem_of_nil. intros [->|[->|[->|[]]]]; split; by_compute. Qed.

Lemma sample_ready :
  ready X86_64 0x7000 0x9000 unwindstack_buffer (pair sample_registers <$> sample_frames) unwindstack_mem.
Proof.
  split; [unfold arrays_ok; split_and!; by_compute|].
  assert (registers_ok X86_64 sample_registers) as Hr by (split_and!; by_compute).
  apply Forall_fmap, Forall_forall. unfold sample_frames. intros x. rewrite !elem_of_cons, elem_of_nil.
  assert (forall s, s ∈ [sample_name; sample_map; nameless] ->
    string_ok 0x7000 0x9000 unwindstack_buffer unwindstack_mem s) as Hs by exact sample_string_ok.
  intros [->|[->|[]]]; (split; [by_compute | by_compute | apply Hs | apply Hs | exact Hr]);
    rewrite !elem_of_cons; cbn [snd function_name map_name]; tauto.
Qed.

Lemma libunwindstack_spec_witness :
  stream_size (records (frame_record no_demangling X86_64) (pair sample_registers <$> sample_frames)) <=
    room unwindstack_buffer /\
  exists m', libunwindstack_unwind no_demangling X86_64 2 0x7000 0x9000 (Base 0 0 0 0 false) unwindstack_mem
    0x2000 unwindstack_buffer 77 true (fun _ => (sample_registers, sample_frames)) = Some (m', 229).
Proof.
  split; [by_compute|].
  destruct (libunwindstack_spec no_demangling X86_64 2 0x7000 0x9000 (Base 0 0 0 0 false) nowhere
    unwindstack_buffer unwindstack_mem 0x2000 0 0 1 77 77 0 zero_frame) as (H & _ & _);
    [exact no_demangling_ok | by_compute | by_compute | by_compute |].
  destruct (H (fun _ => (sample_registers, sample_frames)) sample_registers sample_frames eq_refl)
    as (m' & Hi & _).
  { split; [exact sample_ready | by_compute]. }
  exists m'. assert (sizeof_payload_header + stream_counted (records (frame_record no_demangling X86_64)
    (pair sample_registers <$> sample_frames)) = 229) as E by (vm_compute; reflexivity).
  rewrite E in Hi. exact Hi.
Defined.

(** A buffer that is too small for the first frame. *)
Definition small_buffer : bun_buffer := BunBuffer 0x1000 128.

Lemma sample_string_small s :
  string_ok 0x7000 0x9000 unwindstack_buffer unwindstack_mem s ->
  string_ok 0x7000 0x9000 small_buffer unwindstack_mem s.
Proof.
  intros [? ? Hb ? ?]. split; try assumption. unfold disjoint_ranges in *. cbn [unwindstack_buffer
    small_buffer buffer_data buffer_size] in *. lia.
Qed.

Lemma libunwindstack_remote_paths_witness :
  exists m', libunwindstack_unwind_remote no_demangling X86_64 2 0x7000 0x9000 (Base 0 0 0 0 false) unwindstack_mem
    0x2000 small_buffer 77 78 true 0 true (fun _ => (sample_registers, sample_frames)) = Some (m', true, 0).
Proof.
  destruct (libunwindstack_remote_paths no_demangling X86_64 2 0x7000 0x9000 (Base 0 0 0 0 false)
    small_buffer unwindstack_mem 0x2000 0 0 1 77 78 0 (fun _ => (sample_registers, sample_frames))
    [] (sample_registers, MakeFrameData 0x401136 sample_name sample_map 4)
    [(sample_registers, MakeFrameData 0x7f00 nameless sample_map 0)]
    (Data 0x401136 4 0 (bytes_of "main") (bytes_of "a.out") (frame_registers X86_64 sample_registers)))
    with (attaches := true) (parsed := true) as (m' & H & _);
    [exact no_demangling_ok | by_compute | | by exists sample_registers, sample_frames | by_compute
    | reflexivity | by_compute | by_compute |].
  - destruct sample_ready as [(? & ? & ? & ? & _ & _) Hx]. split; [split_and!; first [assumption | by_compute]|].
    eapply Forall_impl; [exact Hx|]. intros x [? ? Hn Hm ?].
    split; [assumption | assumption | by apply sample_string_small | by apply sample_string_small | assumption].
  - exists m'. exact H.
Defined.
