(* ===== verification/BcdMeta.v ===== *)
(** * Metadata of the bcd monitor (src/external/bcd/bcd-amalgamated.c)

    The key-value list and the argument list a client sets with [BCD_OP_KV] and
    [BCD_OP_ARG] and the tracer gets on its command line: [bcd_kv_set],
    [bcd_kv_get], [bcd_arg_set], [bcd_arg_get], and the error reports of
    [bcd_error]. The intrusive lists of the code are lists of C strings; the
    counters the code keeps beside them are fields of their own. [None] is undefined behaviour: a
    read behind the payload of the packet or a write behind an allocation. *)

From stdpp Require Import list_numbers.
From S2P Require Import Prelude.
From S2P Require Import Memory.

(** ** Data *)

Inductive bcd_event : Set :=
| BCD_EVENT_TRACE
| BCD_EVENT_METADATA
| BCD_EVENT_FATAL
| BCD_EVENT_OTHER.

Definition bcd_event_value (e : bcd_event) : Z :=
  match e with
  | BCD_EVENT_TRACE => 1
  | BCD_EVENT_METADATA => 2
  | BCD_EVENT_FATAL => 3
  | BCD_EVENT_OTHER => 4
  end.

(** A call of the configured error handler: event, thread, message, code. *)
Record bcd_report := Report {
  rp_event : bcd_event; rp_tid : Z; rp_message : string; rp_code : Z
}.

Definition BCD_PACKET_LIMIT : Z := 1024.
Definition BCD_ARGC_LIMIT : Z := 32.

(** The payload is the whole buffer of the session, whatever the length says. *)
Record bcd_packet := Packet { op : Z; packet_length : Z; payload : list byte }.

Record bcd_kv := KV { key : list byte; value : list byte }.

(** The globals [bcd_kv_list], [bcd_kv_length], [bcd_kv_count], [bcd_arg_list],
    [bcd_arg_length], [bcd_arg_count], and the reports made so far. *)
Record metadata := Metadata {
  kv_list : list bcd_kv; kv_length : Z; kv_count : Z;
  arg_list : list (list byte); arg_length : Z; arg_count : Z;
  reports : list bcd_report
}.

Definition no_metadata : metadata := Metadata [] 0 0 [] 0 0 [].

(** ** Operations *)

Definition bcd_error (event : bcd_event) (tid : Z) (message : string) (code : Z)
    (g : metadata) : Z * metadata :=
  (-1, Metadata (kv_list g) (kv_length g) (kv_count g) (arg_list g) (arg_length g) (arg_count g)
         (reports g ++ [Report event tid message code])).

(** [memchr(bs, 0, n)]: [Some None] is a null pointer, [None] a read behind [bs]. *)
Fixpoint memchr_nul (bs : list byte) (n : nat) : option (option nat) :=
  match n, bs with
  | O, _ => Some None
  | S _, [] => None
  | S n, b :: bs => if decide (b = NUL) then Some (Some O) else
      match memchr_nul bs n with
      | None => None
      | Some found => Some (S <$> found)
      end
  end.

(** The search of [LIST_FOREACH] for a key, and the list without what it found. *)
Fixpoint unlink_key (k : list byte) (l : list bcd_kv) : option (bcd_kv * list bcd_kv) :=
  match l with
  | [] => None
  | c :: l =>
      if decide (key c = k) then Some (c, l)
      else '(previous, l) ← unlink_key k l; Some (previous, c :: l)
  end.

Definition kv_remove (k : list byte) (g : metadata) : metadata :=
  match unlink_key k (kv_list g) with
  | None => g
  | Some (previous, l) =>
      Metadata l (u64 (kv_length g - (zlen (key previous) + zlen (value previous) + 1)))
        (u64 (kv_count g - 1)) (arg_list g) (arg_length g) (arg_count g) (reports g)
  end.

Definition kv_insert (k v : list byte) (g : metadata) : metadata :=
  Metadata (KV k v :: kv_list g) (u64 (kv_length g + (zlen k + zlen v + 1)))
    (u64 (kv_count g + 1)) (arg_list g) (arg_length g) (arg_count g) (reports g).

Definition kv_init (g : metadata) : metadata :=
  if decide (kv_count g = 0)
  then Metadata [] (kv_length g) (kv_count g) (arg_list g) (arg_length g) (arg_count g) (reports g)
  else g.

Definition malformed_kv (tid : Z) (g : metadata) : option (Z * metadata) :=
  Some (bcd_error BCD_EVENT_METADATA tid "malformed key-value pair" 0 g).

(** [malloc] is [Some errno] when the allocation fails. *)
Definition bcd_kv_set (malloc : option Z) (tid : Z) (p : bcd_packet) (g : metadata) :
    option (Z * metadata) :=
  first ← payload p !! O;
  if decide (first = NUL) then malformed_kv tid g else
  k_end ← memchr_nul (payload p) (Z.to_nat (packet_length p));
  match k_end with
  | None => malformed_kv tid g
  | Some k_l =>
      let k := take k_l (payload p) in
      let rest := drop (S k_l) (payload p) in
      v_end ← memchr_nul rest (Z.to_nat (u64 (packet_length p - Z.of_nat k_l - 1)));
      match v_end with
      | None => malformed_kv tid g
      | Some v_l =>
          if decide (packet_length p <= Z.of_nat k_l + 1) then malformed_kv tid g else
          match malloc with
          | Some errno =>
              Some (bcd_error BCD_EVENT_METADATA tid "internal memory allocation error" errno g)
          | None => Some (0, kv_insert k (take v_l rest) (kv_remove k (kv_init g)))
          end
      end
  end.

(** The strings a getter hands out, or the message of its error and the number of
    elements of the array it has touched; at the label [fail] what had been allocated is freed. *)
Inductive strings :=
| Strings (l : list (list byte))
| Failed (message : string) (touched : Z).

(** [LIST_FOREACH] up to [limit], a string per element; [alloc i] is whether the
    [i]-th [asprintf] succeeds. *)
Fixpoint each (limit : Z) (alloc : nat -> bool) (message : string) (i : nat)
    (l : list (list byte)) (done : list (list byte)) : strings :=
  match l with
  | [] => Strings done
  | s :: l =>
      if decide (Z.of_nat i = limit) then Strings done
      else if alloc i then each limit alloc message (S i) l (done ++ [s])
      else Failed message (Z.of_nat (S i))
  end.

(** The limit both getters compute. *)
Definition output_limit (n_output count : Z) : Z :=
  let limit := if decide (n_output > count) then count else n_output in
  if decide (limit > BCD_ARGC_LIMIT) then BCD_ARGC_LIMIT else limit.

(** Copy behind what is in the allocation already, which has room for [size] bytes. *)
Definition copy_behind (size : Z) (buf bs : list byte) : option (list byte) :=
  if decide (zlen buf + zlen bs <= size) then Some (buf ++ bs) else None.

Fixpoint single (size : Z) (s ks : byte) (l : list bcd_kv) (buf : list byte) :
    option (list byte) :=
  match l with
  | [] => copy_behind size buf [NUL]
  | c :: l =>
      buf ← copy_behind size buf (key c);
      buf ← copy_behind size buf [ks];
      buf ← copy_behind size buf (value c);
      buf ← match l with [] => Some buf | _ :: _ => copy_behind size buf [s] end;
      single size s ks l buf
  end.

(** [kp] is the prefix, [None] a null pointer; the string read back is the result up to
    its terminator. *)
Definition bcd_kv_get (alloc : nat -> bool) (n_output : Z) (s ks : byte)
    (kp : option (list byte)) (g : metadata) : option strings :=
  match kp with
  | None => Some (Strings [])
  | Some prefix =>
      if decide (kv_count g = 0) then Some (Strings []) else
      if decide (s = NUL) then
        Some (each (output_limit n_output (kv_count g)) alloc "failed to allocate key-value pair" 0
                ((fun c => c_str (prefix ++ key c ++ [ks] ++ value c)) <$> kv_list g) [])
      else if alloc O then
        let size := u64 (zlen prefix + kv_count g + kv_length g + 1) in
        buf ← copy_behind size [] prefix;
        buf ← single size s ks (kv_list g) buf;
        Some (Strings [c_str buf])
      else Some (Failed "failed to allocate single key-value pair list" 1)
  end.

Definition bcd_arg_get (alloc : nat -> bool) (n_output : Z) (g : metadata) : strings :=
  if decide (arg_count g = 0) then Strings []
  else each (output_limit n_output (arg_count g)) alloc "failed to allocate arg" 0 (arg_list g) [].

Fixpoint unlink_arg (a : list byte) (l : list (list byte)) : option (list byte * list (list byte)) :=
  match l with
  | [] => None
  | c :: l =>
      if decide (c = a) then Some (c, l)
      else '(previous, l) ← unlink_arg a l; Some (previous, c :: l)
  end.

Definition arg_remove (a : list byte) (g : metadata) : metadata :=
  if decide (arg_count g = 0) then
    (* TAILQ_INIT *)
    Metadata (kv_list g) (kv_length g) (kv_count g) [] (arg_length g) (arg_count g) (reports g)
  else
    match unlink_arg a (arg_list g) with
    | None => g
    | Some (cursor, l) =>
        Metadata (kv_list g) (kv_length g) (kv_count g) l
          (u64 (arg_length g - (zlen cursor + 1))) (u64 (arg_count g - 1)) (reports g)
    end.

Definition arg_insert (a : list byte) (g : metadata) : metadata :=
  Metadata (kv_list g) (kv_length g) (kv_count g) (arg_list g ++ [a])
    (u64 (arg_length g + (zlen a + 1))) (u64 (arg_count g + 1)) (reports g).

(** [strlen(packet->payload)]: [None] when the buffer has no terminator. *)
Definition payload_string (bs : list byte) : option (list byte) :=
  if decide (NUL ∈ bs) then Some (c_str bs) else None.

Definition bcd_arg_set (malloc : option Z) (tid : Z) (p : bcd_packet) (g : metadata) :
    option (Z * metadata) :=
  arg ← payload_string (payload p);
  if decide (arg = []) then
    Some (bcd_error BCD_EVENT_METADATA tid "malformed argument" 0 g)
  else
    match malloc with
    | Some errno =>
        Some (bcd_error BCD_EVENT_METADATA tid "internal memory allocation error" errno g)
    | None => Some (0, arg_insert arg (arg_remove arg g))
    end.

(** ** Well-formed metadata *)

#[export] Instance bcd_kv_eq_dec : EqDecision bcd_kv.
Proof. solve_decision. Defined.
#[export] Instance bcd_event_eq_dec : EqDecision bcd_event.
Proof. solve_decision. Defined.
#[export] Instance bcd_report_eq_dec : EqDecision bcd_report.
Proof. solve_decision. Defined.
#[export] Instance metadata_eq_dec : EqDecision metadata.
Proof. solve_decision. Defined.
#[export] Instance strings_eq_dec : EqDecision strings.
Proof. solve_decision. Defined.

Definition c_string (s : list byte) : Prop := no_nul s /\ s <> [].
Definition kv_ok (c : bcd_kv) : Prop := c_string (key c) /\ no_nul (value c).

(** What the counters of the code count: a string, its partner and one byte each. *)
Fixpoint kv_bytes (l : list bcd_kv) : Z :=
  match l with [] => 0 | c :: l => zlen (key c) + zlen (value c) + 1 + kv_bytes l end.
Fixpoint arg_bytes (l : list (list byte)) : Z :=
  match l with [] => 0 | a :: l => zlen a + 1 + arg_bytes l end.

Record wf (g : metadata) : Prop := {
  wf_keys : NoDup (key <$> kv_list g);
  wf_kvs : Forall kv_ok (kv_list g);
  wf_kv_count : kv_count g = zlen (kv_list g);
  wf_kv_length : kv_length g = kv_bytes (kv_list g);
  wf_args : NoDup (arg_list g);
  wf_arg_strings : Forall c_string (arg_list g);
  wf_arg_count : arg_count g = zlen (arg_list g);
  wf_arg_length : arg_length g = arg_bytes (arg_list g)
}.

(** The lists take less than half the address space, so the counters do not wrap. *)
Definition room (g : metadata) : Prop :=
  2 * kv_bytes (kv_list g) + 2 ^ 33 < 2 ^ 64 /\ arg_bytes (arg_list g) + 2 ^ 33 < 2 ^ 64.

Definition packet_ok (p : bcd_packet) : Prop :=
  zlen (payload p) = BCD_PACKET_LIMIT /\ 0 <= packet_length p <= BCD_PACKET_LIMIT.

(** The packet of the pair [(k, v)]: two terminated strings inside its length. *)
Definition kv_payload (p : bcd_packet) (k v : list byte) : Prop :=
  c_string k /\ no_nul v /\ zlen k + zlen v + 2 <= packet_length p /\
  exists rest, payload p = k ++ NUL :: v ++ NUL :: rest.

(** *** The lists *)

Lemma kv_bytes_nonneg l : zlen l <= kv_bytes l.
Proof.
  induction l as [|c l IH]; [done|]. simpl. rewrite zlen_cons.
  pose proof (zlen_nonneg (key c)). pose proof (zlen_nonneg (value c)). lia.
Qed.
Lemma arg_bytes_nonneg l : zlen l <= arg_bytes l.
Proof.
  induction l as [|a l IH]; [done|]. simpl. rewrite zlen_cons. pose proof (zlen_nonneg a). lia.
Qed.
Lemma kv_bytes_app l k : kv_bytes (l ++ k) = kv_bytes l + kv_bytes k.
Proof. induction l as [|c l IH]; simpl; lia. Qed.
Lemma arg_bytes_app l k : arg_bytes (l ++ k) = arg_bytes l + arg_bytes k.
Proof. induction l as [|c l IH]; simpl; lia. Qed.

Lemma memchr_nul_spec bs n :
  (n <= length bs)%nat ->
  exists r, memchr_nul bs n = Some r /\
    match r with
    | Some k => (k < n)%nat /\ no_nul (take k bs) /\ bs !! k = Some NUL
    | None => no_nul (take n bs)
    end.
Proof.
  revert n. induction bs as [|b bs IH]; intros [|n] Hn; simpl in *; try lia;
    try (eexists; split; [done | constructor]).
  case_decide as Hb.
  { exists (Some O). split; [done|]. subst. split_and!; [lia | constructor | done]. }
  destruct (IH n ltac:(lia)) as (r & -> & Hr). exists (S <$> r). split; [done|].
  destruct r as [k|]; simpl.
  - destruct Hr as (? & ? & ?). split_and!; [lia | by constructor | done].
  - by constructor.
Qed.

Lemma memchr_nul_at s rest n :
  no_nul s -> (length s < n)%nat -> memchr_nul (s ++ NUL :: rest) n = Some (Some (length s)).
Proof.
  revert n. induction s as [|b s IH]; intros n Hs Hn; destruct n as [|n]; simpl in *; try lia.
  - done.
  - inversion Hs; subst. rewrite decide_False by done. rewrite IH by (done || lia). done.
Qed.

Lemma unlink_key_spec k l :
  NoDup (key <$> l) ->
  match unlink_key k l with
  | None => (k ∉ (key <$> l)) /\ filter (fun c => key c <> k) l = l
  | Some (c, l') =>
      key c = k /\ l' = filter (fun c => key c <> k) l /\
      zlen l' = zlen l - 1 /\ kv_bytes l' = kv_bytes l - (zlen (key c) + zlen (value c) + 1)
  end.
Proof.
  induction l as [|c l IH]; intros Hd; simpl; [split; [apply not_elem_of_nil | done]|].
  apply NoDup_cons in Hd as [Hc Hd]. specialize (IH Hd).
  destruct (decide (key c = k)) as [Hk|Hk].
  - rewrite filter_cons_False by tauto. split_and!; [done | | zlia | lia].
    destruct (unlink_key k l) as [[c' l']|] eqn:E; [|by destruct IH].
    destruct IH as (Hk' & _ & _ & _). exfalso. apply Hc.
    assert (c' ∈ l) as Hin.
    { clear -E. revert l' E. induction l as [|d l IH]; intros l' E; simpl in E; [done|].
      case_decide; [simplify_eq; by left|].
      destruct (unlink_key k l) as [[c'' l'']|]; [|done]. simpl in E. simplify_eq. right. eauto. }
    apply list_elem_of_fmap. exists c'. split; [congruence | done].
  - rewrite filter_cons_True by done. destruct (unlink_key k l) as [[c' l']|]; simpl.
    + destruct IH as (? & -> & ? & ?). split_and!; [done | done | zlia | lia].
    + destruct IH as (Hn & ->). split; [|done]. intros [->|?]%elem_of_cons; [done|done].
Qed.

Lemma unlink_arg_spec a l :
  NoDup l ->
  match unlink_arg a l with
  | None => (a ∉ l) /\ filter (fun c => c <> a) l = l
  | Some (c, l') =>
      c = a /\ l' = filter (fun c => c <> a) l /\
      zlen l' = zlen l - 1 /\ arg_bytes l' = arg_bytes l - (zlen c + 1)
  end.
Proof.
  induction l as [|c l IH]; intros Hd; simpl; [split; [apply not_elem_of_nil | done]|].
  apply NoDup_cons in Hd as [Hc Hd]. specialize (IH Hd).
  destruct (decide (c = a)) as [->|Hk].
  - rewrite filter_cons_False by tauto. split_and!; [done | | zlia | lia].
    destruct (unlink_arg a l) as [[c' l']|] eqn:E; [|by destruct IH].
    destruct IH as (-> & _ & _ & _). exfalso. apply Hc.
    clear -E. revert l' E. induction l as [|d l IH]; intros l' E; simpl in E; [done|].
    case_decide; [simplify_eq; by left|].
    destruct (unlink_arg a l) as [[c'' l'']|]; [|done]. simpl in E. simplify_eq. right. eauto.
  - rewrite filter_cons_True by done. destruct (unlink_arg a l) as [[c' l']|]; simpl.
    + destruct IH as (? & -> & ? & ?). split_and!; [done | done | zlia | lia].
    + destruct IH as (Hn & ->). split; [|done]. intros [->|?]%elem_of_cons; done.
Qed.

Lemma filtered_keys k l :
  NoDup (key <$> l) ->
  NoDup (key <$> filter (fun c => key c <> k) l) /\
  (k ∉ (key <$> filter (fun c => key c <> k) l)).
Proof.
  intros Hd. split.
  - induction l as [|c l IH]; [constructor|]. simpl in Hd. apply NoDup_cons in Hd as [Hc Hd].
    destruct (decide (key c = k)).
    + rewrite filter_cons_False by tauto. auto.
    + rewrite filter_cons_True by done. simpl. apply NoDup_cons. split; [|by auto].
      intros (d & Hk & Hin)%list_elem_of_fmap. apply Hc. apply list_elem_of_filter in Hin as [_ Hin].
      apply list_elem_of_fmap. eauto.
  - intros (d & -> & Hin)%list_elem_of_fmap. apply list_elem_of_filter in Hin as [Hn _]. done.
Qed.

Lemma Forall_kept {A} (P Q : A -> Prop) `{!forall x, Decision (Q x)} l :
  Forall P l -> Forall P (filter Q l).
Proof. rewrite !Forall_forall. intros HP x [_ Hx]%list_elem_of_filter. auto. Qed.

Lemma c_str_app s rest : no_nul s -> c_str (s ++ NUL :: rest) = s.
Proof.
  intros Hs. induction Hs as [|b s Hb Hs IH]; simpl; [done|].
  rewrite decide_False by done. by f_equal.
Qed.
Lemma c_str_no_nul s : no_nul s -> c_str s = s.
Proof.
  intros Hs. induction Hs as [|b s Hb Hs IH]; simpl; [done|].
  rewrite decide_False by done. by f_equal.
Qed.

(** *** Setting *)

Lemma kv_payload_unique p k v k' v' : kv_payload p k v -> kv_payload p k' v' -> k = k' /\ v = v'.
Proof.
  intros ((Hk & _) & Hv & _ & r & E) ((Hk' & _) & Hv' & _ & r' & E'). rewrite E in E'.
  pose proof (f_equal c_str E') as Hkk. rewrite !c_str_app in Hkk by done. subst k'.
  split; [done|]. apply app_inv_head in E'. simplify_eq.
  pose proof (f_equal c_str E') as Hvv. by rewrite !c_str_app in Hvv.
Qed.

(** The guards of [bcd_kv_set] hold exactly for the packet of a pair. *)
Lemma kv_set_payload malloc tid p g k v :
  packet_ok p -> kv_payload p k v ->
  bcd_kv_set malloc tid p g =
    match malloc with
    | Some errno =>
        Some (bcd_error BCD_EVENT_METADATA tid "internal memory allocation error" errno g)
    | None => Some (0, kv_insert k v (kv_remove k (kv_init g)))
    end.
Proof.
  intros (Hl & Hlen) ((Hk & Hne) & Hv & Hfit & rest & E). unfold bcd_kv_set.
  destruct k as [|b k']; [done|]. set (k := b :: k') in *.
  assert (Hb : b <> NUL) by (inversion Hk; done).
  rewrite E. replace ((k ++ NUL :: v ++ NUL :: rest) !! 0%nat) with (Some b) by done.
  bind_simpl. rewrite decide_False by done.
  pose proof (zlen_nonneg v). unfold zlen in *.
  rewrite memchr_nul_at by (done || lia). bind_simpl.
  rewrite take_app_length.
  replace (drop (S (length k)) (k ++ NUL :: v ++ NUL :: rest)) with (v ++ NUL :: rest)
    by (rewrite <- Nat.add_1_r, <- drop_drop, drop_app_length; done).
  rewrite u64_small by (unfold BCD_PACKET_LIMIT in *; lia).
  rewrite memchr_nul_at by (done || lia). bind_simpl.
  rewrite decide_False by lia. by rewrite take_app_length.
Qed.

Lemma kv_set_cases p :
  packet_ok p ->
  (exists k v, kv_payload p k v) \/
  (forall malloc tid g, bcd_kv_set malloc tid p g = malformed_kv tid g).
Proof.
  intros (Hl & Hlen). unfold bcd_kv_set. unfold zlen, BCD_PACKET_LIMIT in *.
  destruct (payload p) as [|b bs] eqn:Ep; [simpl in Hl; lia|]. rewrite <- Ep in *.
  replace (payload p !! 0%nat) with (Some b) by (by rewrite Ep). bind_simpl.
  case_decide as Hb; [by right|].
  destruct (memchr_nul_spec (payload p) (Z.to_nat (packet_length p)) ltac:(lia)) as (r & -> & Hr).
  bind_simpl. destruct r as [k|]; [|by right]. destruct Hr as (Hkl & Hk & Hnul).
  rewrite u64_small by lia.
  set (rest := drop (S k) (payload p)).
  assert (Hrest : length rest = (length (payload p) - S k)%nat) by apply length_drop.
  destruct (memchr_nul_spec rest (Z.to_nat (packet_length p - Z.of_nat k - 1)) ltac:(lia))
    as (r & -> & Hr).
  bind_simpl. destruct r as [v|]; [|by right]. destruct Hr as (Hvl & Hv & Hvnul).
  left. exists (take k (payload p)), (take v rest).
  assert (length (take k (payload p)) = k) as Hk' by (rewrite length_take; lia).
  assert (length (take v rest) = v) as Hv' by (rewrite length_take; lia).
  split_and!.
  - split; [done|]. rewrite Ep in *. destruct k; [simpl in Hnul; congruence | done].
  - done.
  - unfold zlen. lia.
  - exists (drop (S v) rest). rewrite <- (take_drop_middle _ _ _ Hnul) at 1. fold rest.
    f_equal. f_equal. symmetry. exact (take_drop_middle _ _ _ Hvnul).
Qed.

Lemma kv_set_malformed p :
  packet_ok p ->
  (exists k v, kv_payload p k v) \/
  (~ exists k v, kv_payload p k v) /\
  (forall malloc tid g, bcd_kv_set malloc tid p g = malformed_kv tid g).
Proof.
  intros Hp. destruct (kv_set_cases p Hp) as [|Hm]; [by left|]. right. split; [|done].
  intros (k & v & Hkv). specialize (Hm None 0 no_metadata).
  rewrite (kv_set_payload _ _ _ _ k v) in Hm by done. done.
Qed.

Lemma kv_remove_spec k g :
  wf g -> room g ->
  let g' := kv_remove k (kv_init g) in
  wf g' /\ kv_list g' = filter (fun c => key c <> k) (kv_list g) /\
  kv_bytes (kv_list g') <= kv_bytes (kv_list g) /\
  arg_list g' = arg_list g /\ reports g' = reports g.
Proof.
  intros W (Hr & _). pose proof (kv_bytes_nonneg (kv_list g)) as Hnn.
  pose proof (zlen_nonneg (kv_list g)).
  assert (kv_init g = g) as ->.
  { unfold kv_init. case_decide as Hc; [|done]. rewrite (wf_kv_count _ W) in Hc.
    destruct g as [[|c l] ? ? ? ? ? ?]; [done|]. simpl in *. zlia. }
  pose proof (unlink_key_spec k (kv_list g) (wf_keys _ W)) as Hu. unfold kv_remove.
  pose proof (filtered_keys k _ (wf_keys _ W)) as [Hd _].
  destruct (unlink_key k (kv_list g)) as [[c l']|].
  - destruct Hu as (Hc & -> & Hz & Hb). simpl.
    pose proof (zlen_nonneg (key c)). pose proof (zlen_nonneg (value c)).
    pose proof (kv_bytes_nonneg (filter (fun c => key c <> k) (kv_list g))).
    pose proof (zlen_nonneg (filter (fun c => key c <> k) (kv_list g))).
    split_and!; [|done|lia|done|done]. destruct W. split; simpl; try done.
    + by apply Forall_kept.
    + rewrite wf_kv_count0, u64_small; lia.
    + rewrite wf_kv_length0, u64_small; lia.
  - destruct Hu as [_ ->]. split_and!; done || lia.
Qed.

Lemma kv_insert_spec k v g :
  wf g -> kv_bytes (kv_list g) + zlen k + zlen v + 1 < 2 ^ 64 ->
  c_string k -> no_nul v -> (k ∉ (key <$> kv_list g)) -> wf (kv_insert k v g).
Proof.
  intros W Hr Hk Hv Hnew. pose proof (kv_bytes_nonneg (kv_list g)).
  pose proof (zlen_nonneg (kv_list g)). pose proof (zlen_nonneg k). pose proof (zlen_nonneg v).
  destruct W. split; simpl; try done.
  - by apply NoDup_cons.
  - by constructor.
  - rewrite wf_kv_count0, u64_small, zlen_cons; lia.
  - rewrite wf_kv_length0, u64_small; lia.
Qed.

Lemma kv_set_inserts tid p g k v :
  wf g -> room g -> packet_ok p -> kv_payload p k v ->
  exists g', bcd_kv_set None tid p g = Some (0, g') /\ wf g' /\
    kv_list g' = KV k v :: filter (fun c => key c <> k) (kv_list g) /\
    arg_list g' = arg_list g /\ reports g' = reports g.
Proof.
  intros W R Hp Hkv. rewrite (kv_set_payload _ _ _ _ k v) by done.
  destruct (kv_remove_spec k g W R) as (W' & Hl & Hb & Ha & Hrep).
  eexists. split_and!; [done | | simpl; by rewrite Hl | done | done].
  destruct Hkv as (Hk & Hv & Hfit & _), Hp as (_ & Hlen), R as (R & _).
  unfold BCD_PACKET_LIMIT in *. apply kv_insert_spec; [done | lia | done | done |].
  rewrite Hl. apply filtered_keys, W.
Qed.

(** C29: [bcd_kv_set] on every branch. A packet that carries a pair [(k, v)] puts the pair at
    the head of the list, in place of the pair of the same key if there is one; every
    other packet, and a failing allocation, is reported to the error handler and changes
    nothing. The packet determines the pair, and the counters and the uniqueness of
    the keys are kept. *)
Theorem kv_set_spec malloc tid p g :
  wf g -> room g -> packet_ok p ->
  exists r g', bcd_kv_set malloc tid p g = Some (r, g') /\ wf g' /\ arg_list g' = arg_list g /\
    match malloc with
    | Some errno =>
        r = -1 /\ kv_list g' = kv_list g /\
        exists message code, reports g' = reports g ++ [Report BCD_EVENT_METADATA tid message code]
    | None =>
        (forall k v, kv_payload p k v ->
           r = 0 /\ reports g' = reports g /\
           kv_list g' = KV k v :: filter (fun c => key c <> k) (kv_list g)) /\
        ((~ exists k v, kv_payload p k v) ->
           r = -1 /\ kv_list g' = kv_list g /\
           reports g' =
             reports g ++ [Report BCD_EVENT_METADATA tid "malformed key-value pair" 0])
    end.
Proof.
  intros W R Hp.
  assert (wf_error : forall message code, wf (bcd_error BCD_EVENT_METADATA tid message code g).2)
    by (intros; destruct W; split; done).
  destruct (kv_set_malformed p Hp) as [(k & v & Hkv)|(Hno & Hm)].
  - destruct malloc as [errno|].
    { rewrite (kv_set_payload _ _ _ _ k v) by done.
      do 2 eexists. split_and!; [done | apply wf_error | done | done | done | by do 2 eexists]. }
    destruct (kv_set_inserts tid p g k v W R Hp Hkv) as (g' & -> & W' & Hl & Ha & Hrep).
    do 2 eexists. split_and!; [done | done | done | |].
    + intros k' v' Hkv'. by destruct (kv_payload_unique _ _ _ _ _ Hkv Hkv') as [-> ->].
    + intros []. eauto.
  - rewrite Hm. do 2 eexists. split_and!; [done | apply wf_error | done |].
    destruct malloc; [split_and!; [done | done | by do 2 eexists]|].
    split; [intros k v ?; exfalso; eauto | done].
Qed.

(** *** Getting *)

Definition kv_string (prefix : list byte) (ks : byte) (c : bcd_kv) : list byte :=
  prefix ++ key c ++ [ks] ++ value c.

(** The pairs joined by the separator [s]. *)
Fixpoint kv_text (s ks : byte) (l : list bcd_kv) : list byte :=
  match l with
  | [] => []
  | [c] => key c ++ [ks] ++ value c
  | c :: l => key c ++ [ks] ++ value c ++ [s] ++ kv_text s ks l
  end.

Lemma copy_behind_fits size buf bs :
  zlen buf + zlen bs <= size -> copy_behind size buf bs = Some (buf ++ bs).
Proof. intros. unfold copy_behind. by rewrite decide_True. Qed.

Lemma each_spec limit alloc message i l done :
  Z.of_nat i <= limit ->
  each limit alloc message i l done = Strings (done ++ take (Z.to_nat (limit - Z.of_nat i)) l) \/
  exists j touched, alloc j = false /\
    each limit alloc message i l done = Failed message touched.
Proof.
  revert i done. induction l as [|s l IH]; intros i done Hi; simpl.
  { left. by rewrite take_nil, app_nil_r. }
  case_decide as Hl.
  { left. rewrite Hl, Z.sub_diag. simpl. by rewrite app_nil_r. }
  destruct (alloc i) eqn:E; [|right; eauto].
  destruct (IH (S i) (done ++ [s]) ltac:(lia)) as [-> | ?]; [|by right]. left.
  replace (Z.to_nat (limit - Z.of_nat i)) with (S (Z.to_nat (limit - Z.of_nat (S i)))) by lia.
  simpl. by rewrite <- app_assoc.
Qed.

Lemma single_spec size s ks l buf :
  l <> [] -> zlen buf + kv_bytes l + zlen l <= size ->
  single size s ks l buf = Some (buf ++ kv_text s ks l ++ [NUL]).
Proof.
  revert buf. induction l as [|c l IH]; intros buf Hne Hfit; [done|].
  cbn [kv_bytes] in Hfit. rewrite zlen_cons in Hfit.
  pose proof (kv_bytes_nonneg l). pose proof (zlen_nonneg l).
  cbn [single]. rewrite !copy_behind_fits by zlia. bind_simpl.
  rewrite !copy_behind_fits by zlia. bind_simpl.
  rewrite !copy_behind_fits by zlia. bind_simpl.
  destruct l as [|d l].
  - cbn [single kv_text]. bind_simpl. cbn [kv_bytes] in Hfit. rewrite copy_behind_fits by zlia. by rewrite <- !app_assoc.
  - rewrite copy_behind_fits by zlia. bind_simpl. rewrite IH by (done || zlia).
    cbn [kv_text]. by rewrite <- !app_assoc.
Qed.

Lemma no_nul_app s t : no_nul (s ++ t) <-> no_nul s /\ no_nul t.
Proof. apply Forall_app. Qed.

Lemma no_nul_kv_text s ks l :
  s <> NUL -> ks <> NUL -> Forall kv_ok l -> no_nul (kv_text s ks l).
Proof.
  intros Hs Hks. induction 1 as [|c l [[Hk _] Hv] Hl IH]; [constructor|].
  destruct l; cbn [kv_text]; rewrite !no_nul_app; split_and!; try done;
    by apply Forall_singleton.
Qed.

(** What [bcd_kv_get] means to hand out. *)
Definition kv_strings (n_output : Z) (s ks : byte) (prefix : list byte) (l : list bcd_kv) :
    list (list byte) :=
  if decide (s = NUL) then
    take (Z.to_nat (Z.min n_output BCD_ARGC_LIMIT)) (kv_string prefix ks <$> l)
  else match l with [] => [] | _ => [prefix ++ kv_text s ks l] end.

Lemma take_limit {A} n_output count (l : list A) :
  0 <= n_output -> count = zlen l ->
  take (Z.to_nat (output_limit n_output count)) l = take (Z.to_nat (Z.min n_output BCD_ARGC_LIMIT)) l.
Proof.
  intros Hn ->. unfold output_limit, BCD_ARGC_LIMIT, zlen.
  destruct (decide (n_output > _)) as [Hc|Hc]; case_decide.
  - by rewrite Z.min_r by lia.
  - rewrite !take_ge; done || lia.
  - by rewrite Z.min_r by lia.
  - by rewrite Z.min_l by lia.
Qed.

Lemma output_limit_nonneg n_output count :
  0 <= n_output -> 0 <= count -> 0 <= output_limit n_output count.
Proof. intros. unfold output_limit, BCD_ARGC_LIMIT. repeat case_decide; lia. Qed.

Lemma kv_get_result alloc n_output s ks prefix g :
  wf g -> room g -> 0 <= n_output -> no_nul prefix -> zlen prefix < 2 ^ 32 -> ks <> NUL ->
  bcd_kv_get alloc n_output s ks (Some prefix) g =
    Some (Strings (kv_strings n_output s ks prefix (kv_list g))) \/
  exists j message touched, alloc j = false /\
    bcd_kv_get alloc n_output s ks (Some prefix) g = Some (Failed message touched).
Proof.
  intros W [R _] Hn Hp Hpl Hks. unfold bcd_kv_get, kv_strings.
  pose proof (wf_kvs _ W) as Hok. pose proof (zlen_nonneg (kv_list g)).
  pose proof (zlen_nonneg prefix). pose proof (kv_bytes_nonneg (kv_list g)).
  rewrite (wf_kv_count _ W), (wf_kv_length _ W). case_decide as Hz.
  { left. apply zlen_0 in Hz. rewrite Hz. case_decide; [|done]. by rewrite fmap_nil, take_nil. }
  case_decide as Hs.
  - match goal with |- context [each ?L ?A ?M 0 ?l []] => 
      destruct (each_spec L A M 0 l []) as [-> | (j & touched & Hj & ->)] end;
      [by apply output_limit_nonneg | left | right; eauto].
    rewrite Z.sub_0_r, take_limit by (done || by unfold zlen; rewrite length_fmap).
    rewrite app_nil_l. do 3 f_equal. apply list_fmap_ext. intros i c Hc. apply c_str_no_nul.
    apply (Forall_lookup_1 _ _ _ _ Hok) in Hc as [[Hk _] Hv].
    unfold kv_string. rewrite !no_nul_app. split_and!; try done. by apply Forall_singleton.
  - destruct (alloc 0%nat) eqn:E; [left | right; by do 3 eexists].
    rewrite copy_behind_fits by (rewrite u64_small; zlia). bind_simpl.
    assert (kv_list g <> []) as Hne by (intros E'; by rewrite E' in Hz).
    rewrite single_spec by (done || rewrite u64_small; zlia). bind_simpl.
    destruct (kv_list g) as [|c l] eqn:El; [done|]. rewrite <- El in *.
    rewrite app_nil_l, app_assoc, c_str_app; [done|].
    rewrite no_nul_app. split; [done|]. by apply no_nul_kv_text.
Qed.

(** C30: [bcd_kv_get] never writes behind the string it allocates. Without a separator it
    hands out one string per pair, newest first, as many as the array and the limit of 32
    allow; with a separator one string holding all pairs, joined. It fails only when an
    allocation does. Without a prefix there is nothing to hand out. *)
Theorem kv_get_spec alloc n_output s ks prefix g :
  wf g -> room g -> 0 <= n_output -> no_nul prefix -> zlen prefix < 2 ^ 32 -> ks <> NUL ->
  bcd_kv_get alloc n_output s ks None g = Some (Strings []) /\
  (bcd_kv_get alloc n_output s ks (Some prefix) g =
    Some (Strings (kv_strings n_output s ks prefix (kv_list g))) \/
  exists j message touched, alloc j = false /\
    bcd_kv_get alloc n_output s ks (Some prefix) g = Some (Failed message touched)).
Proof. intros. split; [done | by apply kv_get_result]. Qed.

Lemma arg_get_spec alloc n_output g :
  wf g -> 0 <= n_output ->
  bcd_arg_get alloc n_output g =
    Strings (take (Z.to_nat (Z.min n_output BCD_ARGC_LIMIT)) (arg_list g)) \/
  exists j touched, alloc j = false /\
    bcd_arg_get alloc n_output g = Failed "failed to allocate arg" touched.
Proof.
  intros W Hn. unfold bcd_arg_get. rewrite (wf_arg_count _ W).
  pose proof (zlen_nonneg (arg_list g)). case_decide as Hz.
  { left. apply zlen_0 in Hz. by rewrite Hz, take_nil. }
  match goal with |- context [each ?L ?A ?M 0 ?l []] =>
    destruct (each_spec L A M 0 l []) as [-> | (j & touched & Hj & ->)] end;
    [by apply output_limit_nonneg | left | right; eauto].
  by rewrite Z.sub_0_r, take_limit.
Qed.

Lemma arg_remove_spec a g :
  wf g -> room g ->
  let g' := arg_remove a g in
  wf g' /\ arg_list g' = filter (fun c => c <> a) (arg_list g) /\
  arg_bytes (arg_list g') <= arg_bytes (arg_list g) /\
  kv_list g' = kv_list g /\ reports g' = reports g.
Proof.
  intros W (_ & Hr). pose proof (arg_bytes_nonneg (arg_list g)).
  pose proof (zlen_nonneg (arg_list g)). unfold arg_remove. case_decide as Hc.
  { rewrite (wf_arg_count _ W) in Hc. apply zlen_0 in Hc. rewrite Hc. simpl.
    split_and!; try done. destruct W. rewrite Hc in *. by split. }
  pose proof (unlink_arg_spec a (arg_list g) (wf_args _ W)) as Hu.
  destruct (unlink_arg a (arg_list g)) as [[c l']|].
  - destruct Hu as (-> & -> & Hz & Hb). simpl. pose proof (zlen_nonneg a).
    pose proof (arg_bytes_nonneg (filter (fun c => c <> a) (arg_list g))).
    pose proof (zlen_nonneg (filter (fun c => c <> a) (arg_list g))).
    split_and!; [|done|lia|done|done]. destruct W. split; simpl; try done.
    + by apply NoDup_filter.
    + by apply Forall_kept.
    + rewrite wf_arg_count0, u64_small; lia.
    + rewrite wf_arg_length0, u64_small; lia.
  - destruct Hu as [_ ->]. split_and!; done || lia.
Qed.

Lemma arg_insert_spec a g :
  wf g -> arg_bytes (arg_list g) + zlen a + 1 < 2 ^ 64 ->
  c_string a -> (a ∉ arg_list g) -> wf (arg_insert a g).
Proof.
  intros W Hr Ha Hnew. pose proof (arg_bytes_nonneg (arg_list g)).
  pose proof (zlen_nonneg (arg_list g)). pose proof (zlen_nonneg a).
  destruct W. split; simpl; try done.
  - apply NoDup_app. split_and!; [done | | apply NoDup_singleton].
    intros x Hx ->%list_elem_of_singleton. done.
  - apply Forall_app. split; [done | by apply Forall_singleton].
  - rewrite wf_arg_count0, u64_small, zlen_app, zlen_cons, zlen_nil; lia.
  - rewrite wf_arg_length0, arg_bytes_app, u64_small; simpl; lia.
Qed.

Lemma c_str_nul_free bs : no_nul (c_str bs).
Proof.
  induction bs as [|b bs IH]; [constructor|]. simpl. case_decide; [constructor | by constructor].
Qed.

Lemma c_str_length bs : (length (c_str bs) <= length bs)%nat.
Proof. induction bs as [|b bs IH]; simpl; [lia|]. case_decide; simpl; lia. Qed.

(** [bcd_arg_set] on every branch. The argument of the packet becomes the last one of the
    list and appears once; the empty argument and a failing allocation are reported and
    change nothing. The length of the packet is not looked at: a payload without a
    terminator is read behind its end, which is undefined. *)
Theorem arg_set_spec malloc tid p g :
  wf g -> room g -> packet_ok p ->
  (~ NUL ∈ payload p -> bcd_arg_set malloc tid p g = None) /\
  (NUL ∈ payload p ->
   exists r g', bcd_arg_set malloc tid p g = Some (r, g') /\ wf g' /\ kv_list g' = kv_list g /\
     let a := c_str (payload p) in
     if decide (a <> [] /\ malloc = None) then
       r = 0 /\ reports g' = reports g /\
       arg_list g' = filter (fun c => c <> a) (arg_list g) ++ [a]
     else
       r = -1 /\ arg_list g' = arg_list g /\
       exists message code,
         reports g' = reports g ++ [Report BCD_EVENT_METADATA tid message code]).
Proof.
  intros W R (Hl & Hlen).
  assert (wf_error : forall message code, wf (bcd_error BCD_EVENT_METADATA tid message code g).2)
    by (intros; destruct W; split; done).
  unfold bcd_arg_set, payload_string. split; intros Hn.
  { by rewrite decide_False. }
  rewrite decide_True by done. bind_simpl. set (a := c_str (payload p)). cbn [mbind].
  case_decide as Ha.
  { do 2 eexists. split_and!; [done | apply wf_error | done |]. rewrite decide_False by tauto.
    split_and!; [done | done | by do 2 eexists]. }
  destruct malloc as [errno|].
  { do 2 eexists. split_and!; [done | apply wf_error | done |]. rewrite decide_False by naive_solver.
    split_and!; [done | done | by do 2 eexists]. }
  destruct (arg_remove_spec a g W R) as (W' & Hla & Hb & Hk & Hrep).
  do 2 eexists. split_and!; [done | | done |].
  2: { rewrite decide_True by done. split_and!; [done | done | simpl; by rewrite Hla]. }
  destruct R as (_ & R). unfold BCD_PACKET_LIMIT, zlen in *.
  pose proof (c_str_length (payload p)). fold a in H.
  apply arg_insert_spec; [done | unfold zlen; lia | split; [apply c_str_nul_free | done] |].
  rewrite Hla. intros [Hx _]%list_elem_of_filter. done.
Qed.

(** ** Witnesses *)

#[export] Instance c_string_dec s : Decision (c_string s).
Proof. unfold c_string. apply _. Defined.
#[export] Instance kv_ok_dec c : Decision (kv_ok c).
Proof. unfold kv_ok. apply _. Defined.
#[export] Instance room_dec g : Decision (room g).
Proof. unfold room. apply _. Defined.
#[export] Instance packet_ok_dec p : Decision (packet_ok p).
Proof. unfold packet_ok. apply _. Defined.
#[export] Instance wf_dec g : Decision (wf g).
Proof.
  refine (cast_if (decide
    (NoDup (key <$> kv_list g) /\ Forall kv_ok (kv_list g) /\ kv_count g = zlen (kv_list g) /\
     kv_length g = kv_bytes (kv_list g) /\ NoDup (arg_list g) /\ Forall c_string (arg_list g) /\
     arg_count g = zlen (arg_list g) /\ arg_length g = arg_bytes (arg_list g))));
    first [destruct_and?; by split | intros []; naive_solver].
Defined.

(** A monitor that knows two pairs and two arguments. *)
Definition sample_metadata : metadata :=
  Metadata [KV (bytes_of "a") (bytes_of "1"); KV (bytes_of "b") (bytes_of "")] 5 2
    [bytes_of "-x"; bytes_of "-y"] 6 2 [].

Definition sample_packet (op : Z) (content : list byte) : bcd_packet :=
  Packet op (zlen content) (content ++ replicate (1024 - length content) NUL).

Definition sample_pair : bcd_packet :=
  sample_packet 3 (bytes_of "b" ++ [NUL] ++ bytes_of "22" ++ [NUL]).

Lemma kv_set_spec_witness :
  wf sample_metadata /\ room sample_metadata /\ packet_ok sample_pair /\
  exists g', bcd_kv_set None 7 sample_pair sample_metadata = Some (0, g') /\
    kv_list g' = [KV (bytes_of "b") (bytes_of "22"); KV (bytes_of "a") (bytes_of "1")].
Proof.
  assert (wf sample_metadata) as W by by_compute.
  assert (room sample_metadata) as R by by_compute.
  assert (packet_ok sample_pair) as P by by_compute.
  split_and!; [exact W | exact R | exact P |].
  destruct (kv_set_spec None 7 sample_pair sample_metadata W R P) as (r & g' & E & _ & _ & Hs & _).
  destruct (Hs (bytes_of "b") (bytes_of "22")) as (-> & _ & Hl).
  { split_and!; [by_compute | by_compute | by_compute |].
    exists (replicate 1019 NUL). reflexivity. }
  exists g'. split; [exact E | rewrite Hl; reflexivity].
Defined.

Lemma kv_get_spec_witness :
  wf sample_metadata /\ room sample_metadata /\
  bcd_kv_get (fun _ => true) 20 Init.Byte.x2c Init.Byte.x3d (Some (bytes_of "--kv=")) sample_metadata =
    Some (Strings [bytes_of "--kv=a=1,b="]).
Proof.
  assert (wf sample_metadata) as W by by_compute.
  assert (room sample_metadata) as R by by_compute.
  split_and!; [exact W | exact R |].
  destruct (kv_get_spec (fun _ => true) 20 Init.Byte.x2c Init.Byte.x3d (bytes_of "--kv=") sample_metadata W R)
    as [_ [-> | (j & _ & _ & Hj & _)]];
    [by_compute | by_compute | by_compute | by_compute | reflexivity | discriminate Hj].
Defined.

Definition sample_arg : bcd_packet := sample_packet 8 (bytes_of "-x" ++ [NUL]).

Lemma arg_set_spec_witness :
  wf sample_metadata /\ room sample_metadata /\ packet_ok sample_arg /\
  exists g', bcd_arg_set None 7 sample_arg sample_metadata = Some (0, g') /\
    arg_list g' = [bytes_of "-y"; bytes_of "-x"].
Proof.
  assert (wf sample_metadata) as W by by_compute.
  assert (room sample_metadata) as R by by_compute.
  assert (packet_ok sample_arg) as P by by_compute.
  split_and!; [exact W | exact R | exact P |].
  destruct (arg_set_spec None 7 sample_arg sample_metadata W R P) as (_ & Hs).
  destruct Hs as (r & g' & E & _ & _ & Hs); [by_compute|].
  cbv zeta in Hs. rewrite decide_True in Hs by by_compute. destruct Hs as (-> & _ & Hl).
  exists g'. split; [exact E | rewrite Hl; reflexivity].
Defined.
