(* ===== verification/BcdTracer.v ===== *)
(** * Running the tracer (src/external/bcd/bcd-amalgamated.c)

    [bcd_backtrace_thread] and [bcd_backtrace_process] put the command line of the tracer
    together in an array of 32 pointers; [bcd_execve] starts the tracer, waits for a
    signal and cleans up. The array is a list of 32 slots with checked stores, so a store
    behind it is [None], undefined behaviour. The kernel is an environment that answers
    [vfork], [sigtimedwait] and [waitpid]; the fuel of the waiting loop counts its rounds.
    The build with [BCD_HAS_SIGTIMEDWAIT] is modelled. *)

From stdpp Require Import pretty.
From S2P Require Import Prelude.
From S2P Require Import Memory.
From S2P Require Import BcdMeta.
From S2P Require Waitpid.

(** ** Data *)

(** An element of [argv]: not written yet, null, a pointer into the configuration, or a
    pointer to an allocation. *)
Inductive slot :=
| Unset
| Null
| Static (s : list byte)
| Heap (s : list byte).

Definition argv_start : list slot := replicate (Z.to_nat BCD_ARGC_LIMIT) Unset.

(** The fields of [bcd_config] the tracer needs, and [bcd_target_process]. *)
Record invoke := Invoke {
  path : list byte; tp : option (list byte); kp : option (list byte);
  separator : byte; ks : byte;
  request_handler : option (Z -> Z);
  target_process : list byte
}.

(** Which allocations succeed. *)
Record allocations := Allocations {
  path_alloc : bool; arg_alloc : nat -> bool; tp_alloc : bool; kv_alloc : nat -> bool
}.

Definition all_succeed : allocations := Allocations true (fun _ => true) true (fun _ => true).

Definition decimal (z : Z) : list byte := bytes_of (pretty (Z.to_N z)).

(** The conversion [%d]. *)
Definition signed (z : Z) : list byte := if decide (z < 0) then bytes_of "-" ++ decimal (- z) else decimal z.

(** What the handler of a program without its own prints for a report; [pid] is the traced process. *)
Definition bcd_error_handler_default (event : bcd_event) (pid tid : Z) (message : string) (code : Z) : list byte :=
  bytes_of "[" ++ signed (bcd_event_value event) ++ bytes_of "] process(" ++ decimal (u64 pid) ++ bytes_of ")/thread(" ++
  decimal (u64 tid) ++ bytes_of "): " ++ bytes_of message ++ bytes_of ": " ++ signed code ++ [Init.Byte.x0a].

Example error_line : bcd_error_handler_default BCD_EVENT_TRACE 10 7 "tracer time out" (-1) =
  bytes_of "[1] process(10)/thread(7): tracer time out: -1" ++ [Init.Byte.x0a].
Proof. by vm_compute. Qed.

(** ** The command line *)

Definition set_slot (argv : list slot) (i : Z) (x : slot) : option (list slot) :=
  if decide (0 <= i < zlen argv) then Some (<[Z.to_nat i := x]> argv) else None.

Fixpoint set_slots (argv : list slot) (i : Z) (l : list (list byte)) : option (list slot) :=
  match l with
  | [] => Some argv
  | s :: l => argv ← set_slot argv i (Heap s); set_slots argv (i + 1) l
  end.

(** The elements a failing getter has touched are in the array. *)
Definition touch (argv : list slot) (i touched : Z) : option unit :=
  if decide (i + touched <= zlen argv) then Some tt else None.

(** What the preparation ends in: an error that has been reported, or the array with the
    index of the first string [bcd_execve] is to free. *)
Inductive prepared :=
| Refused (g : metadata)
| Prepared (argv : list slot) (fr : Z).

Definition refuse (tid : Z) (message : string) (g : metadata) : prepared :=
  Refused (bcd_error BCD_EVENT_TRACE tid message 0 g).2.

Section Prepare.
Context (cf : invoke) (al : allocations).

(** [session] is the thread of the session, [None] a null pointer. *)
Definition session_tid (session : option Z) : Z := default 0 session.

Definition bcd_request_handler (tid : Z) (session : option Z) (g : metadata) :
    option (Z * metadata) :=
  tid ← (if decide (tid = 0) then session else Some tid);
  match request_handler cf with
  | Some handler =>
      if decide (handler tid = -1) then
        Some (bcd_error BCD_EVENT_TRACE (session_tid session)
                "request handler intercepted event" 0 g)
      else Some (0, g)
  | None => Some (0, g)
  end.

(** The arguments of the client and the process identifier, from element [delta] on. *)
Definition add_args (tid : Z) (g : metadata) (argv : list slot) (delta : Z) :
    option (prepared + list slot * Z) :=
  match bcd_arg_get (arg_alloc al) (BCD_ARGC_LIMIT - 2) g with
  | Failed message touched =>
      _ ← touch argv delta touched;
      Some (inl (refuse tid message g))
  | Strings l =>
      argv ← set_slots argv delta l;
      argv ← set_slot argv (delta + zlen l) (Static (target_process cf));
      Some (inr (argv, delta + zlen l + 1))
  end.

(** The key-value pairs and the null pointer. *)
Definition add_kvs (tid : Z) (g : metadata) (argv : list slot) (delta fr : Z) : option prepared :=
  r ← bcd_kv_get (kv_alloc al) (u64 (BCD_ARGC_LIMIT - (delta + 1))) (separator cf) (ks cf) (kp cf) g;
  match r with
  | Failed message touched =>
      _ ← touch argv delta touched;
      Some (refuse tid message g)
  | Strings l =>
      argv ← set_slots argv delta l;
      argv ← set_slot argv (delta + zlen l) Null;
      Some (Prepared argv fr)
  end.

(** [bcd_backtrace_thread] up to the call of [bcd_execve]. *)
Definition thread_argv (tid : Z) (g : metadata) : option prepared :=
  argv ← set_slot argv_start 0 (Static (path cf));
  added ← add_args tid g argv 1;
  match added with
  | inl refused => Some refused
  | inr (argv, delta) =>
      match tp cf with
      | None => add_kvs tid g argv delta delta
      | Some prefix =>
          if tp_alloc al then
            argv ← set_slot argv delta (Heap (prefix ++ decimal (u64 tid)));
            add_kvs tid g argv (delta + 1) delta
          else Some (refuse tid "failed to construct tracer string" g)
      end
  end.

(** [bcd_backtrace_process] up to the call of [bcd_execve]. *)
Definition process_argv (tid : Z) (g : metadata) : option prepared :=
  argv ← set_slot argv_start 0 (if path_alloc al then Heap (path cf) else Null);
  added ← add_args tid g argv 1;
  match added with
  | inl refused => Some refused
  | inr (argv, delta) => add_kvs tid g argv delta delta
  end.

End Prepare.

(** ** Waiting for the tracer *)

Definition SIGKILL : Z := 9.
Definition SIGALRM : Z := 14.
Definition SIGTERM : Z := 15.
Definition SIGCHLD : Z := 17.

(** The flags the three signal handlers set. *)
Record fired := Fired { sigterm_fired : bool; sigchld_fired : bool; sigalrm_fired : bool }.

Definition handle_sigalrm (f : fired) : fired := Fired (sigterm_fired f) (sigchld_fired f) true.
Definition handle_sigchld (f : fired) : fired := Fired (sigterm_fired f) true (sigalrm_fired f).
Definition handle_sigterm (f : fired) : fired := Fired true (sigchld_fired f) (sigalrm_fired f).

(** The handler [bcd_execve] has installed for a signal. *)
Definition handle_signal (f : fired) (sig : Z) : fired :=
  if decide (sig = SIGALRM) then handle_sigalrm f
  else if decide (sig = SIGCHLD) then handle_sigchld f
  else if decide (sig = SIGTERM) then handle_sigterm f
  else f.

Definition signal_check (f : fired) : option (Z * fired) :=
  if sigterm_fired f then Some (SIGTERM, Fired false (sigchld_fired f) (sigalrm_fired f))
  else if sigchld_fired f then Some (SIGCHLD, Fired (sigterm_fired f) false (sigalrm_fired f))
  else if sigalrm_fired f then Some (SIGALRM, Fired (sigterm_fired f) (sigchld_fired f) false)
  else None.

(** [vfork]: the pid or [errno], and the signals that arrive before all of them are
    blocked; [sigtimedwait]: a signal, or -1 after a second or an interruption;
    [waitpid] with [WNOHANG]: [inl errno], or the pid and status, [None] for the answer 0. *)
Record kernel := Kernel {
  kstate : Type;
  vfork : kstate -> Z + Z * list Z;
  sigtimedwait : kstate -> Z * kstate;
  waitpid_nohang : kstate -> (Z + option Z) * kstate
}.

(** [vfork_tracer] in the monitor: the pid or [errno], and the flags, clear before it, when all signals are blocked. The child
    that cannot execute the tracer exits with a failure, which is an answer of [waitpid]. *)
Definition vfork_tracer (K : kernel) (e : kstate K) : Z + Z * fired :=
  match vfork K e with
  | inl errno => inl errno
  | inr (tracer_pid, arrived) => inr (tracer_pid, foldl handle_signal (Fired false false false) arrived)
  end.

(** How a call of [bcd_execve] ends, with the signals sent to the tracer: a return, an exit
    of the monitor, [abort], a branch on the uninitialised status, or no end yet. *)
Inductive tracer_end :=
| Returned (retval : Z) (kills : list (Z * Z)) (g : metadata)
| Exited (code : Z) (kills : list (Z * Z))
| Aborted
| Uninitialised
| Running.

Definition WEXITSTATUS (status : Z) : Z := Z.shiftr (Z.land status 0xff00) 8.

Section Wait.
Context (K : kernel) (tid : Z) (tracer_pid : Z).

(** The signal of a round, -1 when there is none. *)
Definition next_signal (f : fired) (e : kstate K) : Z * fired * kstate K :=
  match signal_check f with
  | Some (sig, f) => (sig, f, e)
  | None =>
      let '(sig, e) := sigtimedwait K e in
      if decide (sig <= 0) then
        match signal_check f with
        | Some (sig, f) => (sig, f, e)
        | None => (sig, f, e)
        end
      else (sig, f, e)
  end.

Definition failed (message : string) (code : Z) (kills : list (Z * Z)) (g : metadata) : tracer_end :=
  let '(r, g) := bcd_error BCD_EVENT_TRACE tid message code g in Returned r kills g.

(** After [SIGCHLD]: the end, or the status with which the loop goes on. *)
Definition child_event (status : option Z) (answer : Z + option Z) (g : metadata) :
    tracer_end + option Z :=
  match answer with
  | inl errno => inl (failed "failed to wait for tracer" errno [] g)
  | inr answer =>
      let status := match answer with Some s => Some s | None => status end in
      match status with
      | None => inl Uninitialised
      | Some s =>
          if negb (Waitpid.WIFEXITED s) && negb (Waitpid.WIFSIGNALED s) then inr (Some s)
          else if Waitpid.WIFEXITED s && bool_decide (WEXITSTATUS s <> 0) then
            inl (failed "tracer exited non-zero" 0 [] g)
          else if Waitpid.WIFSIGNALED s then
            inl (failed "tracer killed with signal" 0 [] g)
          else inl (Returned 0 [] g)
      end
  end.

Fixpoint wait_tracer (fuel : nat) (f : fired) (status : option Z) (e : kstate K) (g : metadata) :
    tracer_end :=
  match fuel with
  | O => Running
  | S fuel =>
      let '(sig, f, e) := next_signal f e in
      if decide (sig = SIGALRM) then
        failed "tracer time out" 0 [(tracer_pid, SIGKILL)] g
      else if decide (sig = SIGCHLD) then
        let '(answer, e) := waitpid_nohang K e in
        match child_event status answer g with
        | inl finish => finish
        | inr status => wait_tracer fuel f status e g
        end
      else if decide (sig = SIGTERM) then Exited (128 + SIGTERM) [(tracer_pid, SIGTERM)]
      else Aborted
  end.

End Wait.

(** [while (argv[fr] != NULL) free(argv[fr++])]. *)
Fixpoint free_from (l : list slot) : option (list (list byte)) :=
  match l with
  | Null :: _ => Some []
  | Heap s :: l => cons s <$> free_from l
  | _ => None
  end.

(** [bcd_execve] up to the label [leave]. *)
Definition run_tracer (K : kernel) (fuel : nat) (tid : Z) (e : kstate K) (g : metadata) : tracer_end :=
  match vfork_tracer K e with
  | inl errno => failed tid "failed to execute tracer" errno [] g
  | inr (tracer_pid, f) => wait_tracer K tid tracer_pid fuel f None e g
  end.

(** [bcd_execve]: how it ends and what it has freed when it returns. *)
Definition bcd_execve (K : kernel) (fuel : nat) (tid : Z) (argv : list slot) (fr : Z)
    (e : kstate K) (g : metadata) : option (tracer_end * list (list byte)) :=
  match run_tracer K fuel tid e g with
  | Returned r kills g =>
      freed ← free_from (drop (Z.to_nat fr) argv);
      Some (Returned r kills g, freed)
  | finish => Some (finish, [])
  end.

Definition run_prepared (K : kernel) (fuel : nat) (tid : Z) (p : prepared) (e : kstate K)
    (g : metadata) : option (tracer_end * list (list byte)) :=
  match p with
  | Refused g => Some (Returned (-1) [] g, [])
  | Prepared argv fr => bcd_execve K fuel tid argv fr e g
  end.

Definition bcd_backtrace_thread (cf : invoke) (al : allocations) (K : kernel) (fuel : nat)
    (session : option Z) (e : kstate K) (g : metadata) : option (tracer_end * list (list byte)) :=
  tid ← session;
  '(r, g) ← bcd_request_handler cf tid session g;
  if decide (r = -1) then Some (Returned (-1) [] g, []) else
  p ← thread_argv cf al tid g;
  run_prepared K fuel tid p e g.

Definition bcd_backtrace_process (cf : invoke) (al : allocations) (K : kernel) (fuel : nat)
    (session : option Z) (e : kstate K) (g : metadata) : option (tracer_end * list (list byte)) :=
  '(r, g) ← bcd_request_handler cf 0 session g;
  if decide (r = -1) then Some (Returned (-1) [] g, []) else
  p ← process_argv cf al (session_tid session) g;
  run_prepared K fuel (session_tid session) p e g.

(** [bcd_handler_fatal]: what reading a byte from the pipe gives, [-1] with [errno] or the
    number of bytes. An inner [None] is an event that is only taken off the ready list; in
    every other case the monitor exits, if the tracer returns. *)
Definition EAGAIN : Z := 11.

Definition bcd_handler_fatal (cf : invoke) (al : allocations) (K : kernel) (fuel : nat)
    (r : Z) (errno : Z) (e : kstate K) (g : metadata) : option (option tracer_end) :=
  if decide (r = -1 /\ errno = EAGAIN) then Some None
  else if decide (r > 0) then
    '(finish, _) ← bcd_backtrace_process cf al K fuel None e g;
    match finish with
    | Returned _ kills _ => Some (Some (Exited 0 kills))
    | _ => Some (Some finish)
    end
  else Some (Some (Exited 0 [])).

(** ** The command line: lemmas *)

Lemma set_slot_end ws k x :
  set_slot (ws ++ replicate k Unset) (zlen ws) x =
    match k with
    | O => None
    | S k => Some ((ws ++ [x]) ++ replicate k Unset)
    end.
Proof.
  unfold set_slot. destruct k as [|k].
  - rewrite decide_False; [done | zlia].
  - pose proof (zlen_nonneg ws). rewrite decide_True by (zlen_norm; lia).
    unfold zlen. rewrite Nat2Z.id, <- app_assoc. f_equal.
    by rewrite insert_app_r_alt, Nat.sub_diag by lia.
Qed.

Lemma set_slots_end ws k l :
  set_slots (ws ++ replicate k Unset) (zlen ws) l =
    if decide (length l <= k)%nat
    then Some ((ws ++ (Heap <$> l)) ++ replicate (k - length l) Unset) else None.
Proof.
  revert ws k. induction l as [|s l IH]; intros ws k; simpl.
  - by rewrite app_nil_r, Nat.sub_0_r.
  - rewrite set_slot_end. destruct k as [|k]; simpl; [done|].
    replace (zlen ws + 1) with (zlen (ws ++ [Heap s])) by zlia. rewrite IH.
    repeat case_decide; try lia; [|done]. by rewrite <- (app_assoc ws).
Qed.

(** The part of the array in front of the key-value pairs. *)
Definition command_words (cf : invoke) (program : slot) (thread : list slot) (g : metadata) :
    list slot :=
  program :: (Heap <$> take 30 (arg_list g)) ++ [Static (target_process cf)] ++ thread.

Definition thread_words (cf : invoke) (tid : Z) : list slot :=
  match tp cf with Some prefix => [Heap (prefix ++ decimal (u64 tid))] | None => [] end.

(** The key-value strings for an array of which [used] elements are taken. *)
Definition kv_words (cf : invoke) (used : Z) (g : metadata) : list (list byte) :=
  match kp cf with
  | Some prefix =>
      kv_strings (u64 (BCD_ARGC_LIMIT - (used + 1))) (separator cf) (ks cf) prefix (kv_list g)
  | None => []
  end.

Definition invoke_ok (cf : invoke) : Prop :=
  ks cf <> NUL /\
  match kp cf with Some prefix => no_nul prefix /\ zlen prefix < 2 ^ 32 | None => True end.

(** The finished array, if it has room for the null pointer. *)
Definition command_line (cf : invoke) (words : list slot) (fr : Z) (g : metadata) : option prepared :=
  let all := words ++ (Heap <$> kv_words cf (zlen words) g) in
  if decide (zlen all < BCD_ARGC_LIMIT)
  then Some (Prepared (all ++ Null :: replicate (31 - length all) Unset) fr) else None.

Lemma add_kvs_spec cf tid g words fr k :
  wf g -> room g -> invoke_ok cf -> Z.of_nat k = BCD_ARGC_LIMIT - zlen words ->
  add_kvs cf all_succeed tid g (words ++ replicate k Unset) (zlen words) fr =
    command_line cf words fr g.
Proof.
  intros W R (Hks & Hkp) Hk. unfold add_kvs, command_line, kv_words.
  assert (bcd_kv_get (kv_alloc all_succeed) (u64 (BCD_ARGC_LIMIT - (zlen words + 1))) (separator cf)
            (ks cf) (kp cf) g = Some (Strings (kv_words cf (zlen words) g))) as ->.
  { unfold kv_words. destruct (kp cf) as [prefix|]; [|done]. destruct Hkp.
    destruct (kv_get_result (kv_alloc all_succeed) (u64 (BCD_ARGC_LIMIT - (zlen words + 1)))
      (separator cf) (ks cf) prefix g) as [? | (? & ? & ? & Hj & _)]; try done.
    apply u64_range. }
  bind_simpl. unfold kv_words. set (l := match kp cf with Some _ => _ | None => _ end).
  rewrite set_slots_end. unfold zlen, BCD_ARGC_LIMIT in *.
  assert (length (words ++ (Heap <$> l)) = (length words + length l)%nat) as Hl
    by (by rewrite length_app, length_fmap).
  case_decide as Hfit; bind_simpl.
  - replace (Z.of_nat (length words) + Z.of_nat (length l)) with (zlen (words ++ (Heap <$> l)))
      by (unfold zlen; lia).
    rewrite set_slot_end. destruct (k - length l)%nat as [|j] eqn:Ej; bind_simpl.
    + rewrite decide_False by lia. done.
    + rewrite decide_True by lia. do 2 f_equal. rewrite <- app_assoc. simpl. do 3 f_equal. lia.
  - rewrite decide_False by lia. done.
Qed.

Lemma take_args_length g : (length (take 30 (arg_list g)) <= 30)%nat.
Proof. rewrite length_take. lia. Qed.

Lemma add_args_spec cf tid g program :
  wf g ->
  let ws := command_words cf program [] g in
  add_args cf all_succeed tid g ([program] ++ replicate 31 Unset) 1 =
    Some (inr (ws ++ replicate (32 - length ws) Unset, zlen ws)).
Proof.
  intros W ws. unfold add_args, BCD_ARGC_LIMIT.
  assert (bcd_arg_get (arg_alloc all_succeed) (32 - 2) g = Strings (take 30 (arg_list g))) as ->.
  { by destruct (arg_get_spec (arg_alloc all_succeed) 30 g W ltac:(done)) as [? | (? & ? & Hj & _)]. }
  pose proof (take_args_length g) as Ha. set (l := take 30 (arg_list g)) in *.
  change 1 with (zlen [program]) at 1. rewrite set_slots_end, decide_True by lia. bind_simpl.
  replace (1 + zlen l) with (zlen ([program] ++ (Heap <$> l)))
    by (unfold zlen; rewrite length_app, length_fmap; simpl; lia).
  rewrite set_slot_end. destruct (31 - length l)%nat as [|j] eqn:Ej; [lia|]. bind_simpl.
  assert (ws = ([program] ++ (Heap <$> l)) ++ [Static (target_process cf)]) as Hws.
  { unfold ws, command_words. by rewrite app_nil_r. }
  rewrite Hws. do 3 f_equal.
  - f_equal. rewrite !length_app, length_fmap. simpl. f_equal. lia.
  - zlia.
Qed.

Lemma command_words_nil cf program thread g :
  command_words cf program thread g = command_words cf program [] g ++ thread.
Proof. unfold command_words. simpl. by rewrite <- app_assoc. Qed.

Lemma command_words_length cf program g :
  length (command_words cf program [] g) = (2 + length (take 30 (arg_list g)))%nat.
Proof. unfold command_words. simpl. rewrite length_app, length_fmap. simpl. lia. Qed.

Lemma thread_argv_spec cf tid g :
  wf g -> room g -> invoke_ok cf ->
  thread_argv cf all_succeed tid g =
    command_line cf (command_words cf (Static (path cf)) (thread_words cf tid) g)
      (zlen (command_words cf (Static (path cf)) [] g)) g.
Proof.
  intros W R Hcf. unfold thread_argv.
  change (set_slot argv_start 0 (Static (path cf)))
    with (Some ([Static (path cf)] ++ replicate 31 Unset)).
  bind_simpl. rewrite add_args_spec by done. bind_simpl.
  rewrite (command_words_nil _ _ (thread_words cf tid)).
  pose proof (command_words_length cf (Static (path cf)) g) as Hl.
  pose proof (take_args_length g). set (ws := command_words cf _ [] g) in *.
  unfold thread_words. destruct (tp cf) as [prefix|].
  - simpl tp_alloc. cbn match. rewrite set_slot_end.
    destruct (32 - length ws)%nat as [|j] eqn:Ej; bind_simpl.
    + unfold command_line. rewrite decide_False; [done|]. unfold BCD_ARGC_LIMIT.
      assert (zlen ws = Z.of_nat (length ws)) by done. zlia.
    + replace (zlen ws + 1) with (zlen (ws ++ [Heap (prefix ++ decimal (u64 tid))])) by zlia.
      apply add_kvs_spec; try done. unfold BCD_ARGC_LIMIT.
      assert (zlen ws = Z.of_nat (length ws)) by done. zlia.
  - rewrite app_nil_r. apply add_kvs_spec; try done. unfold BCD_ARGC_LIMIT, zlen. lia.
Qed.

Lemma process_argv_spec cf tid g :
  wf g -> room g -> invoke_ok cf ->
  process_argv cf all_succeed tid g =
    command_line cf (command_words cf (Heap (path cf)) [] g)
      (zlen (command_words cf (Heap (path cf)) [] g)) g.
Proof.
  intros W R Hcf. unfold process_argv.
  change (set_slot argv_start 0 (if path_alloc all_succeed then Heap (path cf) else Null))
    with (Some ([Heap (path cf)] ++ replicate 31 Unset)).
  bind_simpl. rewrite add_args_spec by done. bind_simpl.
  pose proof (command_words_length cf (Heap (path cf)) g).
  pose proof (take_args_length g).
  apply add_kvs_spec; try done. unfold BCD_ARGC_LIMIT, zlen. lia.
Qed.

Lemma kv_words_length cf used g :
  0 <= used <= 30 -> zlen (kv_words cf used g) <= 31 - used.
Proof.
  intros Hu. unfold kv_words. destruct (kp cf) as [prefix|]; [|rewrite zlen_nil; lia].
  unfold kv_strings, BCD_ARGC_LIMIT. rewrite u64_small by lia. case_decide.
  - unfold zlen. rewrite length_take. lia.
  - destruct (kv_list g); zlia.
Qed.

(** With a separator, a prefix and a pair there is one string, whatever the room is. *)
Lemma kv_words_single cf used g :
  kp cf <> None -> separator cf <> NUL -> kv_list g <> [] -> zlen (kv_words cf used g) = 1.
Proof.
  intros Hkp Hs Hl. unfold kv_words, kv_strings. destruct (kp cf); [|done].
  rewrite decide_False by done. by destruct (kv_list g).
Qed.

Lemma command_line_fits cf words fr g :
  zlen words <= 30 -> is_Some (command_line cf words fr g).
Proof.
  intros Hw. pose proof (zlen_nonneg words).
  pose proof (kv_words_length cf (zlen words) g ltac:(lia)).
  unfold command_line, BCD_ARGC_LIMIT. rewrite decide_True; [done|]. zlia.
Qed.

Lemma command_line_None cf words fr g :
  32 <= zlen words + zlen (kv_words cf (zlen words) g) -> command_line cf words fr g = None.
Proof. intros. unfold command_line, BCD_ARGC_LIMIT. rewrite decide_False; [done | zlia]. Qed.

Lemma command_words_zlen cf program thread g :
  zlen (command_words cf program thread g) =
    2 + Z.min 30 (zlen (arg_list g)) + zlen thread.
Proof.
  rewrite command_words_nil, zlen_app. unfold zlen at 1.
  rewrite command_words_length, length_take. unfold zlen. lia.
Qed.

Lemma thread_words_length cf tid : 0 <= zlen (thread_words cf tid) <= 1.
Proof. unfold thread_words. destruct (tp cf); zlia. Qed.

(** C31: When the allocations succeed, the tracer's command line is the path, at most 30
    arguments, the process, the thread and the key-value strings, followed by a null
    pointer, if all of it fits in the array of 32 elements; otherwise there is a store behind
    the array. It fits for up to 27 arguments. It does not for 30 and more, and, when the
    key-value pairs go in one string and the thread is passed, not for 28. *)
Theorem argv_bounds cf tid g :
  wf g -> room g -> invoke_ok cf ->
  let thread := thread_argv cf all_succeed tid g in
  let process := process_argv cf all_succeed tid g in
  let arguments := zlen (arg_list g) in
  thread = command_line cf (command_words cf (Static (path cf)) (thread_words cf tid) g)
             (zlen (command_words cf (Static (path cf)) [] g)) g /\
  process = command_line cf (command_words cf (Heap (path cf)) [] g)
              (zlen (command_words cf (Heap (path cf)) [] g)) g /\
  (arguments <= 27 -> is_Some thread /\ is_Some process) /\
  (30 <= arguments -> thread = None /\ process = None) /\
  (28 <= arguments -> tp cf <> None -> kp cf <> None -> separator cf <> NUL -> kv_list g <> [] ->
     thread = None).
Proof.
  intros W R Hcf thread process arguments. subst thread process.
  rewrite thread_argv_spec, process_argv_spec by done.
  pose proof (thread_words_length cf tid). fold arguments.
  split_and!; [done | done | | |].
  - intros Ha. split; apply command_line_fits; rewrite command_words_zlen;
      rewrite ?zlen_nil; fold arguments; lia.
  - intros Ha. split; apply command_line_None; rewrite command_words_zlen;
      fold arguments; zlia.
  - intros Ha Htp Hkp Hs Hl. apply command_line_None. rewrite kv_words_single by done.
    rewrite command_words_zlen. fold arguments. unfold thread_words.
    destruct (tp cf); [|done]. zlia.
Qed.

(** *** What is freed *)

Definition heap_strings (argv : list slot) : list (list byte) :=
  omap (fun x => match x with Heap s => Some s | _ => None end) argv.

Lemma free_from_heap l rest : free_from ((Heap <$> l) ++ Null :: rest) = Some l.
Proof.
  induction l as [|s l IH]; [done|]. rewrite fmap_cons. cbn [free_from app].
  by rewrite IH.
Qed.

Lemma heap_strings_app l k : heap_strings (l ++ k) = heap_strings l ++ heap_strings k.
Proof. apply omap_app. Qed.
Lemma heap_strings_heap l : heap_strings (Heap <$> l) = l.
Proof. induction l as [|s l IH]; [done|]. rewrite fmap_cons. simpl. by f_equal. Qed.
Lemma heap_strings_unset k : heap_strings (replicate k Unset) = [].
Proof. by induction k. Qed.

(** The strings of the thread and the key-value pairs are freed; the arguments, and the
    copy of the path that [bcd_backtrace_process] makes, stay allocated. *)
Lemma command_line_frees cf program thread g argv fr :
  command_line cf (command_words cf program (Heap <$> thread) g)
    (zlen (command_words cf program [] g)) g = Some (Prepared argv fr) ->
  exists freed, free_from (drop (Z.to_nat fr) argv) = Some freed /\
    freed = thread ++ kv_words cf (zlen (command_words cf program (Heap <$> thread) g)) g /\
    heap_strings argv = heap_strings [program] ++ take 30 (arg_list g) ++ freed.
Proof.
  rewrite (command_words_nil _ _ (Heap <$> thread)).
  set (ws := command_words cf program [] g) in *. unfold command_line.
  set (kvs := kv_words cf _ g). case_decide as Hfit; [|done].
  assert (heap_strings ws = heap_strings [program] ++ take 30 (arg_list g)) as Hws.
  { unfold ws, command_words. rewrite app_nil_r.
    change (program :: (Heap <$> take 30 (arg_list g)) ++ [Static (target_process cf)])
      with ([program] ++ (Heap <$> take 30 (arg_list g)) ++ [Static (target_process cf)]).
    rewrite !heap_strings_app, heap_strings_heap. simpl (heap_strings [Static _]).
    by rewrite app_nil_r. }
  clearbody ws kvs. intros E. injection E as <- <-.
  eexists. split_and!; [|done|].
  - unfold zlen. rewrite Nat2Z.id, <- !app_assoc, drop_app_length, app_assoc.
    rewrite <- fmap_app. apply free_from_heap.
  - rewrite !heap_strings_app, !heap_strings_heap, Hws.
    change (heap_strings (Null :: ?l)) with (heap_strings l).
    by rewrite heap_strings_unset, app_nil_r, <- !app_assoc.
Qed.

(** The request handler does not intercept the event. *)
Definition passes (cf : invoke) (tid : Z) : Prop :=
  match request_handler cf with Some handler => handler tid <> -1 | None => True end.

Lemma request_handler_passes cf tid own g :
  passes cf own -> tid = own \/ tid = 0 -> bcd_request_handler cf tid (Some own) g = Some (0, g).
Proof.
  intros Hpass Htid. unfold bcd_request_handler. unfold passes in Hpass.
  assert ((if decide (tid = 0) then Some own else Some tid) = Some own) as -> by (case_decide; [done | f_equal; tauto]).
  bind_simpl. destruct (request_handler cf); [by rewrite decide_False | done].
Qed.

(** A call of [bcd_backtrace_thread] that gets as far as running the tracer ends the way
    the tracer does, and when it returns it has freed the strings of the thread and the
    key-value pairs. The strings allocated for the arguments are not among them: they are
    leaked by every call. *)
Theorem backtrace_thread_leaks cf K fuel tid e g :
  wf g -> room g -> invoke_ok cf -> passes cf tid -> zlen (arg_list g) <= 27 ->
  exists argv fr freed,
    thread_argv cf all_succeed tid g = Some (Prepared argv fr) /\
    heap_strings argv = arg_list g ++ freed /\
    bcd_backtrace_thread cf all_succeed K fuel (Some tid) e g =
      Some (run_tracer K fuel tid e g,
            match run_tracer K fuel tid e g with Returned _ _ _ => freed | _ => [] end).
Proof.
  intros W R Hcf Hpass Ha.
  destruct (command_line_fits cf (command_words cf (Static (path cf)) (thread_words cf tid) g)
    (zlen (command_words cf (Static (path cf)) [] g)) g) as [p Hp].
  { pose proof (thread_words_length cf tid). rewrite command_words_zlen. lia. }
  rewrite <- thread_argv_spec in Hp by done.
  assert (exists thread, thread_words cf tid = Heap <$> thread) as [thread Ht].
  { unfold thread_words. destruct (tp cf) as [prefix|];
      [by exists [prefix ++ decimal (u64 tid)] | by exists []]. }
  pose proof (request_handler_passes cf tid tid g Hpass (or_introl eq_refl)) as Hr.
  pose proof Hp as Hc. rewrite thread_argv_spec, Ht in Hc by done.
  destruct p as [g'|argv fr]; [unfold command_line in Hc; by case_decide|].
  destruct (command_line_frees _ _ _ _ _ _ Hc) as (freed & Hfree & _ & Hheap).
  exists argv, fr, freed. split_and!; [done | |].
  - rewrite Hheap, take_ge; [done | unfold zlen in Ha; lia].
  - unfold bcd_backtrace_thread. bind_simpl. rewrite Hr. bind_simpl.
    rewrite decide_False by done. rewrite Hp. bind_simpl. unfold run_prepared, bcd_execve.
    destruct (run_tracer K fuel tid e g); [|done..]. by rewrite Hfree.
Qed.

(** A finished command line is run, and what it has in allocations of its own is freed. *)
Lemma run_line cf program thread K fuel tid e g :
  zlen (arg_list g) <= 27 -> (length thread <= 1)%nat ->
  exists freed,
    (p ← command_line cf (command_words cf program (Heap <$> thread) g) (zlen (command_words cf program [] g)) g;
     run_prepared K fuel tid p e g) = Some (run_tracer K fuel tid e g, freed).
Proof.
  intros Ha Ht.
  destruct (command_line_fits cf (command_words cf program (Heap <$> thread) g) (zlen (command_words cf program [] g)) g)
    as [p Hp]; [rewrite command_words_zlen; unfold zlen at 2; rewrite length_fmap; lia|].
  rewrite Hp. bind_simpl. destruct p as [|argv fr]; [unfold command_line in Hp; by case_decide|].
  destruct (command_line_frees _ _ _ _ _ _ Hp) as (freed & Hfree & _).
  unfold run_prepared, bcd_execve. destruct (run_tracer K fuel tid e g); rewrite ?Hfree; by eexists.
Qed.

(** A trace of either kind comes to the tracer and ends the way it does. *)
Lemma thread_runs cf K fuel tid e g :
  wf g -> room g -> invoke_ok cf -> passes cf tid -> zlen (arg_list g) <= 27 ->
  exists freed, bcd_backtrace_thread cf all_succeed K fuel (Some tid) e g = Some (run_tracer K fuel tid e g, freed).
Proof.
  intros W R Hcf Hpass Ha. unfold bcd_backtrace_thread. bind_simpl. rewrite request_handler_passes by auto. bind_simpl.
  rewrite decide_False by done. rewrite thread_argv_spec by done. unfold thread_words.
  destruct (tp cf) as [prefix|];
    [apply (run_line _ _ [prefix ++ decimal (u64 tid)]) | apply (run_line _ _ [])]; simpl; done || lia.
Qed.

Lemma process_runs cf K fuel tid e g :
  wf g -> room g -> invoke_ok cf -> passes cf tid -> zlen (arg_list g) <= 27 ->
  exists freed, bcd_backtrace_process cf all_succeed K fuel (Some tid) e g = Some (run_tracer K fuel tid e g, freed).
Proof.
  intros W R Hcf Hpass Ha. unfold bcd_backtrace_process. rewrite request_handler_passes by auto. bind_simpl.
  rewrite decide_False by done. rewrite process_argv_spec by done. apply (run_line _ _ []); simpl; done || lia.
Qed.

(** ** Waiting: theorems *)

Lemma wait_tracer_success K tid pid fuel f status e g kills g' :
  (forall s, status = Some s -> Waitpid.WIFEXITED s = false) ->
  wait_tracer K tid pid fuel f status e g = Returned 0 kills g' ->
  kills = [] /\ g' = g /\
  exists e1 e2 s, waitpid_nohang K e1 = (inr (Some s), e2) /\
    Waitpid.WIFEXITED s = true /\ WEXITSTATUS s = 0.
Proof.
  revert f status e. induction fuel as [|fuel IH]; intros f status e Hst Hw; [done|].
  cbn [wait_tracer] in Hw. destruct (next_signal K f e) as [[sig f'] e'].
  case_decide; [done|]. case_decide; [|by case_decide].
  destruct (waitpid_nohang K e') as [answer e2] eqn:Ew. unfold child_event in Hw.
  destruct answer as [errno|[s|]]; [done| |].
  - destruct (Waitpid.WIFEXITED s) eqn:Hx; cbn [negb andb] in Hw.
    + case_bool_decide as Hc; [done|]. destruct (Waitpid.WIFSIGNALED s); [done|].
      simplify_eq. split_and!; try done. exists e', e2, s. split_and!; [done | done | lia].
    + destruct (Waitpid.WIFSIGNALED s); cbn [negb] in Hw; [done|].
      eapply IH; [|done]. intros s' [= <-]. done.
  - destruct status as [s|]; [|done]. specialize (Hst s eq_refl) as Hx. rewrite Hx in Hw.
    cbn [negb andb] in Hw. destruct (Waitpid.WIFSIGNALED s); cbn [negb] in Hw; [done|].
    eapply IH; [|done]. intros s' [= <-]. done.
Qed.

(** C32: [bcd_execve] reports success only when [waitpid] has said that the tracer exited with
    status zero; then nothing has been reported and nothing has been killed. *)
Theorem tracer_success K fuel tid e g kills g' :
  run_tracer K fuel tid e g = Returned 0 kills g' ->
  kills = [] /\ g' = g /\
  exists e1 e2 s, waitpid_nohang K e1 = (inr (Some s), e2) /\
    Waitpid.WIFEXITED s = true /\ WEXITSTATUS s = 0.
Proof.
  unfold run_tracer. destruct (vfork_tracer K e) as [errno|[pid f]]; [done|].
  by apply wait_tracer_success.
Qed.

(** A tracer that has not ended after one second, the time [sigtimedwait] waits, makes the
    monitor abort: no signal has fired, the result of [sigtimedwait] is not a signal, and
    the branch marked as unreachable is taken. The configured timeout has no effect. *)
Theorem tracer_slow_aborts K fuel tid pid e e' g :
  vfork_tracer K e = inr (pid, Fired false false false) ->
  sigtimedwait K e = (-1, e') ->
  run_tracer K (S fuel) tid e g = Aborted.
Proof.
  intros Hv Hs. unfold run_tracer. rewrite Hv. cbn [wait_tracer]. unfold next_signal. simpl.
  by rewrite Hs.
Qed.

(** A tracer does not depend on what is known nor on whom it is run for: it succeeds and reports nothing, it fails and
    is reported, or it does not come back. *)
Definition same_end (tid tid' : Z) (g g' : metadata) (finish finish' : tracer_end) : Prop :=
  match finish with
  | Returned 0 kills g1 => g1 = g /\ finish' = Returned 0 kills g'
  | Returned _ kills g1 => exists message code,
      g1 = (bcd_error BCD_EVENT_TRACE tid message code g).2 /\
      finish' = Returned (-1) kills (bcd_error BCD_EVENT_TRACE tid' message code g').2
  | _ => finish' = finish
  end.

Lemma run_tracer_uniform K fuel tid tid' e g g' :
  same_end tid tid' g g' (run_tracer K fuel tid e g) (run_tracer K fuel tid' e g').
Proof.
  unfold run_tracer. destruct (vfork_tracer K e) as [errno|[pid f]]; [by do 2 eexists|].
  generalize (@None Z). revert f e. induction fuel as [|fuel IH]; intros f e status; [done|]. cbn [wait_tracer].
  destruct (next_signal K f e) as [[sig f'] e']. case_decide; [by do 2 eexists|].
  case_decide; [|by case_decide]. destruct (waitpid_nohang K e') as [answer e2]. unfold child_event.
  destruct answer as [errno|answer]; [by do 2 eexists|].
  destruct (match answer with Some s => Some s | None => status end) as [s|]; [|done].
  destruct (negb (Waitpid.WIFEXITED s) && _); [apply IH|]. destruct (Waitpid.WIFEXITED s && _); [by do 2 eexists|].
  destruct (Waitpid.WIFSIGNALED s); [by do 2 eexists | done].
Qed.

Lemma wait_tracer_ends K (mu : kstate K -> nat) tid pid fuel f status e g :
  (forall e sig e', sigtimedwait K e = (sig, e') -> (mu e' <= mu e)%nat) ->
  (forall e answer e', waitpid_nohang K e = (inr answer, e') ->
     (mu e' < mu e)%nat \/
     exists s, answer = Some s /\ (Waitpid.WIFEXITED s = true \/ Waitpid.WIFSIGNALED s = true)) ->
  (mu e < fuel)%nat -> wait_tracer K tid pid fuel f status e g <> Running.
Proof.
  intros Hsig Hwait. revert f status e. induction fuel as [|fuel IH]; intros f status e Hf; [lia|].
  cbn [wait_tracer]. destruct (next_signal K f e) as [[sig f'] e'] eqn:En.
  assert (mu e' <= mu e)%nat as He.
  { unfold next_signal in En. destruct (signal_check f) as [[? ?]|]; [by simplify_eq|].
    destruct (sigtimedwait K e) as [s e2] eqn:Es. apply Hsig in Es.
    repeat (case_decide || simplify_eq || done). }
  case_decide; [done|]. case_decide; [|by case_decide].
  destruct (waitpid_nohang K e') as [answer e2] eqn:Ew. unfold child_event.
  destruct answer as [errno|answer]; [done|]. apply Hwait in Ew as [Hmu | (s & -> & Hs)].
  - destruct (match answer with Some s => Some s | None => status end) as [s|]; [|done].
    destruct (Waitpid.WIFEXITED s), (Waitpid.WIFSIGNALED s), (bool_decide (WEXITSTATUS s <> 0));
      cbn [negb andb]; try done; apply IH; lia.
  - destruct (Waitpid.WIFEXITED s), (Waitpid.WIFSIGNALED s), (bool_decide (WEXITSTATUS s <> 0));
      cbn [negb andb]; try done; by destruct Hs.
Qed.

(** [bcd_handler_fatal] requests the trace with a null session, and the first thing the
    request reads is the thread of the session: a request over the pipe of [bcd_fatal]
    dereferences a null pointer, whatever the configuration is. *)
Theorem fatal_null_session cf al K fuel r errno e g :
  r > 0 -> bcd_handler_fatal cf al K fuel r errno e g = None.
Proof.
  intros Hr. unfold bcd_handler_fatal. rewrite decide_False by lia. by rewrite decide_True by lia.
Qed.

(** The monitor does not wait for ever: when every answer of [waitpid] that is not the end
    of the tracer uses up something, [bcd_execve] ends. *)
Theorem tracer_ends K (mu : kstate K -> nat) tid e g :
  (forall e sig e', sigtimedwait K e = (sig, e') -> (mu e' <= mu e)%nat) ->
  (forall e answer e', waitpid_nohang K e = (inr answer, e') ->
     (mu e' < mu e)%nat \/
     exists s, answer = Some s /\ (Waitpid.WIFEXITED s = true \/ Waitpid.WIFSIGNALED s = true)) ->
  run_tracer K (S (mu e)) tid e g <> Running.
Proof.
  intros Hsig Hwait. unfold run_tracer. destruct (vfork_tracer K e) as [errno|[pid f]]; [done|].
  apply (wait_tracer_ends K mu); [done | done | lia].
Qed.

(** ** Witnesses *)

Definition sample_invoke : invoke :=
  Invoke (bytes_of "/opt/ptrace") (Some (bytes_of "--thread=")) (Some (bytes_of "--kv="))
    Init.Byte.x2c Init.Byte.x3a None (bytes_of "4321").

#[export] Instance invoke_ok_dec cf : Decision (invoke_ok cf).
Proof. unfold invoke_ok. destruct (kp cf); apply _. Defined.
#[export] Instance slot_eq_dec : EqDecision slot.
Proof. solve_decision. Defined.

(** A tracer that is stopped [n] times, each noticed by a signal, and then exits. *)
Definition stopping_kernel (code : Z) : kernel :=
  {| kstate := nat;
     vfork _ := inr (900, []);
     sigtimedwait n := (SIGCHLD, n);
     waitpid_nohang n :=
       match n with
       | O => (inr (Some (Z.shiftl code 8)), O)
       | S n => (inr (Some 0x137f), n)
       end |}.

(** A tracer that is still busy after a second. *)
Definition busy_kernel : kernel :=
  {| kstate := unit;
     vfork _ := inr (900, []);
     sigtimedwait _ := (-1, tt);
     waitpid_nohang _ := (inr None, tt) |}.

(** The same metadata with [n] arguments. *)
Definition with_arguments (n : nat) : metadata :=
  let l := (fun i => replicate (S i) Init.Byte.x78) <$> seq 0 n in
  Metadata (kv_list sample_metadata) 5 2 l (arg_bytes l) (zlen l) [].

Lemma argv_bounds_witness :
  wf (with_arguments 28) /\ room (with_arguments 28) /\ invoke_ok sample_invoke /\
  thread_argv sample_invoke all_succeed 77 (with_arguments 28) = None /\
  is_Some (thread_argv sample_invoke all_succeed 77 sample_metadata).
Proof.
  assert (wf (with_arguments 28)) as W by by_compute.
  assert (room (with_arguments 28)) as R by by_compute.
  assert (wf sample_metadata) as W' by by_compute.
  assert (room sample_metadata) as R' by by_compute.
  assert (invoke_ok sample_invoke) as I by by_compute.
  split_and!; [exact W | exact R | exact I | |].
  - destruct (argv_bounds sample_invoke 77 _ W R I) as (_ & _ & _ & _ & H).
    apply H; [by_compute | discriminate | discriminate | discriminate | discriminate].
  - destruct (argv_bounds sample_invoke 77 _ W' R' I) as (_ & _ & H & _ & _).
    apply H. by_compute.
Defined.

Lemma backtrace_thread_leaks_witness :
  wf sample_metadata /\ room sample_metadata /\ invoke_ok sample_invoke /\
  exists freed,
    bcd_backtrace_thread sample_invoke all_succeed (stopping_kernel 0) 10 (Some 77) 2%nat
      sample_metadata = Some (Returned 0 [] sample_metadata, freed) /\
    freed = [bytes_of "--thread=77"; bytes_of "--kv=a:1,b:"].
Proof.
  assert (wf sample_metadata) as W by by_compute.
  assert (room sample_metadata) as R by by_compute.
  assert (invoke_ok sample_invoke) as I by by_compute.
  split_and!; [exact W | exact R | exact I |].
  destruct (backtrace_thread_leaks sample_invoke (stopping_kernel 0) 10 77 2%nat sample_metadata
    W R I) as (argv & fr & freed & Hargv & Hheap & ->); [exact Logic.I | by_compute |].
  exists freed. split; [vm_compute run_tracer; reflexivity|].
  vm_compute in Hargv. injection Hargv as <- <-. vm_compute in Hheap. injection Hheap as <-.
  reflexivity.
Defined.

Lemma tracer_success_witness :
  run_tracer (stopping_kernel 0) 10 77 2%nat sample_metadata = Returned 0 [] sample_metadata /\
  exists e1 e2 s, waitpid_nohang (stopping_kernel 0) e1 = (inr (Some s), e2) /\ WEXITSTATUS s = 0.
Proof.
  assert (run_tracer (stopping_kernel 0) 10 77 2%nat sample_metadata =
    Returned 0 [] sample_metadata) as E by (vm_compute; reflexivity).
  split; [exact E|].
  destruct (tracer_success (stopping_kernel 0) 10 77 2%nat sample_metadata [] sample_metadata E)
    as (_ & _ & e1 & e2 & s & Hw & _ & Hs).
  exists e1, e2, s. split; [exact Hw | exact Hs].
Defined.

Lemma tracer_slow_aborts_witness :
  sigtimedwait busy_kernel tt = (-1, tt) /\
  run_tracer busy_kernel 1 77 tt sample_metadata = Aborted.
Proof.
  split; [reflexivity|].
  exact (tracer_slow_aborts busy_kernel 0 77 900 tt tt sample_metadata eq_refl eq_refl).
Defined.

Lemma tracer_ends_witness : run_tracer (stopping_kernel 3) 3 77 2%nat sample_metadata <> Running.
Proof.
  apply (tracer_ends (stopping_kernel 3) (fun n => n) 77 2%nat sample_metadata).
  - intros n sig n' H. simpl in H. injection H as _ <-. lia.
  - intros n answer n' H. simpl in H. destruct n as [|n]; injection H as <- <-; [right | left; lia].
    exists (Z.shiftl 3 8). split; [reflexivity | left; reflexivity].
Defined.

Lemma fatal_null_session_witness :
  1 > 0 /\
  bcd_handler_fatal sample_invoke all_succeed (stopping_kernel 0) 10 1 0 2%nat sample_metadata = None.
Proof.
  split; [by_compute|].
  exact (fatal_null_session sample_invoke all_succeed (stopping_kernel 0) 10 1 0 2%nat
    sample_metadata ltac:(by_compute)).
Defined.
