(* ===== verification/BcdChannel.v ===== *)
(** * The channel between client and monitor (src/external/bcd/bcd-amalgamated.c)

    Packets as bytes, the loops that move them over a non-blocking descriptor
    ([bcd_io_fd_wait], [bcd_io_fd_read], [bcd_io_fd_write], [bcd_sb_read],
    [bcd_sb_write], [bcd_write_ack], [bcd_read_request], [bcd_channel_read_ack]),
    and the requests of the client ([bcd_kv], [bcd_arg], [bcd_backtrace]). The descriptor is an
    environment that answers [read], [write], [select] and the clock; the fuel of a loop
    counts system calls, and [None] is a loop that has not ended. *)

From S2P Require Import Prelude.
From S2P Require Import Memory.
From S2P Require Import BcdMeta.
From S2P Require Import BcdTracer.

(** ** Packets *)

Definition sizeof_packet : Z := 8.

Definition BCD_OP_CF : Z := 0.
Definition BCD_OP_OK : Z := 1.
Definition BCD_OP_TID : Z := 2.
Definition BCD_OP_KV : Z := 3.
Definition BCD_OP_TR_PROCESS : Z := 4.
Definition BCD_OP_TR_THREAD : Z := 5.
Definition BCD_OP_TR_FATAL : Z := 6.
Definition BCD_OP_DETACH : Z := 7.
Definition BCD_OP_ARG : Z := 8.

Definition packet_bytes (op length : Z) (payload : list byte) : list byte :=
  le_split 4 op ++ le_split 4 length ++ payload.

Definition buffer_op (buf : list byte) : Z := le_combine (take 4 buf).
Definition buffer_length (buf : list byte) : Z := le_combine (take 4 (drop 4 buf)).
Definition packet_of (buf : list byte) : bcd_packet :=
  Packet (buffer_op buf) (buffer_length buf) (drop 8 buf).

(** [n] bytes stored at offset [ac] of a buffer. *)
Definition overwrite (buf : list byte) (ac : Z) (bs : list byte) : list byte :=
  take (Z.to_nat ac) buf ++ bs ++ drop (Z.to_nat ac + length bs) buf.

(** [strlcpy]: the destination afterwards and the length of the source; [None] when the source is not terminated or
    the store is behind the destination. *)
Definition strlcpy (dst src : list byte) (n : Z) : option (list byte * Z) :=
  if decide (NUL ∈ src) then
    let len := zlen (c_str src) in
    if decide (n > 0) then
      let copy := if decide (len < n) then len else u64 (n - 1) in
      if decide (copy < zlen dst) then Some (overwrite dst 0 (take (Z.to_nat copy) src ++ [NUL]), len) else None
    else Some (dst, len)
  else None.

(** ** The descriptor *)

Definition EINTR : Z := 4.

(** [read] and [write] answer with [errno] or the bytes, or the number of bytes,
    transferred; [select] gets the timeout in seconds, [None] for no timeout. *)
Record descriptor := Descriptor {
  dstate : Type;
  sys_read : dstate -> Z -> (Z + list byte) * dstate;
  sys_write : dstate -> list byte -> (Z + Z) * dstate;
  sys_select : dstate -> option Z -> (Z + Z) * dstate;
  os_time : dstate -> Z * dstate
}.

Section Io.
Context (D : descriptor) (timeout : Z).

(** [bcd_io_fd_wait]: -1, or the number of ready descriptors. *)
Fixpoint bcd_io_fd_wait (fuel : nat) (timeout_abstime : Z) (e : dstate D) : option (Z * dstate D) :=
  match fuel with
  | O => None
  | S fuel =>
      let '(now, e) := os_time D e in
      let tv :=
        if decide (now >= timeout_abstime) then 0
        else if decide (timeout_abstime - now > timeout) then timeout
        else timeout_abstime - now in
      let '(r, e) := sys_select D e (if decide (timeout_abstime = 0) then None else Some tv) in
      match r with
      | inl errno =>
          if decide (errno = EINTR) then bcd_io_fd_wait fuel timeout_abstime e else Some (-1, e)
      | inr r => Some (r, e)
      end
  end.

(** [bcd_io_fd_read]: the result, [errno] when it is -1, and the bytes in the buffer. *)
Fixpoint bcd_io_fd_read (fuel : nat) (got : list byte) (n_read timeout_abstime : Z)
    (e : dstate D) : option (Z * Z * list byte * dstate D) :=
  match fuel with
  | O => None
  | S fuel =>
      let '(r, e) := sys_read D e (u64 (n_read - zlen got)) in
      match r with
      | inl errno =>
          if decide (errno = EINTR) then bcd_io_fd_read fuel got n_read timeout_abstime e
          else if decide (errno = EAGAIN) then
            '(ret, e) ← bcd_io_fd_wait fuel timeout_abstime e;
            if decide (ret = 1) then bcd_io_fd_read fuel got n_read timeout_abstime e
            else Some (-1, EAGAIN, got, e)
          else Some (-1, errno, got, e)
      | inr [] => Some (0, 0, got, e)
      | inr bs =>
          let got := got ++ bs in
          if decide (zlen got = n_read) then Some (zlen got, 0, got, e)
          else bcd_io_fd_read fuel got n_read timeout_abstime e
      end
  end.

(** [bcd_io_fd_write]: the result and [errno] when it is -1. *)
Fixpoint bcd_io_fd_write (fuel : nat) (ac : Z) (b : list byte) (timeout_abstime : Z)
    (e : dstate D) : option (Z * Z * dstate D) :=
  match fuel with
  | O => None
  | S fuel =>
      let '(r, e) := sys_write D e (drop (Z.to_nat ac) b) in
      match r with
      | inl errno =>
          if decide (errno = EINTR) then bcd_io_fd_write fuel ac b timeout_abstime e
          else if decide (errno = EAGAIN) then
            '(ret, e) ← bcd_io_fd_wait fuel timeout_abstime e;
            if decide (ret = 1) then bcd_io_fd_write fuel ac b timeout_abstime e
            else Some (-1, EAGAIN, e)
          else Some (-1, errno, e)
      | inr r =>
          if decide (r = 0) then Some (0, 0, e)
          else if decide (ac + r = zlen b) then Some (ac + r, 0, e)
          else bcd_io_fd_write fuel (ac + r) b timeout_abstime e
      end
  end.

(** [bcd_sb_write] and [bcd_packet_write]: the packet with its header set. *)
Definition bcd_sb_write (fuel : nat) (op : Z) (payload : list byte) (timeout_abstime : Z)
    (e : dstate D) : option (Z * Z * dstate D) :=
  bcd_io_fd_write fuel 0 (packet_bytes op (zlen payload) payload) timeout_abstime e.

(** An error of the client: [bcd_error_set]. *)
Record bcd_error_info := ErrorInfo { errnum : Z; message : string }.

Definition bcd_error_message (e : bcd_error_info) : string := message e.
Definition bcd_error_errno (e : bcd_error_info) : Z := errnum e.

(** The part of [bcd_sb_read] behind the label [fail]; [expected] is the size of what
    should have been read. *)
Definition sb_read_result (r errno expected : Z) : Z * option bcd_error_info :=
  if decide (r < 0) then
    (-1, Some (ErrorInfo errno
                 (if decide (errno = EAGAIN) then "timed out" else "failed to read response")%string))
  else if decide (r = 0) then (-1, Some (ErrorInfo 0 "premature termination"))
  else if decide (r < expected) then (-1, Some (ErrorInfo 0 "truncated response"))
  else (0, None).

(** [bcd_sb_read]: the result and the bytes of the packet that have been read. *)
Definition bcd_sb_read (fuel : nat) (length timeout_abstime : Z) (e : dstate D) :
    option (Z * option bcd_error_info * list byte * dstate D) :=
  '(r, errno, header, e) ← bcd_io_fd_read fuel [] sizeof_packet timeout_abstime e;
  if decide (r <> sizeof_packet) then Some (sb_read_result r errno sizeof_packet, header, e)
  else if decide (buffer_length header > length) then
    Some (sb_read_result r errno sizeof_packet, header, e)
  else
    '(r', errno', payload, e) ← bcd_io_fd_read fuel [] (buffer_length header) timeout_abstime e;
    Some (sb_read_result (r + r') errno' (sizeof_packet + buffer_length header),
          header ++ payload, e).

(** [bcd_channel_read_ack]. *)
Definition bcd_channel_read_ack (fuel : nat) (timeout_abstime : Z) (e : dstate D) :
    option (Z * option bcd_error_info * dstate D) :=
  '(r, errno, header, e) ← bcd_io_fd_read fuel [] sizeof_packet timeout_abstime e;
  if decide (r < 0) then
    Some (-1, Some (ErrorInfo errno
      (if decide (errno = EAGAIN) then "timed out" else "failed to acknowledge")%string), e)
  else if decide (r = 0) then Some (-1, Some (ErrorInfo 0 "premature termination"), e)
  else if decide (r < sizeof_packet) then Some (-1, Some (ErrorInfo 0 "truncated response"), e)
  else if decide (buffer_op header <> BCD_OP_OK) then
    Some (-1, Some (ErrorInfo 0 "dispatch failed"), e)
  else Some (0, None, e).

(** A request of the client: write the packet, wait for the answer. The last component
    is whether the descriptor has been closed. *)
Definition request (fuel : nat) (op : Z) (payload : list byte) (failure : string) (close : bool)
    (e : dstate D) : option (Z * option bcd_error_info * bool * dstate D) :=
  let '(now, e) := os_time D e in
  let timeout_abstime := now + timeout in
  '(r, errno, e) ← bcd_sb_write fuel op payload timeout_abstime e;
  if decide (r = -1) then Some (-1, Some (ErrorInfo errno failure), close, e)
  else
    '(r, error, e) ← bcd_channel_read_ack fuel timeout_abstime e;
    Some (r, error, false, e).

(** [bcd_kv] and [bcd_arg], of two C strings and one. *)
Definition bcd_kv (fuel : nat) (key value : list byte) (e : dstate D) :
    option (Z * option bcd_error_info * bool * dstate D) :=
  if decide (zlen key + 1 + (zlen value + 1) > BCD_PACKET_LIMIT) then
    Some (-1, Some (ErrorInfo 0 "key-value pair is too long"), false, (os_time D e).2)
  else request fuel BCD_OP_KV (key ++ [NUL] ++ value ++ [NUL]) "failed to write kv-pair" true e.

Definition bcd_arg (fuel : nat) (arg : list byte) (e : dstate D) :
    option (Z * option bcd_error_info * bool * dstate D) :=
  if decide (zlen arg + 1 > BCD_PACKET_LIMIT) then
    Some (-1, Some (ErrorInfo 0 "argument is too long"), false, (os_time D e).2)
  else request fuel BCD_OP_ARG (arg ++ [NUL]) "failed to write argument" true e.

Definition bcd_backtrace (fuel : nat) (thread : bool) (e : dstate D) :
    option (Z * option bcd_error_info * bool * dstate D) :=
  request fuel (if thread then BCD_OP_TR_THREAD else BCD_OP_TR_PROCESS) []
    "failed to invoke tracer" false e.

End Io.

(** A packet that is longer than what the reader has room for is taken as read: the error
    path is reached with a result equal to the size of the header, which counts as success,
    so [bcd_sb_read] returns 0 without an error and without the payload. *)
Theorem sb_read_oversized D timeout fuel length timeout_abstime e header e' :
  bcd_io_fd_read D timeout fuel [] sizeof_packet timeout_abstime e =
    Some (sizeof_packet, 0, header, e') ->
  buffer_length header > length ->
  bcd_sb_read D timeout fuel length timeout_abstime e = Some (0, None, header, e').
Proof.
  intros Hr Hl. unfold bcd_sb_read. rewrite Hr. bind_simpl.
  rewrite decide_False by tauto. by rewrite decide_True by lia.
Qed.

(** ** A descriptor to try things on

    It delivers and takes at most three bytes at a time, and has a number of hiccups,
    alternately an interruption and an empty queue, before it does anything. *)

Record pipe_end := PipeEnd { hiccups : nat; inbox : list byte; outbox : list byte }.

Definition hiccup (k : nat) : Z := if Nat.even k then EINTR else EAGAIN.

Definition toy_read (e : pipe_end) (n : Z) : (Z + list byte) * pipe_end :=
  match hiccups e with
  | S k => (inl (hiccup k), PipeEnd k (inbox e) (outbox e))
  | O =>
      let m := Nat.min (Z.to_nat n) 3 in
      (inr (take m (inbox e)), PipeEnd 0 (drop m (inbox e)) (outbox e))
  end.

Definition toy_write (e : pipe_end) (bs : list byte) : (Z + Z) * pipe_end :=
  match hiccups e with
  | S k => (inl (hiccup k), PipeEnd k (inbox e) (outbox e))
  | O => (inr (zlen (take 3 bs)), PipeEnd 0 (inbox e) (outbox e ++ take 3 bs))
  end.

Definition toy : descriptor :=
  {| dstate := pipe_end; sys_read := toy_read; sys_write := toy_write;
     sys_select e _ := (inr 1, e); os_time e := (0, e) |}.

Lemma sb_read_oversized_witness :
  bcd_sb_read toy 30 20 4 0 (PipeEnd 1 (packet_bytes BCD_OP_CF 5 (bytes_of "/tmp/")) []) =
    Some (0, None, packet_bytes BCD_OP_CF 5 [], PipeEnd 0 (bytes_of "/tmp/") []).
Proof.
  apply (sb_read_oversized toy 30 20 4 0 (PipeEnd 1 (packet_bytes BCD_OP_CF 5 (bytes_of "/tmp/")) [])
    (packet_bytes BCD_OP_CF 5 []) (PipeEnd 0 (bytes_of "/tmp/") []));
    [vm_compute; reflexivity | vm_compute; reflexivity].
Defined.
