(* ===== verification/BcdSession.v ===== *)
(** * Sessions of the bcd monitor (src/external/bcd/bcd-amalgamated.c)

    [bcd_read_request] and [bcd_write_ack] move one packet over a non-blocking
    descriptor and can be resumed; [bcd_perform_request] carries a request out;
    [bcd_handler_request_response] is the event handler that combines them. The session
    is the record the code keeps per client, its packet a buffer of 8 + 1024 bytes. A
    call of [bcd_child_exit] ends the monitor and is a result of its own. *)

From S2P Require Import Prelude.
From S2P Require Import Memory.
From S2P Require Import BcdMeta.
From S2P Require Import BcdTracer.
From S2P Require Import BcdChannel.

(** ** Data *)

Inductive session_state : Set := BCD_SESSION_READING | BCD_SESSION_WRITING.

Record bcd_session := Session {
  session_thread : Z; state : session_state; terminated : bool; offset : Z;
  buffer : list byte
}.

Definition session_size : nat := Z.to_nat (sizeof_packet + BCD_PACKET_LIMIT).

(** [bcd_handler_accept] clears the session. *)
Definition new_session : bcd_session :=
  Session 0 BCD_SESSION_READING false 0 (replicate session_size NUL).

Definition set_offset (s : bcd_session) (ac : Z) (buf : list byte) : bcd_session :=
  Session (session_thread s) (state s) (terminated s) ac buf.

(** What a step of the session ends in: 0; -1 with [EAGAIN]; or the end of the monitor after
    the report of an error. *)
Inductive io_result :=
| Complete (s : bcd_session)
| WouldBlock (s : bcd_session)
| ChildExit (message : string) (code : Z).

Section Session.
Context (D : descriptor).

(** ** Reading a request *)

(** The loop of [bcd_read_request]; a [continue] goes on to the condition of the loop. *)
Fixpoint read_request_loop (fuel : nat) (s : bcd_session) (ac target : Z) (buf : list byte)
    (e : dstate D) : option (io_result * dstate D) :=
  match fuel with
  | O => None
  | S fuel =>
      let again ac target buf e :=
        if decide (ac < sizeof_packet + target) then read_request_loop fuel s ac target buf e
        else Some (Complete (set_offset s 0 buf), e) in
      let '(r, e) := sys_read D e (u64 (sizeof_packet + target - ac)) in
      match r with
      | inl errno =>
          if decide (errno = EINTR) then again ac target buf e
          else if decide (errno = EAGAIN) then Some (WouldBlock (set_offset s ac buf), e)
          else Some (ChildExit "unexpected termination of stream" errno, e)
      | inr [] =>
          if terminated s then Some (Complete (set_offset s (offset s) buf), e)
          else Some (ChildExit "unexpected termination of stream" 0, e)
      | inr bs =>
          let buf := overwrite buf ac bs in
          let ac := ac + zlen bs in
          if decide (ac >= sizeof_packet) then
            let target := buffer_length buf in
            if decide (target > BCD_PACKET_LIMIT) then
              Some (ChildExit "message size is too large" (i32 target), e)
            else again ac target buf e
          else again ac target buf e
      end
  end.

Definition bcd_read_request (fuel : nat) (s : bcd_session) (e : dstate D) :
    option (io_result * dstate D) :=
  let ac := offset s in
  let target := if decide (ac > sizeof_packet) then buffer_length (buffer s) else 0 in
  read_request_loop fuel s ac target (buffer s) e.

(** ** Writing the acknowledgement *)

Fixpoint write_ack_loop (fuel : nat) (s : bcd_session) (ac : Z) (e : dstate D) :
    option (io_result * dstate D) :=
  match fuel with
  | O => None
  | S fuel =>
      let again ac e :=
        if decide (ac < sizeof_packet) then write_ack_loop fuel s ac e
        else Some (Complete (set_offset s 0 (buffer s)), e) in
      let '(r, e) := sys_write D e (drop (Z.to_nat ac) (take 8 (buffer s))) in
      match r with
      | inl errno =>
          if decide (errno = EINTR) then again ac e
          else if decide (errno = EAGAIN) then Some (WouldBlock (set_offset s ac (buffer s)), e)
          else Some (ChildExit "unknown communication error" errno, e)
      | inr r =>
          if decide (r = 0) then Some (ChildExit "premature process termination" 0, e)
          else again (ac + r) e
      end
  end.

(** The header of the session's packet becomes that of an acknowledgement. *)
Definition bcd_write_ack (fuel : nat) (s : bcd_session) (e : dstate D) :
    option (io_result * dstate D) :=
  let s := set_offset s (offset s) (overwrite (buffer s) 0 (packet_bytes BCD_OP_OK 0 [])) in
  write_ack_loop fuel s (offset s) e.

(** ** Carrying a request out *)

Context (cf : invoke) (al : allocations) (K : kernel) (malloc : option Z).

(** The request has been carried out, or the monitor is gone. *)
Inductive performed :=
| Performed (s : bcd_session) (g : metadata)
| Gone (finish : tracer_end).

(** A trace: the monitor goes on when the tracer's call returns. *)
Definition after_trace (s : bcd_session) (finish : tracer_end) : performed :=
  match finish with Returned _ _ g => Performed s g | _ => Gone finish end.

Definition bcd_perform_request (fuel : nat) (s : bcd_session) (k : kstate K) (g : metadata) :
    option performed :=
  let packet := packet_of (buffer s) in
  let tid := session_thread s in
  if decide (op packet = BCD_OP_TID) then
    Some (Performed (Session (i32 (le_combine (take 4 (payload packet)))) (state s) (terminated s)
                       (offset s) (buffer s)) g)
  else if decide (op packet = BCD_OP_KV) then
    '(_, g) ← bcd_kv_set malloc tid packet g; Some (Performed s g)
  else if decide (op packet = BCD_OP_ARG) then
    '(_, g) ← bcd_arg_set malloc tid packet g; Some (Performed s g)
  else if decide (op packet = BCD_OP_TR_THREAD) then
    '(finish, _) ← bcd_backtrace_thread cf al K fuel (Some tid) k g;
    Some (after_trace s finish)
  else if decide (op packet = BCD_OP_TR_PROCESS) then
    '(finish, _) ← bcd_backtrace_process cf al K fuel (Some tid) k g;
    Some (after_trace s finish)
  else if decide (op packet = BCD_OP_TR_FATAL) then
    '(finish, _) ← bcd_backtrace_process cf al K fuel (Some tid) k g;
    match finish with
    | Returned _ kills _ => Some (Gone (Exited 0 kills))
    | _ => Some (Gone finish)
    end
  else if decide (op packet = BCD_OP_DETACH) then
    Some (Performed (Session tid (state s) true (offset s) (buffer s)) g)
  else Some (Performed s g).

(** ** The event handler *)

(** How [bcd_handler_request_response] leaves the client: waiting for an event, still on
    the ready list, closed, or the monitor gone (an exit with a report, or by the tracer). *)
Inductive handled :=
| AwaitRead (s : bcd_session) (g : metadata)
| AwaitWrite (s : bcd_session) (g : metadata)
| Ready (s : bcd_session) (g : metadata)
| Closed (g : metadata)
| Died (message : string) (code : Z)
| Ended (finish : tracer_end).

Definition after_io (s : bcd_session) (g : metadata) : handled :=
  if terminated s then Closed g else Ready s g.

Definition write_phase (fuel : nat) (s : bcd_session) (e : dstate D) (g : metadata) :
    option (handled * dstate D) :=
  '(w, e) ← bcd_write_ack fuel s e;
  match w with
  | Complete s => Some (after_io s g, e)
  | WouldBlock s => Some (AwaitWrite s g, e)
  | ChildExit message code => Some (Died message code, e)
  end.

Definition bcd_handler_request_response (fuel : nat) (s : bcd_session) (e : dstate D) (k : kstate K)
    (g : metadata) : option (handled * dstate D) :=
  match state s with
  | BCD_SESSION_READING =>
      '(r, e) ← bcd_read_request fuel s e;
      match r with
      | WouldBlock s => Some (AwaitRead s g, e)
      | ChildExit message code => Some (Died message code, e)
      | Complete s =>
          if terminated s then Some (Closed g, e)
          else
            p ← bcd_perform_request fuel s k g;
            match p with
            | Performed s g => write_phase fuel s e g
            | Gone finish => Some (Ended finish, e)
            end
      end
  | BCD_SESSION_WRITING => write_phase fuel s e g
  end.

End Session.

(** ** What the kernel promises about a descriptor that is read *)

(** [pending]: the bytes that will be delivered; [mu]: how often a call may still be
    interrupted. The only errors are interruptions and having to wait. *)
Record readable (D : descriptor) (pending : dstate D -> list byte) (mu : dstate D -> nat) : Prop := {
  rd_bytes e n bs e' : sys_read D e n = (inr bs, e') -> 0 <= n ->
    pending e = bs ++ pending e' /\ zlen bs <= n /\ (bs = [] -> n = 0 \/ pending e = []);
  rd_error e n errno e' : sys_read D e n = (inl errno, e') ->
    pending e' = pending e /\ (errno = EINTR \/ errno = EAGAIN);
  rd_mu e n r e' : sys_read D e n = (r, e') ->
    (mu e' <= mu e)%nat /\ (r = inl EINTR -> (mu e' < mu e)%nat)
}.

(** ** Buffers *)

Lemma length_overwrite buf ac bs :
  0 <= ac -> ac + zlen bs <= zlen buf -> length (overwrite buf ac bs) = length buf.
Proof.
  intros. unfold overwrite, zlen in *. rewrite !length_app, length_take, length_drop. lia.
Qed.

Lemma take_overwrite buf ac bs :
  0 <= ac -> ac <= zlen buf ->
  take (Z.to_nat (ac + zlen bs)) (overwrite buf ac bs) = take (Z.to_nat ac) buf ++ bs.
Proof.
  intros. unfold overwrite, zlen in *. rewrite app_assoc. apply take_app_length'.
  rewrite length_app, length_take. lia.
Qed.

(** [strlcpy] copies what fits, terminates it and leaves the bytes behind alone; the result tells whether it was all. *)
Lemma strlcpy_spec dst src n :
  NUL ∈ src -> 0 < n < 2 ^ 64 -> n <= zlen dst ->
  exists dst', strlcpy dst src n = Some (dst', zlen (c_str src)) /\ length dst' = length dst /\
    c_str dst' = take (Z.to_nat (n - 1)) (c_str src) /\ NUL ∈ dst' /\ drop (Z.to_nat n) dst' = drop (Z.to_nat n) dst.
Proof.
  intros Hsrc Hn Hdst. destruct (c_str_split src Hsrc) as (rest & Esrc & Hno). unfold strlcpy.
  rewrite decide_True by done. rewrite decide_True by lia. pose proof (zlen_nonneg (c_str src)) as Hlen.
  set (copy := if decide (zlen (c_str src) < n) then zlen (c_str src) else u64 (n - 1)).
  assert (copy = Z.min (zlen (c_str src)) (n - 1)) as Hcopy by (unfold copy; case_decide; rewrite ?u64_small by lia; lia).
  clearbody copy. rewrite decide_True by lia.
  assert (take (Z.to_nat copy) src = take (Z.to_nat (n - 1)) (c_str src)) as ->.
  { rewrite Esrc at 1. rewrite take_app_le by (unfold zlen in *; lia).
    destruct (decide (zlen (c_str src) <= n - 1)); [rewrite !take_ge by (unfold zlen in *; lia); done | f_equal; lia]. }
  assert (zlen (take (Z.to_nat (n - 1)) (c_str src)) = copy) as Hz by (unfold zlen in *; rewrite length_take; lia).
  eexists. split; [done|]. unfold overwrite. rewrite take_0. cbn [app]. rewrite <- app_assoc. split_and!.
  - unfold zlen in *. rewrite !length_app, length_drop. simpl in *. lia.
  - apply c_str_app. by apply Forall_take.
  - apply elem_of_app. right. left.
  - rewrite (app_assoc _ [NUL]). set (start := take _ (c_str src) ++ [NUL]).
    assert (length start <= Z.to_nat n)%nat as Hl by (unfold start, zlen in *; rewrite length_app; simpl; lia).
    rewrite drop_app_ge by done. rewrite drop_drop. f_equal. simpl. lia.
Qed.

Lemma length_packet_bytes o l p : length (packet_bytes o l p) = (8 + length p)%nat.
Proof. unfold packet_bytes. rewrite !length_app, !length_le_split. lia. Qed.

Lemma take_take_prefix {A} (l k : list A) n m :
  (n <= m)%nat -> take m l = take m k -> take n l = take n k.
Proof.
  intros Hn E. apply (f_equal (take n)) in E. by rewrite !take_take, Nat.min_l in E by lia.
Qed.

Lemma buffer_header_of buf o p (n : nat) :
  0 <= o < 2 ^ 32 -> zlen p < 2 ^ 32 -> (8 <= n)%nat ->
  take n buf = take n (packet_bytes o (zlen p) p) ->
  buffer_op buf = o /\ buffer_length buf = zlen p.
Proof.
  intros Ho Hp Hn E. apply (take_take_prefix _ _ 8) in E; [|done].
  assert (take 8 buf = le_split 4 o ++ le_split 4 (zlen p)) as E8.
  { rewrite E. unfold packet_bytes. rewrite app_assoc. apply take_app_length'.
    by rewrite length_app, !length_le_split. }
  unfold buffer_op, buffer_length. pose proof (zlen_nonneg p). split.
  - replace (take 4 buf) with (take 4 (take 8 buf)) by (by rewrite take_take).
    rewrite E8, take_app_length' by (by rewrite length_le_split).
    rewrite le_combine_split. apply Z.mod_small. simpl. lia.
  - replace (take 4 (drop 4 buf)) with (drop 4 (take 8 buf)) by (by rewrite take_drop_commute).
    rewrite E8, drop_app_length' by (by rewrite length_le_split).
    rewrite le_combine_split. apply Z.mod_small. simpl. lia.
Qed.

(** ** Reading a packet in pieces *)

Section Read.
Context (D : descriptor) (pending : dstate D -> list byte) (mu : dstate D -> nat).
Context (HD : readable D pending mu).
Context (o : Z) (p : list byte) (rest : list byte).
Context (Ho : 0 <= o < 2 ^ 32) (Hp : zlen p <= BCD_PACKET_LIMIT).

Definition packet : list byte := packet_bytes o (zlen p) p.

(** The first [ac] bytes of the packet are in the buffer, the others are still to come. *)
Definition holds (buf : list byte) (ac : Z) (e : dstate D) : Prop :=
  length buf = session_size /\ 0 <= ac /\
  take (Z.to_nat ac) buf = take (Z.to_nat ac) packet /\
  pending e = drop (Z.to_nat ac) packet ++ rest.

Definition partial (s : bcd_session) (e : dstate D) : Prop :=
  offset s < zlen packet /\ holds (buffer s) (offset s) e.

(** What a call of [bcd_read_request] may end in. *)
Definition read_outcome (s : bcd_session) (r : io_result) (e : dstate D) : Prop :=
  match r with
  | Complete s' =>
      s' = set_offset s 0 (buffer s') /\ length (buffer s') = session_size /\
      take (length packet) (buffer s') = packet /\ pending e = rest
  | WouldBlock s' =>
      s' = set_offset s (offset s') (buffer s') /\ offset s <= offset s' /\ partial s' e
  | ChildExit _ _ => False
  end.

Lemma packet_length_eq : zlen packet = 8 + zlen p.
Proof. unfold packet, zlen. rewrite length_packet_bytes. lia. Qed.

(** Receiving a piece of the packet. *)
Lemma holds_read buf ac bs e e' :
  holds buf ac e -> pending e = bs ++ pending e' -> ac + zlen bs <= zlen packet ->
  holds (overwrite buf ac bs) (ac + zlen bs) e'.
Proof.
  intros (Hlen & Hac & Htake & Hpend) Hbs Hfit. pose proof packet_length_eq as Hpl.
  unfold BCD_PACKET_LIMIT in *. pose proof (zlen_nonneg bs) as Hb.
  assert (zlen buf = 1032) as Hz by (unfold zlen; by rewrite Hlen).
  rewrite Hpend in Hbs.
  assert (bs = take (length bs) (drop (Z.to_nat ac) packet)) as Hpre.
  { apply (f_equal (take (length bs))) in Hbs. rewrite take_app_length in Hbs.
    rewrite take_app_le in Hbs; [done|]. rewrite length_drop. unfold zlen in *. lia. }
  split_and!.
  - rewrite length_overwrite; [done | done | lia].
  - lia.
  - rewrite take_overwrite by lia. rewrite Htake, Hpre at 1.
    replace (Z.to_nat (ac + zlen bs)) with (Z.to_nat ac + length bs)%nat by (unfold zlen; lia).
    by rewrite take_take_drop.
  - replace (Z.to_nat (ac + zlen bs)) with (Z.to_nat ac + length bs)%nat by (unfold zlen; lia).
    rewrite <- drop_drop. apply (f_equal (drop (length bs))) in Hbs.
    rewrite drop_app_length in Hbs. rewrite <- Hbs, drop_app_le; [done|].
    rewrite length_drop. unfold zlen in *. lia.
Qed.

Lemma holds_pending buf ac e : holds buf ac e -> ac < zlen packet -> pending e <> [].
Proof.
  intros (_ & ? & _ & Hpd) Hac Hemp. rewrite Hemp in Hpd. symmetry in Hpd. apply app_eq_nil in Hpd as [Hpd _].
  apply (f_equal length) in Hpd. rewrite length_drop in Hpd. cbn [length] in Hpd. unfold zlen in *. lia.
Qed.

Lemma holds_all s buf ac e :
  holds buf ac e -> ac = zlen packet -> read_outcome s (Complete (set_offset s 0 buf)) e.
Proof.
  intros (? & ? & Ht & Hpd) ->. unfold zlen in Ht, Hpd. rewrite Nat2Z.id in Ht, Hpd.
  split_and!; [done | done | cbn [buffer set_offset] |].
  - rewrite Ht. by rewrite firstn_all.
  - by rewrite Hpd, skipn_all.
Qed.

(** The number of payload bytes the loop goes for once it has read [ac] bytes. *)
Definition target_at (ac : Z) : Z := if decide (ac < 8) then 0 else zlen p.

Lemma read_request_loop_progress fuel s ac buf e :
  holds buf ac e -> offset s <= ac < zlen packet ->
  (mu e + Z.to_nat (zlen packet - ac) < fuel)%nat ->
  exists r e', read_request_loop D fuel s ac (target_at ac) buf e = Some (r, e') /\ read_outcome s r e'.
Proof.
  pose proof packet_length_eq as Hpl. pose proof (zlen_nonneg p). unfold BCD_PACKET_LIMIT in *.
  revert ac buf e. induction fuel as [|fuel IH]; intros ac buf e Hh Hac Hf; [lia|].
  cbn [read_request_loop]. unfold sizeof_packet.
  assert (0 <= ac) as Hnn by apply Hh.
  assert (ac < 8 + target_at ac) as Htgt by (unfold target_at; case_decide; lia).
  assert (8 + target_at ac <= zlen packet) as Hmax by (unfold target_at; case_decide; lia).
  rewrite u64_small by lia.
  destruct (sys_read D e (8 + target_at ac - ac)) as [r e'] eqn:Er.
  destruct (rd_mu _ _ _ HD _ _ _ _ Er) as [Hmu Hint]. destruct r as [errno|bs].
  - destruct (rd_error _ _ _ HD _ _ _ _ Er) as [Hpend [-> | ->]].
    + rewrite decide_True by done. rewrite decide_True by done.
      specialize (Hint eq_refl). apply IH; [|done|lia].
      destruct Hh as (? & ? & ? & ?). split_and!; congruence || lia.
    + rewrite decide_False by done. rewrite decide_True by done.
      do 2 eexists. split; [done|]. split_and!; [done | simpl; lia |].
      destruct Hh as (? & ? & ? & ?). split; [simpl; lia|]. split_and!; simpl; congruence || lia.
  - destruct (rd_bytes _ _ _ HD _ _ _ _ Er ltac:(lia)) as (Hbs & Hn & Hne).
    destruct bs as [|b bs'].
    { exfalso. destruct (Hne eq_refl) as [?|Hemp]; [lia|]. eapply holds_pending; [exact Hh | lia | done]. }
    set (bs := b :: bs') in *.
    assert (1 <= zlen bs) as Hpos by (unfold zlen; simpl; lia). clearbody bs.
    apply (holds_read _ _ _ _ _ Hh) in Hbs as Hh'; [|lia].
    assert (forall r, r = target_at (ac + zlen bs) ->
      exists res e2, (if decide (ac + zlen bs < 8 + r)
         then read_request_loop D fuel s (ac + zlen bs) r (overwrite buf ac bs) e'
         else Some (Complete (set_offset s 0 (overwrite buf ac bs)), e')) = Some (res, e2) /\
        read_outcome s res e2) as Hagain.
    { intros r ->. case_decide as Hc.
      - apply IH; [done | | lia]. unfold target_at in Hc. case_decide; lia.
      - do 2 eexists. split; [done|]. apply (holds_all s _ (ac + zlen bs)); [done|].
        unfold target_at in Hc, Hn, Hmax. repeat case_decide; lia. }
    assert (target_at ac = 0 \/ 8 <= ac) as Hcase by (unfold target_at; case_decide; auto with lia).
    case_decide as Hge.
    + assert (buffer_length (overwrite buf ac bs) = zlen p) as ->.
      { destruct Hh' as (_ & _ & Ht & _).
        apply (buffer_header_of _ o p _) in Ht as [_ ?]; [done | done | lia | lia]. }
      rewrite decide_False by (unfold BCD_PACKET_LIMIT; lia). apply Hagain. unfold target_at. rewrite decide_False by lia. done.
    + apply Hagain. unfold target_at. rewrite !decide_True by lia. done.
Qed.

End Read.

(** A session that waits for a request starts at the beginning of the packet. *)
Lemma read_request_start D pending mu (HD : readable D pending mu) o p rest s e fuel :
  0 <= o < 2 ^ 32 -> zlen p <= BCD_PACKET_LIMIT ->
  length (buffer s) = session_size -> offset s = 0 -> pending e = packet o p ++ rest ->
  (mu e + length (packet o p) < fuel)%nat ->
  exists r e', bcd_read_request D fuel s e = Some (r, e') /\ read_outcome D pending o p rest s r e'.
Proof.
  intros Ho Hp Hlen Hoff Hpend Hf. unfold bcd_read_request. rewrite Hoff.
  rewrite decide_False by done. change 0 with (target_at p 0) at 2.
  apply (read_request_loop_progress D pending mu HD); [done | done | by split_and! | |].
  - rewrite Hoff. split; [done|]. unfold packet, zlen. rewrite length_packet_bytes. lia.
  - unfold zlen. lia.
Qed.

Lemma read_request_progress D pending mu (HD : readable D pending mu) o p rest s e fuel :
  0 <= o < 2 ^ 32 -> zlen p <= BCD_PACKET_LIMIT ->
  partial D pending o p rest s e -> offset s <> sizeof_packet ->
  (mu e + Z.to_nat (zlen (packet o p) - offset s) < fuel)%nat ->
  exists r e', bcd_read_request D fuel s e = Some (r, e') /\ read_outcome D pending o p rest s r e'.
Proof.
  intros Ho Hp (Hlt & Hh) Hne Hf. unfold bcd_read_request, sizeof_packet in *.
  assert ((if decide (offset s > 8) then buffer_length (buffer s) else 0) = target_at p (offset s))
    as ->.
  { unfold target_at. repeat case_decide; try lia. destruct Hh as (_ & _ & Ht & _).
    unfold BCD_PACKET_LIMIT in *.
    apply (buffer_header_of _ o p _) in Ht as [_ ?]; [done | done | lia | lia]. }
  by apply (read_request_loop_progress D pending mu HD).
Qed.

(** C26: A request is put together whatever pieces the descriptor delivers it in, over as many
    calls as it takes: a call of [bcd_read_request] on a session that has part of a packet,
    except exactly its header, ends with the packet in the buffer and the following
    bytes unread, or with a session that has a longer part of it. *)
Theorem read_request_resumes D pending mu (HD : readable D pending mu) o p rest s e fuel :
  0 <= o < 2 ^ 32 -> zlen p <= BCD_PACKET_LIMIT ->
  partial D pending o p rest s e -> offset s <> sizeof_packet ->
  (mu e + Z.to_nat (zlen (packet o p) - offset s) < fuel)%nat ->
  exists r e', bcd_read_request D fuel s e = Some (r, e') /\ read_outcome D pending o p rest s r e'.
Proof. apply read_request_progress, HD. Qed.

(** When the descriptor has delivered exactly the header, the next call asks for zero
    bytes, takes the answer for the end of the stream and ends the monitor, although the
    rest of the packet is still to come. *)
Theorem read_request_boundary D s e e' fuel :
  offset s = sizeof_packet -> terminated s = false ->
  sys_read D e 0 = (inr [], e') ->
  bcd_read_request D (S fuel) s e = Some (ChildExit "unexpected termination of stream" 0, e').
Proof.
  intros Hs Ht Hr. unfold bcd_read_request. rewrite Hs. rewrite decide_False by lia.
  cbn [read_request_loop]. change (u64 (sizeof_packet + 0 - sizeof_packet)) with 0.
  by rewrite Hr, Ht.
Qed.

(** ** From the client to the monitor *)

(** [sent]: the bytes handed to the kernel. Writing some bytes takes at least one of them;
    nothing else changes what has been sent. *)
Record writable (D : descriptor) (sent : dstate D -> list byte) : Prop := {
  wr_bytes e bs r e' : sys_write D e bs = (inr r, e') ->
    0 <= r <= zlen bs /\ (bs <> [] -> r <> 0) /\ sent e' = sent e ++ take (Z.to_nat r) bs;
  wr_error e bs errno e' : sys_write D e bs = (inl errno, e') -> sent e' = sent e;
  wr_read e n r e' : sys_read D e n = (r, e') -> sent e' = sent e;
  wr_select e tv r e' : sys_select D e tv = (r, e') -> sent e' = sent e;
  wr_time e t e' : os_time D e = (t, e') -> sent e' = sent e
}.

Section Write.
Context (D : descriptor) (sent : dstate D -> list byte) (HD : writable D sent) (timeout : Z).

Lemma fd_wait_sent fuel t e r e' :
  bcd_io_fd_wait D timeout fuel t e = Some (r, e') -> sent e' = sent e.
Proof.
  revert e. induction fuel as [|fuel IH]; intros e; [done|]. cbn [bcd_io_fd_wait].
  destruct (os_time D e) as [now e1] eqn:Et. apply (wr_time _ _ HD) in Et.
  match goal with |- context [sys_select D e1 ?tv] =>
    destruct (sys_select D e1 tv) as [sel e2] eqn:Es end.
  apply (wr_select _ _ HD) in Es. destruct sel as [errno|n].
  - case_decide; [|naive_solver congruence]. intros ->%IH. congruence.
  - naive_solver congruence.
Qed.

Lemma fd_read_sent fuel got n t e r errno bs e' :
  bcd_io_fd_read D timeout fuel got n t e = Some (r, errno, bs, e') -> sent e' = sent e.
Proof.
  revert got e. induction fuel as [|fuel IH]; intros got e; [done|]. cbn [bcd_io_fd_read].
  destruct (sys_read D e _) as [a e1] eqn:Er. apply (wr_read _ _ HD) in Er.
  destruct a as [err|[|b bs']].
  - case_decide; [intros ->%IH; congruence|]. case_decide; [|naive_solver congruence].
    intros Hq. bind_inv Hq. apply fd_wait_sent in Hx. case_decide; [apply IH in Hq; congruence|].
    naive_solver congruence.
  - naive_solver congruence.
  - case_decide; [naive_solver congruence|]. intros ->%IH. congruence.
Qed.

(** [bcd_io_fd_write] sends all of it, or a part and fails. *)
Lemma fd_write_sent fuel ac b t e r errno e' :
  0 <= ac < zlen b -> bcd_io_fd_write D timeout fuel ac b t e = Some (r, errno, e') ->
  (r = zlen b /\ sent e' = sent e ++ drop (Z.to_nat ac) b) \/ r = -1.
Proof.
  revert ac e. induction fuel as [|fuel IH]; intros ac e Hac; [done|]. cbn [bcd_io_fd_write].
  destruct (sys_write D e _) as [a e1] eqn:Ew. destruct a as [err|n].
  - apply (wr_error _ _ HD) in Ew. case_decide; [intros Hq%IH; [by rewrite Ew in Hq | done]|].
    case_decide; [|intros; simplify_eq; by right].
    intros Hq. bind_inv Hq. apply fd_wait_sent in Hx.
    case_decide; [|simplify_eq; by right]. apply IH in Hq; [|done]. by rewrite Hx, Ew in Hq.
  - apply (wr_bytes _ _ HD) in Ew as (Hn & Hnz & Hs). unfold zlen in *.
    rewrite length_drop in Hn. case_decide as Hz.
    { exfalso. apply Hnz; [|done]. intros E. apply (f_equal length) in E.
      rewrite length_drop in E. simpl in E. lia. }
    case_decide as Hall.
    + intros E. simplify_eq. left. split; [lia|]. rewrite Hs, take_ge; [done|].
      rewrite length_drop. lia.
    + intros [[-> Hr] | ->]%IH; [left | by right | lia]. split; [done|].
      rewrite Hr, Hs, <- app_assoc. f_equal.
      replace (Z.to_nat (ac + n)) with (Z.to_nat ac + Z.to_nat n)%nat by lia.
      rewrite <- drop_drop. apply take_drop.
Qed.

(** What it has sent when it fails is a beginning. *)
Lemma fd_write_prefix fuel ac b t e r errno e' :
  0 <= ac < zlen b -> bcd_io_fd_write D timeout fuel ac b t e = Some (r, errno, e') ->
  exists part, part `prefix_of` drop (Z.to_nat ac) b /\ sent e' = sent e ++ part /\ (r = -1 \/ part = drop (Z.to_nat ac) b).
Proof.
  revert ac e. induction fuel as [|fuel IH]; intros ac e Hac; [done|]. cbn [bcd_io_fd_write].
  destruct (sys_write D e _) as [a e1] eqn:Ew. destruct a as [err|n].
  - apply (wr_error _ _ HD) in Ew. rewrite <- Ew. case_decide; [by intros Hq%IH|].
    case_decide; [|intros; simplify_eq; exists []; rewrite app_nil_r; auto using prefix_nil].
    intros Hq. bind_inv Hq. apply fd_wait_sent in Hx. rewrite <- Hx.
    case_decide; [by apply IH in Hq | simplify_eq; exists []; rewrite app_nil_r; auto using prefix_nil].
  - apply (wr_bytes _ _ HD) in Ew as (Hn & Hnz & Hs).
    assert (zlen (drop (Z.to_nat ac) b) = zlen b - ac) as Hd by (unfold zlen in *; rewrite length_drop; lia).
    rewrite decide_False by (apply Hnz; intros Hemp; rewrite Hemp, zlen_nil in Hd; lia).
    case_decide as Hall.
    + intros E. simplify_eq. eexists. rewrite Hs. split_and!; [apply prefix_take | done |].
      right. apply take_ge. unfold zlen in *. lia.
    + intros (part & Hp & -> & Hor)%IH; [|lia]. rewrite Hs, <- app_assoc.
      assert (take (Z.to_nat n) (drop (Z.to_nat ac) b) ++ drop (Z.to_nat (ac + n)) b = drop (Z.to_nat ac) b) as Hcut.
      { replace (Z.to_nat (ac + n)) with (Z.to_nat ac + Z.to_nat n)%nat by lia. rewrite <- drop_drop. apply take_drop. }
      set (first := take (Z.to_nat n) (drop (Z.to_nat ac) b)) in *. rewrite <- Hcut. exists (first ++ part).
      split_and!; [by apply prefix_app | done | destruct Hor as [-> | ->]; [by left | by right]].
Qed.

Lemma request_sent fuel o p failure close e r error closed e' :
  request D timeout fuel o p failure close e = Some (r, error, closed, e') ->
  r <> -1 -> sent e' = sent e ++ packet o p.
Proof.
  unfold request. destruct (os_time D e) as [now e1] eqn:Et. apply (wr_time _ _ HD) in Et.
  intros H Hr. bind_inv H. unfold bcd_sb_write in Hx.
  apply fd_write_sent in Hx as [[Hx Hs]|Hx].
  - case_decide; [naive_solver|]. bind_inv H. simplify_eq.
    unfold bcd_channel_read_ack in Hx0. bind_inv Hx0. apply fd_read_sent in Hx.
    assert (e' = d0) as -> by (repeat (case_decide || simplify_eq || done)).
    by rewrite Hx, Hs, Et.
  - rewrite Hx in H. rewrite decide_True in H by done. simplify_eq.
  - unfold zlen. rewrite length_packet_bytes. lia.
Qed.

End Write.

Lemma no_nul_app_inv bs rest bs' rest' :
  no_nul bs -> no_nul bs' -> bs ++ NUL :: rest = bs' ++ NUL :: rest' -> bs = bs' /\ rest = rest'.
Proof.
  intros Hb Hb' E. pose proof (f_equal c_str E) as Hs. rewrite !c_str_app in Hs by done. subst.
  split; [done|]. apply app_inv_head in E. by simplify_eq.
Qed.

Definition kv_request (k v : list byte) : list byte := k ++ [NUL] ++ v ++ [NUL].

(** The packet of a buffer that starts with the bytes of one. *)
Lemma packet_of_buffer o p buf :
  0 <= o < 2 ^ 32 -> zlen p <= BCD_PACKET_LIMIT -> length buf = session_size ->
  take (length (packet o p)) buf = packet o p ->
  op (packet_of buf) = o /\ packet_ok (packet_of buf) /\ packet_length (packet_of buf) = zlen p /\
  exists rest, payload (packet_of buf) = p ++ rest.
Proof.
  intros Ho Hfit Hlen Hpkt. pose proof (zlen_nonneg p). unfold BCD_PACKET_LIMIT in *.
  assert (length (packet o p) = (8 + length p)%nat) as Hl by apply length_packet_bytes.
  destruct (buffer_header_of buf o p (length (packet o p))) as [Hop Hbl];
    [done | lia | lia | by rewrite Hpkt, firstn_all |].
  cbn [packet_of op packet_length payload]. split_and!; [done | split; cbn [packet_of payload packet_length] | done |].
  - unfold zlen. rewrite length_drop, Hlen. done.
  - rewrite Hbl. unfold BCD_PACKET_LIMIT. lia.
  - exists (drop (8 + length p) buf).
    rewrite <- (take_drop (length p) (drop 8 buf)) at 1. rewrite drop_drop.
    rewrite take_drop_commute, <- Hl, Hpkt. unfold packet, packet_bytes.
    by rewrite app_assoc, drop_app_length' by (by rewrite length_app, !length_le_split).
Qed.

(** A buffer that starts with the packet of [bcd_kv] is one [bcd_kv_set] accepts. *)
Lemma kv_request_payload k v buf :
  c_string k -> no_nul v -> zlen (kv_request k v) <= BCD_PACKET_LIMIT ->
  length buf = session_size ->
  take (length (packet BCD_OP_KV (kv_request k v))) buf = packet BCD_OP_KV (kv_request k v) ->
  op (packet_of buf) = BCD_OP_KV /\ packet_ok (packet_of buf) /\ kv_payload (packet_of buf) k v.
Proof.
  intros Hk Hv Hfit Hlen Hpkt.
  destruct (packet_of_buffer BCD_OP_KV (kv_request k v) buf) as (? & ? & Hpl & rest & E);
    [by unfold BCD_OP_KV | done..|].
  split_and!; [done | done |]. split_and!; [done | done | rewrite Hpl; unfold kv_request; zlia |].
  exists rest. rewrite E. unfold kv_request. by rewrite <- !app_assoc.
Qed.

(** A key-value pair gets from the client to the list of the monitor. When [bcd_kv]
    succeeds it has sent one packet; a monitor whose session waits for a request and whose
    descriptor delivers that packet, in whatever pieces, has a part of it or all of it
    after a call of [bcd_read_request], and when it has all of it, carrying the request out
    puts the pair at the head of the list. *)
Theorem kv_transfer Dc sent timeout fuel_c k v e error closed e'
    Dm pending mu fuel rest s em cf al K kst kfuel g :
  writable Dc sent -> readable Dm pending mu ->
  c_string k -> no_nul v ->
  bcd_kv Dc timeout fuel_c k v e = Some (0, error, closed, e') ->
  wf g -> room g ->
  length (buffer s) = session_size -> offset s = 0 ->
  exists sent_bytes, sent e' = sent e ++ sent_bytes /\
  (pending em = sent_bytes ++ rest -> (mu em + length sent_bytes < fuel)%nat ->
   exists r em', bcd_read_request Dm fuel s em = Some (r, em') /\
     match r with
     | Complete s' =>
         pending em' = rest /\
         exists g', bcd_perform_request cf al K None kfuel s' kst g = Some (Performed s' g') /\
           kv_list g' = KV k v :: filter (fun c => key c <> k) (kv_list g) /\ wf g'
     | WouldBlock s' =>
         pending em' = drop (Z.to_nat (offset s')) sent_bytes ++ rest /\ 0 <= offset s' < zlen sent_bytes
     | ChildExit _ _ => False
     end).
Proof.
  intros HDc HDm Hk Hv Hkv W R Hbuf Hoff. exists (packet BCD_OP_KV (kv_request k v)).
  unfold bcd_kv in Hkv. case_decide as Hfit; [done|].
  assert (zlen (kv_request k v) <= BCD_PACKET_LIMIT) as Hfit' by (unfold kv_request; zlia).
  split; [by apply (request_sent Dc sent HDc timeout) in Hkv|].
  intros Hpend Hf.
  destruct (read_request_start Dm pending mu HDm BCD_OP_KV (kv_request k v) rest s em fuel)
    as (r & em' & Hr & Hp); [by unfold BCD_OP_KV | done | done | done | done | done |].
  exists r, em'. split; [done|]. destruct r as [s'|s'|]; [| | done].
  - destruct Hp as (_ & Hlen & Hpkt & Hrest). split; [done|].
    destruct (kv_request_payload k v (buffer s')) as (Hop & Hok & Hpl); [done..|].
    unfold bcd_perform_request. rewrite Hop. do 1 (rewrite decide_False by done).
    rewrite decide_True by done.
    destruct (kv_set_inserts (session_thread s') _ g k v W R Hok Hpl) as (g' & -> & W' & Hl & _).
    bind_simpl. by exists g'.
  - destruct Hp as (_ & _ & Hlt & _ & Hac & _ & Hpd). done.
Qed.

(** ** No step of a session changes its state *)

Lemma read_request_loop_state D fuel s ac target buf e r e' :
  read_request_loop D fuel s ac target buf e = Some (r, e') ->
  match r with Complete s' | WouldBlock s' => state s' = state s | ChildExit _ _ => True end.
Proof.
  revert ac target buf e. induction fuel as [|fuel IH]; intros ac target buf e; [done|].
  cbn [read_request_loop]. destruct (sys_read D e _) as [[errno|[|b bs]] e1].
  - repeat case_decide; first [by intros ?%IH | by intros [= <- <-]].
  - destruct (terminated s); by intros [= <- <-].
  - repeat case_decide; first [by intros ?%IH | by intros [= <- <-]].
Qed.

Lemma read_request_state D fuel s e r e' :
  bcd_read_request D fuel s e = Some (r, e') ->
  match r with Complete s' | WouldBlock s' => state s' = state s | ChildExit _ _ => True end.
Proof. apply read_request_loop_state. Qed.

Lemma write_ack_loop_state D fuel s ac e r e' :
  write_ack_loop D fuel s ac e = Some (r, e') ->
  match r with Complete s' | WouldBlock s' => state s' = state s | ChildExit _ _ => True end.
Proof.
  revert ac e. induction fuel as [|fuel IH]; intros ac e; [done|].
  cbn [write_ack_loop]. destruct (sys_write D e _) as [[errno|n] e1];
    repeat case_decide; first [by intros ?%IH | by intros [= <- <-]].
Qed.

Lemma write_ack_state D fuel s e r e' :
  bcd_write_ack D fuel s e = Some (r, e') ->
  match r with Complete s' | WouldBlock s' => state s' = state s | ChildExit _ _ => True end.
Proof. intros Hr%write_ack_loop_state. by destruct r. Qed.

Lemma perform_request_state cf al K malloc fuel s k g s' g' :
  bcd_perform_request cf al K malloc fuel s k g = Some (Performed s' g') -> state s' = state s.
Proof.
  unfold bcd_perform_request, after_trace. intros Hp.
  repeat (case_decide || (bind_inv Hp; simplify_eq) || done);
    repeat (case_match || simplify_eq || done).
Qed.

(** When the acknowledgement cannot be written at once the handler leaves the session in
    the state in which it reads: the next event reads a request, at the offset that counts
    the bytes of the acknowledgement, and the rest of the acknowledgement is never sent. *)
Theorem ack_not_resumed D cf al K malloc fuel s e k g s' g' e' :
  bcd_handler_request_response D cf al K malloc fuel s e k g = Some (AwaitWrite s' g', e') ->
  state s = BCD_SESSION_READING ->
  state s' = BCD_SESSION_READING /\
  forall fuel2 e2 k2 g2,
    bcd_handler_request_response D cf al K malloc fuel2 s' e2 k2 g2 =
      ('(r, e3) ← bcd_read_request D fuel2 s' e2;
       match r with
       | WouldBlock s3 => Some (AwaitRead s3 g2, e3)
       | ChildExit message code => Some (Died message code, e3)
       | Complete s3 =>
           if terminated s3 then Some (Closed g2, e3)
           else
             p ← bcd_perform_request cf al K malloc fuel2 s3 k2 g2;
             match p with
             | Performed s3 g3 => write_phase D fuel2 s3 e3 g3
             | Gone finish => Some (Ended finish, e3)
             end
       end).
Proof.
  intros Hh Hs. assert (state s' = BCD_SESSION_READING) as Hs'; [|split; [done|]].
  2: { intros. unfold bcd_handler_request_response. by rewrite Hs'. }
  revert Hh. unfold bcd_handler_request_response. rewrite Hs.
  destruct (bcd_read_request D fuel s e) as [[r e1]|] eqn:Er; [|done]. bind_simpl.
  apply read_request_state in Er. destruct r as [s1|s1|]; try done.
  destruct (terminated s1); [done|].
  destruct (bcd_perform_request cf al K malloc fuel s1 k g) as [[s2 g2|]|] eqn:Ep; try done.
  bind_simpl. apply perform_request_state in Ep. unfold write_phase.
  destruct (bcd_write_ack D fuel s2 e1) as [[w e2]|] eqn:Ew; [|done]. bind_simpl.
  apply write_ack_state in Ew. destruct w as [s3|s3|]; try done.
  - unfold after_io. by destruct (terminated s3).
  - intros [= <- <- <-]. congruence.
Qed.

(** ** Witnesses *)

Lemma toy_readable : readable toy inbox hiccups.
Proof.
  split; intros [k i w] n; simpl; unfold toy_read; simpl.
  - intros bs e' H Hn. destruct k; simplify_eq. simpl. split_and!.
    + by rewrite take_drop.
    + unfold zlen. rewrite length_take. lia.
    + intros Hbs. apply (f_equal length) in Hbs. rewrite length_take in Hbs. simpl in Hbs.
      destruct i; [by right | left; simpl in Hbs; lia].
  - intros errno e' H. destruct k as [|k]; simplify_eq. split; [done|]. unfold hiccup.
    destruct (Nat.even k); auto.
  - intros r e' H. destruct k as [|k]; simplify_eq; simpl; split; (lia || done).
Qed.

Lemma toy_writable : writable toy outbox.
Proof.
  split; intros [k i w]; simpl; unfold toy_write, toy_read; simpl.
  - intros bs r e' H. destruct k; simplify_eq. simpl. unfold zlen. split_and!.
    + lia.
    + rewrite length_take. lia.
    + intros Hne H0. apply Hne. destruct bs; [done|]. simpl in H0. lia.
    + by rewrite Nat2Z.id, length_take, <- take_take, firstn_all.
  - intros bs errno e' H. by destruct k; simplify_eq.
  - intros n r e' H. by destruct k; simplify_eq.
  - intros tv r e' H. by simplify_eq.
  - intros t e' H. by simplify_eq.
Qed.

Definition sample_payload : list byte := kv_request (bytes_of "b") (bytes_of "22").
Definition sample_bytes : list byte := packet BCD_OP_KV sample_payload.

(** Two bytes have been received; there are two hiccups to come. *)
Definition partial_session : bcd_session :=
  set_offset new_session 2 (overwrite (buffer new_session) 0 (take 2 sample_bytes)).
Definition partial_pipe : pipe_end := PipeEnd 2 (drop 2 sample_bytes ++ [NUL]) [].

Lemma read_request_resumes_witness :
  partial toy inbox BCD_OP_KV sample_payload [NUL] partial_session partial_pipe /\
  exists r e', bcd_read_request toy 40 partial_session partial_pipe = Some (r, e') /\
    read_outcome toy inbox BCD_OP_KV sample_payload [NUL] partial_session r e'.
Proof.
  assert (partial toy inbox BCD_OP_KV sample_payload [NUL] partial_session partial_pipe) as P.
  { split; [by_compute | split_and!; [by_compute | by_compute | by_compute | by_compute]]. }
  split; [exact P|].
  apply (read_request_resumes toy inbox hiccups toy_readable BCD_OP_KV sample_payload [NUL]
    partial_session partial_pipe 40); [by_compute | by_compute | exact P | by_compute | by_compute].
Defined.

(** A session that has received exactly the header. *)
Definition header_session : bcd_session :=
  set_offset new_session 8 (overwrite (buffer new_session) 0 (take 8 sample_bytes)).

Lemma read_request_boundary_witness :
  bcd_read_request toy 40 header_session (PipeEnd 0 (drop 8 sample_bytes) []) =
    Some (ChildExit "unexpected termination of stream" 0, PipeEnd 0 (drop 8 sample_bytes) []).
Proof.
  exact (read_request_boundary toy header_session (PipeEnd 0 (drop 8 sample_bytes) [])
    (PipeEnd 0 (drop 8 sample_bytes) []) 39 eq_refl eq_refl eq_refl).
Defined.

Lemma kv_transfer_witness :
  wf sample_metadata /\ room sample_metadata /\
  exists r em', bcd_read_request toy 40 new_session (PipeEnd 1 sample_bytes []) = Some (r, em') /\
    match r with
    | Complete s' =>
        exists g', bcd_perform_request sample_invoke all_succeed (stopping_kernel 0) None 5 s' 0%nat
            sample_metadata = Some (Performed s' g') /\
          kv_list g' = [KV (bytes_of "b") (bytes_of "22"); KV (bytes_of "a") (bytes_of "1")]
    | WouldBlock s' => 0 <= offset s' < zlen sample_bytes
    | ChildExit _ _ => False
    end.
Proof.
  assert (wf sample_metadata) as W by by_compute.
  assert (room sample_metadata) as R by by_compute.
  split_and!; [exact W | exact R |].
  destruct (kv_transfer toy outbox 30 40 (bytes_of "b") (bytes_of "22")
    (PipeEnd 2 (packet_bytes BCD_OP_OK 0 []) []) None false (PipeEnd 0 [] sample_bytes)
    toy inbox hiccups 40 [] new_session (PipeEnd 1 sample_bytes [])
    sample_invoke all_succeed (stopping_kernel 0) 0%nat 5 sample_metadata
    toy_writable toy_readable) as (bytes & Hsent & Hread);
    [by_compute | by_compute | vm_compute; reflexivity | exact W | exact R | by_compute | by_compute |].
  assert (bytes = sample_bytes) as -> by (symmetry; exact Hsent).
  destruct Hread as (r & em' & Hr & Hm); [by rewrite app_nil_r | by_compute |].
  exists r, em'. split; [exact Hr|]. destruct r as [s'|s'|m c].
  - destruct Hm as (_ & g' & Hg & Hl & _). exists g'. split; [exact Hg|]. rewrite Hl. reflexivity.
  - exact (proj2 Hm).
  - exact Hm.
Defined.

(** The descriptor of a client that does not read: the acknowledgement does not fit. *)
Definition full_pipe : descriptor :=
  {| dstate := pipe_end; sys_read := toy_read; sys_write e _ := (inl EAGAIN, e);
     sys_select e _ := (inr 1, e); os_time e := (0, e) |}.

Lemma ack_not_resumed_witness :
  exists s' g' e',
    bcd_handler_request_response full_pipe sample_invoke all_succeed (stopping_kernel 0) None 40
      new_session (PipeEnd 0 sample_bytes []) 0%nat sample_metadata = Some (AwaitWrite s' g', e') /\
    state s' = BCD_SESSION_READING.
Proof.
  destruct (bcd_handler_request_response full_pipe sample_invoke all_succeed (stopping_kernel 0) None 40
      new_session (PipeEnd 0 sample_bytes []) 0%nat sample_metadata) as [[h e']|] eqn:E;
    [|vm_compute in E; discriminate E].
  assert (exists s' g', h = AwaitWrite s' g') as (s' & g' & ->)
    by (vm_compute in E; injection E as <- _; do 2 eexists; reflexivity).
  exists s', g', e'. split; [reflexivity|].
  exact (proj1 (ack_not_resumed full_pipe sample_invoke all_succeed (stopping_kernel 0) None 40
    new_session (PipeEnd 0 sample_bytes []) 0%nat sample_metadata s' g' e' E eq_refl)).
Defined.
