(* ===== verification/BcdTyped.v ===== *)
(** * Sessions stay within their bounds (src/external/bcd/bcd-amalgamated.c)

    The monitor against a client that sends any bytes: what holds of a session between two calls of
    [bcd_handler_request_response], that every call ends and keeps it, and which requests are carried out without
    undefined behaviour. The descriptor promises nothing but not to transfer more than it is asked for. *)

From S2P Require Import Prelude.
From S2P Require Import Memory.
From S2P Require Import BcdMeta.
From S2P Require Import BcdTracer.
From S2P Require Import BcdChannel.
From S2P Require Import BcdSession.

(** A session of the monitor: the packet has the size of its buffer, the offset counts bytes of a packet whose
    length the header gives, and the thread is an [int]. *)
Record session_typed (s : bcd_session) : Prop := {
  st_buffer : length (buffer s) = session_size;
  st_offset : 0 <= offset s;
  st_packet : 8 <= offset s -> buffer_length (buffer s) <= BCD_PACKET_LIMIT /\ offset s <= 8 + buffer_length (buffer s);
  st_writing : state s = BCD_SESSION_WRITING -> offset s <= 8;
  st_thread : - 2 ^ 31 <= session_thread s < 2 ^ 31
}.

(** [mu]: how often a call may still be interrupted. *)
Record honest (D : descriptor) (mu : dstate D -> nat) : Prop := {
  hn_read e n bs e' : 0 <= n <= 1032 -> sys_read D e n = (inr bs, e') -> zlen bs <= n;
  hn_write e bs r e' : zlen bs <= 8 -> sys_write D e bs = (inr r, e') -> 0 <= r <= zlen bs;
  hn_read_mu e n r e' : sys_read D e n = (r, e') -> (mu e' <= mu e)%nat /\ (r = inl EINTR -> (mu e' < mu e)%nat);
  hn_write_mu e bs r e' : sys_write D e bs = (r, e') -> (mu e' <= mu e)%nat /\ (r = inl EINTR -> (mu e' < mu e)%nat)
}.

(** ** The packet buffer *)

Lemma buffer_length_nonneg buf : 0 <= buffer_length buf.
Proof. unfold buffer_length. apply le_combine_bound. Qed.

Lemma take_buffer_length buf buf' : take 8 buf = take 8 buf' -> buffer_length buf = buffer_length buf'.
Proof.
  intros E. unfold buffer_length. rewrite !take_drop_commute. simpl. by rewrite E.
Qed.

Lemma overwrite_header buf ac bs :
  8 <= ac <= zlen buf -> buffer_length (overwrite buf ac bs) = buffer_length buf.
Proof.
  intros Hac. apply take_buffer_length. pose proof (take_overwrite buf ac bs ltac:(lia) ltac:(lia)) as E.
  apply (f_equal (take 8)) in E. pose proof (zlen_nonneg bs). rewrite take_take, Nat.min_l in E by lia.
  rewrite E, take_app_le by (rewrite length_take; unfold zlen in *; lia). rewrite take_take. f_equal. lia.
Qed.

(** ** Reading and writing *)

Definition result_typed (s : bcd_session) (r : io_result) : Prop :=
  match r with
  | Complete s' | WouldBlock s' =>
      s' = set_offset s (offset s') (buffer s') /\ session_typed s'
  | ChildExit _ _ => True
  end.

(** A complete request has an admissible length. *)
Definition request_typed (s : bcd_session) (r : io_result) : Prop :=
  result_typed s r /\
  match r with
  | Complete s' => terminated s = false -> offset s' = 0 /\ buffer_length (buffer s') <= BCD_PACKET_LIMIT
  | _ => True
  end.

Section Io.
Context (D : descriptor) (mu : dstate D -> nat) (HD : honest D mu).

(** What the loop of [bcd_read_request] has in its variables. *)
Definition reading (s : bcd_session) (ac target : Z) (buf : list byte) : Prop :=
  session_typed (set_offset s ac buf) /\ offset s <= ac /\ ac <= 8 + target /\
  (target = 0 \/ 8 <= ac /\ target = buffer_length buf /\ target <= BCD_PACKET_LIMIT).

Lemma read_loop_typed fuel s ac target buf e :
  session_typed s -> state s = BCD_SESSION_READING -> reading s ac target buf -> (mu e + Z.to_nat (1032 - ac) < fuel)%nat ->
  exists r e', read_request_loop D fuel s ac target buf e = Some (r, e') /\ request_typed s r /\ (mu e' <= mu e)%nat.
Proof.
  intros Hs Hst. revert ac target buf e. induction fuel as [|fuel IH]; intros ac target buf e Hr Hf; [lia|].
  destruct Hr as (Ht & Hoff & Hac & Htgt). pose proof (st_buffer _ Ht) as Hlen. pose proof (st_offset _ Ht) as H0.
  pose proof (buffer_length_nonneg buf). cbn [set_offset buffer offset] in Hlen, H0. unfold BCD_PACKET_LIMIT in *.
  cbn [read_request_loop]. unfold sizeof_packet. rewrite u64_small by lia.
  assert (forall ac target buf e', reading s ac target buf -> (mu e' + Z.to_nat (1032 - ac) < fuel)%nat ->
    (mu e' <= mu e)%nat ->
    exists r e2, (if decide (ac < 8 + target) then read_request_loop D fuel s ac target buf e'
                  else Some (Complete (set_offset s 0 buf), e')) = Some (r, e2) /\
      request_typed s r /\ (mu e2 <= mu e)%nat) as Hagain.
  { intros ac1 t1 buf1 e1 Hr1 Hf1 Hmu. case_decide.
    - destruct (IH _ _ _ _ Hr1 Hf1) as (r & e2 & ? & ? & ?). exists r, e2. split_and!; [done | done | lia].
    - do 2 eexists. split; [done|]. split; [|done]. destruct Hr1 as ([Hl1 _ Hp1 _ Hth1] & _ & _ & Ht1).
      pose proof (buffer_length_nonneg buf1). cbn [set_offset offset buffer] in *. split; [split; [done|]|].
      + split; cbn [set_offset offset buffer state]; [done | lia | lia | lia | done].
      + intros _. cbn [set_offset offset buffer]. split; [done|]. apply Hp1. lia. }
  destruct (sys_read D e (8 + target - ac)) as [r e'] eqn:Er. pose proof (hn_read_mu _ _ HD _ _ _ _ Er) as [Hmu Hint].
  destruct r as [errno|bs].
  { case_decide as Hi; [|case_decide].
    - subst errno. specialize (Hint eq_refl). apply Hagain; [by split_and! | lia | lia].
    - do 2 eexists. split; [done|]. by split_and!.
    - do 2 eexists. split; [done|]. by split_and!. }
  apply (hn_read _ _ HD) in Er as Hn; [|lia]. destruct bs as [|b bs'].
  { destruct (terminated s) eqn:Hterm; do 2 eexists; (split; [done|]); (split; [|done]); [|done]. split; [|by rewrite Hterm].
    split; [done|]. pose proof (st_packet _ Ht) as Hp. cbn [set_offset offset buffer] in Hp. unfold BCD_PACKET_LIMIT in Hp.
    split; [done | apply Hs | | apply Hs | apply Hs]. cbn [set_offset offset buffer]. unfold BCD_PACKET_LIMIT. lia. }
  set (bs := b :: bs') in *. assert (1 <= zlen bs) as Hpos by (unfold zlen; simpl; lia). clearbody bs. clear b bs'.
  assert (zlen buf = 1032) as Hz by (unfold zlen; by rewrite Hlen).
  set (buf' := overwrite buf ac bs). pose proof (buffer_length_nonneg buf').
  assert (8 <= ac -> ac + zlen bs <= 8 + buffer_length buf') as Hfit by (intros; unfold buf'; rewrite overwrite_header; lia).
  assert (length buf' = session_size) as Hlen' by (unfold buf'; by rewrite length_overwrite by lia).
  assert ((8 <= ac + zlen bs -> buffer_length buf' <= BCD_PACKET_LIMIT) -> session_typed (set_offset s (ac + zlen bs) buf')) as Ht'.
  { intros Hp. split; cbn [set_offset offset buffer state]; [done | lia | | by rewrite Hst | apply Hs].
    intros H8. split; [by apply Hp|]. lia. }
  case_decide; [case_decide; [do 2 eexists; (split; [done|]); by split_and!|]|];
    (apply Hagain; [split_and!; [apply Ht'; lia | lia | |] | lia | lia]); [lia | right | lia | left; lia].
  split_and!; [lia | done | lia].
Qed.

Lemma read_request_typed fuel s e :
  session_typed s -> state s = BCD_SESSION_READING -> (mu e + 1032 < fuel)%nat ->
  exists r e', bcd_read_request D fuel s e = Some (r, e') /\ request_typed s r /\ (mu e' <= mu e)%nat.
Proof.
  intros Hs Hst Hf. pose proof (st_offset _ Hs). pose proof (st_packet _ Hs).
  apply read_loop_typed; [done | done | | lia]. split_and!; [by destruct s | lia | |]; case_decide; unfold sizeof_packet in *; lia.
Qed.

Lemma write_loop_typed fuel s ac e :
  session_typed s -> buffer_length (buffer s) <= BCD_PACKET_LIMIT -> 0 <= ac <= 8 -> (mu e + Z.to_nat (8 - ac) < fuel)%nat ->
  exists r e', write_ack_loop D fuel s ac e = Some (r, e') /\ result_typed s r /\ (mu e' <= mu e)%nat.
Proof.
  intros Hs Hp. pose proof (buffer_length_nonneg (buffer s)). assert (forall ac, 0 <= ac <= 8 -> session_typed (set_offset s ac (buffer s))) as Hoff.
  { intros ac1 Hac1. split; cbn [set_offset offset buffer]; [apply Hs | lia | lia | lia | apply Hs]. }
  revert ac e. induction fuel as [|fuel IH]; intros ac e Hac Hf; [lia|]. cbn [write_ack_loop].
  assert (forall ac e', 0 <= ac <= 8 -> (mu e' + Z.to_nat (8 - ac) < fuel)%nat -> (mu e' <= mu e)%nat ->
    exists r e2, (if decide (ac < sizeof_packet) then write_ack_loop D fuel s ac e'
                  else Some (Complete (set_offset s 0 (buffer s)), e')) = Some (r, e2) /\
      result_typed s r /\ (mu e2 <= mu e)%nat) as Hagain.
  { intros ac1 e1 Hac1 Hf1 Hmu. case_decide.
    - destruct (IH _ _ Hac1 Hf1) as (r & e2 & ? & ? & ?). exists r, e2. split_and!; [done | done | lia].
    - do 2 eexists. split; [done|]. split; [|done]. split; [done | by apply Hoff]. }
  assert (zlen (drop (Z.to_nat ac) (take 8 (buffer s))) = 8 - ac) as Hl.
  { unfold zlen. rewrite length_drop, length_take, (st_buffer _ Hs). unfold session_size, sizeof_packet, BCD_PACKET_LIMIT. lia. }
  destruct (sys_write D e _) as [r e'] eqn:Ew. pose proof (hn_write_mu _ _ HD _ _ _ _ Ew) as [Hmu Hint].
  destruct r as [errno|n].
  - case_decide as Hi; [|case_decide].
    + subst errno. specialize (Hint eq_refl). apply Hagain; lia.
    + do 2 eexists. split; [done|]. split; [|done]. split; [done | by apply Hoff].
    + by do 2 eexists.
  - apply (hn_write _ _ HD) in Ew; [|lia]. case_decide; [by do 2 eexists|]. apply Hagain; lia.
Qed.

Lemma write_ack_typed fuel s e :
  session_typed s -> offset s <= 8 -> (mu e + 8 < fuel)%nat ->
  exists r e', bcd_write_ack D fuel s e = Some (r, e') /\
    match r with Complete s' | WouldBlock s' => session_typed s' /\ terminated s' = terminated s | ChildExit _ _ => True end.
Proof.
  intros Hs Hoff Hf. pose proof (st_offset _ Hs) as H0. unfold bcd_write_ack.
  set (s1 := set_offset s _ _). assert (buffer_length (buffer s1) = 0) as Hbl by done. assert (session_typed s1) as Hs1.
  { split; cbn [set_offset offset buffer s1]; [|lia | | lia | apply Hs].
    - rewrite length_overwrite; [apply Hs | done |]. unfold zlen. rewrite (st_buffer _ Hs). by vm_compute.
    - change (buffer_length (overwrite _ _ _)) with 0. unfold BCD_PACKET_LIMIT. lia. }
  destruct (write_loop_typed fuel s1 (offset s1) e Hs1) as (r & e' & -> & Hr & _); [by rewrite Hbl | done | simpl; lia|].
  do 2 eexists. split; [done|]. destruct r; [..|done]; destruct Hr as [Hr ?]; (split; [done | by rewrite Hr]).
Qed.
End Io.

(** ** Carrying a request out *)

Lemma wf_error event tid message code g : wf g -> wf (bcd_error event tid message code g).2.
Proof. intros W. destruct W. by split. Qed.

Lemma run_tracer_wf K fuel tid e g r kills g' : wf g -> run_tracer K fuel tid e g = Returned r kills g' -> wf g'.
Proof.
  intros W Hr. pose proof (run_tracer_uniform K fuel tid tid e g g) as H. rewrite Hr in H.
  destruct r; [by destruct H as [-> _] | by destruct H as (message & code & -> & _); apply wf_error..].
Qed.

Lemma session_perform_typed cf al K malloc fuel s k g s' g' :
  session_typed s -> bcd_perform_request cf al K malloc fuel s k g = Some (Performed s' g') ->
  session_typed s' /\ offset s' = offset s.
Proof.
  intros Hs. unfold bcd_perform_request, after_trace. intros Hp.
  repeat (case_decide || (bind_inv Hp; simplify_eq) || done); repeat (case_match || simplify_eq || done).
  - split; [|done]. split; try apply Hs. cbn [session_thread]. apply i32_range.
  - split; [|done]. split; apply Hs.
Qed.

(** A trace ends and leaves well-formed metadata, unless there are more than [27] arguments. *)
Definition trace_ends (arguments : Z) (result : option (tracer_end * list (list byte))) : Prop :=
  match result with
  | Some (finish, _) => forall r kills g', finish = Returned r kills g' -> wf g'
  | None => 27 < arguments
  end.

Lemma run_line_ends cf program thread K fuel tid e g :
  wf g -> (length thread <= 1)%nat ->
  trace_ends (zlen (arg_list g))
    (p ← command_line cf (command_words cf program (Heap <$> thread) g) (zlen (command_words cf program [] g)) g;
     run_prepared K fuel tid p e g).
Proof.
  intros W Ht. destruct (command_line cf _ _ g) as [p|] eqn:Hp; bind_simpl.
  - destruct p as [|argv fr]; [unfold command_line in Hp; by case_decide|].
    destruct (command_line_frees _ _ _ _ _ _ Hp) as (freed & Hfree & _).
    unfold run_prepared, bcd_execve. destruct (run_tracer K fuel tid e g) eqn:Er; [rewrite Hfree|..];
      intros ??? [=]; simplify_eq. by eapply run_tracer_wf.
  - simpl. destruct (decide (zlen (arg_list g) <= 27)); [exfalso | lia].
    apply eq_None_not_Some in Hp. apply Hp, command_line_fits. rewrite command_words_zlen. unfold zlen at 2.
    rewrite length_fmap. lia.
Qed.

Lemma request_handler_ends cf tid own n g (run : metadata -> option (tracer_end * list (list byte))) :
  wf g -> trace_ends n (run g) ->
  trace_ends n ('(r, g) ← bcd_request_handler cf tid (Some own) g;
                if decide (r = -1) then Some (Returned (-1) [] g, []) else run g).
Proof.
  intros W Hrun. unfold bcd_request_handler.
  assert (is_Some (if decide (tid = 0) then Some own else Some tid)) as [t ->] by (by case_decide). bind_simpl.
  destruct (request_handler cf) as [handler|]; [|done]. case_decide; [|done].
  intros r kills g' [= _ _ <-]. by apply wf_error.
Qed.

Lemma trace_thread_ends cf K fuel tid e g :
  wf g -> room g -> invoke_ok cf ->
  trace_ends (zlen (arg_list g)) (bcd_backtrace_thread cf all_succeed K fuel (Some tid) e g).
Proof.
  intros W R Hcf. unfold bcd_backtrace_thread. bind_simpl. apply request_handler_ends; [done|].
  rewrite thread_argv_spec by done. unfold thread_words.
  destruct (tp cf) as [prefix|];
    [apply (run_line_ends _ _ [prefix ++ decimal (u64 tid)]) | apply (run_line_ends _ _ [])]; simpl; done || lia.
Qed.

Lemma trace_process_ends cf K fuel tid e g :
  wf g -> room g -> invoke_ok cf ->
  trace_ends (zlen (arg_list g)) (bcd_backtrace_process cf all_succeed K fuel (Some tid) e g).
Proof.
  intros W R Hcf. unfold bcd_backtrace_process. apply request_handler_ends; [done|].
  rewrite process_argv_spec by done. apply (run_line_ends _ _ []); simpl; done || lia.
Qed.

(** The requests that are carried out with undefined behaviour. *)
Definition unsafe_request (s : bcd_session) (g : metadata) : Prop :=
  let p := packet_of (buffer s) in
  (op p = BCD_OP_ARG /\ ~ NUL ∈ payload p) \/
  ((op p = BCD_OP_TR_THREAD \/ op p = BCD_OP_TR_PROCESS \/ op p = BCD_OP_TR_FATAL) /\ 27 < zlen (arg_list g)).

Definition performs_safely (s : bcd_session) (g : metadata) (r : option performed) : Prop :=
  match r with Some (Performed _ g) => wf g | Some (Gone _) => True | None => unsafe_request s g end.

Lemma after_trace_wf s s' g result :
  (op (packet_of (buffer s)) = BCD_OP_TR_THREAD \/ op (packet_of (buffer s)) = BCD_OP_TR_PROCESS) ->
  trace_ends (zlen (arg_list g)) result ->
  performs_safely s g ('(finish, _) ← result; Some (after_trace s' finish)).
Proof.
  intros Hop. destruct result as [[finish freed]|]; bind_simpl; simpl; [|by right; split; [tauto|]].
  intros Hwf. destruct finish; simpl; [by eapply Hwf | done..].
Qed.

Lemma perform_defined cf K malloc fuel s k g :
  wf g -> room g -> invoke_ok cf -> session_typed s -> buffer_length (buffer s) <= BCD_PACKET_LIMIT ->
  performs_safely s g (bcd_perform_request cf all_succeed K malloc fuel s k g).
Proof.
  intros W R Hcf Hs Hlen. unfold bcd_perform_request.
  assert (packet_ok (packet_of (buffer s))) as Hok.
  { split; cbn [packet_of payload packet_length]; [|pose proof (buffer_length_nonneg (buffer s)); lia].
    unfold zlen. by rewrite length_drop, (st_buffer _ Hs). }
  set (p := packet_of (buffer s)) in *.
  case_decide; [done|]. case_decide as Hkv; [|case_decide as Ha].
  - destruct (kv_set_cases p Hok) as [(key & v & Hp)|Hm]; [|rewrite Hm; bind_simpl; by apply wf_error].
    destruct malloc as [errno|].
    + rewrite (kv_set_payload _ _ _ _ key v) by done. bind_simpl. by apply wf_error.
    + destruct (kv_set_inserts (session_thread s) p g key v W R Hok Hp) as (g' & -> & W' & _). by bind_simpl.
  - destruct (arg_set_spec malloc (session_thread s) p g W R Hok) as [Hno Hyes].
    destruct (decide (NUL ∈ payload p)) as [Hin|Hnin]; [|rewrite Hno by done; by left].
    destruct (Hyes Hin) as (r & g' & -> & W' & _). by bind_simpl.
  - case_decide; [apply after_trace_wf; [by left | by apply trace_thread_ends]|].
    case_decide; [apply after_trace_wf; [by right | by apply trace_process_ends]|].
    case_decide; [|by case_decide].
    pose proof (trace_process_ends cf K fuel (session_thread s) k g W R Hcf) as Hr.
    destruct (bcd_backtrace_process _ _ _ _ _ _ _) as [[finish freed]|]; bind_simpl; [by destruct finish | by right; split; [tauto|]].
Qed.

(** ** The handler *)

Definition handled_typed (r : handled) : Prop :=
  match r with
  | AwaitRead s g | AwaitWrite s g | Ready s g => session_typed s /\ wf g
  | Closed g => wf g
  | Died _ _ | Ended _ => True
  end.

Lemma write_phase_typed D mu (HD : honest D mu) fuel s e g :
  session_typed s -> offset s <= 8 -> wf g -> (mu e + 8 < fuel)%nat ->
  exists r e', write_phase D fuel s e g = Some (r, e') /\ handled_typed r.
Proof.
  intros Hs Hoff W Hf. unfold write_phase.
  destruct (write_ack_typed D mu HD fuel s e Hs Hoff Hf) as (w & e' & -> & Hw). bind_simpl.
  destruct w as [s'|s'|]; [|by destruct Hw; do 2 eexists | by do 2 eexists].
  destruct Hw as [Hs' _]. unfold after_io. destruct (terminated s'); by do 2 eexists.
Qed.


(** ** Witness *)

Lemma toy_honest : honest toy hiccups.
Proof.
  split.
  - intros [[|k] i w] n bs e' Hn; simpl; unfold toy_read; intros; simplify_eq/=. unfold zlen. rewrite length_take. lia.
  - intros [[|k] i w] bs r e' Hn; simpl; unfold toy_write; intros; simplify_eq/=. unfold zlen. rewrite length_take. lia.
  - intros [[|k] i w] n r e'; simpl; unfold toy_read; intros; simplify_eq/=; split; done || lia.
  - intros [[|k] i w] n r e'; simpl; unfold toy_write; intros; simplify_eq/=; split; done || lia.
Qed.

(** An argument of 1024 bytes without a terminator, and a packet that announces too many bytes. *)
Definition unterminated : pipe_end := PipeEnd 1 (packet_bytes BCD_OP_ARG 1024 (replicate 1024 Byte.x41)) [].
Definition oversized : pipe_end := PipeEnd 1 (packet_bytes BCD_OP_ARG 1025 (replicate 1025 Byte.x41)) [].

Definition handle_new (e : pipe_end) : option (handled * pipe_end) :=
  bcd_handler_request_response toy sample_invoke all_succeed (stopping_kernel 0) None 1100 new_session e 0%nat no_metadata.

