(* ===== verification/BcdEvents.v ===== *)
(** * The event loop of the bcd monitor (src/external/bcd/bcd-amalgamated.c)

    Events, the ready list, the four event handlers and [bcd_io_enter] on epoll. Events
    live in a store by address; the ready list is the list of addresses the intrusive queue
    holds, and an event is also marked when it is in the queue. A handler that ends the
    monitor ends the loop. [None] is undefined behaviour, a use of a destroyed event
    above all, or a loop of a session that has not ended. *)

From stdpp Require Import gmap.
From S2P Require Import Prelude.
From S2P Require Import Memory.
From S2P Require Import BcdMeta.
From S2P Require Import BcdTracer.
From S2P Require Import BcdChannel.
From S2P Require Import BcdSession.

(** ** Events *)

Definition EPOLLIN : Z := 0x1.
Definition EPOLLOUT : Z := 0x4.
Definition EPOLLERR : Z := 0x8.
Definition EPOLLRDHUP : Z := 0x2000.
Definition EPOLLET : Z := 0x80000000.

Definition BCD_IO_EVENT_READ : Z := Z.lor EPOLLIN EPOLLET.
Definition BCD_IO_EVENT_WRITE : Z := Z.lor EPOLLOUT EPOLLET.
Definition BCD_IO_EVENT_CLOSE : Z := EPOLLRDHUP.

(** The handler of an event with its payload: [bcd_io_listener_accept],
    [bcd_handler_request_response], [bcd_handler_sb], [bcd_handler_fatal]. *)
Inductive event_handler :=
| Accept
| Client (s : bcd_session)
| Watch
| Fatal.

Record bcd_io_event := Event {
  fd : Z; mask : Z; handler : event_handler; in_ready_list : bool
}.

Definition bcd_io_event_unset (ev : bcd_io_event) (m : Z) : bcd_io_event :=
  Event (fd ev) (Z.ldiff (mask ev) m) (handler ev) (in_ready_list ev).
Definition event_set (ev : bcd_io_event) (m : Z) : bcd_io_event :=
  Event (fd ev) (Z.lor (mask ev) m) (handler ev) (in_ready_list ev).
Definition set_ready (ev : bcd_io_event) (b : bool) : bcd_io_event :=
  Event (fd ev) (mask ev) (handler ev) b.
Definition set_session (ev : bcd_io_event) (s : bcd_session) : bcd_io_event :=
  Event (fd ev) (mask ev) (Client s) (in_ready_list ev).
Definition bcd_io_event_has_error (ev : bcd_io_event) : bool :=
  bool_decide (Z.land (mask ev) EPOLLERR <> 0).

(** What [accept] answers: an error, or a connection with the answers of the calls that
    follow: [fcntl] ([errno] when it fails), [malloc] of the event, [epoll_ctl]. *)
Inductive arrival (D : descriptor) :=
| AcceptError (errno : Z)
| Connection (fd : Z) (link : dstate D) (prepare : option Z) (event : option Z) (watched : bool).
Arguments AcceptError {D}.
Arguments Connection {D}.

(** The monitor: events by address, the ready list, the other ends of the open descriptors,
    the connections that wait at the listener, the metadata. *)
Record monitor (D : descriptor) := Monitor {
  events : gmap Z bcd_io_event;
  ready : list Z;
  links : gmap Z (dstate D);
  arrivals : list (arrival D);
  meta : metadata
}.
Arguments Monitor {D}.
Arguments events {D}.
Arguments ready {D}.
Arguments links {D}.
Arguments arrivals {D}.
Arguments meta {D}.

(** The monitor goes on, or has ended: by [bcd_child_exit], or with the tracer. *)
Inductive outcome (D : descriptor) :=
| Going (w : monitor D)
| Stopped (finish : tracer_end).
Arguments Going {D}.
Arguments Stopped {D}.

Section Loop.
Context {D : descriptor} {K : kernel}.
Context (cf : invoke) (al : allocations) (malloc : option Z) (kst : kstate K) (fuel : nat).

Definition with_events (w : monitor D) (evs : gmap Z bcd_io_event) (l : list Z) : monitor D :=
  Monitor evs l (links w) (arrivals w) (meta w).

Definition update_event (w : monitor D) (p : Z) (ev : bcd_io_event) : monitor D :=
  with_events w (<[p := ev]> (events w)) (ready w).

(** ** The ready list *)

Definition bcd_io_event_add_to_ready_list (w : monitor D) (p : Z) : option (monitor D) :=
  ev ← events w !! p;
  if in_ready_list ev then Some w
  else Some (with_events w (<[p := set_ready ev true]> (events w)) (ready w ++ [p])).

Definition bcd_io_event_remove_from_ready_list (w : monitor D) (p : Z) : option (monitor D) :=
  ev ← events w !! p;
  if in_ready_list ev then
    Some (with_events w (<[p := set_ready ev false]> (events w)) (filter (fun q => q <> p) (ready w)))
  else Some w.

(** [bcd_io_event_destroy] frees the event whether or not it is in the queue. *)
Definition bcd_io_event_destroy (w : monitor D) (p : Z) : option (monitor D) :=
  _ ← events w !! p;
  Some (with_events w (delete p (events w)) (ready w)).

(** ** The handlers *)

Definition set_links (w : monitor D) (ls : gmap Z (dstate D)) : monitor D :=
  Monitor (events w) (ready w) ls (arrivals w) (meta w).
Definition set_arrivals (w : monitor D) (l : list (arrival D)) : monitor D :=
  Monitor (events w) (ready w) (links w) l (meta w).
Definition set_meta (w : monitor D) (g : metadata) : monitor D :=
  Monitor (events w) (ready w) (links w) (arrivals w) g.

Definition bcd_io_fd_close (w : monitor D) (f : Z) : monitor D :=
  set_links w (delete f (links w)).

(** [bcd_io_event_create] and [bcd_handler_accept]: the new event watches the descriptor and
    is ready, or is destroyed when [epoll_ctl] fails. *)
Definition bcd_handler_accept (w : monitor D) (p f : Z) (watched : bool) : option (monitor D) :=
  let w := update_event w p (Event f 0 (Client new_session) false) in
  if watched then bcd_io_event_add_to_ready_list w p else bcd_io_event_destroy w p.

(** The loop of [bcd_io_listener_accept]. *)
Fixpoint accept_loop (p : Z) (l : list (arrival D)) (w : monitor D) : option (monitor D) :=
  match l with
  | [] => (* EAGAIN *) bcd_io_event_remove_from_ready_list (set_arrivals w []) p
  | AcceptError errno :: l =>
      if decide (errno = EAGAIN) then bcd_io_event_remove_from_ready_list (set_arrivals w l) p
      else Some (set_arrivals w l)
  | Connection f link prepare event watched :: l =>
      let w := set_links w (<[f := link]> (links w)) in
      match prepare with
      | Some errno =>
          if decide (errno = EAGAIN) then bcd_io_event_remove_from_ready_list (set_arrivals w l) p
          else Some (set_arrivals w l)
      | None =>
          match event with
          | None => accept_loop p l (bcd_io_fd_close w f)
          | Some q => w ← bcd_handler_accept w q f watched; accept_loop p l w
          end
      end
  end.

Definition bcd_io_listener_accept (p : Z) (w : monitor D) : option (monitor D) :=
  accept_loop p (arrivals w) w.

(** [bcd_child_exit(EXIT_FAILURE)] behind the report of a fatal error. *)
Definition child_exit : outcome D := Stopped (Exited 1 []).

(** [bcd_handler_request_response] on the event of a client: what it does to the event. *)
Definition handle_client (p : Z) (ev : bcd_io_event) (s : bcd_session) (w : monitor D) :
    option (outcome D) :=
  link ← links w !! fd ev;
  '(h, link) ← bcd_handler_request_response D cf al K malloc fuel s link kst (meta w);
  let w := set_links w (<[fd ev := link]> (links w)) in
  match h with
  | AwaitRead s g =>
      let w := update_event (set_meta w g) p (bcd_io_event_unset (set_session ev s) BCD_IO_EVENT_READ) in
      w ← bcd_io_event_remove_from_ready_list w p; Some (Going w)
  | AwaitWrite s g =>
      let w := update_event (set_meta w g) p (bcd_io_event_unset (set_session ev s) BCD_IO_EVENT_WRITE) in
      w ← bcd_io_event_remove_from_ready_list w p; Some (Going w)
  | Ready s g => Some (Going (update_event (set_meta w g) p (set_session ev s)))
  | Closed g =>
      let w := bcd_io_fd_close (set_meta w g) (fd ev) in
      w ← bcd_io_event_remove_from_ready_list w p;
      w ← bcd_io_event_destroy w p;
      Some (Going w)
  | Died _ _ => Some child_exit
  | Ended finish => Some (Stopped finish)
  end.

Definition handle_sb (p : Z) (ev : bcd_io_event) (w : monitor D) : option (outcome D) :=
  if bcd_io_event_has_error ev then Some child_exit
  else w ← bcd_io_event_remove_from_ready_list w p; Some (Going w).

(** [bcd_handler_fatal] reads one byte. *)
Definition handle_fatal (p : Z) (ev : bcd_io_event) (w : monitor D) : option (outcome D) :=
  link ← links w !! fd ev;
  let '(r, link) := sys_read D link 1 in
  let w := set_links w (<[fd ev := link]> (links w)) in
  let '(n, errno) := match r with inl errno => (-1, errno) | inr bs => (zlen bs, 0) end in
  h ← bcd_handler_fatal cf al K fuel n errno kst (meta w);
  match h with
  | None => w ← bcd_io_event_remove_from_ready_list w p; Some (Going w)
  | Some finish => Some (Stopped finish)
  end.

(** [curr_event->handler(curr_event)]. *)
Definition call_handler (p : Z) (w : monitor D) : option (outcome D) :=
  ev ← events w !! p;
  match handler ev with
  | Accept => w ← bcd_io_listener_accept p w; Some (Going w)
  | Client s => handle_client p ev s w
  | Watch => handle_sb p ev w
  | Fatal => handle_fatal p ev w
  end.

(** ** Dispatch *)

(** [TAILQ_NEXT]. *)
Fixpoint next_of (p : Z) (l : list Z) : option Z :=
  match l with
  | [] => None
  | q :: l => if decide (q = p) then head l else next_of p l
  end.

(** [bcd_io_event_dispatch_ready_list] from [curr] on; the successor is taken before the
    handler is called. The last component is the events whose handler has been called;
    [None] also when [n] calls were not enough. *)
Fixpoint dispatch_from (n : nat) (curr : option Z) (w : monitor D) :
    option (outcome D * list Z) :=
  match curr with
  | None => Some (Going w, [])
  | Some p =>
      match n with
      | O => None
      | S n =>
          let next := next_of p (ready w) in
          o ← call_handler p w;
          match o with
          | Stopped finish => Some (Stopped finish, [p])
          | Going w => '(o, called) ← dispatch_from n next w; Some (o, p :: called)
          end
      end
  end.

Definition bcd_io_event_dispatch_ready_list (n : nat) (w : monitor D) : option (outcome D * list Z) :=
  dispatch_from n (head (ready w)) w.

(** The events [epoll_wait] reports: the masks are merged, the events become ready. *)
Fixpoint mark_ready (reported : list (Z * Z)) (w : monitor D) : option (monitor D) :=
  match reported with
  | [] => Some w
  | (p, m) :: reported =>
      ev ← events w !! p;
      w ← bcd_io_event_add_to_ready_list (update_event w p (event_set ev m)) p;
      mark_ready reported w
  end.

(** How long [epoll_wait] waits: not at all while events are ready, else for ever. *)
Definition epoll_timeout (w : monitor D) : Z := match ready w with [] => -1 | _ => 0 end.

(** [bcd_io_enter] over the answers of [epoll_wait]: [errno], or the reported events. The
    loop ends with an error of [epoll_wait] other than an interruption, with the monitor, or
    when the answers are used up. *)
Inductive loop_end :=
| LoopError (errno : Z) (w : monitor D)
| LoopStopped (finish : tracer_end)
| LoopWaiting (w : monitor D).

Fixpoint bcd_io_enter (n : nat) (waits : list (Z + list (Z * Z))) (w : monitor D) : option loop_end :=
  match waits with
  | [] => Some (LoopWaiting w)
  | inl errno :: waits =>
      if decide (errno = EINTR) then bcd_io_enter n waits w else Some (LoopError errno w)
  | inr reported :: waits =>
      w ← mark_ready reported w;
      '(o, _) ← bcd_io_event_dispatch_ready_list n w;
      match o with
      | Stopped finish => Some (LoopStopped finish)
      | Going w => bcd_io_enter n waits w
      end
  end.

End Loop.

(** ** The invariant of the event loop *)

(** The addresses of the events that the waiting connections will get. *)
Definition arrival_event {D} (a : arrival D) : option Z :=
  match a with Connection _ _ _ (Some q) _ => Some q | _ => None end.
Definition new_events {D} (l : list (arrival D)) : list Z := omap arrival_event l.

(** The queue holds exactly the live events marked as ready, each once. *)
Definition queue_ok (evs : gmap Z bcd_io_event) (l : list Z) : Prop :=
  NoDup l /\ forall p, p ∈ l <-> exists ev, evs !! p = Some ev /\ in_ready_list ev = true.

Record wf_monitor {D} (w : monitor D) : Prop := {
  wm_queue : queue_ok (events w) (ready w);
  wm_new : NoDup (new_events (arrivals w));
  wm_fresh q : q ∈ new_events (arrivals w) -> events w !! q = None
}.

Lemma queue_live evs l p : queue_ok evs l -> p ∈ l -> is_Some (evs !! p).
Proof. intros [_ Hq] (ev & -> & _)%Hq. done. Qed.

Lemma queue_add evs l p ev :
  queue_ok evs l -> evs !! p = Some ev -> in_ready_list ev = false ->
  queue_ok (<[p := set_ready ev true]> evs) (l ++ [p]) /\ (p ∉ l).
Proof.
  intros [Hd Hq] Hp Hr.
  assert (p ∉ l) as Hn by (intros (ev' & ? & ?)%Hq; congruence).
  split; [|done]. split.
  - apply NoDup_app. split_and!; [done | | apply NoDup_singleton].
    intros x Hx ->%list_elem_of_singleton. done.
  - intros q. rewrite elem_of_app, list_elem_of_singleton. destruct (decide (q = p)) as [->|Hqp].
    + rewrite lookup_insert_eq. split; [|tauto]. intros _. by eexists.
    + rewrite lookup_insert_ne by done. rewrite <- Hq. tauto.
Qed.

Lemma queue_remove evs l p ev ev' :
  queue_ok evs l -> evs !! p = Some ev -> in_ready_list ev' = false ->
  queue_ok (<[p := ev']> evs) (filter (fun q => q <> p) l).
Proof.
  intros [Hd Hq] Hp Hr. split; [by apply NoDup_filter|].
  intros q. rewrite list_elem_of_filter. destruct (decide (q = p)) as [->|Hqp].
  - rewrite lookup_insert_eq. split; [tauto|]. intros (? & ? & ?). simplify_eq. congruence.
  - rewrite lookup_insert_ne by done. rewrite <- Hq. tauto.
Qed.

(** Changing an event without its mark keeps the queue. *)
Lemma queue_update evs l p ev ev' :
  queue_ok evs l -> evs !! p = Some ev -> in_ready_list ev' = in_ready_list ev ->
  queue_ok (<[p := ev']> evs) l.
Proof.
  intros [Hd Hq] Hp Hr. split; [done|]. intros q. rewrite Hq. destruct (decide (q = p)) as [->|Hqp].
  - rewrite lookup_insert_eq, Hp. split; intros (? & ? & ?); simplify_eq; eexists; split;
      try done; congruence.
  - by rewrite lookup_insert_ne.
Qed.

Lemma queue_new evs l p ev :
  queue_ok evs l -> evs !! p = None -> in_ready_list ev = false -> queue_ok (<[p := ev]> evs) l.
Proof.
  intros [Hd Hq] Hp Hr. split; [done|]. intros q. rewrite Hq. destruct (decide (q = p)) as [->|Hqp].
  - rewrite lookup_insert_eq, Hp. split; intros (? & ? & ?); simplify_eq. congruence.
  - by rewrite lookup_insert_ne.
Qed.

Lemma queue_destroy evs l p ev :
  queue_ok evs l -> evs !! p = Some ev -> in_ready_list ev = false -> queue_ok (delete p evs) l.
Proof.
  intros [Hd Hq] Hp Hr. split; [done|]. intros q. rewrite Hq. destruct (decide (q = p)) as [->|Hqp].
  - rewrite lookup_delete_eq, Hp. split; intros (? & ? & ?); simplify_eq. congruence.
  - by rewrite lookup_delete_ne.
Qed.

(** ** What a handler may do to the queue

    It keeps its own event in its place or takes it out, appends new events, and leaves the
    other events alone. *)
Record handled_event {D} (p : Z) (w w' : monitor D) (new consumed : list Z) : Prop := {
  he_ready : ready w' = ready w ++ new \/ ready w' = filter (fun q => q <> p) (ready w) ++ new;
  he_consumed : new_events (arrivals w) = consumed ++ new_events (arrivals w');
  he_new : sublist new consumed;
  he_others q : is_Some (events w !! q) -> q <> p -> events w' !! q = events w !! q
}.

Lemma filter_absent (p : Z) (l : list Z) : (p ∉ l) -> filter (fun q => q <> p) l = l.
Proof.
  induction l as [|q l IH]; intros Hp; [done|]. apply not_elem_of_cons in Hp as [Hq Hp].
  rewrite filter_cons_True by done. by rewrite IH.
Qed.

Section Handlers.
Context {D : descriptor} {K : kernel}.
Context (cf : invoke) (al : allocations) (malloc : option Z) (kst : kstate K) (fuel : nat).

Lemma remove_from_ready_spec (w w' : monitor D) p :
  wf_monitor w -> bcd_io_event_remove_from_ready_list w p = Some w' ->
  wf_monitor w' /\ ready w' = filter (fun q => q <> p) (ready w) /\
  arrivals w' = arrivals w /\ links w' = links w /\
  (exists ev, events w !! p = Some ev /\ events w' !! p = Some (set_ready ev false)) /\
  forall q, q <> p -> events w' !! q = events w !! q.
Proof.
  intros [Hq Hn Hf] Hr. unfold bcd_io_event_remove_from_ready_list in Hr. bind_inv Hr.
  rename x into ev. destruct (in_ready_list ev) eqn:Ei; simplify_eq; simpl.
  - split_and!; try done.
    + split; simpl; [by eapply queue_remove | done |]. intros q Hin.
      rewrite lookup_insert_ne; [by apply Hf|]. intros ->. apply Hf in Hin. congruence.
    + exists ev. by rewrite lookup_insert_eq.
    + intros q Hqp. by rewrite lookup_insert_ne.
  - assert (p ∉ ready w') as Hp by (destruct Hq as [_ Hq]; intros (? & ? & ?)%Hq; congruence).
    split_and!; try done.
    + by rewrite filter_absent.
    + exists ev. split; [done|]. rewrite Hx. f_equal. destruct ev; simpl in *. by subst.
Qed.

Lemma add_to_ready_spec (w w' : monitor D) p :
  wf_monitor w -> bcd_io_event_add_to_ready_list w p = Some w' ->
  wf_monitor w' /\ arrivals w' = arrivals w /\ links w' = links w /\
  (p ∈ ready w /\ w' = w \/ (p ∉ ready w) /\ ready w' = ready w ++ [p]) /\
  (exists ev, events w !! p = Some ev /\ events w' !! p = Some (set_ready ev true)) /\
  forall q, q <> p -> events w' !! q = events w !! q.
Proof.
  intros [Hq Hn Hf] Hr. unfold bcd_io_event_add_to_ready_list in Hr. bind_inv Hr.
  rename x into ev. destruct (in_ready_list ev) eqn:Ei; simplify_eq; simpl.
  - split_and!; try done.
    + left. split; [|done]. apply Hq. eauto.
    + exists ev. split; [done|]. rewrite Hx. f_equal. destruct ev; simpl in *. by subst.
  - destruct (queue_add _ _ _ _ Hq Hx Ei) as [Hq' Hp]. split_and!; try done.
    + split; simpl; [done | done |]. intros q Hin.
      rewrite lookup_insert_ne; [by apply Hf|]. intros ->. apply Hf in Hin. congruence.
    + by right.
    + exists ev. by rewrite lookup_insert_eq.
    + intros q Hqp. by rewrite lookup_insert_ne.
Qed.

(** A step that leaves events, queue and arrivals alone. *)
Lemma wf_same (w w' : monitor D) :
  wf_monitor w -> events w' = events w -> ready w' = ready w -> arrivals w' = arrivals w ->
  wf_monitor w'.
Proof. intros [] He Hr Ha. split; rewrite ?He, ?Hr, ?Ha; done. Qed.

Lemma wf_update_event (w : monitor D) p ev ev' :
  wf_monitor w -> events w !! p = Some ev -> in_ready_list ev' = in_ready_list ev ->
  wf_monitor (update_event w p ev').
Proof.
  intros [Hq Hn Hf] Hp Hr. split; simpl; [by eapply queue_update | done |].
  intros q Hin. rewrite lookup_insert_ne; [by apply Hf|]. intros ->. apply Hf in Hin. congruence.
Qed.

Lemma new_events_cons (a : arrival D) l :
  new_events (a :: l) = match arrival_event a with Some q => q :: new_events l | None => new_events l end.
Proof. reflexivity. Qed.

(** Taking an arrival without an event off the queue of connections. *)
Lemma wf_arrivals (w : monitor D) l l' consumed :
  wf_monitor (set_arrivals w l) -> new_events l = consumed ++ new_events l' ->
  wf_monitor (set_arrivals w l').
Proof.
  intros [Hq Hn Hf] Hl. simpl in *. rewrite Hl in Hn, Hf. split; simpl; [done | |].
  - by apply NoDup_app in Hn as (_ & _ & ?).
  - intros q Hin. apply Hf, elem_of_app. by right.
Qed.

Lemma handled_refl p (w : monitor D) l l' consumed :
  new_events l = consumed ++ new_events l' ->
  handled_event p (set_arrivals w l) (set_arrivals w l') [] consumed.
Proof. intros Hl. split; simpl; [left; by rewrite app_nil_r | done | apply sublist_nil_l | done]. Qed.

(** Removing the own event at the end of a handler. *)
Lemma handled_removed p (w w' : monitor D) l l' consumed :
  wf_monitor (set_arrivals w l) -> new_events l = consumed ++ new_events l' ->
  bcd_io_event_remove_from_ready_list (set_arrivals w l') p = Some w' ->
  wf_monitor w' /\ handled_event p (set_arrivals w l) w' [] consumed.
Proof.
  intros W Hl Hr. apply remove_from_ready_spec in Hr as (W' & Hrd & Ha & _ & _ & Ho);
    [|by eapply wf_arrivals].
  split; [done|]. split; simpl in *.
  - right. by rewrite app_nil_r.
  - by rewrite Ha.
  - apply sublist_nil_l.
  - intros q _ Hq. by apply Ho.
Qed.

(** A new event: it is ready, or gone again. *)
Lemma handler_accept_spec (w w' : monitor D) q f b l0 l :
  wf_monitor (set_arrivals w l0) -> new_events l0 = q :: new_events l ->
  bcd_handler_accept w q f b = Some w' ->
  wf_monitor (set_arrivals w' l) /\ (exists new, ready w' = ready w ++ new /\ sublist new [q]) /\
  forall r, r <> q -> events w' !! r = events w !! r.
Proof.
  intros [Hq Hn Hf] Hl Hr. simpl in *. rewrite Hl in Hn, Hf. apply NoDup_cons in Hn as [Hnew Hn].
  assert (events w !! q = None) as Hq0 by (apply Hf; left).
  unfold bcd_handler_accept in Hr. set (ev := Event f 0 (Client new_session) false) in *.
  assert (wf_monitor (set_arrivals (update_event w q ev) l)) as W1.
  { split; simpl; [by apply queue_new | done |]. intros r Hin.
    rewrite lookup_insert_ne; [apply Hf; by right|]. by intros ->. }
  destruct b.
  - unfold bcd_io_event_add_to_ready_list in Hr. simpl in Hr.
    rewrite lookup_insert_eq in Hr. cbn [mbind option_bind] in Hr.
    simpl in Hr. simplify_eq. simpl. split_and!.
    + destruct W1 as [Hq1 _ Hf1]. split; simpl in *; [|done|].
      * by destruct (queue_add _ _ q ev Hq1) as [? _]; [by rewrite lookup_insert_eq | |].
      * intros r Hin. rewrite !lookup_insert_ne; [apply Hf; by right | by intros -> ..].
    + exists [q]. done.
    + intros r Hrq. by rewrite !lookup_insert_ne.
  - unfold bcd_io_event_destroy in Hr. simpl in Hr. rewrite lookup_insert_eq in Hr.
    cbn [mbind option_bind] in Hr. simplify_eq. simpl. split_and!.
    + destruct W1 as [Hq1 _ Hf1]. split; simpl in *; [|done|].
      * eapply queue_destroy; [done | by rewrite lookup_insert_eq | done].
      * intros r Hin. rewrite lookup_delete_ne, lookup_insert_ne; [apply Hf; by right | by intros -> ..].
    + exists []. rewrite app_nil_r. split; [done | apply sublist_nil_l].
    + intros r Hrq. by rewrite lookup_delete_ne, lookup_insert_ne.
Qed.

(** A new event in front of what the rest of a handler does. *)
Lemma handled_more p q (w w1 w' : monitor D) l a new new' consumed :
  arrival_event a = Some q -> events w !! q = None -> p <> q ->
  ready w1 = ready w ++ new -> sublist new [q] ->
  (forall r, r <> q -> events w1 !! r = events w !! r) ->
  handled_event p (set_arrivals w1 l) w' new' consumed ->
  handled_event p (set_arrivals w (a :: l)) w' (new ++ new') (q :: consumed).
Proof.
  intros Ha Hq0 Hpq Hrd Hsub Ho [Hhr Hhc Hhn Hho]. split; simpl in *.
  - rewrite Hrd in Hhr. destruct Hhr as [-> | ->]; [left | right];
      rewrite ?filter_app, app_assoc; [done|].
    rewrite (filter_absent p new); [done|]. intros Hin.
    eapply elem_of_sublist in Hin; [|done]. by apply list_elem_of_singleton in Hin.
  - change (new_events (a :: l) = (q :: consumed) ++ new_events (arrivals w')).
    by rewrite new_events_cons, Ha, Hhc.
  - by apply (sublist_app new [q] new' consumed).
  - intros r Hr Hrp. assert (r <> q) as Hrq by (intros ->; destruct Hr; congruence).
    by rewrite Hho, Ho; rewrite ?Ho.
Qed.

Lemma accept_loop_spec p l (w w' : monitor D) :
  wf_monitor (set_arrivals w l) -> is_Some (events w !! p) -> accept_loop p l w = Some w' ->
  wf_monitor w' /\ exists new consumed, handled_event p (set_arrivals w l) w' new consumed.
Proof.
  revert w. induction l as [|a l IH]; intros w W Hp Ha; cbn [accept_loop] in Ha.
  { destruct (handled_removed p w w' [] [] [] W eq_refl Ha). eauto. }
  assert (forall consumed w2, new_events (a :: l) = consumed ++ new_events l ->
    bcd_io_event_remove_from_ready_list (set_arrivals w2 l) p = Some w' ->
    events w2 = events w -> ready w2 = ready w ->
    wf_monitor w' /\ exists new consumed, handled_event p (set_arrivals w (a :: l)) w' new consumed)
    as Hremove.
  { intros consumed w2 Hl Hr He Hrd.
    assert (wf_monitor (set_arrivals w2 (a :: l))) as W2 by by apply (wf_same _ _ W).
    destruct (handled_removed p w2 w' (a :: l) l consumed W2 Hl Hr) as [? []].
    split; [done|]. exists [], consumed. split; simpl in *; by rewrite <- ?He, <- ?Hrd. }
  assert (forall consumed w2, new_events (a :: l) = consumed ++ new_events l ->
    Some (set_arrivals w2 l) = Some w' -> events w2 = events w -> ready w2 = ready w ->
    wf_monitor w' /\ exists new consumed, handled_event p (set_arrivals w (a :: l)) w' new consumed)
    as Hbreak.
  { intros consumed w2 Hl [= <-] He Hrd. split.
    - apply (wf_same (set_arrivals w l)); [|done..]. by eapply wf_arrivals.
    - exists [], consumed. destruct (handled_refl p w _ _ consumed Hl). split; simpl in *;
        by rewrite ?He, ?Hrd. }
  destruct a as [errno|f link [errno|] event b].
  - case_decide; [by eapply (Hremove [])|by eapply (Hbreak [])].
  - set (consumed := match event with Some q => [q] | None => [] end).
    assert (new_events (Connection f link (Some errno) event b :: l) = consumed ++ new_events l) as Hl
      by (rewrite new_events_cons; by destruct event).
    case_decide; [by eapply (Hremove consumed) | by eapply (Hbreak consumed)].
  - destruct event as [q|].
    + bind_inv Ha. rename x into w1.
      assert (events w !! q = None) as Hq0 by (apply (wm_fresh _ W q); left).
      destruct (handler_accept_spec (set_links w (<[f:=link]> (links w))) w1 q f b (Connection f link None (Some q) b :: l) l
        ltac:(by apply (wf_same _ _ W)) eq_refl Hx) as (W1 & (new & Hrd & Hsub) & Ho).
      simpl in *. assert (p <> q) as Hpq by (intros ->; destruct Hp; congruence).
      destruct (IH w1 W1) as (W' & new' & consumed & Hh); [by rewrite Ho | done |].
      split; [done|]. exists (new ++ new'), (q :: consumed).
      apply (handled_more p q w w1 w' l _ new new' consumed); done.
    + apply IH in Ha as (W' & new & consumed & []); [| |done].
      * split; [done|]. exists new, consumed. by split.
      * apply (wf_same (set_arrivals w l)); [|done..]. by eapply (wf_arrivals _ _ _ []).
Qed.

Abbreviation call_handler := (call_handler cf al malloc kst fuel).
Abbreviation dispatch_from := (dispatch_from cf al malloc kst fuel).

(** The parts of a client's event handler: a session stored, and perhaps the event taken
    off the queue, closed and destroyed. *)
Lemma handled_session p ev ev' (w w1 : monitor D) :
  wf_monitor w -> events w !! p = Some ev -> in_ready_list ev' = in_ready_list ev ->
  events w1 = events w -> ready w1 = ready w -> arrivals w1 = arrivals w ->
  wf_monitor (update_event w1 p ev') /\ handled_event p w (update_event w1 p ev') [] [].
Proof.
  intros W Hp Hev He Hr Ha. split.
  - eapply wf_update_event; [by apply (wf_same w) | by rewrite He | done].
  - split; simpl; [left; by rewrite Hr, app_nil_r | by rewrite Ha | done |].
    intros q _ Hq. by rewrite lookup_insert_ne, He.
Qed.

Lemma handled_remove p ev ev' (w w1 w2 : monitor D) :
  wf_monitor w -> events w !! p = Some ev -> in_ready_list ev' = in_ready_list ev ->
  events w1 = events w -> ready w1 = ready w -> arrivals w1 = arrivals w ->
  bcd_io_event_remove_from_ready_list (update_event w1 p ev') p = Some w2 ->
  wf_monitor w2 /\ handled_event p w w2 [] [].
Proof.
  intros W Hp Hev He Hr Ha H2.
  destruct (handled_session p ev ev' w w1 W Hp Hev He Hr Ha) as [W1 [_ _ _ Ho]].
  apply remove_from_ready_spec in H2 as (W2 & Hr2 & Ha2 & _ & _ & Ho2); [|done].
  split; [done|]. split; [right; rewrite Hr2; simpl; by rewrite Hr, app_nil_r | by rewrite Ha2; simpl; rewrite Ha | done |].
  intros q Hq Hqp. rewrite Ho2 by done. by apply Ho.
Qed.

Lemma handled_destroy p ev ev' (w w1 w2 w3 : monitor D) :
  wf_monitor w -> events w !! p = Some ev -> in_ready_list ev' = in_ready_list ev ->
  events w1 = events w -> ready w1 = ready w -> arrivals w1 = arrivals w ->
  bcd_io_event_remove_from_ready_list (update_event w1 p ev') p = Some w2 ->
  bcd_io_event_destroy w2 p = Some w3 ->
  wf_monitor w3 /\ handled_event p w w3 [] [].
Proof.
  intros W Hp Hev He Hr Ha H2 H3.
  pose proof (handled_remove p ev ev' w w1 w2 W Hp Hev He Hr Ha H2) as [[Hq2 Hn2 Hf2] [Hhr Hhc Hhn Hho]].
  destruct (handled_session p ev ev' w w1 W Hp Hev He Hr Ha) as [W1 _].
  apply remove_from_ready_spec in H2 as (_ & _ & _ & _ & (e1 & _ & Hp2) & _); [|done].
  unfold bcd_io_event_destroy in H3. rewrite Hp2 in H3. cbn [mbind option_bind] in H3.
  simplify_eq. split; [split; simpl; [by eapply queue_destroy | done |]|split; simpl; try done].
  - intros q Hq. destruct (decide (q = p)) as [->|]; [by rewrite lookup_delete_eq|].
    rewrite lookup_delete_ne by done. by apply Hf2.
  - intros q Hq Hqp. rewrite lookup_delete_ne by done. by apply Hho.
Qed.

Lemma update_event_id (w : monitor D) p ev :
  events w !! p = Some ev -> update_event w p ev = w.
Proof. intros Hp. destruct w. unfold update_event, with_events. simpl in *. by rewrite insert_id. Qed.

Lemma handle_client_spec p ev s (w w' : monitor D) :
  wf_monitor w -> events w !! p = Some ev ->
  handle_client cf al malloc kst fuel p ev s w = Some (Going w') ->
  wf_monitor w' /\ handled_event p w w' [] [].
Proof.
  intros W Hp Hh. unfold handle_client in Hh. bind_inv Hh. destruct h as [s' g|s' g|s' g|g|?|?]; try done.
  - bind_inv Hh. simplify_eq. eapply (handled_remove p ev); [done | done | | | | | eassumption]; done.
  - bind_inv Hh. simplify_eq. eapply (handled_remove p ev); [done | done | | | | | eassumption]; done.
  - simplify_eq. by apply (handled_session p ev).
  - bind_inv Hh. simplify_eq.
    match goal with H : bcd_io_event_remove_from_ready_list ?w1 p = Some ?w2 |- _ =>
      apply (handled_destroy p ev ev w w1 w2); try done; by rewrite update_event_id end.
Qed.

Lemma call_handler_spec p (w w' : monitor D) :
  wf_monitor w -> call_handler p w = Some (Going w') ->
  wf_monitor w' /\ exists new consumed, handled_event p w w' new consumed.
Proof.
  intros W Hh. unfold call_handler in Hh. bind_inv Hh. rename x into ev.
  destruct (handler ev) as [|s| |].
  - bind_inv Hh. simplify_eq. unfold bcd_io_listener_accept in *.
    destruct w as [evs r ls ar g]. by apply (accept_loop_spec p ar (Monitor evs r ls ar g)).
  - apply handle_client_spec in Hh as [? ?]; eauto.
  - unfold handle_sb in Hh. destruct (bcd_io_event_has_error ev); [done|]. bind_inv Hh. simplify_eq.
    rewrite <- (update_event_id w p ev) in Hx0 by done.
    apply (handled_remove p ev ev w w w') in Hx0 as [? ?]; eauto.
  - unfold handle_fatal in Hh. bind_inv Hh. destruct x0; [done|]. bind_inv Hh. simplify_eq.
    match goal with H : bcd_io_event_remove_from_ready_list ?w1 p = _ |- _ =>
      rewrite <- (update_event_id w1 p ev) in H by done;
      apply (handled_remove p ev ev w w1 w') in H as [? ?]; eauto end.
Qed.

Lemma next_of_at p (pre post : list Z) : (p ∉ pre) -> next_of p (pre ++ p :: post) = head post.
Proof.
  induction pre as [|q pre IH]; intros Hp; simpl; [by rewrite decide_True|].
  apply not_elem_of_cons in Hp as [Hq Hp]. rewrite decide_False by done. by apply IH.
Qed.

(** After a handler the events behind its own are still behind it, the new ones last. *)
Lemma handled_rest p (w w' : monitor D) new consumed pre post :
  wf_monitor w -> ready w = pre ++ p :: post -> handled_event p w w' new consumed ->
  exists pre', ready w' = pre' ++ post ++ new.
Proof.
  intros [[Hd _] _ _] Hr [Hhr _ _ _]. rewrite Hr in Hd, Hhr.
  assert ((p ∉ pre) /\ (p ∉ post)) as [Hpre Hpost].
  { apply NoDup_app in Hd as (_ & Hd & Hd2). apply NoDup_cons in Hd2 as [? _].
    split; [|done]. intros Hin. apply (Hd p Hin). left. }
  destruct Hhr as [-> | ->].
  - exists (pre ++ [p]). by rewrite <- !app_assoc.
  - exists pre. rewrite filter_app, filter_cons_False by tauto. by rewrite !filter_absent, app_assoc.
Qed.

(** What a round of the dispatcher does, given that its handlers keep [P], which may speak of the calls made so far,
    and have no undefined behaviour on the states that satisfy it. *)
Context (P : list Z -> monitor D -> Prop).

Definition dispatched (past : list Z) (w : monitor D) (todo called : list Z) (o : outcome D) : Prop :=
  match o with
  | Going w' =>
      wf_monitor w' /\ P (past ++ called) w' /\ exists extra consumed,
        called = todo ++ extra /\ sublist extra consumed /\
        new_events (arrivals w) = consumed ++ new_events (arrivals w')
  | Stopped finish =>
      exists past' p w', P past' w' /\ wf_monitor w' /\ p ∈ ready w' /\ call_handler p w' = Some (Stopped finish)
  end.

Context (HP : forall past p w, P past w -> wf_monitor w -> p ∈ ready w ->
  exists o, call_handler p w = Some o /\ forall w', o = Going w' -> P (past ++ [p]) w').

Lemma dispatch_from_spec n : forall past p pre post w,
  wf_monitor w -> P past w -> ready w = pre ++ p :: post ->
  (length (p :: post) + length (new_events (arrivals w)) <= n)%nat ->
  exists o called, dispatch_from n (Some p) w = Some (o, called) /\ dispatched past w (p :: post) called o.
Proof.
  induction n as [|n IH]; intros past p pre post w W Hw Hr Hn; [simpl in Hn; lia|].
  cbn [BcdEvents.dispatch_from].
  destruct (HP past p w Hw W) as (o & Hc & Ho); [rewrite Hr; set_solver|].
  rewrite Hc. bind_simpl. destruct o as [w1|finish];
    [|do 2 eexists; split; [done|]; exists past, p, w; split_and!; try done; rewrite Hr; set_solver].
  destruct (call_handler_spec p w w1 W Hc) as (W1 & new & consumed & Hh).
  destruct (handled_rest p w w1 new consumed pre post W Hr Hh) as [pre' Hr1].
  destruct Hh as [_ Hcons Hsub _].
  assert (p ∉ pre) as Hp.
  { destruct W as [[Hd _] _ _]. rewrite Hr in Hd. apply NoDup_app in Hd as (_ & Hd & _).
    intros Hin. apply (Hd p Hin). left. }
  rewrite Hr, next_of_at by done. destruct post as [|q post].
  { simpl. destruct n; (do 2 eexists; split; [done|]; split; [done|]; split; [by apply Ho|]; exists [], consumed;
      split_and!; [done | apply sublist_nil_l | done]). }
  change (head (q :: post)) with (Some q). simpl in Hr1.
  destruct (IH (past ++ [p]) q pre' (post ++ new) w1 W1) as (o & called & -> & Hd); [by apply Ho | done | |].
  { apply sublist_length in Hsub. rewrite Hcons in Hn. simpl in *. rewrite !length_app in *. lia. }
  bind_simpl. do 2 eexists. split; [done|]. destruct o as [w2|]; [|done].
  destruct Hd as (W2 & Hw2 & extra & consumed2 & -> & Hsub2 & Hc2). split; [done|].
  split; [by rewrite <- app_assoc in Hw2|]. exists (new ++ extra), (consumed ++ consumed2). split_and!.
  - simpl. by rewrite <- app_assoc.
  - by apply sublist_app.
  - by rewrite Hcons, Hc2, app_assoc.
Qed.

Lemma dispatch_ready_spec n w :
  wf_monitor w -> P [] w -> (length (ready w) + length (new_events (arrivals w)) <= n)%nat ->
  exists o called, bcd_io_event_dispatch_ready_list cf al malloc kst fuel n w = Some (o, called) /\
    dispatched [] w (ready w) called o.
Proof.
  intros W Hw Hn. unfold bcd_io_event_dispatch_ready_list. destruct (ready w) as [|p post] eqn:Hr.
  - exists (Going w), []. split; [by destruct n|]. split; [done|]. split; [done|]. exists [], [].
    split_and!; [done | constructor | done].
  - by apply (dispatch_from_spec n [] p [] post w).
Qed.
End Handlers.

(** C20: A round of the dispatcher calls the handler of every event that was ready at its
    start, in the order of the queue, and then possibly of some that became ready on the way, none
    twice; it ends after at most as many calls as there are ready events and waiting
    connections. This needs no more of the handlers than that they are defined: that they
    only take their own event off the queue and only append new ones is proved of all four. *)
Theorem dispatch_complete D K cf al malloc (kst : kstate K) fuel (P : monitor D -> Prop) w n :
  (forall p w, P w -> wf_monitor w -> p ∈ ready w ->
     exists o, call_handler cf al malloc kst fuel p w = Some o /\ forall w', o = Going w' -> P w') ->
  wf_monitor w -> P w -> (length (ready w) + length (new_events (arrivals w)) <= n)%nat ->
  exists o called,
    bcd_io_event_dispatch_ready_list cf al malloc kst fuel n w = Some (o, called) /\
    match o with
    | Going w' =>
        wf_monitor w' /\ NoDup called /\
        exists extra, called = ready w ++ extra /\ forall q, q ∈ extra -> events w !! q = None
    | Stopped _ => True
    end.
Proof.
  intros HP W Hw Hn.
  destruct (dispatch_ready_spec cf al malloc kst fuel (fun _ => P) (fun _ => HP) n w W Hw Hn) as (o & called & Hd & Hs).
  exists o, called. split; [done|]. destruct o as [w'|]; [|done].
  destruct Hs as (W' & _ & extra & consumed & -> & Hsub & Hc). split; [done|].
  pose proof W as [[Hnd Hq] Hnew Hfresh].
  assert (forall q, q ∈ extra -> events w !! q = None) as Hex.
  { intros q Hin. apply Hfresh. rewrite Hc. eapply elem_of_sublist in Hin; [|done].
    apply elem_of_app. by left. }
  split; [|by exists extra]. apply NoDup_app. split_and!; [done | |].
  - intros q Hin Hin'. apply Hex in Hin'.
    destruct (queue_live _ _ q (wm_queue _ W) Hin). congruence.
  - rewrite Hc in Hnew. apply NoDup_app in Hnew as (Hnew & _ & _). by eapply sublist_NoDup.
Qed.

(** ** The whole loop keeps the invariant *)

Lemma dispatch_from_wf D K cf al malloc (kst : kstate K) fuel n :
  forall curr (w w' : monitor D) called,
  wf_monitor w -> dispatch_from cf al malloc kst fuel n curr w = Some (Going w', called) ->
  wf_monitor w'.
Proof.
  induction n as [|n IH]; intros [p|] w w' called W Hd; simpl in Hd; simplify_eq; try done.
  destruct (call_handler cf al malloc kst fuel p w) as [[w1|]|] eqn:Hc; try done.
  apply call_handler_spec in Hc as [W1 _]; [|done]. cbn [mbind option_bind] in Hd. bind_inv Hd.
  simplify_eq. eapply IH; eassumption.
Qed.

Lemma mark_ready_wf D reported : forall (w w' : monitor D),
  wf_monitor w -> mark_ready reported w = Some w' -> wf_monitor w'.
Proof.
  induction reported as [|[p m] reported IH]; intros w w' W Hm; simpl in Hm; [by simplify_eq|].
  bind_inv Hm. apply add_to_ready_spec in Hx0 as [W1 _]; [by eapply IH|].
  by eapply wf_update_event.
Qed.

(** C12: The queue stays what it is meant to be through any number of rounds of the event loop:
    it holds exactly the live events that are marked as ready, each once, so neither the loop
    nor epoll meets a destroyed event in it. *)
Theorem io_enter_invariant D K cf al malloc (kst : kstate K) fuel n waits : forall (w : monitor D) r,
  wf_monitor w -> bcd_io_enter cf al malloc kst fuel n waits w = Some r ->
  match r with LoopError _ w' | LoopWaiting w' => wf_monitor w' | LoopStopped _ => True end.
Proof.
  induction waits as [|[errno|reported] waits IH]; intros w r W Hr; simpl in Hr.
  - by simplify_eq.
  - case_decide; [by eapply IH | by simplify_eq].
  - bind_inv Hr. destruct o as [w1|]; simplify_eq; [|done].
    eapply IH; [|done]. eapply dispatch_from_wf; [|done]. by eapply mark_ready_wf.
Qed.

(** ** Accepting *)

(** What becomes of a connection. *)
Inductive fate := Served | Refused_closed | Leaked.

Definition connection_fate {D} (a : arrival D) : fate :=
  match a with
  | Connection _ _ None (Some _) true => Served
  | Connection _ _ None None _ => Refused_closed
  | _ => Leaked
  end.

Lemma remove_defined {D} (w : monitor D) p :
  is_Some (events w !! p) ->
  exists w', bcd_io_event_remove_from_ready_list w p = Some w' /\ links w' = links w /\
    (forall q e, events w' !! q = Some e -> exists e', events w !! q = Some e' /\ fd e = fd e') /\
    (forall q, q <> p -> events w' !! q = events w !! q) /\
    (forall q, q <> p -> q ∈ ready w -> q ∈ ready w').
Proof.
  intros [ev Hp]. unfold bcd_io_event_remove_from_ready_list. rewrite Hp. cbn [mbind option_bind].
  destruct (in_ready_list ev); eexists; (split; [done|]); simpl; split_and!; try done; eauto.
  - intros q e. destruct (decide (q = p)) as [->|Hqp].
    + rewrite lookup_insert_eq. intros [= <-]. by exists ev.
    + rewrite lookup_insert_ne by done. eauto.
  - intros q Hqp. by rewrite lookup_insert_ne.
  - intros q Hqp Hin. by apply list_elem_of_filter.
Qed.

Ltac take_off w' Hl Hf Ho Hr :=
  match goal with |- context [bcd_io_event_remove_from_ready_list ?w1 ?p] =>
    destruct (remove_defined w1 p) as (w' & -> & Hl & Hf & Ho & Hr) end.

(** A connection is served, with a fresh session in an event that is ready, exactly when its
    descriptor could be prepared, its event allocated and watched. Without memory for the event
    the descriptor is closed. When it cannot be prepared or watched it stays open although
    no event refers to it: the descriptor is leaked. *)
Theorem accept_spec D (w : monitor D) p ev f link prepare event watched :
  wf_monitor w -> events w !! p = Some ev -> links w !! f = None ->
  (forall q e, events w !! q = Some e -> fd e <> f) ->
  arrivals w = [Connection f link prepare event watched] ->
  exists w', bcd_io_listener_accept p w = Some w' /\ wf_monitor w' /\
    match connection_fate (Connection f link prepare event watched) with
    | Served => exists q, event = Some q /\ links w' !! f = Some link /\
        events w' !! q = Some (Event f 0 (Client new_session) true) /\ q ∈ ready w'
    | Refused_closed => links w' !! f = None
    | Leaked => links w' !! f = Some link /\ forall q e, events w' !! q = Some e -> fd e <> f
    end.
Proof.
  intros W Hp Hlink Hfd Ha. unfold bcd_io_listener_accept. rewrite Ha.
  set (l := [Connection f link prepare event watched]) in *.
  assert (wf_monitor (set_arrivals w l)) as Wl by (apply (wf_same w); done).
  assert (exists w', accept_loop p l w = Some w' /\
    match connection_fate (Connection f link prepare event watched) with
    | Served => exists q, event = Some q /\ links w' !! f = Some link /\
        events w' !! q = Some (Event f 0 (Client new_session) true) /\ q ∈ ready w'
    | Refused_closed => links w' !! f = None
    | Leaked => links w' !! f = Some link /\ forall q e, events w' !! q = Some e -> fd e <> f
    end) as (w' & E & Hw').
  { assert (forall q, event = Some q -> q <> p).
    { intros q -> ->. rewrite (wm_fresh _ W p) in Hp; [done|]. rewrite Ha. left. }
    unfold l. destruct prepare as [errno|]; [|destruct event as [q|]; [destruct watched|]];
      cbn [accept_loop connection_fate].
    - case_decide; [|eexists; split; [done|]; simpl; split; [by rewrite lookup_insert_eq | done]].
      take_off w' Hl Hf Ho Hr; [by eexists|]. exists w'.
      split; [done|]. rewrite Hl. simpl. split; [by rewrite lookup_insert_eq|].
      intros r e He. destruct (Hf r e He) as (e' & He' & ->). by eapply Hfd.
    - unfold bcd_handler_accept, bcd_io_event_add_to_ready_list. simpl.
      rewrite lookup_insert_eq. cbn [mbind option_bind in_ready_list].
      take_off w' Hl Hf Ho Hr;
        [simpl; rewrite !lookup_insert_ne by eauto; by eexists|].
      exists w'. split; [done|]. exists q. rewrite Hl, Ho by eauto. simpl.
      rewrite !lookup_insert_eq. split_and!; try done. apply Hr; [by eauto|]. simpl. set_solver.
    - unfold bcd_handler_accept, bcd_io_event_destroy. simpl.
      rewrite lookup_insert_eq. cbn [mbind option_bind].
      take_off w' Hl Hf Ho Hr;
        [simpl; rewrite lookup_delete_ne, lookup_insert_ne by eauto; by eexists|].
      exists w'. split; [done|]. rewrite Hl. simpl. split; [by rewrite lookup_insert_eq|].
      intros r e He. destruct (Hf r e He) as (e' & He' & ->). simpl in He'.
      destruct (decide (r = q)) as [->|Hrq]; [by rewrite lookup_delete_eq in He'|].
      rewrite lookup_delete_ne, lookup_insert_ne in He' by done. by eapply Hfd.
    - take_off w' Hl Hf Ho Hr; [by eexists|].
      exists w'. split; [done|]. rewrite Hl. simpl. by rewrite lookup_delete_eq. }
  exists w'. split; [done|]. split; [|done].
  destruct (accept_loop_spec p l w w' Wl) as [W' _]; [by eexists | done | done].
Qed.

(** ** Witnesses *)

Lemma wf_monitor_list {D} (w : monitor D) (l : list (Z * bcd_io_event)) :
  events w = list_to_map l -> NoDup l.*1 -> NoDup (ready w) ->
  ready w = omap (fun '(p, ev) => if in_ready_list ev then Some p else None) l ->
  NoDup (new_events (arrivals w)) -> Forall (fun q => q ∉ l.*1) (new_events (arrivals w)) ->
  wf_monitor w.
Proof.
  intros He Hd Hrd Hr Hn Hf. split; [split; [done|] | done |].
  - intros p. rewrite Hr, He, list_elem_of_omap. split.
    + intros ([q ev] & Hin & Hq). destruct (in_ready_list ev) eqn:E; simplify_eq.
      exists ev. split; [by apply elem_of_list_to_map_1 | done].
    + intros (ev & Hp & E). apply elem_of_list_to_map_2 in Hp. exists (p, ev). by rewrite E.
  - intros q Hq. rewrite He. apply not_elem_of_list_to_map_1.
    rewrite Forall_forall in Hf. by apply Hf.
Qed.

(** The monitor as [bcd_child] leaves it: the listener and the two pipes, all ready, and one
    client that connects and sends a pair. *)
Definition start_events : list (Z * bcd_io_event) :=
  [(1, Event 3 0 Accept true); (2, Event 4 0 Watch true); (5, Event 6 0 Watch false)].
Definition start_monitor : monitor toy :=
  Monitor (list_to_map start_events) [1; 2] ∅
    [Connection (D := toy) 7 (PipeEnd 1 sample_bytes []) None (Some 10) true] sample_metadata.

Lemma start_monitor_wf : wf_monitor start_monitor.
Proof.
  apply (wf_monitor_list _ start_events); [reflexivity | by_compute | by_compute | reflexivity |
    by_compute | by_compute].
Qed.

Definition all_watch (w : monitor toy) : Prop :=
  map_Forall (fun _ ev => handler ev = Watch /\ mask ev = 0) (events w).

Lemma all_watch_step cf al malloc kst p (w : monitor toy) :
  all_watch w -> wf_monitor w -> p ∈ ready w ->
  exists o, call_handler (K := stopping_kernel 0) cf al malloc kst 5 p w = Some o /\
    forall w', o = Going w' -> all_watch w'.
Proof.
  intros H W Hp. destruct (queue_live _ _ p (wm_queue _ W) Hp) as [ev Hev].
  destruct (H p ev Hev) as [Hh Hm]. unfold call_handler. rewrite Hev. cbn [mbind option_bind].
  rewrite Hh. unfold handle_sb, bcd_io_event_has_error. rewrite Hm.
  rewrite bool_decide_false by (intros Hn; by apply Hn).
  unfold bcd_io_event_remove_from_ready_list. rewrite Hev. cbn [mbind option_bind].
  destruct (in_ready_list ev); eexists; (split; [reflexivity|]); intros w' [= <-]; [|done].
  apply map_Forall_insert_2; [by split | done].
Qed.

Definition watching : monitor toy :=
  Monitor (list_to_map [(2, Event 4 0 Watch true); (5, Event 6 0 Watch true)]) [2; 5] ∅ [] no_metadata.

Lemma watching_wf : wf_monitor watching.
Proof.
  apply (wf_monitor_list _ [(2, Event 4 0 Watch true); (5, Event 6 0 Watch true)]);
    [reflexivity | by_compute | by_compute | reflexivity | by_compute | by_compute].
Qed.

Lemma dispatch_complete_witness :
  wf_monitor watching /\ all_watch watching /\
  exists o called,
    bcd_io_event_dispatch_ready_list (K := stopping_kernel 0) sample_invoke all_succeed None 0%nat 5 2
      watching = Some (o, called).
Proof.
  assert (all_watch watching) as A.
  { apply map_Forall_insert_2; [by split|]. apply map_Forall_insert_2; [by split|].
    apply map_Forall_empty. }
  split; [exact watching_wf|]. split; [exact A|].
  destruct (dispatch_complete toy (stopping_kernel 0) sample_invoke all_succeed None 0%nat 5 all_watch
    watching 2 (all_watch_step sample_invoke all_succeed None 0%nat) watching_wf A) as (o & called & E & _);
    [simpl; lia|].
  exists o, called. exact E.
Defined.

(** One round: the connection is accepted, and its request is served. *)
Lemma io_enter_invariant_witness :
  wf_monitor start_monitor /\
  exists w', bcd_io_enter (K := stopping_kernel 0) sample_invoke all_succeed None 0%nat 60 9
      [inr [(1, EPOLLIN)]] start_monitor = Some (LoopWaiting w') /\
    wf_monitor w' /\ head (kv_list (meta w')) = Some (KV (bytes_of "b") (bytes_of "22")).
Proof.
  split; [exact start_monitor_wf|].
  destruct (bcd_io_enter (K := stopping_kernel 0) sample_invoke all_succeed None 0%nat 60 9
      [inr [(1, EPOLLIN)]] start_monitor) as [r|] eqn:E;
    [|vm_compute in E; discriminate E].
  pose proof (io_enter_invariant toy (stopping_kernel 0) sample_invoke all_succeed None 0%nat 60 9
    [inr [(1, EPOLLIN)]] start_monitor r start_monitor_wf E) as W.
  vm_compute in E. injection E as <-. eexists. split; [reflexivity|]. split; [exact W | reflexivity].
Defined.

Lemma accept_spec_witness :
  wf_monitor start_monitor /\
  exists w', bcd_io_listener_accept 1 start_monitor = Some w' /\ wf_monitor w' /\ 10 ∈ ready w'.
Proof.
  split; [exact start_monitor_wf|].
  destruct (accept_spec toy start_monitor 1 (Event 3 0 Accept true) 7 (PipeEnd 1 sample_bytes []) None
    (Some 10) true start_monitor_wf eq_refl eq_refl) as (w' & E & W & q & Hq & _ & _ & Hr).
  - intros q e Hq. apply elem_of_list_to_map_2 in Hq.
    unfold start_events in Hq. rewrite !elem_of_cons in Hq.
    destruct Hq as [Hq|[Hq|[Hq|Hq]]]; [injection Hq as _ ->; simpl; lia ..|].
    apply not_elem_of_nil in Hq as [].
  - reflexivity.
  - injection Hq as <-. exists w'. split; [exact E|]. split; [exact W | exact Hr].
Defined.
