(* ===== verification/BcdConfig.v ===== *)
(** * Configuration and credentials of bcd (src/external/bcd/bcd-amalgamated.c)

    The versioned configuration ([bcd_config_init_internal], [bcd_config_assign],
    [bcd_config_from_env]), the signal handlers of [bcd_sigaction], and what the monitor
    does to its own process when it starts: [bcd_chown], [bcd_suid], [bcd_setcomm],
    [bcd_os_oom_adjust]. A string pointer is an option of a string, [None] the null
    pointer; [None] as a result is undefined behaviour. *)

From stdpp Require Import pretty.
From S2P Require Import Prelude.
From S2P Require Import BcdTracer.
From S2P Require Import BcdChannel.
From S2P Require Import Utils.

Abbreviation c_ptr := (option (list byte)) (only parsing).

(** ** The configuration *)

Record bcd_config := Config {
  version : Z; flags : Z; oom_adjust : Z; error_handler : option Z;
  timeout : Z; umask : Z;
  chown_user : c_ptr; chown_group : c_ptr; suid_user : c_ptr; suid_group : c_ptr;
  invoke_path : c_ptr; invoke_kp : c_ptr; invoke_separator : byte; invoke_ks : byte;
  invoke_tp : c_ptr; invoke_output_file : c_ptr;
  ipc_mechanism : Z; us_path : c_ptr; target_cpu : Z;
  monitor_init : option Z; config_request_handler : option Z
}.

Definition BCD_IPC_UNIX_SOCKET : Z := 0.

(** [bcd_config_init_v1]; [handler] is the address of [bcd_error_handler_default]. *)
Definition bcd_config_init_v1 (handler : Z) : bcd_config :=
  {| version := 1; flags := 0; oom_adjust := 1; error_handler := Some handler;
     timeout := 30; umask := 127;
     chown_user := None; chown_group := None; suid_user := None; suid_group := None;
     invoke_path := Some (bytes_of "/opt/backtrace/bin/ptrace");
     invoke_kp := Some (bytes_of "--kv="); invoke_separator := Init.Byte.x2c;
     invoke_ks := Init.Byte.x3a; invoke_tp := Some (bytes_of "--thread=");
     invoke_output_file := None;
     ipc_mechanism := BCD_IPC_UNIX_SOCKET; us_path := None; target_cpu := -1;
     monitor_init := None; config_request_handler := None |}.

(** The result, the error, and the structure the caller passed. *)
Definition bcd_config_init_internal (handler : Z) (cf : bcd_config) (caller_version : Z) :
    Z * option bcd_error_info * bcd_config :=
  if decide (caller_version = 1) then (0, None, bcd_config_init_v1 handler)
  else (-1, Some (ErrorInfo 0 "unrecognized config version"), cf).

(** [bcd_config_assign_from_v1] copies field by field into the global [bcd_config]. *)
Definition bcd_config_assign_from_v1 (cf : bcd_config) : bcd_config :=
  {| version := version cf; flags := flags cf; oom_adjust := oom_adjust cf;
     error_handler := error_handler cf; timeout := timeout cf; umask := umask cf;
     chown_user := chown_user cf; chown_group := chown_group cf;
     suid_user := suid_user cf; suid_group := suid_group cf;
     invoke_path := invoke_path cf; invoke_kp := invoke_kp cf;
     invoke_separator := invoke_separator cf; invoke_ks := invoke_ks cf;
     invoke_tp := invoke_tp cf; invoke_output_file := invoke_output_file cf;
     ipc_mechanism := ipc_mechanism cf; us_path := us_path cf; target_cpu := target_cpu cf;
     monitor_init := monitor_init cf; config_request_handler := config_request_handler cf |}.

(** [global] is the configuration of the library before the call. *)
Definition bcd_config_assign (cf global : bcd_config) : Z * option bcd_error_info * bcd_config :=
  if decide (version cf = 1) then (0, None, bcd_config_assign_from_v1 cf)
  else (-1, Some (ErrorInfo 0 "unrecognized config version"), global).

(** *** The environment (with [BCD_F_PRELOAD]) *)

Definition string_from_env (value : c_ptr) (output : c_ptr) : c_ptr :=
  match value with
  | Some (c :: s) => Some (c :: s)
  | _ => output
  end.

Definition char_from_env (value : c_ptr) (output : byte) : byte :=
  match value with
  | Some (c :: _) => c
  | _ => output
  end.

Definition bcd_config_from_env (getenv : string -> c_ptr) (strcmp : list byte -> list byte -> Z)
    (cf : bcd_config) : bcd_config :=
  let oom := match getenv "BCD_OOM_ADJUST"%string with
    | Some value => if decide (strcmp value (bytes_of "1") = 1) then 1 else oom_adjust cf
    | None => oom_adjust cf
    end in
  {| version := version cf; flags := flags cf; oom_adjust := oom;
     error_handler := error_handler cf; timeout := timeout cf; umask := umask cf;
     chown_user := chown_user cf; chown_group := chown_group cf;
     suid_user := suid_user cf; suid_group := suid_group cf;
     invoke_path := string_from_env (getenv "BCD_INVOKE_PATH"%string) (invoke_path cf);
     invoke_kp := string_from_env (getenv "BCD_INVOKE_KP"%string) (invoke_kp cf);
     invoke_separator := char_from_env (getenv "BCD_INVOKE_SEPARATOR"%string) (invoke_separator cf);
     invoke_ks := char_from_env (getenv "BCD_INVOKE_KS"%string) (invoke_ks cf);
     invoke_tp := string_from_env (getenv "BCD_INVOKE_TP"%string) (invoke_tp cf);
     invoke_output_file :=
       string_from_env (getenv "BCD_INVOKE_OUTPUT_FILE"%string) (invoke_output_file cf);
     ipc_mechanism := ipc_mechanism cf;
     us_path := string_from_env (getenv "BCD_IPC_US_PATH"%string) (us_path cf);
     target_cpu := target_cpu cf;
     monitor_init := monitor_init cf; config_request_handler := config_request_handler cf |}.

(** ** Signal handlers *)

Definition SIGFPE : Z := 8.
Definition SA_ONSTACK : Z := 0x08000000.
Definition BCD_SIGACTION_RAISE : Z := 1.

Definition bcd_signals : list Z := [SIGSEGV; SIGFPE; SIGABRT; SIGBUS; SIGILL; SIGFPE].

(** The loop of [bcd_sigaction]: the first signal the system refuses, or 0. *)
Fixpoint install_signals (accepts : Z -> bool) (action : sigaction) (table : gmap Z sigaction)
    (l : list Z) : gmap Z sigaction * Z :=
  match l with
  | [] => (table, 0)
  | s :: l =>
      if accepts s then install_signals accepts action (<[s := action]> table) l else (table, s)
  end.

(** [h] is the handler of the caller, null for one of the library's two. *)
Definition bcd_sigaction (accepts : Z -> bool) (default raise : Z) (table : gmap Z sigaction)
    (h flags : Z) : gmap Z sigaction * Z :=
  let handler :=
    if decide (h <> 0) then h
    else if decide (Z.land flags BCD_SIGACTION_RAISE <> 0) then raise else default in
  install_signals accepts (Sigaction handler (Z.lor SA_SIGINFO SA_ONSTACK)) table bcd_signals.

(** ** Credentials *)

(** The name service: the id of a name, or the result and [errno] of the lookup when there is
    none; [buffer] is the [errno] of a failing [malloc]. *)
Record name_service := Names {
  buffer_errno : option Z;
  getpwnam_r : list byte -> Z * Z + Z;
  getgrnam_r : list byte -> Z * Z + Z
}.

(** [bcd_uid_name] and [bcd_gid_name]: a null name is undefined behaviour. *)
Definition id_of (buffer_errno : option Z) (lookup : list byte -> Z * Z + Z) (failure : string)
    (name : c_ptr) : option (bcd_error_info + Z) :=
  match buffer_errno with
  | Some errno => Some (inl (ErrorInfo errno "failed to allocate internal buffer"))
  | None =>
      name ← name;
      match lookup name with
      | inl (r, errno) => Some (inl (ErrorInfo (if decide (r <> 0) then errno else 0) failure))
      | inr id => Some (inr id)
      end
  end.

Definition bcd_uid_name (ns : name_service) : c_ptr -> option (bcd_error_info + Z) :=
  id_of (buffer_errno ns) (getpwnam_r ns) "failed to find user for chown".
Definition bcd_gid_name (ns : name_service) : c_ptr -> option (bcd_error_info + Z) :=
  id_of (buffer_errno ns) (getgrnam_r ns) "failed to find group".

(** [bcd_chown]: the result, the error, and the arguments of the call of [chown], if it is made;
    [chown] gives the [errno] of a failing call. *)
Definition bcd_chown (ns : name_service) (cf : bcd_config) (chown : Z * Z -> option Z) :
    option (Z * option bcd_error_info * option (Z * Z)) :=
  match chown_user cf with
  | None => Some (0, None, None)
  | Some user =>
      u ← bcd_uid_name ns (Some user);
      match u with
      | inl e => Some (-1, Some e, None)
      | inr uid =>
          g ← (match chown_group cf with
               | None => Some (inr (u32 (-1)))
               | Some group => bcd_gid_name ns (Some group)
               end);
          match g with
          | inl e => Some (-1, Some e, None)
          | inr gid =>
              match chown (uid, gid) with
              | Some errno => Some (-1, Some (ErrorInfo errno "failed to set permissions"), Some (uid, gid))
              | None => Some (0, None, Some (uid, gid))
              end
          end
      end
  end.

(** The ids of the process, and whether [setgid] and [setuid] fail, with [errno]. *)
Record credentials := Credentials { euid : Z; egid : Z }.

Definition drop_group (ns : name_service) (cf : bcd_config) (setgid : Z -> option Z) (c : credentials) :
    option (bcd_error_info + credentials) :=
  match chown_group cf with
  | None => Some (inr c)
  | Some group =>
      g ← bcd_gid_name ns (Some group);
      match g with
      | inl e => Some (inl e)
      | inr gid =>
          if decide (egid c = gid) then Some (inr c)
          else match setgid gid with
            | Some errno => Some (inl (ErrorInfo errno "failed to drop group privileges"))
            | None => Some (inr (Credentials (euid c) gid))
            end
      end
  end.

Definition bcd_suid (ns : name_service) (cf : bcd_config) (setgid setuid : Z -> option Z)
    (c : credentials) : option (Z * option bcd_error_info * credentials) :=
  r ← drop_group ns cf setgid c;
  match r with
  | inl e => Some (-1, Some e, c)
  | inr c =>
      match chown_user cf with
      | None => Some (0, None, c)
      | Some _ =>
          u ← bcd_uid_name ns (suid_user cf);
          match u with
          | inl e => Some (-1, Some e, c)
          | inr uid =>
              if decide (euid c = uid) then Some (0, None, c)
              else match setuid uid with
                | Some errno => Some (-1, Some (ErrorInfo errno "failed to drop user privileges"), c)
                | None => Some (0, None, Credentials uid (egid c))
                end
          end
      end
  end.

(** ** The process of the monitor *)

(** [bcd_setcomm]: -1, or the result of [prctl] on the title. *)
Definition bcd_setcomm (prctl : list byte -> Z) (title : c_ptr) : Z :=
  match title with
  | None | Some [] => -1
  | Some t => if decide (zlen t > 15) then -1 else prctl t
  end.

Definition CPU_SETSIZE : Z := 1024.

(** [CPU_SET] leaves a set alone when the processor does not fit in it. The result, and the set the process has been bound
    to. *)
Definition bcd_set_cpu_affinity (sched_setaffinity : gset Z -> Z) (core_id : Z) : Z * option (gset Z) :=
  if decide (core_id < 0) then (-1, None)
  else
    let cpuset := if decide (core_id < CPU_SETSIZE) then {[core_id]} else ∅ in
    if decide (sched_setaffinity cpuset = -1) then (-1, None) else (0, Some cpuset).

Definition EEXIST : Z := 17.
Definition ENOENT : Z := 2.

Definition oom_path (pid : Z) (file : string) : list byte :=
  bytes_of "/proc/" ++ decimal (u64 pid) ++ bytes_of "/" ++ bytes_of file.

(** Opening the file of the score: the descriptor or the error, and the paths that have
    been tried; [i] counts as in the code. *)
Fixpoint oom_open (fuel : nat) (open : list byte -> Z + Z) (pid : Z) (path : list byte) (i : Z)
    (tried : list (list byte)) : option ((bcd_error_info + Z) * list (list byte)) :=
  match fuel with
  | O => None
  | S fuel =>
      let tried := tried ++ [path] in
      match open path with
      | inr fd => Some (inr fd, tried)
      | inl errno =>
          if decide (errno <> EEXIST \/ i > 1) then
            Some (inl (ErrorInfo errno "failed to open oom path"), tried)
          else oom_open fuel open pid (oom_path pid "oom_score_adj") (i + 1) tried
      end
  end.

(** Writing it: every call starts at the beginning of the score. [writes] are the answers of
    [write]; the result is the error, if any, and what has been written. *)
Fixpoint oom_write (writes : list (Z + Z)) (ac : Z) (written : list byte) :
    option (option bcd_error_info * list byte) :=
  match writes with
  | [] => None
  | inl errno :: writes =>
      if decide (errno = EINTR) then
        if decide (ac < 3) then oom_write writes ac written else Some (None, written)
      else Some (Some (ErrorInfo errno "failed to adjust OOM score"), written)
  | inr wr :: writes =>
      let written := written ++ take (Z.to_nat wr) (bytes_of "-17") in
      if decide (ac + wr < 3) then oom_write writes (ac + wr) written else Some (None, written)
  end.

(** [bcd_os_oom_adjust]: the result, the error, the paths tried, what has been written. Both
    outcomes behind the open close the descriptor. *)
Definition bcd_os_oom_adjust (open : list byte -> Z + Z) (writes : list (Z + Z)) (pid : Z) :
    option (Z * option bcd_error_info * list (list byte) * list byte) :=
  '(r, tried) ← oom_open 3 open pid (oom_path pid "oom_adj") 0 [];
  match r with
  | inl e => Some (-1, Some e, tried, [])
  | inr _ =>
      '(error, written) ← oom_write writes 0 [];
      Some (match error with Some _ => -1 | None => 0 end, error, tried, written)
  end.

(** ** Theorems *)

Lemma config_copied cf : bcd_config_assign_from_v1 cf = cf.
Proof. by destruct cf. Qed.

(** The configuration makes its way into the library unchanged. Assigning a configuration
    of version 1 copies every field; any other version is refused and leaves the library's
    configuration as it was. What [bcd_config_init_internal] sets up can be assigned, whatever the
    structure held before. *)
Theorem config_spec :
  (forall cf global, version cf = 1 -> bcd_config_assign cf global = (0, None, cf)) /\
  (forall cf global, version cf <> 1 ->
     exists e, bcd_config_assign cf global = (-1, Some e, global)) /\
  (forall handler cf caller_version global,
     if decide (caller_version = 1)
     then bcd_config_init_internal handler cf caller_version = (0, None, bcd_config_init_v1 handler) /\
          bcd_config_assign (bcd_config_init_v1 handler) global =
            (0, None, bcd_config_init_v1 handler)
     else exists e, bcd_config_init_internal handler cf caller_version = (-1, Some e, cf)).
Proof.
  split_and!.
  - intros cf global Hv. unfold bcd_config_assign. rewrite decide_True by done. by rewrite config_copied.
  - intros cf global Hv. unfold bcd_config_assign. rewrite decide_False by done. by eexists.
  - intros handler cf v global. unfold bcd_config_init_internal. case_decide; [|by eexists].
    split; [done|]. unfold bcd_config_assign. simpl. done.
Qed.

Lemma string_from_env_spec value output :
  string_from_env value output = match value with Some (_ :: _) => value | _ => output end.
Proof. by destruct value as [[|]|]. Qed.

(** With the preloaded library the environment overrides the strings that are set and not
    empty and nothing else. [BCD_OOM_ADJUST=1] has no effect: the code asks whether
    [strcmp] returns 1, and for equal strings it returns 0. *)
Theorem config_from_env_spec getenv strcmp cf :
  (forall s, strcmp s s = 0) ->
  getenv "BCD_OOM_ADJUST"%string = Some (bytes_of "1") ->
  let cf' := bcd_config_from_env getenv strcmp cf in
  oom_adjust cf' = oom_adjust cf /\
  (forall s c, getenv "BCD_INVOKE_PATH"%string = Some (c :: s) -> invoke_path cf' = Some (c :: s)) /\
  ((forall name, name <> "BCD_OOM_ADJUST"%string ->
      getenv name = None \/ getenv name = Some []) -> cf' = cf).
Proof.
  intros Hs Hoom. assert (oom_adjust (bcd_config_from_env getenv strcmp cf) = oom_adjust cf) as Ho.
  { unfold bcd_config_from_env. cbn [oom_adjust]. by rewrite Hoom, Hs. }
  cbv zeta. split_and!; [done | |].
  - intros s c Hp. simpl. by rewrite Hp.
  - intros Hn. unfold bcd_config_from_env, string_from_env, char_from_env. rewrite Hoom, Hs.
    rewrite decide_False by done. destruct cf; simpl.
    f_equal; match goal with |- context [getenv ?n] => by destruct (Hn n) as [-> | ->] end.
Qed.

Lemma suid_result ns cf setgid setuid c r e c' :
  bcd_suid ns cf setgid setuid c = Some (r, e, c') -> r = 0 \/ r = -1.
Proof.
  unfold bcd_suid. intros Hr. apply bind_Some in Hr as ([e0|c0] & _ & Hr); [right; by simplify_eq|].
  destruct (chown_user cf); [|left; by simplify_eq].
  apply bind_Some in Hr as ([e1|uid] & _ & Hr); [right; by simplify_eq|].
  case_decide; [left; by simplify_eq|]. destruct (setuid uid); simplify_eq; tauto.
Qed.

(** The credentials of [suid] are not what [bcd_suid] drops to. Without [chown.user] and
    [chown.group] it reports success and keeps all privileges, whatever [suid] says; the
    group of [suid] is never used; and with [chown.user] but no [suid.user], the defaults being
    null, it looks up a null name. *)
Theorem suid_credentials ns cf setgid setuid c :
  (chown_user cf = None -> chown_group cf = None ->
     bcd_suid ns cf setgid setuid c = Some (0, None, c)) /\
  (buffer_errno ns = None -> chown_user cf <> None -> chown_group cf = None -> suid_user cf = None ->
     bcd_suid ns cf setgid setuid c = None) /\
  (forall cf', chown_user cf' = chown_user cf -> chown_group cf' = chown_group cf ->
     suid_user cf' = suid_user cf -> bcd_suid ns cf' setgid setuid c = bcd_suid ns cf setgid setuid c).
Proof.
  unfold bcd_suid, drop_group. split_and!.
  - intros -> ->. done.
  - intros Hb Hu -> ->. bind_simpl. destruct (chown_user cf); [|done].
    unfold bcd_uid_name, id_of. by rewrite Hb.
  - by intros cf' -> -> ->.
Qed.

(** On a system without /proc/<pid>/oom_adj the score is not adjusted: the fallback to
    oom_score_adj is guarded by [EEXIST], which a missing file does not give, so the call
    fails after the first path. *)
Theorem oom_adjust_missing open writes pid :
  open (oom_path pid "oom_adj") = inl ENOENT ->
  bcd_os_oom_adjust open writes pid =
    Some (-1, Some (ErrorInfo ENOENT "failed to open oom path"), [oom_path pid "oom_adj"], []).
Proof. intros Ho. unfold bcd_os_oom_adjust. cbn [oom_open]. rewrite Ho. done. Qed.

(** The score is written from its beginning in every call, so what arrives in pieces is not
    the score. *)
Lemma oom_write_pieces :
  oom_write [inr 1; inr 2] 0 [] = Some (None, bytes_of "--1").
Proof. reflexivity. Qed.

Lemma install_signals_spec accepts action l : forall table,
  install_signals accepts action table l =
    (foldl (fun t s => <[s := action]> t) table (accepted accepts l),
     default 0 (head (filter (fun s => accepts s = false) l))).
Proof.
  induction l as [|s l IH]; intros table; simpl; [done|]. rewrite filter_cons.
  destruct (accepts s) eqn:E; simpl.
  - apply IH.
  - done.
Qed.

(** When the system accepts the handler for every signal, exactly the five of the list have
    it, SIGFPE being listed twice; otherwise the first one refused is returned. *)
Definition chosen_handler (default raise h fl : Z) : Z :=
  if decide (h <> 0) then h else if decide (Z.land fl BCD_SIGACTION_RAISE <> 0) then raise else default.

Lemma sigaction_spec accepts default raise table h fl :
  (forall s, s ∈ bcd_signals -> accepts s = true) ->
  let '(table', r) := bcd_sigaction accepts default raise table h fl in
  r = 0 /\ forall s, table' !! s =
    if decide (s ∈ [SIGSEGV; SIGFPE; SIGABRT; SIGBUS; SIGILL])
    then Some (Sigaction (chosen_handler default raise h fl) (Z.lor SA_SIGINFO SA_ONSTACK)) else table !! s.
Proof.
  intros Ha. unfold bcd_sigaction. fold (chosen_handler default raise h fl).
  rewrite install_signals_spec.
  assert (accepted accepts bcd_signals = bcd_signals) as ->.
  { apply accepted_all. apply forallb_forall. intros s Hs. apply Ha. by apply list_elem_of_In. }
  split.
  - destruct (filter (fun s => accepts s = false) bcd_signals) as [|s l] eqn:E; [done|].
    assert (s ∈ filter (fun s => accepts s = false) bcd_signals) as Hs by (rewrite E; left).
    apply list_elem_of_filter in Hs as [Hf Hin]. apply Ha in Hin. congruence.
  - intros s. rewrite foldl_insert_lookup. unfold bcd_signals.
    repeat case_decide; set_solver.
Qed.

(** ** Witnesses *)

(** A comparison of strings of the kind the C library has. *)
Fixpoint sample_strcmp (s t : list byte) : Z :=
  match s, t with
  | [], [] => 0
  | [], _ => -1
  | _, [] => 1
  | a :: s, b :: t =>
      if decide (a = b) then sample_strcmp s t
      else if decide (byte.unsigned a < byte.unsigned b) then -1 else 1
  end.

Lemma sample_strcmp_refl s : sample_strcmp s s = 0.
Proof. induction s as [|a s IH]; simpl; [done|]. by rewrite decide_True. Qed.

Definition sample_env (name : string) : c_ptr :=
  if decide (name = "BCD_OOM_ADJUST"%string) then Some (bytes_of "1")
  else if decide (name = "BCD_INVOKE_PATH"%string) then Some (bytes_of "/bin/tracer") else None.

Lemma config_from_env_spec_witness :
  let cf := bcd_config_from_env sample_env sample_strcmp (bcd_config_init_v1 4096) in
  oom_adjust cf = 1 /\ invoke_path cf = Some (bytes_of "/bin/tracer").
Proof.
  destruct (config_from_env_spec sample_env sample_strcmp (bcd_config_init_v1 4096)
    sample_strcmp_refl eq_refl) as (Ho & Hp & _).
  split; [rewrite Ho; reflexivity | apply Hp; reflexivity].
Defined.

Definition sample_names : name_service := Names None (fun _ => inr 1000) (fun _ => inr 100).

(** Runs as nobody, it is thought. *)
Definition suid_config : bcd_config :=
  {| version := 1; flags := 0; oom_adjust := 1; error_handler := None; timeout := 30; umask := 127;
     chown_user := None; chown_group := None;
     suid_user := Some (bytes_of "nobody"); suid_group := Some (bytes_of "nogroup");
     invoke_path := None; invoke_kp := None; invoke_separator := NUL; invoke_ks := NUL;
     invoke_tp := None; invoke_output_file := None; ipc_mechanism := 0; us_path := None;
     target_cpu := -1; monitor_init := None; config_request_handler := None |}.

Lemma suid_credentials_witness :
  suid_user suid_config = Some (bytes_of "nobody") /\
  bcd_suid sample_names suid_config (fun _ => None) (fun _ => None) (Credentials 0 0) =
    Some (0, None, Credentials 0 0).
Proof.
  split; [reflexivity|].
  destruct (suid_credentials sample_names suid_config (fun _ => None) (fun _ => None)
    (Credentials 0 0)) as (H & _ & _).
  exact (H eq_refl eq_refl).
Defined.

Lemma oom_adjust_missing_witness :
  exists r, bcd_os_oom_adjust (fun p => if decide (p = oom_path 7 "oom_adj") then inl ENOENT else inr 3)
    [inr 3] 7 = Some r /\ r.1.2 = [bytes_of "/proc/7/oom_adj"].
Proof.
  eexists. split.
  - apply (oom_adjust_missing (fun p => if decide (p = oom_path 7 "oom_adj") then inl ENOENT else inr 3)
      [inr 3] 7). vm_compute. reflexivity.
  - vm_compute. reflexivity.
Defined.

Lemma config_spec_witness :
  bcd_config_assign (bcd_config_init_v1 4096) suid_config = (0, None, bcd_config_init_v1 4096) /\
  version (bcd_config_init_v1 4096) = 1.
Proof.
  split; [|reflexivity]. exact (proj1 config_spec (bcd_config_init_v1 4096) suid_config eq_refl).
Defined.
