(* ===== verification/Structures.v ===== *)
(** * The structures of the program (src/include/bun, src/src/bun_internal.h, src/external/bcd)

    The declarations of the structures as types of [Layout], on the 64-bit Linux ABI. The offsets the models of the
    stream and of the sessions use are the offsets of these declarations, and the three declarations of the
    configuration, between which the code casts pointers, describe the same memory. *)

From stdpp Require Import sorting.
From S2P Require Import Prelude.
From S2P Require Import Memory.
From S2P Require Import Layout.
From S2P Require Import Stream.
From S2P Require Import BcdMeta.
From S2P Require Import BcdChannel.
From S2P Require Import BcdSession.
From S2P Require Import BcdConfig.

(** ** Scalars *)

Definition c_char : ctype := Integer 1.
Definition c_bool : ctype := Integer 1.
Definition uint16_t : ctype := Integer 2.
Definition c_int : ctype := Integer 4.
Definition uint32_t : ctype := Integer 4.
Definition c_enum : ctype := Integer 4.
Definition mode_t : ctype := Integer 4.
Definition pid_t : ctype := Integer 4.
Definition uint64_t : ctype := Integer 8.
Definition size_t : ctype := Integer 8.
Definition c_long : ctype := Integer 8.
Definition pointer : ctype := Integer 8.

Section Declarations.
Local Open Scope string_scope.

(** ** libbun *)

Definition struct_bun_payload_header : ctype :=
  struct [("magic", uint64_t); ("version", uint16_t); ("architecture", uint16_t); ("size", uint32_t);
          ("tid", uint32_t); ("backend", uint16_t)].

Definition struct_bun_buffer : ctype := struct [("data", pointer); ("size", size_t)].

Definition struct_bun_writer_reader_base : ctype :=
  struct [("buffer", pointer); ("cursor", pointer); ("size", size_t); ("handle", pointer); ("overflow", c_bool)].

Definition struct_bun_writer : ctype := struct [("data", struct_bun_writer_reader_base)].
Definition struct_bun_reader : ctype := struct [("data", struct_bun_writer_reader_base)].

Definition struct_bun_frame : ctype :=
  struct [("addr", uint64_t); ("symbol", pointer); ("symbol_length", size_t); ("filename", pointer);
          ("filename_length", size_t); ("line_no", size_t); ("offset", size_t); ("register_count", size_t);
          ("register_buffer_size", size_t); ("register_data", pointer)].

Definition struct_bun_handle : ctype :=
  struct [("unwind", pointer); ("unwind_context", pointer); ("unwind_remote", pointer); ("destroy", pointer);
          ("backend_context", pointer); ("flags", uint64_t); ("write_count", c_int)].

(** With 64-bit pointers [PADDING] is empty. *)
Definition struct_bun_buffer_payload : ctype :=
  struct [("write_count", uint32_t); ("handle", pointer); ("header", struct_bun_payload_header)].

(** ** bcd: the configuration *)

Definition owner : ctype := struct [("user", pointer); ("group", pointer)].

(** The three declarations are the same but for their names. *)
Definition struct_bcd_config : ctype :=
  struct [("version", c_int); ("flags", c_long); ("oom_adjust", c_int); ("handler", pointer); ("timeout", c_int);
          ("umask", mode_t); ("chown", owner); ("suid", owner);
          ("invoke", struct [("path", pointer); ("kp", pointer); ("separator", c_char); ("ks", c_char);
                             ("tp", pointer); ("output_file", pointer)]);
          ("ipc_mechanism", c_enum); ("ipc", union [("us", struct [("path", pointer)])]);
          ("affinity", struct [("target_cpu", c_int)]); ("monitor_init", pointer); ("request_handler", pointer)].

Definition struct_bcd_config_internal : ctype :=
  struct [("version", c_int); ("flags", c_long); ("oom_adjust", c_int); ("handler", pointer); ("timeout", c_int);
          ("umask", mode_t); ("chown", owner); ("suid", owner);
          ("invoke", struct [("path", pointer); ("kp", pointer); ("separator", c_char); ("ks", c_char);
                             ("tp", pointer); ("output_file", pointer)]);
          ("ipc_mechanism", c_enum); ("ipc", union [("us", struct [("path", pointer)])]);
          ("affinity", struct [("target_cpu", c_int)]); ("monitor_init", pointer); ("request_handler", pointer)].

Definition struct_bcd_config_v1 : ctype :=
  struct [("version", c_int); ("flags", c_long); ("oom_adjust", c_int); ("handler", pointer); ("timeout", c_int);
          ("umask", mode_t); ("chown", owner); ("suid", owner);
          ("invoke", struct [("path", pointer); ("kp", pointer); ("separator", c_char); ("ks", c_char);
                             ("tp", pointer); ("output_file", pointer)]);
          ("ipc_mechanism", c_enum); ("ipc", union [("us", struct [("path", pointer)])]);
          ("affinity", struct [("target_cpu", c_int)]); ("monitor_init", pointer); ("request_handler", pointer)].

(** ** bcd: packets, sessions, events *)

Definition tailq_entry : ctype := struct [("tqe_next", pointer); ("tqe_prev", pointer)].
Definition list_entry : ctype := struct [("le_next", pointer); ("le_prev", pointer)].

Definition struct_bcd : ctype := struct [("fd", c_int)].
Definition struct_bcd_error : ctype := struct [("message", pointer); ("errnum", c_int)].
Definition struct_bcd_pipe : ctype := struct [("fd", Array 2 c_int)].

Definition struct_bcd_packet : ctype := struct [("op", c_enum); ("length", c_int); ("payload", Array 0 c_char)].

Definition packet_instance (n : nat) : ctype := struct [("packet", struct_bcd_packet); ("payload", Array n c_char)].

Definition struct_bcd_session : ctype :=
  struct [("tid", pid_t); ("state", c_enum); ("terminated", c_int); ("offset", size_t);
          ("packet", packet_instance (Z.to_nat BCD_PACKET_LIMIT))].

Definition struct_bcd_io_event : ctype :=
  struct [("fd", c_int); ("mask", c_int); ("handler", pointer); ("flags", c_enum); ("readylink", tailq_entry);
          ("payload", Array 0 c_char)].

Definition struct_bcd_kv : ctype := struct [("linkage", list_entry); ("key", pointer); ("value", pointer)].
Definition struct_bcd_arg : ctype := struct [("linkage", tailq_entry); ("arg", pointer)].

Definition BCD_SB_PATH : Z := 1024.
Definition BCD_MD_PAGESIZE : Z := 4096.

Definition struct_bcd_sb : ctype :=
  struct [("master_pid", pid_t); ("monitor_pid", pid_t); ("master", struct_bcd_pipe); ("monitor", struct_bcd_pipe);
          ("path", Array (Z.to_nat BCD_SB_PATH) c_char); ("output_fd", c_int)].

(** [pcb], without its alignment to a page. *)
Definition union_pcb : ctype := union [("sb", struct_bcd_sb); ("storage", Array (Z.to_nat BCD_MD_PAGESIZE) c_char)].

Definition struct_bcd_io_listener : ctype := struct [("path", pointer); ("fd", c_int)].
Definition struct_bcd_io_listener_state : ctype := struct [("accept", pointer); ("handler", pointer); ("payload", size_t)].

(** The structures without overlapping members. *)
Definition structures : list ctype :=
  [struct_bun_payload_header; struct_bun_buffer; struct_bun_writer_reader_base; struct_bun_writer; struct_bun_reader;
   struct_bun_frame; struct_bun_handle; struct_bun_buffer_payload; struct_bcd_config; struct_bcd_config_internal;
   struct_bcd_config_v1; struct_bcd; struct_bcd_error; struct_bcd_pipe; struct_bcd_packet;
   packet_instance (Z.to_nat BCD_PACKET_LIMIT); struct_bcd_session; struct_bcd_io_event; struct_bcd_kv; struct_bcd_arg;
   struct_bcd_sb; struct_bcd_io_listener; struct_bcd_io_listener_state].

(** ** The offsets the models use *)

Definition offset_in (t : ctype) (path : list string) : option Z := fst <$> offsetof t path.

(** A member and the offset a definition of the development gives it. *)
Definition offsets_of (t : ctype) (l : list (list string * Z)) : Prop :=
  Forall (fun x => offset_in t x.1 = Some x.2) l.


(** ** The configuration in memory *)

(** The members of a configuration in the order of the declaration; [address] places the strings. *)
Definition config_values (address : list byte -> Z) (cf : bcd_config) : list Z :=
  let string (s : option (list byte)) := from_option address NULL s in
  [version cf; flags cf; oom_adjust cf; default NULL (error_handler cf); timeout cf; umask cf;
   string (chown_user cf); string (chown_group cf); string (suid_user cf); string (suid_group cf);
   string (invoke_path cf); string (invoke_kp cf); byte.unsigned (invoke_separator cf); byte.unsigned (invoke_ks cf);
   string (invoke_tp cf); string (invoke_output_file cf); ipc_mechanism cf; string (us_path cf);
   target_cpu cf `mod` 2 ^ 32; default NULL (monitor_init cf); default NULL (config_request_handler cf)].

Lemma config_laid_out t : t = struct_bcd_config ->
  StronglySorted before (leaves t) /\ Forall (fits 0 (size_of t) (align_of t)) (leaves t).
Proof. intros ->. split; [by apply leaves_sorted | by apply layout_facts]. Qed.

End Declarations.

(** ** Witness *)

Definition two_structs : mem := mem_of [(0x1000, replicate 200 NUL); (0x2000, replicate 200 NUL)].

