(* ===== verification/BcdClient.v ===== *)
(** * Starting bcd and attaching to the monitor (src/external/bcd/bcd-amalgamated.c)

    [bcd_init] with its pipes, temporary directory and output file; [bcd_attach],
    [bcd_associate_tid] and [bcd_detach] on the handle of a client. What the system answers
    is data; the descriptors that are open, the directories that exist and the
    descriptors that have been closed are state. *)

From S2P Require Import Prelude.
From S2P Require Import Memory.
From S2P Require Import BcdMeta.
From S2P Require Import BcdTracer.
From S2P Require Import BcdChannel.
From S2P Require Import BcdSession.
From S2P Require Import BcdConfig.

(** ** [bcd_init] *)

Record bcd_pipe := Pipe { read_end : Z; write_end : Z }.

Record process := Process { open_fds : gset Z; directories : gset (list Z) }.

Definition open_fd (s : process) (fd : Z) : process := Process ({[fd]} ∪ open_fds s) (directories s).
Definition close_fd (s : process) (fd : Z) : process := Process (open_fds s ∖ {[fd]}) (directories s).
Definition add_dir (s : process) (d : list Z) : process := Process (open_fds s) ({[d]} ∪ directories s).
Definition rmdir (s : process) (d : list Z) : process := Process (open_fds s) (directories s ∖ {[d]}).

(** The answers [bcd_init] gets: [mkdtemp]; [asprintf] and [strdup]; [open] of the output file;
    [pipe] and [fcntl] for both pipes; [fork]; the packet of the monitor, as [bcd_sb_read]
    returns it; [mprotect]. Errors are [errno]. *)
Record init_answers := InitAnswers {
  mkdtemp : option (list Z);
  asprintf_ok : bool; strdup_ok : bool;
  output_opens : list (Z + Z);
  monitor_pipe : Z + bcd_pipe; monitor_prepare : option Z;
  master_pipe : Z + bcd_pipe; master_prepare : option Z;
  forked : Z + Z;
  first_packet : bcd_error_info + bcd_packet;
  mprotect : option Z
}.

(** [bcd_pipe_init]. *)
Definition bcd_pipe_init (s : process) (answer : Z + bcd_pipe) (prepare : option Z) :
    process * (bcd_error_info + bcd_pipe) :=
  match answer with
  | inl errno => (s, inl (ErrorInfo errno "could not create create pipe"))
  | inr p =>
      let s := open_fd (open_fd s (read_end p)) (write_end p) in
      match prepare with
      | Some errno =>
          (close_fd (close_fd s (read_end p)) (write_end p),
           inl (ErrorInfo errno "internal descriptor management error"))
      | None => (s, inr p)
      end
  end.

Definition bcd_pipe_deinit (s : process) (p : bcd_pipe) : process :=
  close_fd (close_fd s (read_end p)) (write_end p).
(** An end that has been closed is -1 from then on. *)
Definition bcd_pipe_ensure_readonly (s : process) (p : bcd_pipe) : process * bcd_pipe :=
  (close_fd s (write_end p), Pipe (read_end p) (-1)).
Definition bcd_pipe_ensure_writeonly (s : process) (p : bcd_pipe) : process * bcd_pipe :=
  (close_fd s (read_end p), Pipe (-1) (write_end p)).

(** The path of the socket: an error, or whether a directory was made for it. *)
Definition socket_directory (cf : bcd_config) (a : init_answers) (s : process) :
    process * (bcd_error_info + unit) :=
  match us_path cf with
  | Some _ => (s, inr tt)
  | None =>
      match mkdtemp a with
      | None => (s, inl (ErrorInfo 0 "failed to generate UNIX socket PATH"))
      | Some d =>
          let s := add_dir s d in
          let s := if asprintf_ok a then s else rmdir s d in
          if strdup_ok a then
            if asprintf_ok a then (s, inr tt)
            else (s, inl (ErrorInfo 0 "failed to generate UNIX socket PATH"))
          else (rmdir s d, inl (ErrorInfo 0 "failed to generate UNIX socket directory"))
      end
  end.

(** The loop that opens the output file. *)
Fixpoint open_output (l : list (Z + Z)) : option (Z + Z) :=
  match l with
  | [] => None
  | inl errno :: l => if decide (errno = EINTR) then open_output l else Some (inl errno)
  | inr fd :: _ => Some (inr fd)
  end.

Definition wants_output (cf : bcd_config) : bool :=
  match invoke_output_file cf with Some (_ :: _) => true | _ => false end.

(** [sb->output_fd], -1 without an output file. *)
Definition output_file (cf : bcd_config) (a : init_answers) (s : process) :
    option (process * (bcd_error_info + Z)) :=
  if wants_output cf then
    r ← open_output (output_opens a);
    match r with
    | inl errno => Some (s, inl (ErrorInfo errno "failed to create output file"))
    | inr fd => Some (open_fd s fd, inr fd)
    end
  else Some (s, inr (-1)).

(** From [fork] on, with both pipes open: 0 and the two ends that are kept, or -1. *)
Definition start_monitor_process (a : init_answers) (monitor master : bcd_pipe) (s : process) :
    process * Z * option bcd_error_info :=
  match forked a with
  | inl _ => (bcd_pipe_deinit (bcd_pipe_deinit s monitor) master, -1, None)
  | inr _ =>
      let '(s, monitor) := bcd_pipe_ensure_readonly s monitor in
      let '(s, master) := bcd_pipe_ensure_writeonly s master in
      let fail e := (bcd_pipe_deinit (bcd_pipe_deinit s monitor) master, -1, Some e) in
      match first_packet a with
      | inl e => fail e
      | inr packet =>
          if decide (op packet = BCD_OP_CF) then
            match mprotect a with
            | Some errno => fail (ErrorInfo errno "failed to lock control page permissions")
            | None => (s, 0, None)
            end
          else fail (ErrorInfo 0 "failed to initialize path")
      end
  end.

(** The configuration the library works with: the caller's, or the default for a null pointer.
    [None]: the [assert] fails. *)
Definition assign_config (handler : Z) (cf : option bcd_config) (global : bcd_config) :
    option (Z * option bcd_error_info * bcd_config) :=
  match cf with
  | Some cf => Some (bcd_config_assign cf global)
  | None =>
      let '(ret, _, default) := bcd_config_init_internal handler global 1 in
      if decide (ret <> 0) then None else
      let '(ret, e, global) := bcd_config_assign default global in
      if decide (ret <> 0) then None else Some (ret, e, global)
  end.

(** [None] as a result: opening the output file has not ended. The error is the one of the
    caller, unless the call leaves it alone. *)
Definition bcd_init (handler : Z) (cf : option bcd_config) (global : bcd_config) (a : init_answers)
    (s : process) : option (process * Z * option bcd_error_info) :=
  '(ret, e, cf) ← assign_config handler cf global;
  if decide (ret <> 0) then Some (s, -1, e) else
  let '(s, path) := socket_directory cf a s in
  match path with
  | inl e => Some (s, -1, Some e)
  | inr _ =>
      '(s, output) ← output_file cf a s;
      match output with
      | inl e => Some (s, -1, Some e)
      | inr _ =>
          let '(s, monitor) := bcd_pipe_init s (monitor_pipe a) (monitor_prepare a) in
          match monitor with
          | inl e => Some (s, -1, Some (ErrorInfo (errnum e) "failed to initialize monitor pipe"))
          | inr monitor =>
              let '(s, master) := bcd_pipe_init s (master_pipe a) (master_prepare a) in
              match master with
              | inl e =>
                  Some (bcd_pipe_deinit s monitor, -1,
                        Some (ErrorInfo (errnum e) "failed to initialize master pipe"))
              | inr master => Some (start_monitor_process a monitor master s)
              end
          end
      end
  end.

(** ** The handle of a client *)

(** The loop that connects: [None] when it has not ended. *)
Fixpoint connect_loop (l : list (option Z)) : option (option Z) :=
  match l with
  | [] => None
  | None :: _ => Some None
  | Some errno :: l => if decide (errno = EAGAIN) then connect_loop l else Some (Some errno)
  end.

Definition tid_payload (tid : Z) : list byte := le_split 4 (u32 tid).

Section Client.
Context (D : descriptor) (timeout : Z).

(** What a call leaves: the result, the error, the descriptor in the handle, and the
    descriptors that have been closed. *)
Record attached := Attached {
  ret : Z; error : option bcd_error_info; bcd_fd : Z; closed : list Z
}.

(** [socket] is a descriptor or [errno], [connects] the answers of [connect], [prepare] the [errno]
    of a failing [fcntl]; [old] is the descriptor the handle holds before the call. *)
Definition bcd_attach (fuel : nat) (socket : Z + Z) (connects : list (option Z)) (prepare : option Z)
    (tid : Z) (old : Z) (e : dstate D) : option (attached * dstate D) :=
  match socket with
  | inl errno => Some (Attached (-1) (Some (ErrorInfo errno "failed to create connection to monitor")) (-1) [], e)
  | inr fd =>
      c ← connect_loop connects;
      match c with
      | Some errno =>
          Some (Attached (-1) (Some (ErrorInfo errno "failed to connect to monitor")) (-1) [fd], e)
      | None =>
          match prepare with
          | Some errno =>
              Some (Attached (-1) (Some (ErrorInfo errno "failed to create socket")) old [fd], e)
          | None =>
              '(r, error, _, e) ←
                request D timeout fuel BCD_OP_TID (tid_payload tid) "failed to initialize session" true e;
              if decide (r = 0) then Some (Attached 0 None fd [], e)
              else Some (Attached (-1) error (-1) [fd], e)
          end
      end
  end.

(** [errno] is what an earlier call has left there. *)
Definition bcd_associate_tid (fuel : nat) (errno fd tid : Z) (e : dstate D) :
    option (Z * option bcd_error_info * dstate D) :=
  if decide (fd = -1) then Some (-1, Some (ErrorInfo errno "invalid fd; did you call bcd_attach?"), e)
  else
    '(r, error, _, e) ←
      request D timeout fuel BCD_OP_TID (tid_payload tid) "failed to set new tid" false e;
    if decide (r <> 0) then Some (-1, error, e) else Some (0, None, e).

(** The handle keeps the descriptor that has been closed. *)
Definition bcd_detach (fuel : nat) (fd : Z) (e : dstate D) : option (attached * dstate D) :=
  if decide (fd = -1) then Some (Attached 0 None fd [], e)
  else
    '(r, error, _, e) ←
      request D timeout fuel BCD_OP_DETACH [] "failed to cause monitor to detach" false e;
    Some (Attached (if decide (r = 0) then 0 else -1) error fd [fd], e).

End Client.

(** ** Descriptors of [bcd_init] *)

(** The descriptors the system hands out are new and distinct. *)
Record fresh_answers (cf : bcd_config) (a : init_answers) (s : process) (monitor master : bcd_pipe)
    (out : gset Z) : Prop := {
  fa_monitor : monitor_pipe a = inr monitor;
  fa_master : master_pipe a = inr master;
  fa_out : if wants_output cf then exists fd, open_output (output_opens a) = Some (inr fd) /\ out = {[fd]}
    else out = ∅;
  fa_distinct : NoDup [read_end monitor; write_end monitor; read_end master; write_end master; -1];
  fa_new fd : fd ∈ [read_end monitor; write_end monitor; read_end master; write_end master; -1] ->
    (fd ∉ open_fds s) /\ (fd ∉ out)
}.

Ltac fds :=
  apply set_eq; let x := fresh "x" in intros x;
  rewrite ?elem_of_difference, ?elem_of_union, ?elem_of_difference, ?elem_of_union, ?elem_of_difference,
    ?elem_of_union, ?elem_of_singleton; fds_solve x
with fds_solve x :=
  repeat match goal with H : forall fd, _ -> fd ∉ _ |- _ => specialize (H x) end;
  rewrite ?elem_of_cons, ?elem_of_nil in *;
  repeat match goal with |- context [x = ?y] =>
    lazymatch goal with H : x <> y |- _ => fail | _ => destruct (decide (x = y)) as [->|] end end;
  tauto.

Lemma start_monitor_process_fds a monitor master s base s' r e :
  NoDup [read_end monitor; write_end monitor; read_end master; write_end master; -1] ->
  (forall fd, fd ∈ [read_end monitor; write_end monitor; read_end master; write_end master; -1] ->
     fd ∉ base) ->
  open_fds s = {[read_end monitor; write_end monitor; read_end master; write_end master]} ∪ base ->
  start_monitor_process a monitor master s = (s', r, e) ->
  (r = -1 /\ open_fds s' = base \/
   r = 0 /\ open_fds s' = {[read_end monitor; write_end master]} ∪ base) /\
  directories s' = directories s.
Proof.
  intros Hd Hn Hs Hr. rewrite !NoDup_cons in Hd. unfold start_monitor_process in Hr.
  destruct monitor as [r1 w1], master as [r2 w2]. simpl in *.
  destruct (forked a).
  { simplify_eq. simpl. rewrite Hs. split; [left; split; [done | fds] | done]. }
  destruct (first_packet a) as [err|packet]; [|case_decide; [destruct (mprotect a)|]];
    simplify_eq; simpl; rewrite Hs; (split; [|done]);
    first [left; split; [done | fds] | right; split; [done | fds]].
Qed.

Lemma socket_directory_fds cf a s s' r :
  socket_directory cf a s = (s', r) ->
  open_fds s' = open_fds s /\
  match r with
  | inr _ => directories s' = match us_path cf, mkdtemp a with
      | None, Some d => {[d]} ∪ directories s
      | _, _ => directories s
      end
  | inl _ => directories s' ⊆ directories s
  end.
Proof.
  unfold socket_directory. destruct (us_path cf); [by intros [= <- <-]|].
  destruct (mkdtemp a) as [d|]; [|by intros [= <- <-]].
  destruct (asprintf_ok a), (strdup_ok a); intros [= <- <-]; simpl; (split; [done|]);
    first [done | set_solver].
Qed.

Lemma output_file_fds cf a s s' r out :
  (if wants_output cf then exists fd, open_output (output_opens a) = Some (inr fd) /\ out = {[fd]}
   else out = ∅) ->
  output_file cf a s = Some (s', r) ->
  open_fds s' = out ∪ open_fds s /\ directories s' = directories s /\ exists fd, r = inr fd.
Proof.
  intros Ho. unfold output_file. destruct (wants_output cf).
  - destruct Ho as (fd & -> & ->). bind_simpl. intros [= <- <-]. simpl. eauto.
  - intros [= <- <-]. subst. split_and!; [by rewrite (left_id_L ∅ (∪)) | done | eauto].
Qed.

Lemma config_assigned handler given global cf :
  cf = default (bcd_config_init_v1 handler) given -> version cf = 1 ->
  assign_config handler given global = Some (0, None, cf).
Proof.
  intros -> Hv. unfold assign_config. destruct given as [cf|]; [|done]. simpl in *.
  unfold bcd_config_assign. by rewrite decide_True, config_copied.
Qed.


(** ** The handle *)

Lemma tid_performed cf al K malloc fuel s k g tid :
  0 <= tid < 2 ^ 31 -> length (buffer s) = session_size ->
  take 12 (buffer s) = packet BCD_OP_TID (tid_payload tid) ->
  bcd_perform_request cf al K malloc fuel s k g =
    Some (Performed (Session tid (state s) (terminated s) (offset s) (buffer s)) g).
Proof.
  intros Ht Hlen Hb.
  destruct (packet_of_buffer BCD_OP_TID (tid_payload tid) (buffer s)) as (Hop & _ & _ & rest & E); [done..|].
  unfold bcd_perform_request. rewrite Hop, E. rewrite decide_True by done. unfold tid_payload.
  rewrite take_app_length' by (by rewrite length_le_split).
  rewrite le_combine_split, u32_small by lia.
  rewrite Z.mod_small by (simpl; lia). by rewrite i32_small by lia.
Qed.


(** [bcd_detach] closes the descriptor of an attached handle whatever becomes of the
    request, but does not mark the handle as detached: a second call takes the descriptor for
    open and closes it again. *)
Theorem detach_twice D timeout fuel fd e r e' :
  fd <> -1 -> bcd_detach D timeout fuel fd e = Some (r, e') ->
  closed r = [fd] /\ bcd_fd r = fd /\
  forall fuel2 e2 r2 e2', bcd_detach D timeout fuel2 (bcd_fd r) e2 = Some (r2, e2') -> closed r2 = [fd].
Proof.
  intros Hfd. assert (forall fuel e r e', bcd_detach D timeout fuel fd e = Some (r, e') ->
    closed r = [fd] /\ bcd_fd r = fd) as Hd.
  { intros f e0 r0 e0'. unfold bcd_detach. rewrite decide_False by done. intros Hq. bind_inv Hq.
    by simplify_eq. }
  intros Hq. destruct (Hd _ _ _ _ Hq) as [Hc Hb]. split_and!; [done | done|].
  rewrite Hb. intros fuel2 e2 r2 e2' Hq2. by apply Hd in Hq2 as [? _].
Qed.

(** ** Witnesses *)

Definition sample_config : bcd_config := bcd_config_init_v1 4096.

(** The fork fails. *)
Definition no_fork : init_answers :=
  {| mkdtemp := Some [1; 2]; asprintf_ok := true; strdup_ok := true; output_opens := [];
     monitor_pipe := inr (Pipe 3 4); monitor_prepare := None;
     master_pipe := inr (Pipe 5 6); master_prepare := None;
     forked := inl 11; first_packet := inl (ErrorInfo 0 "premature termination"); mprotect := None |}.



Lemma detach_twice_witness :
  exists r e', bcd_detach toy 30 40 9 (PipeEnd 1 (packet_bytes BCD_OP_OK 0 []) []) = Some (r, e') /\
    closed r = [9] /\ bcd_fd r = 9.
Proof.
  destruct (bcd_detach toy 30 40 9 (PipeEnd 1 (packet_bytes BCD_OP_OK 0 []) [])) as [[r e']|] eqn:E;
    [|vm_compute in E; discriminate E].
  destruct (detach_twice toy 30 40 9 _ r e' ltac:(lia) E) as (Hc & Hb & _).
  exists r, e'. split; [reflexivity | split; [exact Hc | exact Hb]].
Defined.
