(* ===== verification/BcdMonitor.v ===== *)
(** * The life of the monitor process (src/external/bcd/bcd-amalgamated.c)

    [bcd_child] from the fork to the event loop and its exits, the listener on a UNIX
    socket, and what the traced process does when it dies: [bcd_fatal] and [bcd_reap]. What the
    system answers is data, as in [BcdClient]; [None] is undefined behaviour or a loop that
    has not ended. *)

From S2P Require Import Prelude.
From S2P Require Import Memory.
From S2P Require Import BcdMeta.
From S2P Require Import BcdTracer.
From S2P Require Import BcdChannel.
From S2P Require Import BcdSession.
From S2P Require Import BcdEvents.
From S2P Require Import BcdConfig.
From S2P Require Import BcdClient.

(** ** The process *)

(** Descriptors and directories; what the standard output refers to; whether the socket has a
    name in the file system; the credentials, the name, the mask and the score of the process; the signals
    it blocks and the processors it is bound to, if it is. *)
Record host := Host {
  proc : process;
  redirected : option Z;
  socket_file : bool;
  ids : credentials;
  comm : option (list byte);
  file_mask : option Z;
  score : list byte;
  signal_mask : gset Z;
  cpu_set : option (gset Z)
}.

Definition set_proc (h : host) (s : process) : host :=
  Host s (redirected h) (socket_file h) (ids h) (comm h) (file_mask h) (score h) (signal_mask h) (cpu_set h).
Definition set_redirected (h : host) (fd : Z) : host :=
  Host (proc h) (Some fd) (socket_file h) (ids h) (comm h) (file_mask h) (score h) (signal_mask h) (cpu_set h).
Definition set_socket_file (h : host) (b : bool) : host :=
  Host (proc h) (redirected h) b (ids h) (comm h) (file_mask h) (score h) (signal_mask h) (cpu_set h).
Definition set_ids (h : host) (c : credentials) : host :=
  Host (proc h) (redirected h) (socket_file h) c (comm h) (file_mask h) (score h) (signal_mask h) (cpu_set h).
Definition set_comm (h : host) (title : list byte) : host :=
  Host (proc h) (redirected h) (socket_file h) (ids h) (Some title) (file_mask h) (score h) (signal_mask h) (cpu_set h).
Definition set_file_mask (h : host) (m : Z) : host :=
  Host (proc h) (redirected h) (socket_file h) (ids h) (comm h) (Some m) (score h) (signal_mask h) (cpu_set h).
Definition set_score (h : host) (s : list byte) : host :=
  Host (proc h) (redirected h) (socket_file h) (ids h) (comm h) (file_mask h) s (signal_mask h) (cpu_set h).
Definition set_signal_mask (h : host) (m : gset Z) : host :=
  Host (proc h) (redirected h) (socket_file h) (ids h) (comm h) (file_mask h) (score h) m (cpu_set h).
Definition set_cpu_set (h : host) (c : gset Z) : host :=
  Host (proc h) (redirected h) (socket_file h) (ids h) (comm h) (file_mask h) (score h) (signal_mask h) (Some c).

(** [bcd_child_exit] before the [_exit]: the socket and the temporary directory go. *)
Definition bcd_child_exit (unlink_directory : option (list Z)) (h : host) : host :=
  let h := set_socket_file h false in
  match unlink_directory with
  | Some d => set_proc h (rmdir (proc h) d)
  | None => h
  end.

(** ** The listener *)

(** The answers of the calls of [bcd_io_listener_unix]; errors are [errno]. *)
Record listener_answers := ListenerAnswers {
  calloc_ok : bool; path_strdup_ok : bool;
  new_socket : Z + Z; socket_prepare : option Z;
  unlink_path : option Z; bind_path : option Z; listen_on : option Z
}.

Definition sizeof_sun_path : Z := 108.
Definition BCD_SB_PATH : Z := 1024.

Definition bcd_io_socket (socket : Z + Z) (prepare : option Z) (h : host) : host * option Z :=
  match socket with
  | inl _ => (h, None)
  | inr fd =>
      let h := set_proc h (open_fd (proc h) fd) in
      match prepare with
      | Some _ => (set_proc h (close_fd (proc h) fd), None)
      | None => (h, Some fd)
      end
  end.

(** [bind] and [listen]; both failures close the descriptor, but the name stays. *)
Definition bind_listen (a : listener_answers) (fd : Z) (h : host) : host * option Z :=
  match bind_path a with
  | Some _ => (set_proc h (close_fd (proc h) fd), None)
  | None =>
      let h := set_socket_file h true in
      match listen_on a with
      | Some _ => (set_proc h (close_fd (proc h) fd), None)
      | None => (h, Some fd)
      end
  end.

(** [bcd_io_listener_unix]: the descriptor of the listener. It stays open when [unlink] fails. *)
Definition bcd_io_listener_unix (path : list byte) (a : listener_answers) (h : host) : host * option Z :=
  if negb (calloc_ok a) then (h, None)
  else if decide (head path <> Some Init.Byte.x2f) then (h, None)
  else if decide (zlen path >= sizeof_sun_path) then (h, None)
  else if negb (path_strdup_ok a) then (h, None)
  else
    let '(h, socket) := bcd_io_socket (new_socket a) (socket_prepare a) h in
    match socket with
    | None => (h, None)
    | Some fd =>
        match unlink_path a with
        | None => bind_listen a fd (set_socket_file h false)
        | Some errno => if decide (errno <> ENOENT) then (h, None) else bind_listen a fd h
        end
    end.

(** ** [bcd_child] *)

(** The monitor has ended before the event loop: what it has reported, and the host it leaves. *)
Record failure := Failure { reported : string; left_behind : host }.

(** Steps that may end the process. *)
Definition try_bind {A B} (x : option (failure + A)) (k : A -> option (failure + B)) : option (failure + B) :=
  r ← x; match r with inl e => Some (inl e) | inr y => k y end.

Definition stop {A} (message : string) (h : host) : option (failure + A) :=
  Some (inl (Failure message h)).

(** What [bcd_child] finds: its end of the pipes and the file for the output (-1 without one), and the answers it
    gets. [events] are the addresses of the three events, [watched] the answers of [epoll_ctl]. *)
Record child_answers := ChildAnswers {
  master : bcd_pipe; monitor_end : bcd_pipe; output_fd : Z; unlink_directory : option (list Z);
  set_affinity : gset Z -> Z; dup_out : list (option Z); dup_err : list (option Z);
  own_pid : Z; oom_files : list byte -> Z + Z; oom_writes : list (Z + Z);
  set_name : list byte -> Z; target_ok : bool; epoll_ok : bool;
  listener : listener_answers;
  names : name_service; chown_path : Z * Z -> option Z; setgid_to : Z -> option Z; setuid_to : Z -> option Z;
  events_at : option Z * option Z * option Z; watched : bool * bool * bool
}.

Definition BCD_CONFIG_F_SETCOMM : Z := 1.
Definition monitor_title : list byte := bytes_of "[bcd] monitor".
Definition socket_failure : string := "failed to create UNIX socket".

(** A loop around [dup2]: [None] when it has not ended, then the error, if any. *)
Fixpoint dup_loop (l : list (option Z)) : option (option Z) :=
  match l with
  | [] => None
  | None :: _ => Some None
  | Some errno :: l => if decide (errno = EINTR) then dup_loop l else Some (Some errno)
  end.

(** The processor the configuration asks for; the result is not looked at. *)
Definition bind_processor (cf : bcd_config) (a : child_answers) (h : host) : host :=
  match bcd_set_cpu_affinity (set_affinity a) (target_cpu cf) with
  | (_, Some c) => set_cpu_set h c
  | (_, None) => h
  end.

(** Standard output and error go to the file, whose descriptor is closed. *)
Definition redirect_output (a : child_answers) (h : host) : option (failure + host) :=
  if decide (output_fd a = -1) then Some (inr h)
  else
    out ← dup_loop (dup_out a);
    match out with
    | Some _ => stop "" h
    | None =>
        err ← dup_loop (dup_err a);
        match err with
        | Some _ => stop "" h
        | None =>
            let h := set_redirected h (output_fd a) in
            Some (inr (set_proc h (close_fd (proc h) (output_fd a))))
        end
    end.

(** The process itself: signals, score, mask, name, and the ends of the pipes it does not use. *)
Definition prepare_process (cf : bcd_config) (a : child_answers) (h : host) : option (failure + host) :=
  let h := set_signal_mask h ∅ in
  h ← (if decide (oom_adjust cf <> 0) then
         '(_, _, _, written) ← bcd_os_oom_adjust (oom_files a) (oom_writes a) (own_pid a);
         Some (set_score h written)
       else Some h);
  let h := set_file_mask h (umask cf) in
  let renamed := bcd_setcomm (set_name a) (Some monitor_title) in
  if decide (Z.land (flags cf) BCD_CONFIG_F_SETCOMM <> 0 /\ renamed = -1) then
    stop "failed to respect BCD_CONFIG_F_SETCOMM" h
  else
    let h := if decide (Z.land (flags cf) BCD_CONFIG_F_SETCOMM <> 0) then set_comm h monitor_title else h in
    if negb (target_ok a) then stop socket_failure h
    else
      let '(s, _) := bcd_pipe_ensure_readonly (proc h) (master a) in
      let '(s, _) := bcd_pipe_ensure_writeonly s (monitor_end a) in
      Some (inr (set_proc h s)).

(** The listener, its owner, and the credentials of the monitor. *)
Definition open_listener (cf : bcd_config) (path : list byte) (a : child_answers) (h : host) :
    option (failure + (host * Z)) :=
  let '(h, fd) := bcd_io_listener_unix path (listener a) h in
  match fd with
  | None => stop socket_failure h
  | Some fd =>
      '(r, _, _) ← bcd_chown (names a) cf (chown_path a);
      if decide (r = -1) then stop socket_failure h
      else
        '(r, _, c) ← bcd_suid (names a) cf (setgid_to a) (setuid_to a) (ids h);
        let h := set_ids h c in
        if decide (r = -1) then stop socket_failure h else Some (inr (h, fd))
  end.

Section Child.
Context {D : descriptor} {K : kernel}.
Context (cf : bcd_config) (path : list byte) (a : child_answers).

(** [bcd_io_event_create] and [bcd_io_event_add]: which of the two has failed, or the monitor with the
    event in the ready list. *)
Inductive watch_error := NoEvent | NotWatched.

Definition watch (w : BcdEvents.monitor D) (event : option Z) (fd : Z) (h : event_handler) (ok : bool) :
    option (watch_error + BcdEvents.monitor D) :=
  match event with
  | None => Some (inl NoEvent)
  | Some p =>
      let w := update_event w p (Event fd 0 h false) in
      if ok then w ← bcd_io_event_add_to_ready_list w p; Some (inr w)
      else _ ← bcd_io_event_destroy w p; Some (inl NotWatched)
  end.

Definition bcd_io_listener_handler (w : BcdEvents.monitor D) (fd : Z) (event : option Z) (ok : bool) :
    option (watch_error + BcdEvents.monitor D) :=
  watch w event fd Accept ok.

(** The packet with the path of the socket: [packet->payload] is filled with [strlcpy]. *)
Definition send_path (fuel : nat) (sb : dstate D) : option (Z * Z * dstate D) :=
  bcd_sb_write D (timeout cf) fuel BCD_OP_CF (path ++ [NUL]) 0 sb.

(** From the listener on: the three events and the packet. [w] is the monitor with no event, [sb]
    the pipe to the traced process. *)
Definition enter_service (fuel : nat) (w : BcdEvents.monitor D) (sb : dstate D) (h : host) (fd : Z) :
    option (failure + (host * BcdEvents.monitor D * dstate D)) :=
  let '(p1, p2, p3) := events_at a in
  let '(k1, k2, k3) := watched a in
  let leave message := stop message (bcd_child_exit (unlink_directory a) h) in
  w ← bcd_io_listener_handler w fd p1 (epoll_ok a && k1);
  match w with
  | inl _ => stop socket_failure h
  | inr w =>
      '(r, _, sb) ← send_path fuel sb;
      if decide (r = -1) then leave "failed to write configuration information"%string
      else
        w ← watch w p2 (write_end (monitor_end a)) Watch (epoll_ok a && k2);
        match w with
        | inl NoEvent => leave "failed to configure pipe watcher"%string
        | inl NotWatched => leave "failed to monitor pipe"%string
        | inr w =>
            w ← watch w p3 (read_end (master a)) Fatal (epoll_ok a && k3);
            match w with
            | inl NoEvent => leave "failed to configure master pipe"%string
            | inl NotWatched => leave "failed to watch master pipe"%string
            | inr w => Some (inr (h, w, sb))
            end
        end
  end.

(** [bcd_child] up to the event loop. *)
Definition start_child (fuel : nat) (w : BcdEvents.monitor D) (sb : dstate D) (h : host) :
    option (failure + (host * BcdEvents.monitor D * dstate D)) :=
  try_bind (redirect_output a (bind_processor cf a h)) (fun h =>
  try_bind (prepare_process cf a h) (fun h =>
  try_bind (open_listener cf path a h) (fun '(h, fd) =>
  enter_service fuel w sb h fd))).

(** How the process ends: the exit code of a failure with its report, or the end of a handler. *)
Inductive child_end :=
| ChildFailed (e : failure)
| ChildLoopError (h : host)
| ChildStopped (finish : tracer_end) (h : host)
| ChildWaiting (w : BcdEvents.monitor D) (h : host).

(** A handler exits through [bcd_child_exit], the tracer interrupted by a signal through [_exit]. *)
Definition after_stop (finish : tracer_end) (h : host) : host :=
  match finish with
  | Exited code _ => if decide (code = 128 + SIGTERM) then h else bcd_child_exit (unlink_directory a) h
  | _ => h
  end.

(** [bcd_child] over the answers of [epoll_wait]. *)
Definition bcd_child (i : invoke) (al : allocations) (malloc : option Z) (kst : kstate K) (fuel n : nat)
    (waits : list (Z + list (Z * Z))) (w : BcdEvents.monitor D) (sb : dstate D) (h : host) : option child_end :=
  r ← start_child fuel w sb h;
  match r with
  | inl e => Some (ChildFailed e)
  | inr (h, w, _) =>
      r ← bcd_io_enter i al malloc kst fuel n waits w;
      match r with
      | LoopError _ _ => Some (ChildLoopError (bcd_child_exit (unlink_directory a) h))
      | LoopStopped finish => Some (ChildStopped finish (after_stop finish h))
      | LoopWaiting w => Some (ChildWaiting w h)
      end
  end.
End Child.

(** ** The traced process *)

(** [bcd_reap] over the results of [waitpid]: the calls of [sleep]. The two [continue] statements and
    the end of the body all lead to the condition of the loop. *)
Fixpoint bcd_reap (limit timeout : Z) (l : list Z) : option Z :=
  match l with
  | [] => None
  | r :: l =>
      if decide (r = -1) then Some 0
      else if decide (timeout < limit) then sleeps ← bcd_reap limit (u32 (timeout + 1)) l; Some (1 + sleeps)
      else Some 1
  end.

(** [bcd_fatal]: [em] is the pipe to the monitor, [er] the one from it. *)
Definition bcd_fatal (Dm Dr : descriptor) (limit : Z) (fuel : nat) (reaped : list Z)
    (em : dstate Dm) (er : dstate Dr) : option (dstate Dm * dstate Dr * Z) :=
  let '(now, em) := os_time Dm em in
  let timeout_abstime := now + limit in
  '(_, _, em) ← bcd_sb_write Dm limit fuel BCD_OP_TR_FATAL [] timeout_abstime em;
  '(_, _, _, er) ← bcd_sb_read Dr limit fuel 0 timeout_abstime er;
  sleeps ← bcd_reap limit 0 reaped;
  Some (em, er, sleeps).

(** ** Lemmas *)

Lemma try_bind_inr {A B} (x : option (failure + A)) (k : A -> option (failure + B)) y :
  try_bind x k = Some (inr y) -> exists z, x = Some (inr z) /\ k z = Some (inr y).
Proof. unfold try_bind. destruct x as [[|z]|]; simpl; [done | by exists z | done]. Qed.

Lemma try_bind_inl {A B} (x : option (failure + A)) (k : A -> option (failure + B)) e :
  try_bind x k = Some (inl e) -> x = Some (inl e) \/ exists z, x = Some (inr z) /\ k z = Some (inl e).
Proof. unfold try_bind. destruct x as [[|z]|]; simpl; [intros [= ->]; by left | right; by exists z | done]. Qed.

(** What the first steps leave alone. *)
Definition same_socket (h h' : host) : Prop :=
  ids h' = ids h /\ socket_file h' = socket_file h /\ directories (proc h') = directories (proc h).

Lemma redirect_output_same a h r :
  redirect_output a h = Some r ->
  same_socket h (match r with inl e => left_behind e | inr h' => h' end).
Proof.
  unfold redirect_output, stop, same_socket. intros Hr. case_decide; [by simplify_eq|].
  bind_inv Hr. case_match; [by simplify_eq|]. bind_inv Hr. by case_match; simplify_eq.
Qed.

Lemma prepare_process_same cf a h r :
  prepare_process cf a h = Some r ->
  same_socket h (match r with inl e => left_behind e | inr h' => h' end).
Proof.
  unfold prepare_process, stop. intros (x & Hx & Hr)%bind_Some.
  assert (same_socket h x) as (H1 & H2 & H3).
  { clear Hr. unfold same_socket. case_decide; [bind_inv Hx|]; by simplify_eq. }
  clear Hx. unfold same_socket. case_decide; [by simplify_eq|].
  destruct (target_ok a); simpl in Hr; simplify_eq; simpl; case_decide; done.
Qed.

(** The signals and the processors. *)
Definition same_schedule (h h' : host) : Prop := signal_mask h' = signal_mask h /\ cpu_set h' = cpu_set h.

Lemma bind_processor_same cf a h : same_socket h (bind_processor cf a h).
Proof. unfold bind_processor. by destruct (bcd_set_cpu_affinity _ _) as [? [c|]]. Qed.

Lemma redirect_output_schedule a h h' : redirect_output a h = Some (inr h') -> same_schedule h h'.
Proof.
  unfold redirect_output, stop. intros Hr. case_decide; [by simplify_eq|].
  bind_inv Hr. case_match; [done|]. bind_inv Hr. by case_match; simplify_eq.
Qed.

Lemma prepare_process_schedule cf a h h' :
  prepare_process cf a h = Some (inr h') -> same_schedule (set_signal_mask h ∅) h'.
Proof.
  unfold prepare_process, stop. intros (x & Hx & Hr)%bind_Some.
  assert (same_schedule (set_signal_mask h ∅) x) as [H1 H2].
  { clear Hr. case_decide; [bind_inv Hx|]; by simplify_eq. }
  clear Hx. case_decide; [done|].
  destruct (target_ok a); simpl in Hr; simplify_eq. unfold same_schedule. simpl. by case_decide.
Qed.

(** The listener has a socket, and its name is in the file system. *)
Record listening (path : list byte) (h h' : host) (fd : Z) : Prop := {
  li_root : head path = Some Init.Byte.x2f;
  li_fits : zlen path < sizeof_sun_path;
  li_file : socket_file h' = true;
  li_open : fd ∈ open_fds (proc h');
  li_ids : ids h' = ids h;
  li_directories : directories (proc h') = directories (proc h);
  li_schedule : same_schedule h h'
}.

Lemma bind_listen_opened a fd h h' fd' :
  bind_listen a fd h = (h', Some fd') -> fd' = fd /\ h' = set_socket_file h true.
Proof. unfold bind_listen. destruct (bind_path a), (listen_on a); by intros [= <- <-]. Qed.

Lemma bind_listen_same a fd h h' r :
  bind_listen a fd h = (h', r) -> ids h' = ids h /\ directories (proc h') = directories (proc h).
Proof. unfold bind_listen. destruct (bind_path a), (listen_on a); by intros [= <- <-]. Qed.

Lemma listener_opened path a h h' fd :
  bcd_io_listener_unix path a h = (h', Some fd) -> listening path h h' fd.
Proof.
  unfold bcd_io_listener_unix, bcd_io_socket. destruct (calloc_ok a); [|done]. simpl.
  case_decide as Hroot; [done|]. case_decide as Hlen; [done|]. destruct (path_strdup_ok a); [|done]. simpl.
  destruct (new_socket a) as [|s]; [done|]. destruct (socket_prepare a); [done|].
  destruct (unlink_path a) as [errno|]; [case_decide; [done|]|];
    (intros [-> ->]%bind_listen_opened; split; simpl; try done;
      [lia | set_solver]).
Qed.

Lemma listener_same path a h h' r :
  bcd_io_listener_unix path a h = (h', r) -> ids h' = ids h /\ directories (proc h') = directories (proc h).
Proof.
  unfold bcd_io_listener_unix, bcd_io_socket. destruct (calloc_ok a); [|by intros [= <- <-]]. simpl.
  case_decide; [by intros [= <- <-]|]. case_decide; [by intros [= <- <-]|].
  destruct (path_strdup_ok a); [|by intros [= <- <-]]. simpl.
  destruct (new_socket a) as [|s]; [by intros [= <- <-]|]. destruct (socket_prepare a); [by intros [= <- <-]|].
  destruct (unlink_path a) as [errno|]; [case_decide; [by intros [= <- <-]|]|];
    intros [-> ->]%bind_listen_same; done.
Qed.

(** Nothing has changed for the clients. *)
Record same_clients {D} (w w' : BcdEvents.monitor D) : Prop := {
  sc_arrivals : arrivals w' = arrivals w; sc_links : links w' = links w; sc_meta : meta w' = meta w
}.

#[export] Instance same_clients_preorder D : PreOrder (@same_clients D).
Proof. split; [done|]. intros w1 w2 w3 [] []. split; congruence. Qed.

Lemma watch_added {D} (w w' : BcdEvents.monitor D) event fd h ok :
  watch w event fd h ok = Some (inr w') ->
  exists p, event = Some p /\ events w' = <[p := Event fd 0 h true]> (events w) /\
    ready w' = ready w ++ [p] /\ same_clients w w'.
Proof.
  unfold watch. destruct event as [p|]; [|done]. destruct ok; intros Hw; bind_inv Hw; simplify_eq.
  exists p. unfold bcd_io_event_add_to_ready_list, update_event, with_events in Hx. simpl in Hx.
  rewrite lookup_insert_eq in Hx. cbn [mbind option_bind in_ready_list] in Hx. simplify_eq. simpl.
  by rewrite insert_insert_eq.
Qed.

Lemma open_listener_started cf path a h h' fd :
  open_listener cf path a h = Some (inr (h', fd)) ->
  listening path h (set_ids h' (ids h)) fd /\
  exists e, bcd_suid (names a) cf (setgid_to a) (setuid_to a) (ids h) = Some (0, e, ids h').
Proof.
  unfold open_listener, stop. destruct (bcd_io_listener_unix path (listener a) h) as [h1 [s|]] eqn:El; [|done].
  apply listener_opened in El. destruct El as [H1 H2 H3 H4 H5 H6 H7].
  intros Hr. apply bind_Some in Hr as ([[r e] o] & _ & Hr). case_decide; [done|].
  apply bind_Some in Hr as ([[r' e'] c] & Hs & Hr). case_decide as Hr'; [done|]. simplify_eq.
  split; [by split|]. exists e'. simpl. rewrite H5 in Hs. destruct (suid_result _ _ _ _ _ _ _ _ Hs); [by subst | done].
Qed.

Lemma enter_service_started D cf path a fuel (w : BcdEvents.monitor D) sb h fd h' w' sb' sent :
  writable D sent -> enter_service cf path a fuel w sb h fd = Some (inr (h', w', sb')) ->
  exists p1 p2 p3, events_at a = (Some p1, Some p2, Some p3) /\ h' = h /\
    ready w' = ready w ++ [p1; p2; p3] /\ same_clients w w' /\
    events w' = <[p3 := Event (read_end (master a)) 0 Fatal true]>
      (<[p2 := Event (write_end (monitor_end a)) 0 Watch true]> (<[p1 := Event fd 0 Accept true]> (events w))) /\
    sent sb' = sent sb ++ packet BCD_OP_CF (path ++ [NUL]).
Proof.
  intros HD. unfold enter_service, stop, bcd_io_listener_handler.
  destruct (events_at a) as [[q1 q2] q3], (watched a) as [[k1 k2] k3]. intros Hr.
  apply bind_Some in Hr as ([|w1] & Hw1 & Hr); [done|]. apply watch_added in Hw1 as (p1 & -> & E1 & R1 & A1).
  apply bind_Some in Hr as ([[r errno] sb1] & Hs & Hr). case_decide as Hne; [done|].
  apply bind_Some in Hr as ([[]|w2] & Hw2 & Hr); [done..|]. apply watch_added in Hw2 as (p2 & -> & E2 & R2 & A2).
  apply bind_Some in Hr as ([[]|w3] & Hw3 & Hr); [done..|]. apply watch_added in Hw3 as (p3 & -> & E3 & R3 & A3).
  simplify_eq. exists p1, p2, p3. split_and!; try done.
  - rewrite R3, R2, R1. by rewrite <- !app_assoc.
  - by do 2 (etrans; [eassumption|]).
  - by rewrite E3, E2, E1.
  - apply (fd_write_sent D sent HD (timeout cf)) in Hs as [[_ ->]|]; [done | done |].
    pose proof (zlen_nonneg (path ++ [NUL])). unfold packet_bytes. zlen_norm. lia.
Qed.

(** The events of the monitor, at different addresses that no connection gets. *)
Definition events_apart {D} (a : child_answers) (w : BcdEvents.monitor D) : Prop :=
  forall q1 q2 q3, events_at a = (Some q1, Some q2, Some q3) ->
    NoDup [q1; q2; q3] /\ forall p, p ∈ [q1; q2; q3] -> p ∉ new_events (arrivals w).

Lemma service_entered D cf path a fuel (w : BcdEvents.monitor D) sb h fd h' w' sb' sent :
  writable D sent -> events w = ∅ -> ready w = [] -> NoDup (new_events (arrivals w)) -> events_apart a w ->
  enter_service cf path a fuel w sb h fd = Some (inr (h', w', sb')) ->
  exists p1 p2 p3, h' = h /\ ready w' = [p1; p2; p3] /\
    events w' = list_to_map [(p1, Event fd 0 Accept true);
      (p2, Event (write_end (monitor_end a)) 0 Watch true); (p3, Event (read_end (master a)) 0 Fatal true)] /\
    same_clients w w' /\
    wf_monitor w' /\ sent sb' = sent sb ++ packet BCD_OP_CF (path ++ [NUL]).
Proof.
  intros HD He Hr Hnew Hapart Hs. apply (enter_service_started _ _ _ _ _ _ _ _ _ _ _ _ _ HD) in Hs
    as (p1 & p2 & p3 & Hat & -> & Hr' & Ha' & He' & Hsent).
  destruct (Hapart _ _ _ Hat) as [Hd Hfresh]. rewrite He in He'. rewrite Hr in Hr'. simpl in Hr'.
  assert (events w' = list_to_map [(p1, Event fd 0 Accept true);
      (p2, Event (write_end (monitor_end a)) 0 Watch true); (p3, Event (read_end (master a)) 0 Fatal true)]) as Hev.
  { pose proof Hd as Hd'. rewrite He'. simpl. rewrite !NoDup_cons, !elem_of_cons in Hd'.
    rewrite (insert_insert_ne _ p3 p2), (insert_insert_ne _ p3 p1), (insert_insert_ne _ p2 p1)
      by (intros ->; tauto).
    done. }
  exists p1, p2, p3. split_and!; try done. pose proof (sc_arrivals _ _ Ha') as Ha.
  eapply wf_monitor_list; [exact Hev | exact Hd | by rewrite Hr' | by rewrite Hr' | by rewrite Ha |].
  rewrite Ha. apply Forall_forall. intros q Hq Hin. by apply (Hfresh q).
Qed.

(** C19: The monitor enters its event loop only fully set up. If [bcd_child] gets there, the path of the
    socket is absolute and short enough, the socket has its name in the file system and is open, the
    credentials are those [bcd_suid] has left, no signal is blocked, the process is bound to the processor
    of the configuration if the system allows it, exactly the listener and the two pipes are
    watched, all three are ready in that order, so that nothing that has arrived earlier is
    missed, and the traced process has been sent the path. *)
Theorem service_starts D cf path a fuel (w : BcdEvents.monitor D) sb h h' w' sb' sent :
  writable D sent -> events w = ∅ -> ready w = [] -> NoDup (new_events (arrivals w)) -> events_apart a w ->
  start_child cf path a fuel w sb h = Some (inr (h', w', sb')) ->
  exists fd p1 p2 p3,
    head path = Some Init.Byte.x2f /\ zlen path < sizeof_sun_path /\
    socket_file h' = true /\ fd ∈ open_fds (proc h') /\
    (exists e, bcd_suid (names a) cf (setgid_to a) (setuid_to a) (ids h) = Some (0, e, ids h')) /\
    signal_mask h' = ∅ /\ cpu_set h' = cpu_set (bind_processor cf a h) /\
    ready w' = [p1; p2; p3] /\
    events w' = list_to_map [(p1, Event fd 0 Accept true);
      (p2, Event (write_end (monitor_end a)) 0 Watch true); (p3, Event (read_end (master a)) 0 Fatal true)] /\
    wf_monitor w' /\
    sent sb' = sent sb ++ packet BCD_OP_CF (path ++ [NUL]).
Proof.
  intros HD He Hr Hnew Hapart Hs. unfold start_child in Hs.
  pose proof (bind_processor_same cf a h) as (I0 & _ & _).
  apply try_bind_inr in Hs as (h1 & H1 & Hs). pose proof (redirect_output_schedule _ _ _ H1) as [_ C1].
  apply redirect_output_same in H1 as (I1 & _ & _).
  apply try_bind_inr in Hs as (h2 & H2 & Hs). pose proof (prepare_process_schedule _ _ _ _ H2) as [M2 C2].
  apply prepare_process_same in H2 as (I2 & _ & _).
  apply try_bind_inr in Hs as ([h3 fd] & H3 & Hs). apply open_listener_started in H3 as ([????? _ [M3 C3]] & e & Hsuid).
  apply (service_entered _ _ _ _ _ _ _ _ _ _ _ _ _ HD He Hr Hnew Hapart) in Hs
    as (p1 & p2 & p3 & -> & Hr' & Hev & _ & W' & Hsent).
  exists fd, p1, p2, p3. split_and!; try done.
  - exists e. by rewrite I2, I1, I0 in Hsuid.
  - simpl in M3. by rewrite M3, M2.
  - simpl in C2, C3. by rewrite C3, C2, C1.
Qed.

(** ** Failures *)

(** The reports of the failures behind the listener. *)
Definition service_failures : list string :=
  ["failed to write configuration information"; "failed to configure pipe watcher"; "failed to monitor pipe";
   "failed to configure master pipe"; "failed to watch master pipe"]%string.

(** What a failure leaves in the file system of a host that was [h]: nothing of the monitor's, or
    the directory, and the socket if it had one. *)
Definition cleaned_up (d : option (list Z)) (h h' : host) : Prop :=
  socket_file h' = false /\
  directories (proc h') = match d with Some d => directories (proc h) ∖ {[d]} | None => directories (proc h) end.

Lemma child_exit_cleans d h h0 :
  directories (proc h) = directories (proc h0) -> cleaned_up d h0 (bcd_child_exit d h).
Proof. intros Hd. split; destruct d; simpl; by rewrite ?Hd. Qed.

Lemma open_listener_fails cf path a h e :
  open_listener cf path a h = Some (inl e) ->
  reported e = socket_failure /\ directories (proc (left_behind e)) = directories (proc h) /\
  forall h1 fd, bcd_io_listener_unix path (listener a) h = (h1, Some fd) -> socket_file (left_behind e) = true.
Proof.
  unfold open_listener, stop. destruct (bcd_io_listener_unix path (listener a) h) as [h1 s] eqn:El.
  destruct (listener_same _ _ _ _ _ El) as [_ Hd]. destruct s as [fd|]; intros Hr; [|by simplify_eq].
  apply listener_opened in El. apply bind_Some in Hr as ([[r e'] o] & _ & Hr).
  case_decide; [simplify_eq; split_and!; [done | done | intros ?? [= <- <-]; apply El]|].
  apply bind_Some in Hr as ([[r' e''] c] & _ & Hr). case_decide; [|done].
  simplify_eq. split_and!; [done | done | intros ?? [= <- <-]; apply El].
Qed.

Lemma enter_service_fails D cf path a fuel (w : BcdEvents.monitor D) sb h fd e :
  enter_service cf path a fuel w sb h fd = Some (inl e) ->
  reported e = socket_failure /\ left_behind e = h \/
  reported e ∈ service_failures /\ left_behind e = bcd_child_exit (unlink_directory a) h.
Proof.
  unfold enter_service, stop. destruct (events_at a) as [[q1 q2] q3], (watched a) as [[k1 k2] k3]. intros Hr.
  apply bind_Some in Hr as ([er|w1] & _ & Hr); [left; by simplify_eq|]. right.
  apply bind_Some in Hr as ([[r errno] sb1] & _ & Hr).
  case_decide; [simplify_eq; split; [by_compute | done]|].
  apply bind_Some in Hr as ([[]|w2] & _ & Hr); [simplify_eq; split; [by_compute | done]..|].
  apply bind_Some in Hr as ([[]|w3] & _ & Hr); [simplify_eq; split; [by_compute | done]..|done].
Qed.

(** C40: What a monitor that cannot start leaves behind. When the packet cannot be sent or a pipe cannot be
    watched, the socket and the temporary directory are removed. Every other failure goes
    through [_exit] and leaves the directory, and with it the socket when the listener was
    already open, so above all when the owner or the credentials cannot be set. A
    monitor that ends because of a signal to it while the tracer runs leaves both as well. *)
Theorem start_failures D cf path a fuel (w : BcdEvents.monitor D) sb h e :
  start_child cf path a fuel w sb h = Some (inl e) ->
  (reported e ∈ service_failures /\ cleaned_up (unlink_directory a) h (left_behind e) \/
   (reported e ∉ service_failures) /\ directories (proc (left_behind e)) = directories (proc h) /\
   forall h1 h2 h3 fd, redirect_output a (bind_processor cf a h) = Some (inr h1) -> prepare_process cf a h1 = Some (inr h2) ->
     bcd_io_listener_unix path (listener a) h2 = (h3, Some fd) -> socket_file (left_behind e) = true) /\
  forall kills, after_stop a (Exited (128 + SIGTERM) kills) h = h.
Proof.
  intros Hs. split; [|intros; unfold after_stop; by rewrite decide_True]. unfold start_child in Hs.
  pose proof (bind_processor_same cf a h) as (_ & F0 & D0).
  apply try_bind_inl in Hs as [H1|(h1 & H1 & Hs)]; pose proof (redirect_output_same _ _ _ H1) as (_ & F1 & D1).
  { right. split_and!; [|congruence | congruence]. unfold redirect_output, stop in H1. case_decide; [done|].
    apply bind_Some in H1 as ([|] & _ & H1); [simplify_eq; by_compute|].
    apply bind_Some in H1 as ([|] & _ & H1); simplify_eq; by_compute. }
  apply try_bind_inl in Hs as [H2|(h2 & H2 & Hs)]; pose proof (prepare_process_same _ _ _ _ H2) as (_ & F2 & D2).
  { right. split_and!; [|congruence | congruence]. unfold prepare_process, stop in H2.
    apply bind_Some in H2 as (x & _ & H2). case_decide; [simplify_eq; by_compute|].
    destruct (target_ok a); simpl in H2; simplify_eq; by_compute. }
  apply try_bind_inl in Hs as [H3|([h3 fd] & H3 & Hs)].
  { right. apply open_listener_fails in H3 as (-> & D3 & F3).
    split_and!; [by_compute | congruence|]. intros. simplify_eq. by eapply F3. }
  pose proof H3 as H3'. apply open_listener_started in H3 as [[_ _ F3 _ _ D3 _] _]. simpl in F3, D3.
  apply enter_service_fails in Hs as [[-> ->]|[Hm ->]].
  - right. split_and!; [by_compute | congruence | done].
  - left. split; [done|]. apply child_exit_cleans. congruence.
Qed.

(** ** The first packet *)

(** A descriptor on which waiting helps: a failing read is a step towards the data, and [select] reports
    the descriptor as ready. *)
Record responsive (D : descriptor) (pending : dstate D -> list byte) (mu : dstate D -> nat) : Prop := {
  rs_error e n errno e' : sys_read D e n = (inl errno, e') -> (mu e' < mu e)%nat;
  rs_select e tv r e' : sys_select D e tv = (r, e') -> r = inr 1 /\ pending e' = pending e /\ (mu e' <= mu e)%nat;
  rs_time e t e' : os_time D e = (t, e') -> pending e' = pending e /\ (mu e' <= mu e)%nat
}.

Lemma prefix_of_equal_tail {A} (want rest bs tail : list A) :
  want ++ rest = bs ++ tail -> (length bs <= length want)%nat ->
  exists want', want = bs ++ want' /\ tail = want' ++ rest.
Proof.
  revert want. induction bs as [|b bs IH]; intros [|w want] He Hl; simpl in *; try lia; [by exists [] | by eexists|].
  simplify_eq. destruct (IH want) as (want' & -> & ->); [done | lia|]. by exists want'.
Qed.

Section Reading.
Context (D : descriptor) (timeout : Z) (pending : dstate D -> list byte) (mu : dstate D -> nat).
Context (HR : readable D pending mu) (HW : responsive D pending mu).

Lemma fd_wait_responsive fuel t e :
  exists e', bcd_io_fd_wait D timeout (S fuel) t e = Some (1, e') /\ pending e' = pending e /\ (mu e' <= mu e)%nat.
Proof.
  cbn [bcd_io_fd_wait]. destruct (os_time D e) as [now e1] eqn:Et. apply (rs_time _ _ _ HW) in Et as [P1 M1].
  match goal with |- context [sys_select D e1 ?tv] => destruct (sys_select D e1 tv) as [sel e2] eqn:Es end.
  apply (rs_select _ _ _ HW) in Es as (-> & P2 & M2). exists e2. split; [done|]. split; [congruence | lia].
Qed.

Lemma fd_read_complete fuel : forall got want rest n t e,
  pending e = want ++ rest -> n = zlen got + zlen want -> want <> [] -> n < 2 ^ 63 ->
  (mu e + length want < fuel)%nat ->
  exists e', bcd_io_fd_read D timeout fuel got n t e = Some (n, 0, got ++ want, e') /\
    pending e' = rest /\ (mu e' <= mu e)%nat.
Proof.
  induction fuel as [|fuel IH]; intros got want rest n t e Hp Hn Hw Hlt Hf; [lia|].
  cbn [bcd_io_fd_read]. pose proof (zlen_nonneg got). pose proof (zlen_nonneg want).
  rewrite u64_small by lia. replace (n - zlen got) with (zlen want) by lia.
  destruct (sys_read D e (zlen want)) as [r e1] eqn:Er.
  pose proof (rd_mu _ _ _ HR _ _ _ _ Er) as [Hmu _]. destruct r as [errno|bs].
  - pose proof (rs_error _ _ _ HW _ _ _ _ Er) as Hmu'.
    apply (rd_error _ _ _ HR) in Er as [Hp' Herr]. rewrite Hp in Hp'.
    case_decide as Hint.
    { destruct (IH got want rest n t e1) as (e' & He & Hr & Hm); try done; [lia|].
      exists e'. split_and!; [done | done | lia]. }
    destruct Herr as [|Hag]; [done|]. rewrite decide_True by done.
    destruct fuel as [|fuel']; [lia|]. destruct (fd_wait_responsive fuel' t e1) as (e2 & -> & P2 & M2).
    bind_simpl. rewrite decide_True by done. rewrite Hp' in P2.
    destruct (IH got want rest n t e2) as (e' & He & Hr & Hm); try done; [lia|].
    exists e'. split_and!; [done | done | lia].
  - apply (rd_bytes _ _ _ HR) in Er as (Hp' & Hle & Hnil); [|lia].
    destruct bs as [|b bs].
    { exfalso. destruct (Hnil eq_refl) as [Hz|Hz]; [by apply zlen_0 in Hz|].
      rewrite Hp in Hz. by destruct want. }
    rewrite Hp in Hp'. unfold zlen in Hle.
    destruct (prefix_of_equal_tail want rest (b :: bs) (pending e1)) as (want' & -> & Hp1); [done | lia|].
    pose proof (zlen_nonneg want'). pose proof (zlen_app (b :: bs) want'). pose proof (zlen_app got (b :: bs)).
    case_decide as Hdone.
    + assert (want' = []) as -> by (apply zlen_0; lia).
      exists e1. rewrite app_nil_r. split_and!; [do 4 f_equal; lia | done | done].
    + rewrite length_app in Hf.
      destruct (IH (got ++ b :: bs) want' rest n t e1) as (e' & He & Hr & Hm); try done.
      { lia. }
      { intros ->. rewrite app_nil_r in *. lia. }
      { simpl in Hf. lia. }
      exists e'. rewrite app_assoc. split_and!; [done | done | lia].
Qed.
(** [bcd_sb_read] delivers a packet that fits, whatever pieces it arrives in. *)
Lemma sb_read_complete fuel o p rest limit t e :
  0 <= o < 2 ^ 32 -> p <> [] -> zlen p <= limit -> limit < 2 ^ 32 ->
  pending e = packet o p ++ rest -> (mu e + length (packet o p) < fuel)%nat ->
  exists e', bcd_sb_read D timeout fuel limit t e = Some (0, None, packet o p, e') /\ pending e' = rest.
Proof.
  intros Ho Hne Hfit Hlim Hp Hf. pose proof (zlen_nonneg p). unfold bcd_sb_read.
  assert (packet o p = (le_split 4 o ++ le_split 4 (zlen p)) ++ p) as E
    by (unfold packet, packet_bytes; by rewrite app_assoc).
  set (header := le_split 4 o ++ le_split 4 (zlen p)) in *.
  assert (length header = 8%nat) as Hhl by (unfold header; by rewrite length_app, !length_le_split).
  assert (buffer_length header = zlen p) as Hbl.
  { destruct (buffer_header_of header o p 8) as [_ ?]; [done | lia | lia | | done].
    change (packet_bytes o (zlen p) p) with (packet o p). rewrite E.
    by rewrite take_app_length', take_ge by lia. }
  rewrite E, <- app_assoc in Hp. rewrite E, length_app in Hf.
  destruct (fd_read_complete fuel [] header (p ++ rest) sizeof_packet t e) as (e1 & -> & Hp1 & Hm1);
    [done | unfold zlen; by rewrite Hhl | by destruct header | done | lia |].
  bind_simpl. rewrite decide_False by tauto. cbn [app]. rewrite Hbl, decide_False by lia.
  destruct (fd_read_complete fuel [] p rest (zlen p) t e1) as (e2 & -> & Hp2 & _);
    [done | change (zlen []) with 0; lia | done | lia | lia |].
  bind_simpl. exists e2. split; [|done]. cbn [app]. rewrite E. unfold sb_read_result, sizeof_packet.
  by rewrite !decide_False by lia.
Qed.
End Reading.

(** The path as [bcd_init] keeps it and as [bcd_attach] connects to it. *)
Lemma path_stored path sb_path :
  no_nul path -> zlen path < sizeof_sun_path -> zlen sb_path = BCD_SB_PATH ->
  exists stored sun_path, strlcpy sb_path (path ++ [NUL]) BCD_SB_PATH = Some (stored, zlen path) /\
    strlcpy (replicate (Z.to_nat sizeof_sun_path) NUL) stored sizeof_sun_path = Some (sun_path, zlen path) /\ c_str sun_path = path.
Proof.
  unfold BCD_SB_PATH, sizeof_sun_path. intros Hno Hfit Hsb.
  destruct (strlcpy_spec sb_path (path ++ [NUL]) 1024) as (stored & E & _ & Hc & Hnul & _);
    [apply elem_of_app; right; left | done | lia |]. rewrite c_str_app in E, Hc by done.
  rewrite take_ge in Hc by (unfold zlen in *; lia).
  destruct (strlcpy_spec (replicate (Z.to_nat 108) NUL) stored 108 Hnul) as (sun & E' & _ & Hc' & _); [done | done |].
  rewrite Hc in E', Hc'. rewrite take_ge in Hc' by (unfold zlen in *; lia). by exists stored, sun.
Qed.

(** C13: The two processes agree on the socket. The bytes a monitor has sent when it enters its loop are a
    packet that [bcd_sb_read] in [bcd_init] delivers whole, in whatever pieces the pipe hands it out;
    its payload is the path of the socket; [bcd_init] takes the packet for what
    it is and succeeds, and the path it keeps comes whole into the address [bcd_attach] connects to. *)
Theorem startup_handshake D cf path a fuel (w : BcdEvents.monitor D) sb h h' w' sb' sent
    Dr timeout pending mu rest t er fuel' :
  writable D sent -> readable Dr pending mu -> responsive Dr pending mu -> no_nul path ->
  start_child cf path a fuel w sb h = Some (inr (h', w', sb')) ->
  exists bytes, sent sb' = sent sb ++ bytes /\
    (pending er = bytes ++ rest -> (mu er + length bytes < fuel')%nat ->
     exists er', bcd_sb_read Dr timeout fuel' BCD_SB_PATH t er = Some (0, None, bytes, er') /\
       pending er' = rest /\ c_str (payload (packet_of bytes)) = path /\
       (forall sb_path, zlen sb_path = BCD_SB_PATH ->
          exists stored sun_path, strlcpy sb_path (payload (packet_of bytes)) BCD_SB_PATH = Some (stored, zlen path) /\
            strlcpy (replicate (Z.to_nat sizeof_sun_path) NUL) stored sizeof_sun_path = Some (sun_path, zlen path) /\
            c_str sun_path = path) /\
       forall ia pid monitor master s, forked ia = inr pid -> mprotect ia = None ->
         first_packet ia = inr (packet_of bytes) ->
         (start_monitor_process ia monitor master s).1.2 = 0).
Proof.
  intros HD HR HW Hno Hs. unfold start_child in Hs.
  apply try_bind_inr in Hs as (h1 & _ & Hs). apply try_bind_inr in Hs as (h2 & _ & Hs).
  apply try_bind_inr in Hs as ([h3 fd] & H3 & Hs). apply open_listener_started in H3 as ([_ Hfit _ _ _ _ _] & _).
  apply (enter_service_started _ _ _ _ _ _ _ _ _ _ _ _ _ HD) in Hs as (_ & _ & _ & _ & _ & _ & _ & _ & Hsent).
  unfold sizeof_sun_path in Hfit. exists (packet BCD_OP_CF (path ++ [NUL])). split; [done|]. intros Hp Hf.
  assert (zlen (path ++ [NUL]) < 109) as Hz by (rewrite zlen_app; change (zlen [NUL]) with 1; lia).
  destruct (sb_read_complete Dr timeout pending mu HR HW fuel' BCD_OP_CF (path ++ [NUL]) rest BCD_SB_PATH t er)
    as (er' & Hr & Hp'); [done | by destruct path | unfold BCD_SB_PATH; lia | done | done | done |].
  exists er'. split; [done|]. split; [done|].
  destruct (buffer_header_of (packet BCD_OP_CF (path ++ [NUL])) BCD_OP_CF (path ++ [NUL])
    (length (packet BCD_OP_CF (path ++ [NUL])))) as [Hop _]; [done | lia | unfold packet; rewrite length_packet_bytes; lia | done|].
  assert (payload (packet_of (packet BCD_OP_CF (path ++ [NUL]))) = path ++ [NUL]) as Hpay.
  { cbn [payload packet_of]. unfold packet, packet_bytes. rewrite app_assoc.
    by rewrite drop_app_length' by (by rewrite length_app, !length_le_split). }
  split_and!.
  - rewrite Hpay. by apply c_str_app.
  - intros sb_path Hsb. rewrite Hpay. by apply path_stored.
  - intros ia pid monitor master s Hfork Hprot Hfirst. unfold start_monitor_process.
    rewrite Hfork, Hfirst, Hprot. unfold bcd_pipe_ensure_readonly, bcd_pipe_ensure_writeonly.
    cbv beta iota zeta. by rewrite decide_True by exact Hop.
Qed.

(** ** Reaping *)

(** The loop ends after at most one round more than the configured number of seconds, however the child
    behaves; a child that has ended already costs a second. *)
Theorem reap_bounded limit l timeout :
  0 <= timeout <= limit -> limit < 2 ^ 32 -> limit - timeout < zlen l ->
  exists sleeps, bcd_reap limit timeout l = Some sleeps /\ 0 <= sleeps <= limit - timeout + 1 /\
    (forall r l', l = r :: l' -> r <> -1 -> 1 <= sleeps).
Proof.
  revert timeout. induction l as [|r l IH]; intros timeout Ht Hl Hlen; [change (zlen []) with 0 in Hlen; lia|].
  rewrite zlen_cons in Hlen. cbn [bcd_reap].
  destruct (decide (r = -1)); [exists 0; split_and!; [done | lia | lia | by intros ? ? [= -> ->]]|].
  case_decide; [|exists 1; split_and!; [done | lia | lia | lia]].
  rewrite u32_small by lia. destruct (IH (timeout + 1)) as (sleeps & -> & Hs & _); [lia..|].
  bind_simpl. exists (1 + sleeps). split_and!; [done | lia | lia | lia].
Qed.

(** ** Witnesses *)

Definition sample_path : list byte := bytes_of "/tmp/bcd.socket".

Definition sample_listener : listener_answers := ListenerAnswers true true (inr 7) None (Some ENOENT) None None.

(** [second] is whether the pipe to the traced process can be watched. *)
Definition sample_child (second : bool) : child_answers :=
  {| master := Pipe 5 6; monitor_end := Pipe 3 4; output_fd := 8; BcdMonitor.unlink_directory := Some [1; 2];
     dup_out := [Some EINTR; None]; dup_err := [None];
     set_affinity := fun _ => 0; own_pid := 99; oom_files := fun _ => inr 20; oom_writes := [inr 3];
     set_name := fun _ => 0; target_ok := true; epoll_ok := true;
     listener := sample_listener;
     names := sample_names; chown_path := fun _ => None; setgid_to := fun _ => None; setuid_to := fun _ => None;
     events_at := (Some 21, Some 22, Some 23); watched := (true, second, true) |}.

Definition sample_host : host :=
  Host (Process {[0; 1; 2; 3; 4; 5; 6; 8]} {[[1; 2]]}) None false (Credentials 0 0) None None [] ∅ None.

Definition empty_monitor : BcdEvents.monitor toy := Monitor ∅ [] ∅ [] no_metadata.

Lemma service_starts_witness :
  exists h' w' sb', start_child sample_config sample_path (sample_child true) 40 empty_monitor (PipeEnd 2 [] [])
      sample_host = Some (inr (h', w', sb')) /\
    ready w' = [21; 22; 23] /\ outbox sb' = packet BCD_OP_CF (sample_path ++ [NUL]).
Proof.
  destruct (start_child sample_config sample_path (sample_child true) 40 empty_monitor (PipeEnd 2 [] [])
    sample_host) as [[e|[[h' w'] sb']]|] eqn:E; [vm_compute in E; discriminate E | | vm_compute in E; discriminate E].
  destruct (service_starts toy sample_config sample_path (sample_child true) 40 empty_monitor (PipeEnd 2 [] [])
    sample_host h' w' sb' outbox toy_writable eq_refl eq_refl) as
    (fd & p1 & p2 & p3 & _ & _ & _ & _ & _ & _ & _ & Hr & _ & _ & Hs); [constructor | | exact E |].
  - intros q1 q2 q3 [= <- <- <-]. split; [by_compute | intros p _; apply not_elem_of_nil].
  - exists h', w', sb'. split; [reflexivity|]. split; [|exact Hs].
    vm_compute in E. injection E as _ <- _. reflexivity.
Defined.

Lemma start_failures_witness :
  exists e, start_child sample_config sample_path (sample_child false) 40 empty_monitor (PipeEnd 2 [] [])
      sample_host = Some (inl e) /\
    socket_file (left_behind e) = false.
Proof.
  destruct (start_child sample_config sample_path (sample_child false) 40 empty_monitor (PipeEnd 2 [] [])
    sample_host) as [[e|]|] eqn:E; [|vm_compute in E; discriminate E ..].
  destruct (start_failures toy sample_config sample_path (sample_child false) 40 empty_monitor (PipeEnd 2 [] [])
    sample_host e E) as [[[_ [Hc _]]|[Hn _]] _]; exists e; (split; [reflexivity|]); [exact Hc|].
  exfalso. apply Hn. vm_compute in E. injection E as <-. by_compute.
Defined.

Lemma toy_responsive : responsive toy inbox hiccups.
Proof.
  split; intros [k i o]; simpl.
  - intros n errno e'. unfold toy_read. destruct k; simpl; [done|]. intros [= _ <-]. simpl. lia.
  - by intros tv r e' [= <- <-].
  - by intros t e' [= _ <-].
Qed.

Lemma startup_handshake_witness :
  exists er', bcd_sb_read toy 30 60 BCD_SB_PATH 0 (PipeEnd 3 (packet BCD_OP_CF (sample_path ++ [NUL])) []) =
      Some (0, None, packet BCD_OP_CF (sample_path ++ [NUL]), er') /\ inbox er' = [].
Proof.
  destruct (start_child sample_config sample_path (sample_child true) 40 empty_monitor (PipeEnd 2 [] [])
    sample_host) as [[e|[[h' w'] sb']]|] eqn:E; [vm_compute in E; discriminate E | | vm_compute in E; discriminate E].
  destruct (startup_handshake toy sample_config sample_path (sample_child true) 40 empty_monitor (PipeEnd 2 [] [])
    sample_host h' w' sb' outbox toy 30 inbox hiccups [] 0
    (PipeEnd 3 (packet BCD_OP_CF (sample_path ++ [NUL])) []) 60 toy_writable toy_readable toy_responsive)
    as (bytes & Hs & H); [by_compute | exact E |].
  assert (bytes = packet BCD_OP_CF (sample_path ++ [NUL])) as ->.
  { vm_compute in E. injection E as _ _ <-. simpl in Hs. subst bytes. vm_compute. reflexivity. }
  destruct H as (er' & Hr & Hp & _); [by rewrite app_nil_r | by_compute |].
  exists er'. split; [exact Hr | exact Hp].
Defined.
