(* ===== verification/BcdRequest.v ===== *)
(** * Requests from end to end (src/external/bcd/bcd-amalgamated.c)

    A client and the monitor joined: the descriptor of the client is an environment in which
    [select] lets the monitor run its handler on what the client has written. The theorems
    run the client's [bcd_kv], [bcd_arg] and [bcd_associate_tid] against the monitor's
    [bcd_handler_request_response] and say what a sequence of calls leaves in the monitor, by
    a simulation of an abstract table. *)

From S2P Require Import Prelude.
From S2P Require Import Memory.
From S2P Require Import BcdMeta.
From S2P Require Import BcdTracer.
From S2P Require Import BcdChannel.
From S2P Require Import BcdSession.
From S2P Require Import BcdConfig.
From S2P Require Import BcdClient.

(** ** The two ends of a connection *)

(** The monitor's end: bytes that have arrived, bytes the client has yet to send, bytes that have been
    written. It moves at most [chunk] bytes at a time and refuses to read when nothing has arrived. *)
Record link := Link { arrived : list byte; unsent : list byte; written : list byte }.

Definition wire (chunk : nat) : descriptor :=
  {| dstate := link;
     sys_read e n :=
       match arrived e with
       | [] => (inl EAGAIN, e)
       | _ => let m := Nat.min (Z.to_nat n) chunk in
              (inr (take m (arrived e)), Link (drop m (arrived e)) (unsent e) (written e))
       end;
     sys_write e bs := (inr (zlen (take chunk bs)), Link (arrived e) (unsent e) (written e ++ take chunk bs));
     sys_select e _ := (inr 1, e);
     os_time e := (0, e) |}.

(** What will be read sooner or later. *)
Definition to_come (e : link) : list byte := arrived e ++ unsent e.

(** The connection with the monitor behind it. When the session is terminated its event and its descriptor are gone. *)
Record joint_state := Joint {
  to_monitor : list byte; to_client : list byte; serving : bcd_session; known : metadata
}.

Section Joint.
Context (chunk : nat) (cf : invoke) (al : allocations) (K : kernel) (kst : kstate K) (monitor_fuel : nat).

(** The session of a client that has detached. *)
Definition hung_up (s : bcd_session) : bcd_session :=
  Session (session_thread s) (state s) true 0 (buffer s).

(** One call of the handler; 1 if there is something for the client to read afterwards. *)
Definition run_monitor (st : joint_state) : Z * joint_state :=
  if terminated (serving st) then (0, st) else
  match bcd_handler_request_response (wire chunk) cf al K None monitor_fuel (serving st)
    (Link (to_monitor st) [] []) kst (known st) with
  | Some (Ready s g, e) | Some (AwaitRead s g, e) =>
      let st := Joint (arrived e) (to_client st ++ written e) s g in
      (if decide (to_client st = []) then 0 else 1, st)
  | Some (Closed g, e) =>
      let st := Joint (arrived e) (to_client st ++ written e) (hung_up (serving st)) g in
      (if decide (to_client st = []) then 0 else 1, st)
  | _ => (0, st)
  end.

(** The client's end: without a session behind it there is an end of the stream, and nothing can be written. *)
Definition EPIPE : Z := 32.

Definition joint : descriptor :=
  {| dstate := joint_state;
     sys_read st n :=
       match to_client st with
       | [] => (if terminated (serving st) then inr [] else inl EAGAIN, st)
       | _ => let m := Nat.min (Z.to_nat n) chunk in
              (inr (take m (to_client st)), Joint (to_monitor st) (drop m (to_client st)) (serving st) (known st))
       end;
     sys_write st bs :=
       if terminated (serving st) then (inl EPIPE, st)
       else (inr (zlen (take chunk bs)), Joint (to_monitor st ++ take chunk bs) (to_client st) (serving st) (known st));
     sys_select st _ := let '(r, st) := run_monitor st in (inr r, st);
     os_time st := (0, st) |}.

Hypothesis Hchunk : (0 < chunk)%nat.

(** ** The monitor's side *)

Lemma wire_readable : readable (wire chunk) to_come (fun _ => 0%nat).
Proof.
  split; intros [i u o] n; unfold to_come; simpl; destruct i as [|b i]; simpl.
  - by intros bs e' [=].
  - intros bs e' [= <- <-] Hn. simpl. change (b :: i ++ u) with ((b :: i) ++ u). change (b :: i) with ([b] ++ i).
    split_and!; [by rewrite app_assoc, take_drop | unfold zlen; rewrite length_take; lia |].
    intros Hbs. left. apply (f_equal length) in Hbs. rewrite length_take in Hbs. simpl in Hbs. lia.
  - intros errno e' [= <- <-]. split; [done | by right].
  - by intros errno e' [=].
  - by intros r e' [= <- <-].
  - by intros r e' [= <- <-].
Qed.

(** What reading leaves alone, and when the monitor waits. *)
Lemma wire_read_loop fuel s ac target buf e r e' :
  read_request_loop (wire chunk) fuel s ac target buf e = Some (r, e') ->
  written e' = written e /\ unsent e' = unsent e /\ (forall s', r = WouldBlock s' -> arrived e' = []).
Proof.
  revert ac target buf e. induction fuel as [|fuel IH]; intros ac target buf [i u o]; [done|].
  cbn [read_request_loop wire sys_read arrived]. destruct i as [|b i].
  - rewrite decide_False by done. rewrite decide_True by done. by intros [= <- <-].
  - set (bs := take _ (b :: i)). destruct bs as [|x bs].
    + destruct (terminated s); by intros [= <- <-].
    + repeat case_decide; first [by intros [= <- <-] | by intros ?%IH].
Qed.

Lemma wire_ack fuel s ac i u o :
  length (buffer s) = session_size -> 0 <= ac < 8 -> (Z.to_nat (8 - ac) < fuel)%nat ->
  write_ack_loop (wire chunk) fuel s ac (Link i u o) =
    Some (Complete (set_offset s 0 (buffer s)), Link i u (o ++ drop (Z.to_nat ac) (take 8 (buffer s)))).
Proof.
  intros Hlen. revert ac o. induction fuel as [|fuel IH]; intros ac o Hac Hf; [lia|].
  cbn [write_ack_loop wire sys_write arrived unsent written]. unfold sizeof_packet.
  assert (length (take 8 (buffer s)) = 8%nat) as H8 by (rewrite length_take, Hlen; done).
  set (ack := take 8 (buffer s)) in *. clearbody ack.
  assert (length (drop (Z.to_nat ac) ack) = Z.to_nat (8 - ac)) as Hd by (rewrite length_drop, H8; lia).
  rewrite decide_False by (unfold zlen; rewrite length_take; lia). case_decide as Hmore.
  - rewrite IH by (unfold zlen in *; rewrite length_take in *; lia). do 3 f_equal.
    rewrite <- app_assoc. f_equal. rewrite <- (take_drop chunk (drop (Z.to_nat ac) ack)) at 3. f_equal.
    rewrite drop_drop. f_equal. unfold zlen in *. rewrite length_take in *. lia.
  - rewrite take_ge; [done|]. unfold zlen in Hmore. rewrite length_take in Hmore. lia.
Qed.

(** A session between two requests; when it is [over] the client has detached. *)
Record settled (over : bool) (s : bcd_session) : Prop := {
  id_state : state s = BCD_SESSION_READING;
  id_live : terminated s = over;
  id_offset : offset s = 0;
  id_buffer : length (buffer s) = session_size
}.

Definition idle : bcd_session -> Prop := settled false.

Definition acknowledgement : list byte := packet_bytes BCD_OP_OK 0 [].

(** A request that can be carried out: on any session that has received it. *)
Definition performs_until (over : bool) (o : Z) (p : list byte) (tid : Z) (g : metadata) (Q : Z -> metadata -> Prop) : Prop :=
  forall s, idle s -> session_thread s = tid ->
    take (length (packet o p)) (buffer s) = packet o p ->
    exists tid' g', bcd_perform_request cf al K None monitor_fuel s kst g =
      Some (Performed (Session tid' (state s) over 0 (buffer s)) g') /\ Q tid' g'.

Definition performs := performs_until false.

Lemma ack_written over s i u o : settled over s -> (8 < monitor_fuel)%nat ->
  exists s', bcd_write_ack (wire chunk) monitor_fuel s (Link i u o) =
      Some (Complete s', Link i u (o ++ acknowledgement)) /\
    settled over s' /\ session_thread s' = session_thread s.
Proof.
  intros [Hst Hl Ho Hb] Hf. unfold bcd_write_ack. cbv zeta.
  assert (length (overwrite (buffer s) 0 acknowledgement) = session_size) as Hlen.
  { rewrite length_overwrite; [done | lia |]. unfold zlen. rewrite Hb. vm_compute. discriminate. }
  assert (take 8 (overwrite (buffer s) 0 acknowledgement) = acknowledgement) as Ht
    by (pose proof (take_overwrite (buffer s) 0 acknowledgement ltac:(lia) ltac:(apply zlen_nonneg)) as H;
        by vm_compute Z.to_nat in H).
  fold acknowledgement. rewrite Ho. rewrite wire_ack; [|done | simpl; lia | simpl; lia].
  cbn [buffer set_offset offset]. rewrite Ht. eexists. split; [done|]. split; [by split | done].
Qed.

(** A session that waits for the rest of a packet, or for its beginning. *)
Record receiving (o : Z) (p rest : list byte) (s : bcd_session) (e : link) : Prop := {
  rc_state : state s = BCD_SESSION_READING;
  rc_live : terminated s = false;
  rc_partial : partial (wire chunk) to_come o p rest s e
}.

(** What a call of the handler does for such a session: it receives more of the packet, and then everything
    that has arrived, or it carries the request out and answers; a session that is over is closed. *)
Definition served (over : bool) (o : Z) (p rest : list byte) (s : bcd_session) (e : link) (g : metadata)
    (Q : Z -> metadata -> Prop) (h : handled) (e' : link) : Prop :=
  unsent e' = unsent e /\
  ((exists s', h = AwaitRead s' g /\ receiving o p rest s' e' /\ arrived e' = [] /\
      written e' = written e /\ session_thread s' = session_thread s) \/
   (exists s' g', h = (if over then Closed g' else Ready s' g') /\ settled over s' /\ Q (session_thread s') g' /\ to_come e' = rest /\
      written e' = written e ++ acknowledgement)).

Lemma handler_serves over o p rest s e g Q :
  0 <= o < 2 ^ 32 -> zlen p <= BCD_PACKET_LIMIT -> receiving o p rest s e -> offset s <> sizeof_packet ->
  performs_until over o p (session_thread s) g Q -> (length (packet o p) + 8 < monitor_fuel)%nat ->
  exists h e', bcd_handler_request_response (wire chunk) cf al K None monitor_fuel s e kst g = Some (h, e') /\
    served over o p rest s e g Q h e'.
Proof.
  intros Ho Hp [Hst Hl Hpart] Hoff HQ Hf. unfold bcd_handler_request_response. rewrite Hst.
  destruct (read_request_progress (wire chunk) to_come (fun _ => 0%nat) wire_readable o p rest s e
    monitor_fuel) as (r & e1 & Hr & Hout); [done..| |].
  { destruct Hpart as (_ & _ & ? & _). unfold zlen. lia. }
  rewrite Hr. bind_simpl. apply wire_read_loop in Hr as (Hw & Hu & Hb). destruct r as [s1|s1|]; [| |done].
  - destruct Hout as (Hs1 & Hb1 & Hpkt & Hi).
    assert (idle s1) as Hid1 by (rewrite Hs1; by split).
    rewrite (id_live _ _ Hid1).
    destruct (HQ s1 Hid1) as (tid' & g' & -> & HQ'); [by rewrite Hs1 | done |]. bind_simpl.
    unfold write_phase. rewrite (id_state _ _ Hid1). destruct e1 as [i u out].
    destruct (ack_written over (Session tid' BCD_SESSION_READING over 0 (buffer s1)) i u out) as (s2 & -> & Hid2 & Ht);
      [by split | lia |].
    bind_simpl. unfold after_io. rewrite (id_live _ _ Hid2). do 2 eexists. split; [done|]. split; [done|].
    right. exists s2, g'. rewrite Ht. simpl in *. by rewrite Hw.
  - destruct Hout as (Hs1 & _ & Hpart1). do 2 eexists. split; [done|]. split; [done|]. left. exists s1.
    split_and!; [done | | by apply (Hb s1) | done | by rewrite Hs1].
    split; [by rewrite Hs1 | by rewrite Hs1 | done].
Qed.

Lemma monitor_serves over o p s g Q :
  0 <= o < 2 ^ 32 -> zlen p <= BCD_PACKET_LIMIT -> idle s ->
  performs_until over o p (session_thread s) g Q -> (length (packet o p) + 8 < monitor_fuel)%nat ->
  exists s' g', bcd_handler_request_response (wire chunk) cf al K None monitor_fuel s (Link (packet o p) [] []) kst g =
      Some (if over then Closed g' else Ready s' g', Link [] [] acknowledgement) /\
    settled over s' /\ Q (session_thread s') g'.
Proof.
  intros Ho Hp Hid HQ Hf. destruct (id Hid) as [Hst Hl Hoff Hb].
  assert (0 < zlen (packet o p)) as Hpos by (unfold zlen, packet; rewrite length_packet_bytes; lia).
  destruct (handler_serves over o p [] s (Link (packet o p) [] []) g Q) as (h & [i u out] & -> & Hu & Hh); try done.
  - split; [done | done |]. unfold partial. rewrite Hoff. split; [done|]. by split_and!.
  - by rewrite Hoff.
  - simpl in Hu. subst u. destruct Hh as [(s' & _ & [_ _ Hpart] & Harr & _)|(s' & g' & -> & Hid' & HQ' & Hrest & Hw)].
    + exfalso. destruct Hpart as [Hlt Hh]. apply holds_pending in Hh; [|done]. by simpl in Harr; subst i.
    + exists s', g'. unfold to_come in Hrest. simpl in *. rewrite app_nil_r in Hrest. by subst.
Qed.

(** ** The client's side *)

Definition quiet (st : joint_state) : Prop := to_monitor st = [] /\ to_client st = [] /\ idle (serving st).

Context (limit : Z).

Lemma joint_write fuel b t st : terminated (serving st) = false -> forall ac,
  0 <= ac < zlen b -> (Z.to_nat (zlen b - ac) < fuel)%nat ->
  bcd_io_fd_write joint limit fuel ac b t st =
    Some (zlen b, 0, Joint (to_monitor st ++ drop (Z.to_nat ac) b) (to_client st) (serving st) (known st)).
Proof.
  revert st. induction fuel as [|fuel IH]; intros st Hlive ac Hac Hf; [lia|].
  cbn [bcd_io_fd_write joint sys_write]. rewrite Hlive.
  assert (length (drop (Z.to_nat ac) b) = Z.to_nat (zlen b - ac)) as Hd
    by (rewrite length_drop; unfold zlen; lia).
  set (piece := take chunk (drop (Z.to_nat ac) b)).
  assert (zlen piece = Z.min (Z.of_nat chunk) (zlen b - ac)) as Hz
    by (unfold piece, zlen in *; rewrite length_take; lia).
  rewrite decide_False by lia. case_decide as Hall.
  - rewrite Hall. unfold piece. rewrite take_ge; [done | lia].
  - rewrite IH by first [done | lia]. cbn [to_monitor to_client serving known].
    assert (piece ++ drop (Z.to_nat (ac + zlen piece)) b = drop (Z.to_nat ac) b) as E.
    { rewrite <- (take_drop chunk (drop (Z.to_nat ac) b)) at 1. fold piece. f_equal.
      rewrite drop_drop. f_equal. lia. }
    by rewrite <- app_assoc, E.
Qed.

Lemma joint_read fuel t : forall got want st n,
  to_client st = want -> n = zlen got + zlen want -> want <> [] -> n < 2 ^ 63 -> (length want < fuel)%nat ->
  bcd_io_fd_read joint limit fuel got n t st =
    Some (n, 0, got ++ want, Joint (to_monitor st) [] (serving st) (known st)).
Proof.
  induction fuel as [|fuel IH]; intros got want st n Hw Hn Hne Hlt Hf; [lia|].
  pose proof (zlen_nonneg got). pose proof (zlen_nonneg want).
  cbn [bcd_io_fd_read joint sys_read]. rewrite u64_small by lia.
  replace (n - zlen got) with (zlen want) by lia. rewrite Hw. destruct want as [|b want]; [done|].
  replace (Nat.min (Z.to_nat (zlen (b :: want))) chunk) with (Nat.min (length (b :: want)) chunk)
    by (unfold zlen; lia).
  set (m := Nat.min (length (b :: want)) chunk).
  destruct (take m (b :: want)) as [|x piece] eqn:Htake.
  { apply (f_equal length) in Htake. rewrite length_take in Htake. unfold m in Htake. cbn [length] in Htake. lia. }
  rewrite <- Htake. clear Htake x piece.
  assert (zlen (got ++ take m (b :: want)) = zlen got + Z.of_nat m) as Hz
    by (rewrite zlen_app; unfold zlen; rewrite length_take; unfold m; lia).
  case_decide as Hall.
  - assert (m = length (b :: want)) as -> by (unfold zlen in *; lia).
    rewrite firstn_all, skipn_all. do 4 f_equal. by rewrite firstn_all in Hall.
  - rewrite (IH _ (drop m (b :: want))); [ | done | | | done | ].
    + do 3 f_equal. by rewrite <- app_assoc, take_drop.
    + rewrite Hz. unfold zlen in *. rewrite length_drop. unfold m in *. lia.
    + intros Hemp. apply (f_equal length) in Hemp. rewrite length_drop in Hemp. unfold zlen, m in *. cbn [length] in *. lia.
    + rewrite length_drop. unfold m. cbn [length] in *. lia.
Qed.
(** The client waits for the answer, and the monitor runs. *)
Lemma joint_ack (over : bool) fuel t o p st s' g' :
  to_monitor st = packet o p -> to_client st = [] -> terminated (serving st) = false ->
  bcd_handler_request_response (wire chunk) cf al K None monitor_fuel (serving st) (Link (packet o p) [] []) kst (known st) =
    Some (if over then Closed g' else Ready s' g', Link [] [] acknowledgement) ->
  (16 < fuel)%nat ->
  bcd_channel_read_ack joint limit fuel t st = Some (0, None, Joint [] [] (if over then hung_up (serving st) else s') g').
Proof.
  intros Hm Hc Hlive Hh Hf. destruct fuel as [|fuel]; [lia|]. set (s2 := if over then hung_up (serving st) else s').
  assert (bcd_io_fd_wait joint limit fuel t st = Some (1, Joint [] acknowledgement s2 g')) as Hwait.
  { destruct fuel as [|fuel]; [lia|]. cbn [bcd_io_fd_wait joint os_time sys_select]. unfold run_monitor. rewrite Hm, Hlive, Hh, Hc.
    cbn [app]. unfold s2. destruct over; (rewrite decide_False; [done|]; cbn [to_client]; unfold acknowledgement, packet_bytes; by simpl). }
  assert (bcd_io_fd_read joint limit (S fuel) [] sizeof_packet t st =
    Some (sizeof_packet, 0, acknowledgement, Joint [] [] s2 g')) as Hr.
  { cbn [bcd_io_fd_read joint sys_read]. rewrite Hc, Hlive.
    rewrite decide_False by done. rewrite decide_True by done.
    fold joint. rewrite Hwait. bind_simpl. rewrite decide_True by done.
    rewrite (joint_read fuel t [] acknowledgement); [done | done | done | done | done |].
    vm_compute length. lia. }
  unfold bcd_channel_read_ack. rewrite Hr. bind_simpl. by rewrite !decide_False by (vm_compute; congruence).
Qed.

Lemma joint_request over fuel o p failure close st Q :
  quiet st -> 0 <= o < 2 ^ 32 -> zlen p <= BCD_PACKET_LIMIT ->
  performs_until over o p (session_thread (serving st)) (known st) Q ->
  (length (packet o p) + 16 < monitor_fuel)%nat -> (length (packet o p) + 16 < fuel)%nat ->
  exists s' g', request joint limit fuel o p failure close st =
      Some (0, None, false, Joint [] [] (if over then hung_up (serving st) else s') g') /\
    settled over s' /\ Q (session_thread s') g'.
Proof.
  intros (Hm & Hc & Hid) Ho Hp HQ Hmf Hf.
  destruct (monitor_serves over o p (serving st) (known st) Q) as (s' & g' & Hh & Hid' & HQ'); [done..|lia|].
  assert (zlen (packet o p) = 8 + zlen p) as Hz by (unfold zlen, packet; rewrite length_packet_bytes; lia).
  pose proof (zlen_nonneg p).
  unfold request. cbn [os_time joint]. unfold bcd_sb_write. change (packet_bytes o (zlen p) p) with (packet o p).
  fold joint. rewrite joint_write by first [apply Hid | unfold zlen in *; lia]. bind_simpl. rewrite decide_False by lia.
  rewrite (joint_ack over fuel _ o p _ s' g'); [| by rewrite Hm | done | apply Hid | done | lia].
  bind_simpl. by do 2 eexists.
Qed.
End Joint.

(** ** What a session knows, abstractly *)

#[export] Instance byte_countable : Countable Init.Byte.byte.
Proof. exact (inj_countable' Byte.to_N (fun n => default NUL (Byte.of_N n)) ltac:(by intros []))%list. Defined.

(** The last value of each key, the arguments in the order of their last mention, the thread of the
    client and how many requests the monitor has reported. *)
Record table := Table {
  pairs : gmap (list byte) (list byte); arguments : list (list byte); thread : Z; reported : nat
}.

Definition pairs_of (l : list BcdMeta.bcd_kv) : gmap (list byte) (list byte) :=
  list_to_map ((fun c => (key c, value c)) <$> l).

Definition table_of (tid : Z) (g : metadata) : table :=
  Table (pairs_of (kv_list g)) (arg_list g) tid (length (reports g)).

(** The calls of a client; [Trace] is [bcd_backtrace] with the thread or the process as target. *)
Inductive call :=
| SetPair (k v : list byte)
| SetArgument (a : list byte)
| SetThread (tid : Z)
| Trace (of_thread : bool).

(** Traces that the handler of the user takes over, so that no tracer is started. *)
Definition intercepts (cf : invoke) : Prop :=
  exists handler, request_handler cf = Some handler /\ forall tid, handler tid = -1.

(** What comes of the traces: the clients ask for none; the handler of the user takes them over; a tracer is started
    and succeeds, or fails and is reported. *)
Inductive tracing := Untraced | Intercepted | Traced (success : bool).

(** The configuration and the kernel make it so; they treat all traces alike. *)
Definition traces (cf : invoke) (al : allocations) (K : kernel) (kst : kstate K) (fuel : nat) (tr : tracing) : Prop :=
  match tr with
  | Untraced => True
  | Intercepted => intercepts cf
  | Traced success =>
      al = all_succeed /\ invoke_ok cf /\ (forall tid, passes cf tid) /\
      exists kills g, run_tracer K fuel 0 kst no_metadata = Returned (if success then 0 else -1) kills g
  end.

(** Strings are C strings, thread ids those of the kernel. *)
Definition call_ok (tr : tracing) (c : call) : Prop :=
  match c with
  | SetPair k v => no_nul k /\ no_nul v
  | SetArgument a => no_nul a
  | SetThread tid => 0 <= tid < 2 ^ 31
  | Trace _ => tr <> Untraced
  end.

Definition trace_op (of_thread : bool) : Z := if of_thread then BCD_OP_TR_THREAD else BCD_OP_TR_PROCESS.

(** Operation and payload of the request a call sends. *)
Definition request_of (c : call) : Z * list byte :=
  match c with
  | SetPair k v => (BCD_OP_KV, kv_request k v)
  | SetArgument a => (BCD_OP_ARG, a ++ [NUL])
  | SetThread tid => (BCD_OP_TID, tid_payload tid)
  | Trace of_thread => (trace_op of_thread, [])
  end.

Definition report (t : table) : table := Table (pairs t) (arguments t) (thread t) (S (reported t)).

(** What a call means to do: a request that is too long is refused, an empty key or argument is
    refused by the monitor and acknowledged all the same, and so is a trace that fails. *)
Definition answer (tr : tracing) (c : call) (t : table) : Z * table :=
  match c with
  | SetPair k v =>
      if decide (zlen k + 1 + (zlen v + 1) > BCD_PACKET_LIMIT) then (-1, t)
      else if decide (k = []) then (0, report t)
      else (0, Table (<[k := v]> (pairs t)) (arguments t) (thread t) (reported t))
  | SetArgument a =>
      if decide (zlen a + 1 > BCD_PACKET_LIMIT) then (-1, t)
      else if decide (a = []) then (0, report t)
      else (0, Table (pairs t) (filter (fun b => b <> a) (arguments t) ++ [a]) (thread t) (reported t))
  | SetThread tid => (0, Table (pairs t) (arguments t) tid (reported t))
  | Trace _ => (0, match tr with Traced true => t | _ => report t end)
  end.

Fixpoint answers (tr : tracing) (cs : list call) (t : table) : list Z * table :=
  match cs with
  | [] => ([], t)
  | c :: cs => let '(r, t) := answer tr c t in let '(rs, t) := answers tr cs t in (r :: rs, t)
  end.

Lemma pairs_filter k l : pairs_of (filter (fun c => key c <> k) l) = delete k (pairs_of l).
Proof.
  induction l as [|c l IH]; [symmetry; apply delete_empty|].
  destruct (decide (key c = k)) as [<-|Hk].
  - rewrite filter_cons_False by tauto. rewrite IH. cbn [pairs_of fmap list_fmap list_to_map foldr].
    symmetry. apply delete_insert_eq.
  - rewrite filter_cons_True by done. cbn [pairs_of fmap list_fmap list_to_map foldr].
    rewrite delete_insert_ne by done. f_equal. exact IH.
Qed.

Lemma pairs_set k v l : pairs_of (KV k v :: filter (fun c => key c <> k) l) = <[k := v]> (pairs_of l).
Proof.
  change (<[k := v]> (pairs_of (filter (fun c => key c <> k) l)) = <[k := v]> (pairs_of l)).
  rewrite pairs_filter. apply insert_delete_eq.
Qed.

Lemma kv_bytes_filter (P : BcdMeta.bcd_kv -> Prop) `{!forall c, Decision (P c)} l : kv_bytes (filter P l) <= kv_bytes l.
Proof.
  induction l as [|c l IH]; [done|]. rewrite filter_cons. pose proof (zlen_nonneg (key c)).
  pose proof (zlen_nonneg (value c)). case_decide; simpl; lia.
Qed.
Lemma arg_bytes_filter (P : list byte -> Prop) `{!forall a, Decision (P a)} l : arg_bytes (filter P l) <= arg_bytes l.
Proof.
  induction l as [|a l IH]; [done|]. rewrite filter_cons. pose proof (zlen_nonneg a). case_decide; simpl; lia.
Qed.

(** There is room for more requests; and if tracers are started, for the arguments in their command line. *)
Definition is_argument (c : call) : bool := match c with SetArgument _ => true | _ => false end.
Definition new_arguments (cs : list call) : Z := zlen (filter (fun c => is_argument c) cs).

Definition space (tr : tracing) (cs : list call) (g : metadata) : Prop :=
  2 * (kv_bytes (kv_list g) + 1025 * zlen cs) + 2 ^ 33 < 2 ^ 64 /\
  arg_bytes (arg_list g) + 1025 * zlen cs + 2 ^ 33 < 2 ^ 64 /\
  match tr with Traced _ => zlen (arg_list g) + new_arguments cs <= 27 | _ => True end.

Lemma space_room tr cs g : space tr cs g -> room g.
Proof. unfold space, room. pose proof (zlen_nonneg cs). lia. Qed.

Lemma new_arguments_cons c cs : new_arguments (c :: cs) = new_arguments cs + if is_argument c then 1 else 0.
Proof. unfold new_arguments. rewrite filter_cons. destruct c; simpl; zlia. Qed.

(** One request less to come. *)
Lemma space_next tr c cs g g' :
  space tr (c :: cs) g ->
  kv_bytes (kv_list g') <= kv_bytes (kv_list g) + 1025 -> arg_bytes (arg_list g') <= arg_bytes (arg_list g) + 1025 ->
  zlen (arg_list g') <= zlen (arg_list g) + (if is_argument c then 1 else 0) -> space tr cs g'.
Proof. unfold space. rewrite zlen_cons, new_arguments_cons. destruct tr; lia. Qed.

Lemma space_same tr c cs g g' :
  space tr (c :: cs) g -> kv_list g' = kv_list g -> arg_list g' = arg_list g -> space tr cs g'.
Proof. intros Hs Hk Ha. apply (space_next tr c cs g); [done | rewrite Hk; lia | rewrite Ha; lia | rewrite Ha; destruct (is_argument c); lia]. Qed.

#[export] Instance space_perm tr : Proper ((≡ₚ) ==> (=) ==> iff) (space tr).
Proof.
  intros cs cs' H g g' <-. unfold space, new_arguments, zlen.
  by rewrite (Permutation_length H), (Permutation_length (filter_Permutation (fun c => is_argument c) _ _ H)).
Qed.

(** The monitor after a request, as the table sees it, with what is to come. *)
Definition leaves (tr : tracing) (cs : list call) (t : table) (tid : Z) (g : metadata) : Prop :=
  wf g /\ space tr cs g /\ table_of tid g = t.

Section Performs.
Context (cf : invoke) (al : allocations) (K : kernel) (kst : kstate K) (monitor_fuel : nat).
Local Abbreviation performs := (performs cf al K kst monitor_fuel).
Context (tr : tracing).
Hypothesis Htr : traces cf al K kst monitor_fuel tr.

Lemma wf_bcd_error ev tid message code g : wf g -> wf (bcd_error ev tid message code g).2.
Proof. intros []. by split. Qed.

Lemma leaves_error c cs t tid ev tid' message code g :
  leaves tr (c :: cs) t tid g -> leaves tr cs (report t) tid (bcd_error ev tid' message code g).2.
Proof.
  intros (W & S & <-). split_and!; [by apply wf_bcd_error | by eapply space_same |].
  unfold table_of, report. simpl. by rewrite length_app, Nat.add_1_r.
Qed.

Lemma pair_performed cs t k v tid g :
  no_nul k -> no_nul v -> zlen (kv_request k v) <= BCD_PACKET_LIMIT -> leaves tr (SetPair k v :: cs) t tid g ->
  performs BCD_OP_KV (kv_request k v) tid g (leaves tr cs (answer tr (SetPair k v) t).2).
Proof.
  intros Hk Hv Hfit (W & Hs & Ht) s [Hst Hl Hoff Hb] Htid Hpkt.
  assert (answer tr (SetPair k v) t = (0, if decide (k = []) then report t
    else Table (<[k := v]> (pairs t)) (arguments t) (thread t) (reported t))) as ->.
  { simpl. rewrite decide_False by (unfold kv_request in Hfit; zlia). by case_decide. }
  destruct (packet_of_buffer BCD_OP_KV (kv_request k v) (buffer s)) as (Hop & Hok & Hlen & rest & E);
    [by unfold BCD_OP_KV | done..|].
  unfold bcd_perform_request. rewrite Hop. do 1 (rewrite decide_False by done). rewrite decide_True by done.
  rewrite <- Hl, <- Hoff. destruct s as [tid' ? ? ? ?]. cbn [session_thread] in Htid. subst tid'.
  cbn [session_thread BcdSession.buffer snd] in *. case_decide as Hne.
  - subst k. unfold bcd_kv_set. rewrite E. replace ((kv_request [] v ++ rest) !! 0%nat) with (Some NUL) by done.
    bind_simpl. rewrite decide_True by done. unfold malformed_kv. bind_simpl. do 2 eexists. split; [done|]. by eapply leaves_error.
  - destruct (kv_request_payload k v buffer) as (_ & _ & Hp); [done..|].
    destruct (kv_set_inserts tid (packet_of buffer) g k v W (space_room _ _ _ Hs) Hok Hp)
      as (g' & -> & W' & Hkv & Ha & Hr). bind_simpl. do 2 eexists. split; [done|].
    split_and!; [done | | unfold table_of; rewrite Hkv, Ha, Hr, pairs_set; by subst t].
    pose proof (kv_bytes_filter (fun c => key c <> k) (kv_list g)).
    eapply space_next; [exact Hs | rewrite Hkv | rewrite Ha; lia | rewrite Ha; simpl; lia].
    unfold kv_request, BCD_PACKET_LIMIT in *. cbn [kv_bytes key value]. zlia.
Qed.

Lemma argument_performed cs t a tid g :
  no_nul a -> zlen (a ++ [NUL]) <= BCD_PACKET_LIMIT -> leaves tr (SetArgument a :: cs) t tid g ->
  performs BCD_OP_ARG (a ++ [NUL]) tid g (leaves tr cs (answer tr (SetArgument a) t).2).
Proof.
  intros Ha Hfit (W & Hs & Ht) s [Hst Hl Hoff Hb] Htid Hpkt.
  assert (answer tr (SetArgument a) t = (0, if decide (a = []) then report t
    else Table (pairs t) (filter (fun b => b <> a) (arguments t) ++ [a]) (thread t) (reported t))) as ->.
  { simpl. rewrite decide_False by zlia. by case_decide. }
  destruct (packet_of_buffer BCD_OP_ARG (a ++ [NUL]) (buffer s)) as (Hop & Hok & Hlen & rest & E);
    [by unfold BCD_OP_ARG | done..|].
  rewrite <- app_assoc in E. cbn [app] in E.
  unfold bcd_perform_request. rewrite Hop. do 2 (rewrite decide_False by done). rewrite decide_True by done.
  rewrite <- Hl, <- Hoff. destruct s as [tid' ? ? ? ?]. cbn [session_thread] in Htid. subst tid'.
  cbn [session_thread BcdSession.buffer] in *.
  destruct (arg_set_spec None tid (packet_of buffer) g W (space_room _ _ _ Hs) Hok) as [_ Hset].
  destruct Hset as (r & g' & -> & W' & Hk & Hset); [rewrite E; set_solver|].
  cbv zeta in Hset. rewrite E, c_str_app in Hset by done. bind_simpl. do 2 eexists. split; [done|].
  pose proof (arg_bytes_filter (fun b => b <> a) (arg_list g)).
  pose proof (length_filter (fun b => b <> a) (arg_list g)).
  case_decide as Hne; [|destruct (decide (a = [])) as [->|?]; [|naive_solver]].
  - destruct Hset as (_ & Hr & Hla). rewrite decide_False by naive_solver.
    split_and!; [done | | unfold table_of; rewrite Hk, Hla, Hr; by subst t].
    unfold BCD_PACKET_LIMIT in *.
    eapply space_next; [exact Hs | rewrite Hk; lia | rewrite Hla, arg_bytes_app; simpl; zlia |].
    rewrite Hla, zlen_app. unfold zlen in *. simpl. lia.
  - destruct Hset as (_ & Hla & m & c & Hr).
    split_and!; [done | by eapply space_same |].
    unfold table_of. rewrite Hk, Hla, Hr, length_app, Nat.add_1_r. by subst t.
Qed.

Lemma thread_performed cs t tid' tid g :
  0 <= tid' < 2 ^ 31 -> leaves tr (SetThread tid' :: cs) t tid g ->
  performs BCD_OP_TID (tid_payload tid') tid g (leaves tr cs (answer tr (SetThread tid') t).2).
Proof.
  intros Ht (W & Hs & E) s [Hst Hl Hoff Hb] Htid Hpkt. rewrite (tid_performed _ _ _ _ _ _ _ _ tid') by done.
  rewrite Hl, Hoff. do 2 eexists. split; [done|].
  split_and!; [done | by eapply space_same | by subst t].
Qed.

(** A trace for which the handler of the user returns -1 is reported and nothing else. *)
Lemma trace_intercepted handler of_thread tid g :
  request_handler cf = Some handler -> handler tid = -1 ->
  performs (trace_op of_thread) [] tid g
    (fun tid' g' => tid' = tid /\ g' = (bcd_error BCD_EVENT_TRACE tid "request handler intercepted event" 0 g).2).
Proof.
  intros Hhandler Hh s [Hst Hl Hoff Hb] Htid Hpkt.
  destruct (packet_of_buffer (trace_op of_thread) [] (BcdSession.buffer s)) as (Hop & _ & _ & _);
    [by destruct of_thread | done | done | done |].
  assert (forall tid0, (tid0 = tid \/ tid0 = 0) -> bcd_request_handler cf tid0 (Some tid) g =
    Some (bcd_error BCD_EVENT_TRACE tid "request handler intercepted event" 0 g)) as Hi.
  { intros tid0 Htid0. unfold bcd_request_handler.
    assert ((if decide (tid0 = 0) then Some tid else Some tid0) = Some tid) as -> by (case_decide; [done | f_equal; tauto]).
    bind_simpl. rewrite Hhandler. by rewrite decide_True. }
  unfold bcd_perform_request. rewrite Hop, Htid. do 3 (rewrite decide_False by by destruct of_thread).
  unfold bcd_backtrace_thread, bcd_backtrace_process. bind_simpl. rewrite !Hi by tauto. bind_simpl.
  do 2 eexists. split; [|by split]. rewrite <- Htid, <- Hl, <- Hoff. destruct of_thread; by destruct s.
Qed.

(** A tracer that is started is reported unless it succeeds. *)
Lemma trace_started success of_thread cs t tid g :
  tr = Traced success -> leaves tr (Trace of_thread :: cs) t tid g ->
  performs (trace_op of_thread) [] tid g (leaves tr cs (answer tr (Trace of_thread) t).2).
Proof.
  intros E Hl s [Hst Hlive Hoff Hb] Htid Hpkt. pose proof Htr as Hfacts. rewrite E in Hfacts.
  destruct Hfacts as (-> & Hcf & Hpass & kills & g0 & Hrun). pose proof Hl as (W & Hs & Ht).
  assert (zlen (arg_list g) <= 27) as Ha.
  { unfold space in Hs. rewrite E in Hs. pose proof (zlen_nonneg (filter (fun c => is_argument c) (Trace of_thread :: cs))).
    unfold new_arguments in Hs. lia. }
  destruct (packet_of_buffer (trace_op of_thread) [] (BcdSession.buffer s)) as (Hop & _ & _ & _);
    [by destruct of_thread | done | done | done |].
  destruct (thread_runs cf K monitor_fuel tid kst g W (space_room _ _ _ Hs) Hcf (Hpass tid) Ha) as [freed1 Hthread].
  destruct (process_runs cf K monitor_fuel tid kst g W (space_room _ _ _ Hs) Hcf (Hpass tid) Ha) as [freed2 Hprocess].
  pose proof (run_tracer_uniform K monitor_fuel 0 tid kst no_metadata g) as Hu. rewrite Hrun in Hu.
  assert (exists g', run_tracer K monitor_fuel tid kst g = Returned (if success then 0 else -1) kills g' /\
    leaves tr cs (answer tr (Trace of_thread) t).2 tid g') as (g' & Hr & Hl').
  { destruct success; simpl in Hu.
    - destruct Hu as [_ ->]. eexists. split; [done|]. assert ((answer tr (Trace of_thread) t).2 = t) as -> by by rewrite E.
      split_and!; [done | by eapply space_same | done].
    - destruct Hu as (message & code & _ & ->). eexists. split; [done|].
      assert ((answer tr (Trace of_thread) t).2 = report t) as -> by by rewrite E. by eapply leaves_error. }
  unfold bcd_perform_request. rewrite Hop, Htid. do 3 (rewrite decide_False by by destruct of_thread).
  exists tid, g'. split; [|done]. rewrite Hthread, Hprocess, Hr. bind_simpl. unfold after_trace.
  rewrite <- Htid, <- Hlive, <- Hoff. destruct of_thread; by destruct s.
Qed.

Lemma trace_performed cs t of_thread tid g :
  tr <> Untraced -> leaves tr (Trace of_thread :: cs) t tid g ->
  performs (trace_op of_thread) [] tid g (leaves tr cs (answer tr (Trace of_thread) t).2).
Proof.
  intros Hne Hl.
  assert (tr = Intercepted \/ exists success, tr = Traced success) as [E|[success E]]
    by (destruct tr; [done | by left | right; by eexists]); [|by eapply trace_started].
  assert (intercepts cf) as (handler & Hhandler & Hh) by (pose proof Htr as H; by rewrite E in H).
  intros s Hid Htid Hpkt. assert ((answer tr (Trace of_thread) t).2 = report t) as -> by by rewrite E.
  destruct (trace_intercepted handler of_thread tid g Hhandler (Hh tid) s Hid Htid Hpkt) as (tid' & g' & E' & -> & ->).
  do 2 eexists. split; [exact E'|]. by eapply leaves_error.
Qed.

(** [bcd_detach]: the session is over, and nothing else changes. *)
Lemma detach_performed tid g :
  performs_until cf al K kst monitor_fuel true BCD_OP_DETACH [] tid g (fun tid' g' => tid' = tid /\ g' = g).
Proof.
  intros s Hid <- Hpkt. destruct (packet_of_buffer BCD_OP_DETACH [] (buffer s)) as (Hop & _);
    [by unfold BCD_OP_DETACH | done | apply Hid | done |].
  unfold bcd_perform_request. cbv zeta. rewrite Hop. do 6 (rewrite decide_False by done). rewrite decide_True by done.
  rewrite (id_offset _ _ Hid). by do 2 eexists.
Qed.

(** A call of the client, as the request it sends. *)
Lemma call_performed cs t c tid g :
  call_ok tr c -> zlen (request_of c).2 <= BCD_PACKET_LIMIT -> leaves tr (c :: cs) t tid g ->
  performs (request_of c).1 (request_of c).2 tid g (leaves tr cs (answer tr c t).2).
Proof.
  destruct c; simpl; [intros [] | | |]; intros; [by apply pair_performed | by apply argument_performed| |].
  - by apply thread_performed.
  - by apply trace_performed.
Qed.
End Performs.

(** ** Sequences of calls *)

Section Calls.
Context (chunk : nat) (cf : invoke) (al : allocations) (K : kernel) (kst : kstate K) (monitor_fuel : nat).
Context (limit errno fd : Z) (fuel : nat).
Local Abbreviation joint := (joint chunk cf al K kst monitor_fuel).

Definition perform_call (c : call) (st : joint_state) : option (Z * joint_state) :=
  match c with
  | SetPair k v => '(r, _, _, st) ← bcd_kv joint limit fuel k v st; Some (r, st)
  | SetArgument a => '(r, _, _, st) ← bcd_arg joint limit fuel a st; Some (r, st)
  | SetThread tid => '(r, _, st) ← bcd_associate_tid joint limit fuel errno fd tid st; Some (r, st)
  | Trace of_thread => '(r, _, _, st) ← bcd_backtrace joint limit fuel of_thread st; Some (r, st)
  end.

Fixpoint perform_calls (cs : list call) (st : joint_state) : option (list Z * joint_state) :=
  match cs with
  | [] => Some ([], st)
  | c :: cs =>
      '(r, st) ← perform_call c st;
      '(rs, st) ← perform_calls cs st;
      Some (r :: rs, st)
  end.

Hypothesis Hchunk : (0 < chunk)%nat.
Hypothesis Hfd : fd <> -1.
Hypothesis Hmonitor : (1048 < monitor_fuel)%nat.
Hypothesis Hfuel : (1048 < fuel)%nat.
Context (tr : tracing).
Hypothesis Htr : traces cf al K kst monitor_fuel tr.

(** The simulation: between two calls nothing is on its way and the monitor knows the table. *)
Definition simulates (cs : list call) (t : table) (st : joint_state) : Prop :=
  quiet st /\ leaves tr cs t (session_thread (serving st)) (known st).

Lemma simulates_less c cs t st : simulates (c :: cs) t st -> simulates cs t st.
Proof. intros (? & ? & Hs & ?). split; [done|]. split_and!; [done | by eapply space_same | done]. Qed.

Lemma request_simulated c o p failure close cs t st :
  simulates (c :: cs) t st -> 0 <= o < 2 ^ 32 -> zlen p <= BCD_PACKET_LIMIT ->
  forall t', performs cf al K kst monitor_fuel o p (session_thread (serving st)) (known st) (leaves tr cs t') ->
  exists st', request joint limit fuel o p failure close st = Some (0, None, false, st') /\ simulates cs t' st'.
Proof.
  intros [Hq Hl] Ho Hp t' HQ. assert (length (packet o p) <= 1032)%nat as Hlen.
  { unfold packet. rewrite length_packet_bytes. unfold zlen, BCD_PACKET_LIMIT in *. lia. }
  destruct (joint_request chunk cf al K kst monitor_fuel Hchunk limit false fuel o p failure close st
    (leaves tr cs t')) as (s' & g' & Hr & Hid & Hl'); [done | done | done | exact HQ | lia | lia |].
  eexists. split; [exact Hr|]. by split_and!.
Qed.

Lemma call_simulated cs t c st :
  call_ok tr c -> simulates (c :: cs) t st ->
  exists st', perform_call c st = Some ((answer tr c t).1, st') /\ simulates cs (answer tr c t).2 st'.
Proof.
  intros Hc Hs. pose proof Hs as [_ Hl]. destruct c as [k v|a|tid|of_thread]; simpl in Hc; cbn [perform_call].
  - destruct Hc as [Hk Hv]. unfold bcd_kv. case_decide as Hlong.
    { exists st. bind_simpl. simpl. rewrite decide_True by done. split; [done | by eapply simulates_less]. }
    assert (zlen (kv_request k v) <= BCD_PACKET_LIMIT) as Hfit by (unfold kv_request; zlia).
    destruct (request_simulated _ BCD_OP_KV (kv_request k v) "failed to write kv-pair" true cs t st Hs
      ltac:(done) Hfit (answer tr (SetPair k v) t).2) as (st' & Hr & Hs'); [by apply pair_performed|].
    exists st'. unfold kv_request in Hr. rewrite Hr. bind_simpl. split; [|done].
    simpl. rewrite decide_False by done. by case_decide.
  - unfold bcd_arg. case_decide as Hlong.
    { exists st. bind_simpl. simpl. rewrite decide_True by done. split; [done | by eapply simulates_less]. }
    assert (zlen (a ++ [NUL]) <= BCD_PACKET_LIMIT) as Hfit by zlia.
    destruct (request_simulated _ BCD_OP_ARG (a ++ [NUL]) "failed to write argument" true cs t st Hs
      ltac:(done) Hfit (answer tr (SetArgument a) t).2) as (st' & -> & Hs'); [by apply argument_performed|].
    exists st'. bind_simpl. split; [|done]. simpl. rewrite decide_False by done. by case_decide.
  - unfold bcd_associate_tid. rewrite decide_False by done.
    destruct (request_simulated _ BCD_OP_TID (tid_payload tid) "failed to set new tid" false cs t st Hs
      ltac:(done) ltac:(done) (answer tr (SetThread tid) t).2) as (st' & -> & Hs'); [by apply thread_performed|].
    exists st'. bind_simpl. by rewrite decide_False by tauto.
  - unfold bcd_backtrace. change (if of_thread then BCD_OP_TR_THREAD else BCD_OP_TR_PROCESS) with (trace_op of_thread).
    destruct (request_simulated _ (trace_op of_thread) [] "failed to invoke tracer" false cs t st Hs
      ltac:(by destruct of_thread) ltac:(done) (answer tr (Trace of_thread) t).2) as (st' & -> & Hs'); [by apply trace_performed|].
    exists st'. by bind_simpl.
Qed.

Lemma calls_simulated cs t st :
  Forall (call_ok tr) cs -> simulates cs t st ->
  exists st', perform_calls cs st = Some ((answers tr cs t).1, st') /\ simulates [] (answers tr cs t).2 st'.
Proof.
  intros Hcs. revert t st. induction Hcs as [|c cs Hc Hcs IH]; intros t st Hs; [by exists st|].
  destruct (call_simulated _ _ c st Hc Hs) as (st1 & Hr1 & Hs1).
  destruct (IH _ st1 Hs1) as (st2 & Hr2 & Hs2). exists st2. cbn [perform_calls answers].
  rewrite Hr1. bind_simpl. rewrite Hr2. bind_simpl.
  destruct (answer tr c t) as [r t1]. cbn [fst snd] in *. by destruct (answers tr cs t1).
Qed.

(** The end of the session. *)
Lemma detach_simulated st :
  quiet st ->
  exists st', bcd_detach joint limit fuel fd st = Some (Attached 0 None fd [fd], st') /\
    terminated (serving st') = true /\ known st' = known st /\ to_monitor st' = [] /\ to_client st' = [].
Proof.
  intros Hq. unfold bcd_detach. rewrite decide_False by done.
  destruct (joint_request chunk cf al K kst monitor_fuel Hchunk limit true fuel BCD_OP_DETACH []
    "failed to cause monitor to detach" false st _ Hq ltac:(done) ltac:(done) (detach_performed cf al K kst monitor_fuel _ _)
    ltac:(simpl; lia) ltac:(simpl; lia)) as (s' & g' & -> & _ & _ & ->).
  bind_simpl. rewrite decide_True by done. eexists. by split_and!.
Qed.
End Calls.


(** A connection right after [accept]; one byte moves at a time. *)
Definition fresh_connection : joint_state := Joint [] [] new_session no_metadata.

Definition sample_calls : list call :=
  [SetThread 7; SetPair (bytes_of "a") (bytes_of "1"); SetArgument (bytes_of "-x");
   Trace true; SetPair (bytes_of "b") []; Trace false; SetPair (bytes_of "a") (bytes_of "2"); SetPair [] (bytes_of "z");
   SetPair (bytes_of "c") (replicate 1022 Init.Byte.x41)].

Lemma fresh_quiet : quiet fresh_connection.
Proof. by repeat split. Qed.

(** The handler of the user takes every trace. *)
Definition intercepting : invoke :=
  Invoke (path sample_invoke) (tp sample_invoke) (kp sample_invoke) (separator sample_invoke) (ks sample_invoke)
    (Some (fun _ => -1)) (target_process sample_invoke).

Lemma intercepting_intercepts : intercepts intercepting.
Proof. by exists (fun _ => -1). Qed.

(** The tracer is stopped twice and then exits with success. *)
Lemma sample_traced : traces sample_invoke all_succeed (stopping_kernel 0) 2%nat 1100 (Traced true).
Proof. split_and!; [reflexivity | by_compute | intros tid; exact Logic.I | by do 2 eexists]. Qed.

