(* ===== verification/BcdInterleave.v ===== *)
(** * The clients of one monitor, interleaved (src/external/bcd/bcd-amalgamated.c)

    Any number of clients send their requests at the same time, in pieces and without waiting for
    the answers; the monitor calls its handler on their sessions in any order; some clients detach when
    they have sent everything. A step relation
    says what may happen; the invariant of its reachable states is that the metadata are
    those of some sequential order of the requests that have been acknowledged. *)

From S2P Require Import Prelude.
From S2P Require Import Memory.
From S2P Require Import BcdMeta.
From S2P Require Import BcdTracer.
From S2P Require Import BcdChannel.
From S2P Require Import BcdSession.
From S2P Require Import BcdRequest.

(** ** States and steps *)

(** A connection as the monitor has it: the descriptor and the session. *)
Record connection := Connection { conn : link; session : bcd_session }.

(** The connections, what the clients that have detached were sent, the data all share. *)
Record house := House { connections : gmap nat connection; departed : gmap nat link; shared : metadata }.

(** A connection has changed; a connection has been closed. *)
Definition holding (i : nat) (c : connection) (g : metadata) (h : house) : house :=
  House (<[i := c]> (connections h)) (departed h) g.
Definition parting (i : nat) (e : link) (g : metadata) (h : house) : house :=
  House (delete i (connections h)) (<[i := e]> (departed h)) g.

(** At most [n] more bytes arrive. *)
Definition deliver (n : nat) (e : link) : link :=
  Link (arrived e ++ take n (unsent e)) (drop n (unsent e)) (written e).

Section Steps.
Context (chunk : nat) (cf : invoke) (al : allocations) (K : kernel) (kst : kstate K) (monitor_fuel : nat).

(** The monitor after a call of the handler; [None] when it has ended. *)
Definition after_handler (i : nat) (h : house) (r : handled) (e : link) : option house :=
  match r with
  | AwaitRead s g | AwaitWrite s g | Ready s g => Some (holding i (Connection e s) g h)
  | Closed g => Some (parting i e g h)
  | Died _ _ | Ended _ => None
  end.

Inductive step (h : house) : option house -> Prop :=
| step_deliver i c n :
    connections h !! i = Some c ->
    step h (Some (holding i (Connection (deliver n (conn c)) (session c)) (shared h) h))
| step_handle i c r e :
    connections h !! i = Some c ->
    bcd_handler_request_response (wire chunk) cf al K None monitor_fuel (session c) (conn c) kst (shared h) =
      Some (r, e) ->
    step h (after_handler i h r e).

Definition runs : house -> house -> Prop := rtc (fun h h' => step h (Some h')).

(** ** What has happened *)

Definition call_packet (c : call) : list byte := packet (request_of c).1 (request_of c).2.
Definition stream (cs : list call) : list byte := concat (call_packet <$> cs).

(** What comes of the traces. *)
Context (tr : tracing).

Definition sendable (c : call) : Prop := call_ok tr c /\ zlen (request_of c).2 <= BCD_PACKET_LIMIT.

(** The calls of client [i] in a history of all clients. *)
Definition calls_of (i : nat) (history : list (nat * call)) : list call :=
  (filter (fun ic => ic.1 = i) history).*2.

Definition next_thread (c : call) (tid : Z) : Z := match c with SetThread tid' => tid' | _ => tid end.

(** The thread a session stands for after its own calls. *)
Definition own_thread (cs : list call) : Z := foldl (fun tid c => next_thread c tid) 0 cs.

(** The clients of [leaving] detach at the end of their script. *)
Context (leaving : gset nat).

Definition farewell (i : nat) : list byte := if decide (i ∈ leaving) then packet BCD_OP_DETACH [] else [].

(** The clients start with nothing sent, each with its script. *)
Definition start (scripts : list (list call)) (g : metadata) : house :=
  House (map_seq 0 (imap (fun i script => Connection (Link [] (stream script ++ farewell i) []) new_session) scripts)) ∅ g.

(** What a client has yet to have served. *)
Definition in_flight (i : nat) (rest : list call) (c : connection) : Prop :=
  match rest with
  | [] =>
      if decide (i ∈ leaving) then receiving chunk BCD_OP_DETACH [] [] (session c) (conn c)
      else idle (session c) /\ to_come (conn c) = []
  | call :: rest =>
      receiving chunk (request_of call).1 (request_of call).2 (stream rest ++ farewell i) (session c) (conn c)
  end.

(** The metadata are a table, whatever thread it has, with room for what is to come. *)
Definition keeps (cs : list call) (t : table) (g : metadata) : Prop := leaves tr cs t (thread t) g.

Definition acknowledgements (n : nat) : list byte := concat (replicate n acknowledgement).

Record linear (scripts : list (list call)) (t0 : table) (history : list (nat * call)) (rests : list (list call))
    (h : house) : Prop := {
  ln_scripts i : scripts !! i = (fun rest => calls_of i history ++ rest) <$> rests !! i;
  ln_clients i : is_Some (scripts !! i) -> is_Some (connections h !! i) \/ is_Some (departed h !! i);
  ln_rests : Forall (Forall sendable) rests;
  ln_table : keeps (concat rests) (answers tr history.*2 t0).2 (shared h);
  ln_connections i c : connections h !! i = Some c -> exists rest, rests !! i = Some rest /\
    in_flight i rest c /\ session_thread (session c) = own_thread (calls_of i history) /\
    written (conn c) = acknowledgements (length (calls_of i history));
  ln_departed i e : departed h !! i = Some e -> i ∈ leaving /\ connections h !! i = None /\ rests !! i = Some [] /\
    to_come e = [] /\ written e = acknowledgements (S (length (calls_of i history)))
}.

(** ** The table *)

Hypothesis Htr : traces cf al K kst monitor_fuel tr.

Lemma answer_thread c t tid :
  (answer tr c (Table (pairs t) (arguments t) tid (reported t))).2 =
    Table (pairs (answer tr c t).2) (arguments (answer tr c t).2) (next_thread c tid) (reported (answer tr c t).2).
Proof. destruct c; simpl; [by repeat case_decide.. | done | by destruct tr as [| |[]]]. Qed.

Lemma answers_snoc cs c t : (answers tr (cs ++ [c]) t).2 = (answer tr c (answers tr cs t).2).2.
Proof.
  revert t. induction cs as [|d cs IH]; intros t; simpl.
  - by destruct (answer tr c t).
  - destruct (answer tr d t) as [r t1]. specialize (IH t1).
    destruct (answers tr (cs ++ [c]) t1), (answers tr cs t1). exact IH.
Qed.

Lemma keeps_leaves cs t tid g :
  leaves tr cs (Table (pairs t) (arguments t) tid (reported t)) tid g <-> keeps cs t g.
Proof.
  unfold keeps, leaves, table_of. destruct t as [ps args tid' k]. simpl.
  split; intros (? & ? & [= <- <- <-]); by split_and!.
Qed.

Lemma keeps_perm cs cs' t g : cs ≡ₚ cs' -> keeps cs t g -> keeps cs' t g.
Proof. intros H (? & S & ?). split_and!; [done | by rewrite <- H | done]. Qed.

Lemma sendable_performed cs t c tid g :
  sendable c -> keeps (c :: cs) t g ->
  performs cf al K kst monitor_fuel (request_of c).1 (request_of c).2 tid g
    (fun tid' g' => tid' = next_thread c tid /\ keeps cs (answer tr c t).2 g').
Proof.
  intros [Hok Hfit] Hk s Hid Htid Hpkt. apply (proj2 (keeps_leaves _ _ tid _)) in Hk.
  destruct (call_performed cf al K kst monitor_fuel tr Htr cs _ c tid g Hok Hfit Hk s Hid Htid Hpkt)
    as (tid' & g' & E & Hl).
  exists tid', g'. split; [exact E|]. rewrite answer_thread in Hl.
  assert (tid' = next_thread c tid) as -> by (destruct Hl as (_ & _ & Ht); exact (f_equal thread Ht)).
  split; [done|]. exact (proj1 (keeps_leaves _ _ _ _) Hl).
Qed.

(** ** Connections *)

Lemma deliver_to_come n e : to_come (deliver n e) = to_come e.
Proof. unfold to_come, deliver. simpl. by rewrite <- app_assoc, take_drop. Qed.

Lemma in_flight_receiving i rest c : in_flight i rest c -> rest = [] /\ (i ∉ leaving) /\ idle (session c) /\ to_come (conn c) = [] \/
  exists o p next, receiving chunk o p next (session c) (conn c) /\
    forall c', receiving chunk o p next (session c') (conn c') -> in_flight i rest c'.
Proof.
  unfold in_flight. destruct rest as [|call rest]; [case_decide|]; [right; by do 3 eexists | left; tauto | right; by do 3 eexists].
Qed.

Lemma in_flight_deliver i rest c n : in_flight i rest c -> in_flight i rest (Connection (deliver n (conn c)) (session c)).
Proof.
  intros Hf. destruct (in_flight_receiving _ _ _ Hf) as [(-> & Hi & Hid & He)|(o & p & next & [Hst Hl (? & ? & ? & ? & ?)] & Hback)].
  - unfold in_flight. rewrite decide_False by done. cbn [conn session]. by rewrite deliver_to_come.
  - apply Hback. split; [done | done|]. split; [done|]. split_and!; [done..|]. cbn [conn]. by rewrite deliver_to_come.
Qed.

Lemma idle_receiving o p next s e : idle s -> to_come e = packet o p ++ next -> receiving chunk o p next s e.
Proof.
  intros [Hst Hl Hoff Hb] He. split; [done | done|].
  unfold partial. rewrite Hoff. split; [|by split_and!].
  unfold zlen, packet. rewrite length_packet_bytes. lia.
Qed.

Lemma idle_in_flight i rest e s : idle s -> to_come e = stream rest ++ farewell i -> in_flight i rest (Connection e s).
Proof.
  intros Hid He. destruct rest as [|c rest]; unfold in_flight, farewell in *; cbn [conn session].
  - case_decide; [|by split]. apply idle_receiving; [done|]. by rewrite app_nil_r.
  - apply idle_receiving; [done|]. rewrite He. unfold stream. simpl. by rewrite <- app_assoc.
Qed.

(** ** The invariant *)

Lemma calls_of_snoc i history j c :
  calls_of i (history ++ [(j, c)]) = calls_of i history ++ (if decide (j = i) then [c] else []).
Proof.
  unfold calls_of. rewrite filter_app, fmap_app, filter_cons, filter_nil. simpl.
  by case_decide.
Qed.

Lemma concat_insert {A} (l : list (list A)) i x y :
  l !! i = Some (x :: y) -> concat l ≡ₚ x :: concat (<[i := y]> l).
Proof.
  revert i. induction l as [|z l IH]; intros [|i] Hi; simplify_eq/=; [done|].
  rewrite (IH i Hi). symmetry. apply Permutation_middle.
Qed.

Lemma start_linear scripts g :
  Forall (Forall sendable) scripts -> wf g -> space tr (concat scripts) g ->
  linear scripts (table_of 0 g) [] scripts (start scripts g).
Proof.
  intros Hs W S. split; [by intros; destruct (scripts !! i) | | done | by split_and! | | by intros ? ?];
    intros i; cbn [start connections]; rewrite lookup_map_seq_0, list_lookup_imap; [left; by rewrite fmap_is_Some|].
  intros c (script & -> & ->)%fmap_Some. exists script. split_and!; [done | | done | done]. by apply idle_in_flight.
Qed.

Lemma acknowledgements_S n : acknowledgements (S n) = acknowledgements n ++ acknowledgement.
Proof. unfold acknowledgements. rewrite replicate_S_end, concat_app. cbn [concat]. by rewrite app_nil_r. Qed.

(** A connection has changed, but nothing has been served. *)
Lemma linear_keep scripts t0 history rests h i c c' rest :
  linear scripts t0 history rests h -> connections h !! i = Some c -> rests !! i = Some rest ->
  in_flight i rest c' -> session_thread (session c') = session_thread (session c) ->
  written (conn c') = written (conn c) ->
  linear scripts t0 history rests (holding i c' (shared h) h).
Proof.
  intros [Hs Hcl Hr Ht Hc Hd] Hi Hrest Hf Hth Hw.
  split; [done | | done | done | |]; cbn [holding connections departed].
  - intros j [|]%Hcl; [left; apply lookup_insert_is_Some'; auto | by right].
  - intros j d. destruct (decide (i = j)) as [<-|Hne]; [|rewrite lookup_insert_ne by done; apply Hc].
    rewrite lookup_insert_eq. intros [= <-]. exists rest. destruct (Hc i c Hi) as (? & ? & _ & ? & ?).
    split_and!; congruence.
  - intros j e He. destruct (Hd j e He) as (? & Hn & ?). rewrite lookup_insert_ne by congruence. done.
Qed.

(** The request of one client has been served. *)
Lemma linear_serve scripts t0 history rests h i c c' call rest g :
  linear scripts t0 history rests h -> connections h !! i = Some c -> rests !! i = Some (call :: rest) ->
  in_flight i rest c' -> session_thread (session c') = next_thread call (session_thread (session c)) ->
  written (conn c') = written (conn c) ++ acknowledgement ->
  keeps (concat (<[i := rest]> rests)) (answer tr call (answers tr history.*2 t0).2).2 g ->
  linear scripts t0 (history ++ [(i, call)]) (<[i := rest]> rests) (holding i c' g h).
Proof.
  intros [Hs Hcl Hr Ht Hc Hd] Hi Hrest Hf Hth Hw Hk. pose proof (lookup_lt_Some _ _ _ Hrest) as Hlt. split.
  - intros j. rewrite Hs, calls_of_snoc. case_decide as Hj.
    + subst j. rewrite Hrest, list_lookup_insert_eq by done. simpl. by rewrite <- app_assoc.
    + rewrite list_lookup_insert_ne by done. by rewrite app_nil_r.
  - intros j [|]%Hcl; [left; apply lookup_insert_is_Some'; auto | by right].
  - apply Forall_insert; [done|]. by apply (Forall_lookup_1 _ _ _ _ Hr), Forall_cons in Hrest as [_ ?].
  - rewrite fmap_app. change ([(i, call)].*2) with [call]. by rewrite answers_snoc.
  - intros j d. cbn [holding connections]. rewrite calls_of_snoc. case_decide as Hne; [subst j|].
    + rewrite lookup_insert_eq, list_lookup_insert_eq by done. intros [= <-].
      destruct (Hc i c Hi) as (? & ? & _ & Hth' & Hw'). exists rest. split_and!; [done | done | |].
      * rewrite Hth, Hth'. unfold own_thread. by rewrite foldl_app.
      * by rewrite Hw, Hw', length_app, Nat.add_1_r, acknowledgements_S.
    + rewrite lookup_insert_ne, list_lookup_insert_ne by done. rewrite app_nil_r. apply Hc.
  - intros j e He. destruct (Hd j e He) as (? & Hn & ?). cbn [holding connections]. assert (i <> j) by congruence.
    rewrite calls_of_snoc, decide_False, app_nil_r by done. by rewrite lookup_insert_ne, list_lookup_insert_ne by done.
Qed.

(** A client has detached. *)
Lemma linear_part scripts t0 history rests h i c e :
  linear scripts t0 history rests h -> connections h !! i = Some c -> rests !! i = Some [] -> i ∈ leaving ->
  to_come e = [] -> written e = written (conn c) ++ acknowledgement ->
  linear scripts t0 history rests (parting i e (shared h) h).
Proof.
  intros [Hs Hcl Hr Ht Hc Hd] Hi Hrest Hin He Hw. split; [done | | done | done | |]; cbn [parting connections departed].
  - intros j Hj%Hcl. destruct (decide (j = i)) as [->|]; [right; rewrite lookup_insert_eq; by eexists|].
    by rewrite lookup_delete_ne, lookup_insert_ne by done.
  - intros j d [_ Hj]%lookup_delete_Some. by apply Hc.
  - intros j d. destruct (decide (j = i)) as [->|Hj].
    + rewrite lookup_insert_eq, lookup_delete_eq. intros [= <-]. destruct (Hc i c Hi) as (_ & _ & _ & _ & Hw').
      split_and!; [done..|]. by rewrite Hw, Hw', acknowledgements_S.
    + rewrite lookup_insert_ne, lookup_delete_ne by done. apply Hd.
Qed.

(** ** The handler *)

Hypothesis Hchunk : (0 < chunk)%nat.
Hypothesis Hmonitor : (1048 < monitor_fuel)%nat.

Lemma sendable_request c : sendable c ->
  0 <= (request_of c).1 < 2 ^ 32 /\ (length (call_packet c) + 8 < monitor_fuel)%nat.
Proof.
  intros [_ Hfit]. split; [by destruct c as [| | |[]]|]. unfold call_packet, packet. rewrite length_packet_bytes.
  unfold zlen, BCD_PACKET_LIMIT in *. lia.
Qed.

(** Nothing has arrived: the handler waits. *)
Lemma handler_waits s e g :
  state s = BCD_SESSION_READING -> arrived e = [] ->
  bcd_handler_request_response (wire chunk) cf al K None monitor_fuel s e kst g = Some (AwaitRead s g, e).
Proof.
  intros Hst Ha. unfold bcd_handler_request_response. rewrite Hst. unfold bcd_read_request.
  destruct monitor_fuel as [|fuel]; [lia|]. cbn [read_request_loop wire sys_read]. rewrite Ha.
  rewrite decide_False by done. rewrite decide_True by done. bind_simpl. by destruct s.
Qed.

(** The header has been read and nothing else: the handler takes the rest of the packet for the end of the stream. *)
Lemma handler_boundary s e g :
  state s = BCD_SESSION_READING -> terminated s = false -> offset s = sizeof_packet -> arrived e <> [] ->
  exists message code e', bcd_handler_request_response (wire chunk) cf al K None monitor_fuel s e kst g =
    Some (Died message code, e').
Proof.
  intros Hst Hl Hoff Ha. unfold bcd_handler_request_response. rewrite Hst. unfold bcd_read_request. rewrite Hoff.
  rewrite decide_False by lia. destruct monitor_fuel as [|fuel]; [lia|]. cbn [read_request_loop wire sys_read].
  destruct (arrived e) as [|b i]; [done|]. change (u64 (sizeof_packet + 0 - sizeof_packet)) with 0. simpl take.
  rewrite Hl. bind_simpl. by do 3 eexists.
Qed.

(** What a call of the handler may come to: it takes everything that has arrived and waits, it serves a
    request, the client departs, or it meets the boundary. *)
Inductive comes_to (scripts : list (list call)) (t0 : table) (history : list (nat * call)) (rests : list (list call))
    (h : house) (i : nat) (c : connection) (rest : list call) (e : link) : handled -> Prop :=
| comes_to_wait s :
    unsent e = unsent (conn c) -> arrived e = [] ->
    linear scripts t0 history rests (holding i (Connection e s) (shared h) h) ->
    comes_to scripts t0 history rests h i c rest e (AwaitRead s (shared h))
| comes_to_serve s g call rest' :
    unsent e = unsent (conn c) -> rest = call :: rest' ->
    linear scripts t0 (history ++ [(i, call)]) (<[i := rest']> rests) (holding i (Connection e s) g h) ->
    comes_to scripts t0 history rests h i c rest e (Ready s g)
| comes_to_part :
    unsent e = unsent (conn c) -> rest = [] -> i ∈ leaving ->
    linear scripts t0 history rests (parting i e (shared h) h) ->
    comes_to scripts t0 history rests h i c rest e (Closed (shared h))
| comes_to_end message code :
    offset (session c) = sizeof_packet -> arrived (conn c) <> [] ->
    comes_to scripts t0 history rests h i c rest e (Died message code).

Lemma handler_outcome scripts t0 history rests h i c rest :
  linear scripts t0 history rests h -> connections h !! i = Some c -> rests !! i = Some rest ->
  exists r e,
    bcd_handler_request_response (wire chunk) cf al K None monitor_fuel (session c) (conn c) kst (shared h) = Some (r, e) /\
    comes_to scripts t0 history rests h i c rest e r.
Proof.
  intros HL Hi Hrest. destruct (ln_connections _ _ _ _ _ HL i c Hi) as (rest' & Hrest' & Hf & _ & _). simplify_eq.
  destruct (decide (arrived (conn c) = [])) as [Ha|Ha].
  { assert (state (session c) = BCD_SESSION_READING) as Hst
      by (destruct (in_flight_receiving _ _ _ Hf) as [(_ & _ & Hid & _)|(? & ? & ? & Hr & _)]; [apply Hid | apply Hr]).
    rewrite handler_waits by done. do 2 eexists. split; [done|]. constructor; [done | done|].
    eapply linear_keep; [done..| by destruct c | done | done]. }
  destruct (decide (offset (session c) = sizeof_packet)) as [Hoff|Hoff].
  { destruct (in_flight_receiving _ _ _ Hf) as [(_ & _ & [_ _ H0 _] & _)|(o & p & next & [Hst Hl _] & _)]; [by rewrite H0 in Hoff|].
    destruct (handler_boundary (session c) (conn c) (shared h) Hst Hl Hoff Ha) as (m & code & e & Hd).
    rewrite Hd. do 2 eexists. split; [done|]. by constructor. }
  destruct rest as [|call rest]; cbn [in_flight] in Hf.
  { case_decide as Hin; [|exfalso; destruct Hf as [_ He]; unfold to_come in He; by apply app_eq_nil in He as [? _]].
    destruct (handler_serves chunk cf al K kst monitor_fuel Hchunk true BCD_OP_DETACH [] [] (session c) (conn c) (shared h) _
      ltac:(done) ltac:(done) Hf Hoff (detach_performed cf al K kst monitor_fuel _ _) ltac:(simpl; lia)) as (r & e & Hr & Hu & Hs).
    exists r, e. split; [done|].
    destruct Hs as [(s' & -> & Hrec & He & Hw & Hth)|(s' & g' & -> & _ & [_ ->] & Hc & Hw)].
    - constructor; [done..|]. eapply linear_keep; [done..| | done | done]. unfold in_flight. by rewrite decide_True.
    - constructor; [done..|]. by eapply linear_part. }
  assert (sendable call) as Hcall.
  { pose proof (ln_rests _ _ _ _ _ HL) as Hr. by apply (Forall_lookup_1 _ _ _ _ Hr), Forall_cons in Hrest as [? _]. }
  destruct (sendable_request call Hcall) as [Ho Hfl]. pose proof (ln_table _ _ _ _ _ HL) as Ht.
  apply (keeps_perm _ _ _ _ (concat_insert _ _ _ _ Hrest)) in Ht.
  destruct (handler_serves chunk cf al K kst monitor_fuel Hchunk false _ _ _ (session c) (conn c) (shared h) _
    Ho (proj2 Hcall) Hf Hoff (sendable_performed _ _ call _ _ Hcall Ht) Hfl) as (r & e & Hr & Hu & Hs).
  exists r, e. split; [done|].
  destruct Hs as [(s' & -> & Hrec & He & Hw & Hth)|(s' & g' & -> & Hid & [Hth Hk] & Hc & Hw)].
  - constructor; [done..|]. by eapply linear_keep.
  - econstructor; [done..|]. eapply linear_serve; [done..| | done | done | done]. by apply idle_in_flight.
Qed.

(** A call of the handler: it keeps the invariant, or meets the boundary. *)
Lemma handler_linear scripts t0 history rests h i c r e :
  linear scripts t0 history rests h -> connections h !! i = Some c ->
  bcd_handler_request_response (wire chunk) cf al K None monitor_fuel (session c) (conn c) kst (shared h) =
    Some (r, e) ->
  (exists h' history' rests', after_handler i h r e = Some h' /\ linear scripts t0 history' rests' h') \/
  offset (session c) = sizeof_packet /\ arrived (conn c) <> [].
Proof.
  intros HL Hi Hh. destruct (ln_connections _ _ _ _ _ HL i c Hi) as (rest & Hrest & _).
  destruct (handler_outcome _ _ _ _ _ _ _ _ HL Hi Hrest) as (r' & e' & Hr & Hcases).
  rewrite Hr in Hh. injection Hh as -> ->. destruct Hcases; [left; by do 3 eexists.. | by right].
Qed.

Lemma step_linear scripts t0 history rests h h' :
  linear scripts t0 history rests h -> step h (Some h') ->
  exists history' rests', linear scripts t0 history' rests' h'.
Proof.
  intros HL Hstep. inversion Hstep as [i c n Hi E|i c r e Hi Hh E].
  - subst h'. exists history, rests. destruct (ln_connections _ _ _ _ _ HL i c Hi) as (rest & Hrest & Hf & _).
    by eapply linear_keep; [| | | apply in_flight_deliver | |].
  - destruct (handler_linear _ _ _ _ _ _ _ _ _ HL Hi Hh) as [(h2 & hist2 & rests2 & E2 & HL2)|[Hoff Ha]].
    + rewrite E in E2. injection E2 as <-. by exists hist2, rests2.
    + exfalso. destruct (ln_connections _ _ _ _ _ HL i c Hi) as (rest & _ & Hf & _).
      destruct (in_flight_receiving _ _ _ Hf) as [(_ & _ & [_ _ H0 _] & _)|(o & p & next & [Hst Hl _] & _)]; [by rewrite H0 in Hoff|].
      destruct (handler_boundary _ _ (shared h) Hst Hl Hoff Ha) as (m & code & e' & Hd). rewrite Hd in Hh. by simplify_eq.
Qed.

Lemma step_end scripts t0 history rests h :
  linear scripts t0 history rests h -> step h None ->
  exists i c, connections h !! i = Some c /\ offset (session c) = sizeof_packet /\ arrived (conn c) <> [].
Proof.
  intros HL Hstep. inversion Hstep as [|i c r e Hi Hh E]. exists i, c. split; [done|].
  destruct (handler_linear _ _ _ _ _ _ _ _ _ HL Hi Hh) as [(h2 & _ & _ & E2 & _)|?]; [congruence | done].
Qed.
End Steps.

(** A client of which everything has been read has been served, and does not leave. *)
Lemma in_flight_done chunk leaving i rest c :
  in_flight chunk leaving i rest c -> to_come (conn c) = [] -> rest = [] /\ i ∉ leaving.
Proof.
  intros Hf Hemp. destruct (in_flight_receiving _ _ _ _ _ Hf) as [(-> & ? & _)|(o & p & next & [_ _ [Hlt Hh]] & _)]; [done|].
  exfalso. by apply holds_pending in Hh.
Qed.

Lemma runs_linear chunk cf al K kst monitor_fuel tr leaving scripts g h :
  (0 < chunk)%nat -> (1048 < monitor_fuel)%nat -> traces cf al K kst monitor_fuel tr ->
  Forall (Forall (sendable tr)) scripts -> wf g -> space tr (concat scripts) g ->
  runs chunk cf al K kst monitor_fuel (start leaving scripts g) h ->
  exists history rests, linear chunk tr leaving scripts (table_of 0 g) history rests h.
Proof.
  intros Hchunk Hf Htr Hs W S Hruns.
  assert (exists history rests, linear chunk tr leaving scripts (table_of 0 g) history rests (start leaving scripts g)) as Hinv
    by (do 2 eexists; by apply start_linear).
  induction Hruns as [|h1 h2 h3 Hstep _ IH]; [done|]. apply IH. destruct Hinv as (? & ? & HL).
  by eapply step_linear.
Qed.

(** C6: The requests of all clients are served in some sequential order. However the bytes of any number of
    clients arrive and however the calls of the handler interleave, there is an order of the requests served so
    far in which the metadata of the monitor are the abstract table after them; it takes the calls of each
    client in the order of its script, each session has the thread of its own calls only, each client
    has been sent one acknowledgement per request served and nothing else - also for traces, which the handler of
    the user intercepts or which start a tracer that succeeds or fails -, and a client that has nothing left
    to be read has been served completely. A client that detaches after its script is gone once its last
    request has been read: all its calls have been served, the last acknowledgement is that of its
    leave, and nobody else notices. The monitor ends in one case only: the handler is called
    on a session that has received exactly a header, with more bytes there. *)
Theorem requests_linearised chunk cf al K kst monitor_fuel tr leaving scripts g h :
  (0 < chunk)%nat -> (1048 < monitor_fuel)%nat -> traces cf al K kst monitor_fuel tr ->
  Forall (Forall (sendable tr)) scripts -> wf g -> space tr (concat scripts) g ->
  runs chunk cf al K kst monitor_fuel (start leaving scripts g) h ->
  (exists history,
     let t := (answers tr history.*2 (table_of 0 g)).2 in
     table_of (thread t) (shared h) = t /\
     forall i script, scripts !! i = Some script ->
       (exists c, connections h !! i = Some c /\
          calls_of i history `prefix_of` script /\
          session_thread (session c) = own_thread (calls_of i history) /\
          written (conn c) = acknowledgements (length (calls_of i history)) /\
          (to_come (conn c) = [] -> calls_of i history = script /\ i ∉ leaving)) \/
       (exists e, i ∈ leaving /\ connections h !! i = None /\ departed h !! i = Some e /\
          calls_of i history = script /\ written e = acknowledgements (S (length script)))) /\
  (step chunk cf al K kst monitor_fuel h None ->
   exists i c, connections h !! i = Some c /\ offset (session c) = sizeof_packet /\ arrived (conn c) <> []).
Proof.
  intros Hchunk Hf Htr Hs W S Hruns. destruct (runs_linear _ _ _ _ _ _ _ _ _ _ _ Hchunk Hf Htr Hs W S Hruns) as (history & rests & HL).
  split.
  - exists history. split; [apply (ln_table _ _ _ _ _ _ _ _ HL)|]. intros i script Hscript.
    pose proof (ln_scripts _ _ _ _ _ _ _ _ HL i) as E. rewrite Hscript in E.
    destruct (ln_clients _ _ _ _ _ _ _ _ HL i) as [[c Hc]|[e He]]; [by eexists | left; exists c | right; exists e].
    + destruct (ln_connections _ _ _ _ _ _ _ _ HL i c Hc) as (rest & Hrest & Hfl & Hth & Hw).
      rewrite Hrest in E. injection E as ->.
      split_and!; [done | by apply prefix_app_r | done | done |]. intros Hemp.
      apply in_flight_done in Hfl as [-> ?]; [by rewrite app_nil_r | done].
    + destruct (ln_departed _ _ _ _ _ _ _ _ HL i e He) as (Hin & Hn & Hrest & _ & Hw).
      rewrite Hrest in E. injection E as ->. rewrite app_nil_r. by split_and!.
  - intros Hstep. by eapply step_end.
Qed.

(** ** Schedules *)

(** A step as a function: bytes arrive, or the handler is called; nothing happens to a client that has departed. *)
Inductive action := Arrive (i n : nat) | Handle (i : nat).

Section Schedules.
Context (chunk : nat) (cf : invoke) (al : allocations) (K : kernel) (kst : kstate K) (monitor_fuel : nat).

Definition perform_action (a : action) (h : house) : option house :=
  match a with
  | Arrive i n =>
      Some (match connections h !! i with
            | Some c => holding i (Connection (deliver n (conn c)) (session c)) (shared h) h
            | None => h
            end)
  | Handle i =>
      match connections h !! i with
      | Some c =>
          '(r, e) ← bcd_handler_request_response (wire chunk) cf al K None monitor_fuel (session c) (conn c) kst (shared h);
          after_handler i h r e
      | None => Some h
      end
  end.

Fixpoint schedule (l : list action) (h : house) : option house :=
  match l with
  | [] => Some h
  | a :: l => h ← perform_action a h; schedule l h
  end.

Lemma perform_action_runs a h h' :
  perform_action a h = Some h' -> runs chunk cf al K kst monitor_fuel h h'.
Proof.
  destruct a as [i n|i]; cbn [perform_action]; (destruct (connections h !! i) as [c|] eqn:Hc; [|by intros [= <-]]); intros Ha; apply rtc_once.
  - injection Ha as <-. by constructor.
  - apply bind_Some in Ha as ([r e] & Hh & Ha). rewrite <- Ha. by eapply step_handle.
Qed.

Lemma schedule_runs l h h' : schedule l h = Some h' -> runs chunk cf al K kst monitor_fuel h h'.
Proof.
  revert h. induction l as [|a l IH]; intros h; cbn [schedule]; [intros [= ->]; apply rtc_refl|].
  intros (h1 & Ha & Hl)%bind_Some. etrans; [by eapply perform_action_runs | by apply IH].
Qed.
End Schedules.

(** ** Witness *)

(** Two clients with the same key; the packets of the first arrive in two pieces, and it asks for a trace; the second detaches. *)
Definition sample_scripts : list (list call) :=
  [[SetThread 7; SetPair (bytes_of "a") (bytes_of "1"); Trace true]; [SetPair (bytes_of "a") (bytes_of "2")]].

Definition sample_leaving : gset nat := {[ 1%nat ]}.

Definition sample_schedule : list action :=
  [Arrive 0 5; Handle 0; Arrive 1 100; Arrive 0 100; Handle 0; Handle 1; Handle 1; Handle 0; Handle 0].

Lemma sample_sendable tr : tr <> Untraced -> Forall (Forall (sendable tr)) sample_scripts.
Proof. intros Htr. repeat first [assumption | discriminate | constructor]. Qed.

Lemma requests_linearised_witness :
  exists h history e, schedule 3 sample_invoke all_succeed (stopping_kernel 0) 2%nat 1100 sample_schedule
      (start sample_leaving sample_scripts no_metadata) = Some h /\
    calls_of 0 history = [SetThread 7; SetPair (bytes_of "a") (bytes_of "1"); Trace true] /\
    calls_of 1 history = [SetPair (bytes_of "a") (bytes_of "2")] /\
    departed h !! 1%nat = Some e /\ written e = acknowledgements 2.
Proof.
  destruct (schedule 3 sample_invoke all_succeed (stopping_kernel 0) 2%nat 1100 sample_schedule
    (start sample_leaving sample_scripts no_metadata)) as [h|] eqn:E; [|vm_compute in E; discriminate E].
  destruct (requests_linearised 3 sample_invoke all_succeed (stopping_kernel 0) 2%nat 1100 (Traced true) sample_leaving sample_scripts
    no_metadata h) as [(history & _ & H) _];
    [by_compute | by_compute | exact sample_traced | by apply sample_sendable | by_compute | by_compute | by eapply schedule_runs |].
  assert (connections h !! 1%nat = None /\ departed h !! 0%nat = None /\
    (to_come <$> (conn <$> connections h !! 0%nat)) = Some []) as (Hc1 & Hd0 & Hc0)
    by (vm_compute in E; injection E as <-; by_compute).
  destruct (H 0%nat _ eq_refl) as [(c0 & E0 & _ & _ & _ & H0)|(e0 & _ & _ & E0 & _)]; [|congruence].
  destruct (H 1%nat _ eq_refl) as [(c1 & E1 & _)|(e1 & _ & _ & E1 & H1 & Hw)]; [congruence|].
  exists h, history, e1. split; [reflexivity|]. rewrite E0 in Hc0. injection Hc0 as Hc0.
  split; [by apply H0|]. by split_and!.
Defined.
