(* ===== verification/BcdService.v ===== *)
(** * The event loop behind the interleaving (src/external/bcd/bcd-amalgamated.c)

    [BcdInterleave] lets the monitor call its handler on any client at any time. Here the calls are those of
    [bcd_io_enter]: the ready list, the listener that accepts clients, edge-triggered reports of epoll. Every run of the
    loop is a run of the interleaving; no client with bytes to read is ever forgotten; and when all bytes have
    arrived, a bounded number of rounds serves all requests. *)

From stdpp Require Import gmap.
From S2P Require Import Prelude.
From S2P Require Import Memory.
From S2P Require Import BcdMeta.
From S2P Require Import BcdTracer.
From S2P Require Import BcdChannel.
From S2P Require Import BcdSession.
From S2P Require Import BcdRequest.
From S2P Require Import BcdEvents.
From S2P Require Import BcdInterleave.
From S2P Require BcdClient.
From S2P Require BcdMonitor.

(** Where the kernel and the allocator put client [i]: the address of its event, its descriptor. [pipe] is the descriptor of
    the pipe that [bcd_fatal] writes to. *)
Class Placed (addr fdn : nat -> Z) (pipe : Z) : Prop := {
  placed_addr :: Inj (=) (=) addr;
  placed_fd :: Inj (=) (=) fdn;
  placed_pipe i : fdn i <> pipe
}.

(** ** What the loop's data say about the clients *)

(** An event without its mark; of the mask only the error counts. *)
Definition look (ev : bcd_io_event) : Z * event_handler * bool := (fd ev, handler ev, bcd_io_event_has_error ev).
Definition seen {D} (w : monitor D) : gmap Z (Z * event_handler * bool) := look <$> events w.

(** Monitors that differ in the ready list only. *)
Record same_service {D} (w w' : monitor D) : Prop := {
  ss_seen : seen w = seen w';
  ss_links : links w = links w';
  ss_arrivals : arrivals w = arrivals w';
  ss_meta : meta w = meta w'
}.

#[export] Instance same_service_equivalence D : Equivalence (@same_service D).
Proof.
  split; [by intros w; split | by intros w w' []; split |].
  intros w1 w2 w3 [] []. split; by etrans.
Qed.

Section Representation.
Context (chunk : nat) (addr fdn : nat -> Z) (pipe : Z) {HP : Placed addr fdn pipe}.
Local Abbreviation D := (wire chunk).

(** A client that has connected and waits at the listener. *)
Definition admitted (i : nat) (c : connection) : arrival D :=
  BcdEvents.Connection (D := D) (fdn i) (conn c) None (Some (addr i)) true.

(** Other answers of [accept]: errors, and connections that will not be served. *)
Definition elsewhere (a : arrival D) : Prop :=
  match a with
  | AcceptError _ => True
  | BcdEvents.Connection f _ _ event _ =>
      (forall i, f <> fdn i) /\ f <> pipe /\ connection_fate a <> Served /\ forall i, event <> Some (addr i)
  end.

Record represents (w : monitor D) (h : house) : Prop := {
  rp_meta : meta w = shared h;
  rp_client i c : connections h !! i = Some c ->
    (exists b, seen w !! addr i = Some (fdn i, Client (session c), b) /\ links w !! fdn i = Some (conn c : dstate D)) \/
    (session c = new_session /\ written (conn c) = [] /\ admitted i c ∈ arrivals w);
  rp_event p f hd b : seen w !! p = Some (f, hd, b) ->
    match hd with
    | Client _ => exists i, p = addr i /\ is_Some (connections h !! i)
    | Watch => b = false
    | Fatal => f = pipe /\ exists e : dstate D, links w !! pipe = Some e /\ arrived e = []
    | Accept => True
    end;
  rp_arrival a : a ∈ arrivals w -> (exists i c, connections h !! i = Some c /\ a = admitted i c) \/ elsewhere a;
  rp_departed i : is_Some (departed h !! i) ->
    connections h !! i = None /\ seen w !! addr i = None /\ links w !! fdn i = None
}.

#[export] Instance represents_proper : Proper (same_service ==> (=) ==> iff) represents.
Proof.
  intros w w' Hw h _ <-. assert (forall w w', same_service w w' -> represents w h -> represents w' h) as Himp;
    [|split; apply Himp; [done | by symmetry]].
  clear. intros w w' [Hs Hl Ha Hm] [R1 R2 R3 R4 R5]. split; rewrite <- ?Hs, <- ?Hl, <- ?Ha, <- ?Hm; auto.
Qed.

(** ** The ready list does not matter *)

Lemma seen_insert (w : monitor D) p ev : seen (update_event w p ev) = <[p := look ev]> (seen w).
Proof. apply fmap_insert. Qed.

Lemma seen_lookup (w : monitor D) p ev : events w !! p = Some ev -> seen w !! p = Some (look ev).
Proof. unfold seen. rewrite lookup_fmap. by intros ->. Qed.

Lemma seen_event (w : monitor D) p f hd b : seen w !! p = Some (f, hd, b) ->
  exists ev, events w !! p = Some ev /\ fd ev = f /\ handler ev = hd /\ bcd_io_event_has_error ev = b.
Proof. unfold seen. rewrite lookup_fmap. intros (ev & Hp & Hl)%fmap_Some. unfold look in Hl. simplify_eq. by exists ev. Qed.

Lemma relook_same (w : monitor D) l p ev ev' :
  events w !! p = Some ev -> look ev' = look ev -> same_service (with_events w (<[p := ev']> (events w)) l) w.
Proof.
  intros Hp Hl. split; try done. unfold seen. cbn [with_events events]. rewrite fmap_insert, Hl.
  apply insert_id. by apply seen_lookup.
Qed.

Lemma add_same (w w' : monitor D) p : bcd_io_event_add_to_ready_list w p = Some w' -> same_service w' w.
Proof.
  unfold bcd_io_event_add_to_ready_list. intros (ev & Hp & H)%bind_Some.
  destruct (in_ready_list ev); injection H as <-; [done | by eapply relook_same].
Qed.

Lemma remove_same (w w' : monitor D) p : bcd_io_event_remove_from_ready_list w p = Some w' -> same_service w' w.
Proof.
  unfold bcd_io_event_remove_from_ready_list. intros (ev & Hp & H)%bind_Some.
  destruct (in_ready_list ev); injection H as <-; [by eapply relook_same | done].
Qed.

(** An answer of epoll without errors. *)
Definition no_error (reported : list (Z * Z)) : Prop := Forall (fun pm => Z.land pm.2 EPOLLERR = 0) reported.

Lemma mark_ready_same reported (w w' : monitor D) :
  no_error reported -> mark_ready reported w = Some w' -> same_service w' w.
Proof.
  intros Hno. revert w. induction Hno as [|[p m] reported Hm _ IH]; intros w; cbn [mark_ready]; [by intros [= ->]|].
  intros (ev & Hp & (w1 & Hadd & Hw)%bind_Some)%bind_Some. apply IH in Hw. apply add_same in Hadd.
  etrans; [exact Hw|]. etrans; [exact Hadd|]. eapply relook_same; [exact Hp|].
  unfold look, bcd_io_event_has_error, event_set. cbn [fd handler mask snd] in *. f_equal.
  by rewrite Z.land_lor_distr_l, Hm, Z.lor_0_r.
Qed.

(** ** Changes to one client *)

(** A client has its event or waits for it, never both. *)
Lemma admitted_fresh (w : monitor D) i c : wf_monitor w -> admitted i c ∈ arrivals w -> seen w !! addr i = None.
Proof.
  intros W Ha. unfold seen. rewrite lookup_fmap, (wm_fresh _ W); [done|].
  unfold new_events. apply list_elem_of_omap. by exists (admitted i c).
Qed.

Lemma client_placed (w : monitor D) h p ev s :
  wf_monitor w -> represents w h -> events w !! p = Some ev -> handler ev = Client s ->
  exists i c, p = addr i /\ connections h !! i = Some c /\ s = session c /\ fd ev = fdn i /\ links w !! fdn i = Some (conn c : dstate D).
Proof.
  intros W R Hp Hs. pose proof (seen_lookup w p ev Hp) as Hl. unfold look in Hl. rewrite Hs in Hl.
  destruct (rp_event _ _ R _ _ _ _ Hl) as (i & -> & c & Hc). exists i, c.
  destruct (rp_client _ _ R i c Hc) as [(b & Hl' & Hlink)|(_ & _ & Ha)]; [by simplify_eq|].
  apply (admitted_fresh w i c W) in Ha. congruence.
Qed.

(** What the handler of a client leaves. *)
Lemma represents_serve (w : monitor D) h i c0 ev s e g :
  wf_monitor w -> represents w h -> connections h !! i = Some c0 -> is_Some (events w !! addr i) ->
  fd ev = fdn i -> handler ev = Client s ->
  represents (Monitor (D := D) (<[addr i := ev]> (events w)) (ready w) (<[fdn i := e]> (links w)) (arrivals w) g)
    (holding i (Connection e s) g h).
Proof.
  intros W R Hc [ev0 Hp] Hf Hh. destruct (id R) as [_ R2 R3 R4 R5].
  set (w' := Monitor _ _ _ _ _).
  assert (seen w' = <[addr i := (fdn i, Client s, bcd_io_event_has_error ev)]> (seen w)) as Hseen
    by (unfold seen; cbn [w' events]; rewrite fmap_insert; unfold look at 1; by rewrite Hf, Hh).
  assert (links w' = <[fdn i := e]> (links w) /\ arrivals w' = arrivals w /\ meta w' = g) as (Hl' & Ha' & Hm') by done.
  clearbody w'.
  assert (forall j d, admitted j d ∈ arrivals w -> j <> i) as Hne.
  { intros j d Ha ->. apply (admitted_fresh w i d W) in Ha. by rewrite (seen_lookup w _ ev0) in Ha. }
  split; [done | | | |]; cbn [holding connections departed]; rewrite ?Hseen, ?Hl', ?Ha'.
  - intros j d. destruct (decide (j = i)) as [->|Hj].
    + rewrite lookup_insert_eq. intros [= <-]. left. rewrite !lookup_insert_eq. by eexists.
    + rewrite lookup_insert_ne by done. intros Hd.
      rewrite !lookup_insert_ne by (by intros ?%(inj _)). by apply R2.
  - intros p f hd b. destruct (decide (p = addr i)) as [->|Hpi].
    + rewrite lookup_insert_eq. intros [= <- <- <-]. exists i. by rewrite lookup_insert_eq.
    + rewrite lookup_insert_ne by done. intros Hl%R3. destruct hd; try done.
      * destruct Hl as (j & -> & Hj). exists j. split; [done|]. apply lookup_insert_is_Some'. by right.
      * rewrite lookup_insert_ne by apply placed_pipe. done.
  - intros a Ha. destruct (R4 a Ha) as [(j & d & Hd & ->)|]; [left | by right]. exists j, d. split; [|done].
    rewrite lookup_insert_ne; [done|]. intros ->. by eapply Hne.
  - intros j (Hj & Hs & Hl)%R5. assert (j <> i) by congruence.
    by rewrite !lookup_insert_ne by first [done | by intros ?%(inj _)].
Qed.

Lemma represents_close (w : monitor D) h i c0 e g :
  wf_monitor w -> represents w h -> connections h !! i = Some c0 -> is_Some (events w !! addr i) ->
  represents (Monitor (D := D) (delete (addr i) (events w)) (ready w) (delete (fdn i) (links w)) (arrivals w) g)
    (parting i e g h).
Proof.
  intros W R Hc [ev0 Hp]. destruct (id R) as [_ R2 R3 R4 R5]. set (w' := Monitor _ _ _ _ _).
  assert (seen w' = delete (addr i) (seen w)) as Hseen by apply fmap_delete.
  assert (links w' = delete (fdn i) (links w) /\ arrivals w' = arrivals w /\ meta w' = g) as (Hl' & Ha' & Hm') by done.
  clearbody w'. split; [done | | | |]; cbn [parting connections departed]; rewrite ?Hseen, ?Hl', ?Ha'.
  - intros j d [Hj Hd]%lookup_delete_Some. rewrite !lookup_delete_ne by (by intros ?%(inj _)). by apply R2.
  - intros p f hd b [Hpi Hl%R3]%lookup_delete_Some. destruct hd; try done.
    + destruct Hl as (j & -> & Hj). exists j. split; [done|]. rewrite lookup_delete_ne; [done|]. by intros ->.
    + rewrite lookup_delete_ne by apply placed_pipe. done.
  - intros a Ha. destruct (R4 a Ha) as [(j & d & Hd & ->)|]; [left | by right]. exists j, d. split; [|done].
    rewrite lookup_delete_ne; [done|]. intros ->.
    apply (admitted_fresh w j d W) in Ha. by rewrite (seen_lookup w _ ev0) in Ha.
  - intros j. destruct (decide (j = i)) as [->|Hj]; [by rewrite !lookup_delete_eq|].
    rewrite lookup_insert_ne, !lookup_delete_ne by first [done | by intros ?%(inj _)]. apply R5.
Qed.

(** Descriptors of nobody. *)
Lemma represents_links (w : monitor D) h ls :
  represents w h -> (forall i, ls !! fdn i = links w !! fdn i) -> ls !! pipe = links w !! pipe ->
  represents (set_links w ls) h.
Proof.
  intros [R1 R2 R3 R4 R5] Hfd Hpipe. split; [done | | | done |]; cbn [set_links links arrivals]; change (seen (set_links w ls)) with (seen w).
  - intros i c Hc. rewrite Hfd. by apply R2.
  - intros p f hd b Hl%R3. destruct hd; try done. by rewrite Hpipe.
  - intros i. rewrite Hfd. apply R5.
Qed.

(** ** Accepting *)

(** An answer of [accept] that serves nobody is gone. *)
Lemma represents_drop (w : monitor D) h a l :
  represents (set_arrivals w (a :: l)) h -> elsewhere a -> represents (set_arrivals w l) h.
Proof.
  intros [R1 R2 R3 R4 R5] Ha. split; [done | | done | | done]; cbn [set_arrivals links arrivals] in *.
  - intros i c [Hl|(Hs & Hw & Hin)]%R2; [by left | right]. split_and!; [done | done |].
    apply elem_of_cons in Hin as [Heq|]; [|done]. subst a. destruct Ha as (Hf & _). by destruct (Hf i).
  - intros b Hb. apply R4. by right.
Qed.

(** The client at the listener gets its event. *)
Lemma represents_admit (w w1 : monitor D) h i c l :
  wf_monitor (set_arrivals w (admitted i c :: l)) -> represents (set_arrivals w (admitted i c :: l)) h ->
  connections h !! i = Some c ->
  bcd_handler_accept (set_links w (<[fdn i := conn c]> (links w))) (addr i) (fdn i) true = Some w1 ->
  represents (set_arrivals w1 l) h.
Proof.
  intros W R Hc Hacc. unfold bcd_handler_accept in Hacc. apply add_same in Hacc as [Hs Hl _ Hm].
  rewrite seen_insert in Hs. cbn [update_event with_events set_links links meta] in Hl, Hm.
  change (seen (set_links w _)) with (seen w) in Hs. destruct (id R) as [R1 R2 R3 R4 R5].
  assert (seen w !! addr i = None) as Hfresh by (apply (admitted_fresh _ i c W); left).
  assert (forall j d, admitted j d ∈ l -> j <> i) as Hne.
  { intros j d Hin ->. pose proof (wm_new _ W) as Hd. cbn [set_arrivals arrivals] in Hd.
    rewrite new_events_cons in Hd. cbn [admitted arrival_event] in Hd. apply NoDup_cons in Hd as [Hd _]. apply Hd.
    unfold new_events. apply list_elem_of_omap. by exists (admitted i d). }
  split; change (seen (set_arrivals w1 l)) with (seen w1); cbn [set_arrivals links arrivals meta]; rewrite ?Hs, ?Hl, ?Hm.
  - done.
  - intros j d Hd. destruct (decide (j = i)) as [->|Hj].
    + left. rewrite !lookup_insert_eq. destruct (R2 i d Hd) as [(b & Hb & _)|(Hsd & _ & _)].
      { change (seen (set_arrivals w (admitted i c :: l))) with (seen w) in Hb. congruence. }
      rewrite Hsd. replace d with c by congruence. by eexists.
    + rewrite !lookup_insert_ne by (by intros ?%(inj _)).
      destruct (R2 j d Hd) as [|(Hsd & Hwd & Hin)]; [by left | right]. split_and!; [done | done |].
      cbn [set_arrivals arrivals] in Hin. apply elem_of_cons in Hin as [Heq|]; [|done].
      injection Heq as ?%(inj _) _ _. done.
  - intros p f hd b. destruct (decide (p = addr i)) as [->|Hp].
    + rewrite lookup_insert_eq. intros [= <- <- <-]. exists i. by rewrite Hc.
    + rewrite lookup_insert_ne by done. intros Hev%R3. destruct hd; try done.
      by rewrite lookup_insert_ne by apply placed_pipe.
  - intros a Ha. apply R4. by right.
  - intros j (Hj & Hsj & Hlj)%R5. assert (j <> i) by congruence.
    by rewrite !lookup_insert_ne by first [done | by intros ?%(inj _)].
Qed.

Lemma accept_loop_represents p l (w w' : monitor D) h :
  wf_monitor (set_arrivals w l) -> is_Some (events w !! p) -> represents (set_arrivals w l) h ->
  accept_loop p l w = Some w' -> represents w' h.
Proof.
  revert w. induction l as [|a l IH]; intros w W Hp R Hacc; cbn [accept_loop] in Hacc.
  { apply remove_same in Hacc. by rewrite Hacc. }
  destruct (rp_arrival _ _ R a ltac:(left)) as [(i & c & Hc & ->)|Ha].
  - cbn [admitted] in Hacc. apply bind_Some in Hacc as (w1 & Hacc1 & Hacc).
    pose proof (represents_admit w w1 h i c l W R Hc Hacc1) as R1.
    destruct (handler_accept_spec (set_links w (<[fdn i := conn c]> (links w))) w1 (addr i) (fdn i) true
      (admitted i c :: l) l ltac:(by apply (wf_same _ _ W)) eq_refl Hacc1) as (W1 & _ & Ho).
    apply (IH w1); [done | | done | done]. rewrite Ho; [done|]. intros ->. destruct Hp as [ev Hev].
    pose proof (admitted_fresh _ i c W ltac:(left)) as Hn. by rewrite (seen_lookup _ _ ev) in Hn.
  - pose proof (represents_drop w h a l R Ha) as Rl.
    destruct a as [errno|f link prepare event watched].
    { case_decide; [apply remove_same in Hacc; by rewrite Hacc | by injection Hacc as <-]. }
    destruct Ha as (Hf & Hpipe & Hfate & Hq).
    assert (represents (set_arrivals (set_links w (<[f := link]> (links w))) l) h) as Rf.
    { apply (represents_links (set_arrivals w l) h (<[f := link]> (links w))); [done | |]; intros;
        by apply lookup_insert_ne. }
    destruct prepare as [errno|].
    { case_decide; [apply remove_same in Hacc; by rewrite Hacc | by injection Hacc as <-]. }
    destruct event as [q|].
    + destruct watched; [done|]. apply bind_Some in Hacc as (w1 & Hacc1 & Hacc).
      destruct (handler_accept_spec (set_links w (<[f := link]> (links w))) w1 q f false
        (BcdEvents.Connection (D := D) f link None (Some q) false :: l) l ltac:(by apply (wf_same _ _ W)) eq_refl Hacc1)
        as (W1 & _ & Ho).
      assert (events w !! q = None) as Hfresh by (apply (wm_fresh _ W); left).
      apply (IH w1); [done | | | done].
      { rewrite Ho; [done|]. intros ->. rewrite Hfresh in Hp. by destruct Hp. }
      unfold bcd_handler_accept, bcd_io_event_destroy in Hacc1. apply bind_Some in Hacc1 as (ev & _ & [= <-]).
      refine (proj2 (represents_proper _ _ _ _ _ eq_refl) Rf). split; [|done..].
      unfold seen. cbn. by rewrite delete_insert_id.
    + apply (IH (bcd_io_fd_close (set_links w (<[f := link]> (links w))) f)); [| done | | done].
      * apply (wf_same (set_arrivals w l)); [|done..]. by eapply (wf_arrivals _ _ _ []).
      * apply (represents_links (set_arrivals w l) h (delete f (<[f := link]> (links w)))); [done | |]; intros;
          by rewrite lookup_delete_ne, lookup_insert_ne.
Qed.

(** ** Every call of a handler is a step *)

Context (cf : invoke) (al : allocations) (K : kernel) (kst : kstate K) (fuel : nat).

Local Abbreviation step := (step chunk cf al K kst fuel).
Local Abbreviation runs := (runs chunk cf al K kst fuel).
Local Abbreviation call_handler := (call_handler (D := D) cf al None kst fuel).

Lemma destroy_same (w1 w2 w3 : monitor D) p :
  same_service w2 w1 -> bcd_io_event_destroy w2 p = Some w3 -> same_service w3 (with_events w1 (delete p (events w1)) (ready w1)).
Proof.
  intros [Hs Hl Ha Hm] (ev & _ & [= <-])%bind_Some. split; [|done..]. unfold seen in *. cbn [with_events events].
  by rewrite !fmap_delete, Hs.
Qed.

Lemma remove_gone (w w' : monitor D) p :
  wf_monitor w -> bcd_io_event_remove_from_ready_list w p = Some w' -> p ∉ ready w'.
Proof. intros W (_ & -> & _)%(remove_from_ready_spec w w' p W). by intros [? _]%list_elem_of_filter. Qed.

(** What a call does: an event that is not a client's changes nothing for the clients; the other one is a call of
    [bcd_handler_request_response] on a connection. *)
Definition served_by (i : nat) (w : monitor D) (h : house) (r : handled) (e : link) (o : outcome D) : Prop :=
  match o with
  | Going w' =>
      arrivals w' = arrivals w /\
      match r with Ready _ _ => ready w' = ready w | _ => addr i ∉ ready w' end /\
      exists h', after_handler i h r e = Some h' /\ represents w' h'
  | Stopped _ => after_handler i h r e = None
  end.

Definition called (p : Z) (w : monitor D) (h : house) (o : outcome D) : Prop :=
  (exists ev w', events w !! p = Some ev /\ (forall s, handler ev <> Client s) /\ o = Going w' /\ represents w' h /\
     (arrivals w = [] -> arrivals w' = [] /\ p ∉ ready w')) \/
  (exists i c r e, p = addr i /\ connections h !! i = Some c /\
     bcd_handler_request_response D cf al K None fuel (session c) (conn c) kst (shared h) = Some (r, e) /\
     served_by i w h r e o).

Lemma handle_client_called p ev s (w : monitor D) h o :
  wf_monitor w -> represents w h -> events w !! p = Some ev -> handler ev = Client s ->
  handle_client cf al None kst fuel p ev s w = Some o -> called p w h o.
Proof.
  intros W R Hp Hs Hh. destruct (client_placed w h p ev s W R Hp Hs) as (i & c & -> & Hc & -> & Hf & Hl).
  unfold handle_client in Hh. rewrite Hf, Hl in Hh. apply bind_Some in Hh as (e0 & [= <-] & Hh).
  apply bind_Some in Hh as ([r e] & Hr & Hh). rewrite (rp_meta _ _ R) in Hr.
  right. exists i, c, r, e. split_and!; [done..|].
  assert (is_Some (events w !! addr i)) as Hlive by by eexists.
  assert (forall s' g ev' (w' : monitor D), fd ev' = fd ev -> handler ev' = Client s' ->
    same_service w' (update_event (set_meta (set_links w (<[fdn i := e]> (links w))) g) (addr i) ev') ->
    arrivals w' = arrivals w /\ represents w' (holding i (Connection e s') g h)) as Hserve.
  { intros s' g ev' w' Hfd Hcl E. split; [apply E|]. rewrite E.
    apply (represents_serve w h i c ev'); try done. by rewrite Hfd. }
  assert (forall ls g ev', in_ready_list ev' = in_ready_list ev ->
    wf_monitor (update_event (set_meta (set_links w ls) g) (addr i) ev')) as Hwf.
  { intros. eapply wf_update_event; [by apply (wf_same w) | exact Hp | done]. }
  destruct r as [s' g|s' g|s' g|g|m code|fin]; cbn [after_handler].
  - apply bind_Some in Hh as (w' & Hw' & [= <-]). assert (addr i ∉ ready w') as Hgone by (eapply remove_gone; [|exact Hw']; by apply Hwf).
    apply remove_same in Hw'. eapply Hserve in Hw' as [Ha R']; [|done|done]. split; [done|]. split; [done|]. by eexists.
  - apply bind_Some in Hh as (w' & Hw' & [= <-]). assert (addr i ∉ ready w') as Hgone by (eapply remove_gone; [|exact Hw']; by apply Hwf).
    apply remove_same in Hw'. eapply Hserve in Hw' as [Ha R']; [|done|done]. split; [done|]. split; [done|]. by eexists.
  - injection Hh as <-. split; [done|]. split; [done|]. eexists. split; [done|]. by apply (Hserve s' g (set_session ev s')).
  - apply bind_Some in Hh as (w1 & Hw1 & Hh). apply bind_Some in Hh as (w2 & Hw2 & [= <-]).
    assert (addr i ∉ ready w2) as Hgone.
    { apply remove_gone in Hw1; [|by apply (wf_same w)]. by apply bind_Some in Hw2 as (_ & _ & [= <-]). }
    apply remove_same in Hw1. apply (destroy_same _ _ _ _ Hw1) in Hw2.
    split; [apply Hw2|]. split; [done|]. eexists. split; [done|]. rewrite Hw2.
    pose proof (represents_close w h i c e g W R Hc Hlive) as R'.
    rewrite <- (delete_insert_eq (links w) (fdn i) e) in R'. exact R'.
  - by injection Hh as <-.
  - by injection Hh as <-.
Qed.

Lemma accept_nobody p (w w' : monitor D) :
  wf_monitor w -> arrivals w = [] -> bcd_io_listener_accept p w = Some w' -> arrivals w' = [] /\ p ∉ ready w'.
Proof.
  unfold bcd_io_listener_accept. intros W Ha Hr. rewrite Ha in Hr. split; [by apply remove_same, ss_arrivals in Hr|].
  eapply remove_gone; [|exact Hr]. by apply (wf_same w).
Qed.

Lemma call_handler_called p (w : monitor D) h o :
  wf_monitor w -> represents w h -> call_handler p w = Some o -> called p w h o.
Proof.
  intros W R Hcall. unfold call_handler in Hcall. apply bind_Some in Hcall as (ev & Hp & Hcall).
  pose proof (seen_lookup w p ev Hp) as Hseen. unfold look in Hseen.
  pose proof (rp_event _ _ R _ _ _ _ Hseen) as Hev. destruct (handler ev) as [|s| |] eqn:Hh;
    [left | by eapply handle_client_called | left | left]; exists ev; rewrite Hh.
  - apply bind_Some in Hcall as (w' & Hacc & [= <-]). exists w'. unfold bcd_io_listener_accept in Hacc.
    split_and!; [done | done | done | | intros Ha; by apply (accept_nobody p w w')].
    eapply accept_loop_represents; [| by eexists | | exact Hacc]; by destruct w.
  - unfold handle_sb in Hcall. rewrite Hev in Hcall. apply bind_Some in Hcall as (w' & Hr & [= <-]).
    pose proof (remove_same _ _ _ Hr) as Hw'. apply remove_gone in Hr; [|done].
    exists w'. split_and!; [done | done | done | by rewrite Hw' | intros Ha; by rewrite (ss_arrivals _ _ Hw')].
  - destruct Hev as (Hf & e & Hl & He). unfold handle_fatal in Hcall. rewrite Hf, Hl in Hcall.
    apply bind_Some in Hcall as (e0 & [= <-] & Hcall). cbn [wire sys_read] in Hcall. rewrite He in Hcall.
    rewrite insert_id in Hcall by done. unfold bcd_handler_fatal in Hcall. rewrite decide_True in Hcall by done.
    apply bind_Some in Hcall as ([|] & [=] & Hcall). apply bind_Some in Hcall as (w' & Hr & [= <-]).
    pose proof (remove_same _ _ _ Hr) as Hw'. apply remove_gone in Hr; [|by apply (wf_same w)].
    exists w'. split_and!; [done | done | done | rewrite Hw'; by destruct w | intros Ha; by rewrite (ss_arrivals _ _ Hw')].
Qed.

(** ** New events are ready *)

Definition kept_or_ready (w w' : monitor D) : Prop :=
  forall q ev, events w' !! q = Some ev -> is_Some (events w !! q) \/ q ∈ ready w'.

Lemma kept_insert (w w' : monitor D) p ev :
  is_Some (events w !! p) -> events w' = <[p := ev]> (events w) -> kept_or_ready w w'.
Proof.
  intros Hp He q ev' Hq. left. rewrite He in Hq. destruct (decide (q = p)) as [->|]; [done|].
  rewrite lookup_insert_ne in Hq by done. by eexists.
Qed.

Lemma remove_kept (w w1 w' : monitor D) p :
  kept_or_ready w w1 -> is_Some (events w !! p) -> bcd_io_event_remove_from_ready_list w1 p = Some w' -> kept_or_ready w w'.
Proof.
  intros Hk Hp Hr q ev Hq. destruct (decide (q = p)) as [->|Hqp]; [by left|].
  unfold bcd_io_event_remove_from_ready_list in Hr. apply bind_Some in Hr as (ev1 & _ & Hr).
  destruct (in_ready_list ev1); injection Hr as <-; [|by eapply Hk]. cbn [with_events events ready] in *.
  rewrite lookup_insert_ne in Hq by done. destruct (Hk q ev Hq) as [|Hin]; [by left | right].
  by apply list_elem_of_filter.
Qed.

Lemma accept_loop_kept p l (w0 w w' : monitor D) :
  kept_or_ready w0 w -> is_Some (events w0 !! p) -> accept_loop p l w = Some w' -> kept_or_ready w0 w'.
Proof.
  intros Hk Hp. revert w Hk. induction l as [|a l IH]; intros w Hk Hacc; cbn [accept_loop] in Hacc.
  { by apply (remove_kept w0 (set_arrivals w []) w' p). }
  destruct a as [errno|f link [errno|] [q|] watched].
  - case_decide; [by apply (remove_kept w0 (set_arrivals w l) w' p) | by injection Hacc as <-].
  - case_decide; [by eapply (remove_kept w0 (set_arrivals (set_links w _) l) w' p) | by injection Hacc as <-].
  - case_decide; [by eapply (remove_kept w0 (set_arrivals (set_links w _) l) w' p) | by injection Hacc as <-].
  - apply bind_Some in Hacc as (w1 & Hacc1 & Hacc). eapply IH; [|exact Hacc]. clear IH Hacc.
    unfold bcd_handler_accept, bcd_io_event_add_to_ready_list, bcd_io_event_destroy in Hacc1.
    cbn [update_event with_events events] in Hacc1. rewrite lookup_insert_eq in Hacc1. cbn in Hacc1.
    destruct watched; injection Hacc1 as <-; intros r ev; cbn [events ready with_events update_event].
    + destruct (decide (r = q)) as [->|Hr]; [intros _; right; set_solver|].
      rewrite !lookup_insert_ne by done. intros [|]%Hk; [by left | right; set_solver].
    + intros [Hr Hlk]%lookup_delete_Some. rewrite lookup_insert_ne in Hlk by done. by eapply Hk.
  - by apply (IH (bcd_io_fd_close (set_links w (<[f := link]> (links w))) f)).
Qed.

Lemma call_kept p (w w' : monitor D) : call_handler p w = Some (Going w') -> kept_or_ready w w'.
Proof.
  unfold call_handler. intros (ev & Hp & Hcall)%bind_Some. assert (is_Some (events w !! p)) as Hlive by by eexists.
  assert (forall w1 w2 : monitor D, events w1 = events w \/ (exists ev', events w1 = <[p := ev']> (events w)) ->
    bcd_io_event_remove_from_ready_list w1 p = Some w2 -> kept_or_ready w w2) as Hremove.
  { intros w1 w2 He Hr. eapply remove_kept; [|done|exact Hr]. destruct He as [He|[ev' He]]; [|by eapply kept_insert].
    intros q ev' Hq. left. rewrite <- He. by eexists. }
  destruct (handler ev) as [|s| |].
  - apply bind_Some in Hcall as (w1 & Hacc & [= <-]). eapply accept_loop_kept; [| |exact Hacc]; [|done].
    intros q ev' Hq. left. by eexists.
  - unfold handle_client in Hcall. apply bind_Some in Hcall as (e & _ & Hcall).
    apply bind_Some in Hcall as ([r e'] & _ & Hcall). destruct r; try done.
    + apply bind_Some in Hcall as (w1 & Hr & [= <-]). eapply Hremove; [|exact Hr]. right. by eexists.
    + apply bind_Some in Hcall as (w1 & Hr & [= <-]). eapply Hremove; [|exact Hr]. right. by eexists.
    + injection Hcall as <-. by eapply kept_insert.
    + apply bind_Some in Hcall as (w1 & Hr & Hcall). apply bind_Some in Hcall as (w2 & (ev1 & _ & [= <-])%bind_Some & [= <-]).
      assert (kept_or_ready w w1) as Hk by (eapply Hremove; [|exact Hr]; by left).
      intros q ev' Hq. cbn [with_events events] in Hq. apply lookup_delete_Some in Hq as [_ Hq]. by eapply Hk.
  - unfold handle_sb in Hcall. destruct (bcd_io_event_has_error ev); [done|].
    apply bind_Some in Hcall as (w1 & Hr & [= <-]). eapply Hremove; [|exact Hr]. by left.
  - unfold handle_fatal in Hcall. apply bind_Some in Hcall as (e & _ & Hcall).
    destruct (sys_read D e 1) as [r e'].
    destruct (match r with inl errno => (-1, errno) | inr bs => (zlen bs, 0) end) as [n errno].
    apply bind_Some in Hcall as ([|] & _ & Hcall); [done|].
    apply bind_Some in Hcall as (w1 & Hr & [= <-]). eapply Hremove; [|exact Hr]. by left.
Qed.

(** ** Calls of the handlers are defined *)

Lemma remove_live (w : monitor D) p : is_Some (events w !! p) -> is_Some (bcd_io_event_remove_from_ready_list w p).
Proof. intros (w' & -> & _)%remove_defined. by eexists. Qed.

(** What follows the closing of a client's descriptor. *)
Lemma close_live (w : monitor D) p :
  is_Some (events w !! p) ->
  is_Some (w ← bcd_io_event_remove_from_ready_list w p; w ← bcd_io_event_destroy w p; Some (Going w)).
Proof.
  intros [ev Hp]. destruct (remove_live w p) as [w1 Hr]; [by eexists|]. rewrite Hr. bind_simpl.
  apply remove_same in Hr as [Hs _ _ _]. pose proof (seen_lookup w p ev Hp) as Hl. rewrite <- Hs in Hl.
  apply seen_event in Hl as (ev' & Hev' & _). unfold bcd_io_event_destroy. rewrite Hev'. by eexists.
Qed.

Lemma accept_loop_live p l (w : monitor D) :
  wf_monitor (set_arrivals w l) -> is_Some (events w !! p) -> is_Some (accept_loop p l w).
Proof.
  revert w. induction l as [|a l IH]; intros w W Hp; cbn [accept_loop]; [by apply remove_live|].
  destruct a as [errno|f link [errno|] [q|] watched];
    try (case_decide; [by apply remove_live | by eexists]).
  - destruct (bcd_handler_accept (set_links w (<[f := link]> (links w))) q f watched) as [w1|] eqn:Hacc.
    + destruct (handler_accept_spec (set_links w (<[f := link]> (links w))) w1 q f watched
        (BcdEvents.Connection (D := D) f link None (Some q) watched :: l) l ltac:(by apply (wf_same _ _ W)) eq_refl Hacc)
        as (W1 & _ & Ho).
      apply (IH w1); [done|]. rewrite Ho; [done|]. intros ->. destruct Hp as [ev Hev].
      assert (events w !! q = None) as Hn by (apply (wm_fresh _ W); left). congruence.
    + exfalso. unfold bcd_handler_accept, bcd_io_event_add_to_ready_list, bcd_io_event_destroy in Hacc.
      cbn [update_event with_events events] in Hacc. rewrite lookup_insert_eq in Hacc. by destruct watched.
  - apply (IH (bcd_io_fd_close (set_links w (<[f := link]> (links w))) f)); [|done].
    apply (wf_same (set_arrivals w l)); [|done..]. by eapply (wf_arrivals _ _ _ []).
Qed.

Context (tr : tracing) (leaving : gset nat) (scripts : list (list call)) (t0 : table).
Hypothesis Hchunk : (0 < chunk)%nat.
Hypothesis Hfuel : (1048 < fuel)%nat.
Hypothesis Htr : traces cf al K kst fuel tr.

Local Abbreviation linear := (linear chunk tr leaving scripts t0).
Local Abbreviation handles := (bcd_handler_request_response D cf al K None fuel).

Lemma linear_rest history rests h i c : linear history rests h -> connections h !! i = Some c -> is_Some (rests !! i).
Proof. intros HL Hc. destruct (ln_connections _ _ _ _ _ _ _ _ HL i c Hc) as (rest & -> & _). by eexists. Qed.

Lemma call_live p (w : monitor D) h history rests :
  wf_monitor w -> represents w h -> linear history rests h -> is_Some (events w !! p) -> is_Some (call_handler p w).
Proof.
  intros W R HL [ev Hp]. assert (is_Some (events w !! p)) as Hlive by by eexists.
  pose proof (seen_lookup w p ev Hp) as Hseen. unfold look in Hseen.
  pose proof (rp_event _ _ R _ _ _ _ Hseen) as Hev. unfold call_handler. rewrite Hp. bind_simpl.
  assert (forall w1 : monitor D, is_Some (events w1 !! p) -> is_Some (w2 ← bcd_io_event_remove_from_ready_list w1 p; Some (Going w2)))
    as Hremove by (intros w1 [w2 ->]%remove_live; by eexists).
  destruct (handler ev) as [|s| |] eqn:Hh.
  - destruct (accept_loop_live p (arrivals w) w) as [w' E]; [by destruct w | done |].
    unfold bcd_io_listener_accept. rewrite E. by eexists.
  - destruct (client_placed w h p ev s W R Hp Hh) as (i & c & -> & Hc & -> & Hf & Hl).
    destruct (linear_rest _ _ _ _ _ HL Hc) as [rest Hrest].
    destruct (handler_outcome chunk cf al K kst fuel tr leaving Htr Hchunk Hfuel _ _ _ _ _ _ _ _ HL Hc Hrest) as (r & e & Hr & Hcases).
    unfold handle_client. rewrite Hf, Hl. bind_simpl. rewrite (rp_meta _ _ R), Hr. bind_simpl.
    destruct Hcases as [s'| | |]; [| by eexists | | by eexists].
    { apply Hremove. cbn [update_event with_events events]. rewrite lookup_insert_eq. by eexists. }
    by apply close_live.
  - unfold handle_sb. rewrite Hev. by apply Hremove.
  - destruct Hev as (Hf & e & Hl & He). unfold handle_fatal. rewrite Hf, Hl. bind_simpl. cbn [wire sys_read]. rewrite He.
    unfold bcd_handler_fatal. rewrite decide_True by done. bind_simpl. by apply Hremove.
Qed.

(** ** No client is forgotten *)

(** [E]: the events whose edge epoll has yet to report. *)
Definition awake (w : monitor D) (h : house) (E : gset Z) : Prop :=
  forall i c, connections h !! i = Some c -> is_Some (events w !! addr i) ->
    addr i ∈ ready w \/ addr i ∈ E \/ arrived (conn c) = [].

(** Exactly a header has been received, and more is there: the case in which the handler ends the monitor. *)
Definition boundary (h : house) : Prop :=
  exists i c, connections h !! i = Some c /\ offset (session c) = sizeof_packet /\ arrived (conn c) <> [].

(** All clients have connected and sent everything. *)
Definition quiet (w : monitor D) (h : house) : Prop :=
  arrivals w = [] /\ forall i c, connections h !! i = Some c -> unsent (conn c) = [].

Definition shortened (p : Z) (rests rests' : list (list call)) : Prop :=
  forall j, rests' !! j = (if decide (addr j = p) then tail (A := call) else id) <$> rests !! j.

(** A request of the client of [p] is still to be served. *)
Definition pending (p : Z) (rests : list (list call)) : Prop := exists j call rest, p = addr j /\ rests !! j = Some (call :: rest).

Lemma connected_event (w : monitor D) h i c :
  represents w h -> connections h !! i = Some c -> admitted i c ∉ arrivals w ->
  exists ev, events w !! addr i = Some ev /\ handler ev = Client (session c).
Proof.
  intros R Hc Hn. destruct (rp_client _ _ R i c Hc) as [(b & (ev & Hev & _ & Hh & _)%seen_event & _)|(_ & _ & ?)]; [|done].
  by exists ev.
Qed.

Lemma rest_connected history rests h j rest :
  linear history rests h -> rests !! j = Some rest -> is_Some (connections h !! j) \/ rest = [].
Proof.
  intros HL Hr. destruct (ln_clients _ _ _ _ _ _ _ _ HL j) as [|[e He]]; [rewrite (ln_scripts _ _ _ _ _ _ _ _ HL), Hr; by eexists | by left | right].
  destruct (ln_departed _ _ _ _ _ _ _ _ HL j e He) as (_ & _ & Hr' & _). congruence.
Qed.

Lemma call_ready_kept p q (w w' : monitor D) :
  wf_monitor w -> call_handler p w = Some (Going w') -> q ∈ ready w -> q <> p -> q ∈ ready w'.
Proof.
  intros W Hcall Hq Hne. destruct (call_handler_spec cf al None kst fuel p w w' W Hcall) as (_ & new & consumed & Hhe).
  destruct (he_ready _ _ _ _ _ Hhe) as [-> | ->]; apply elem_of_app; left; [done | by apply list_elem_of_filter].
Qed.

(** What has been said of the clients with another event stays true. *)
Lemma awake_others p (w w' : monitor D) h E i c :
  wf_monitor w -> awake w h E -> call_handler p w = Some (Going w') -> connections h !! i = Some c ->
  is_Some (events w' !! addr i) -> (is_Some (events w !! addr i) -> addr i <> p) ->
  addr i ∈ ready w' \/ addr i ∈ E \/ arrived (conn c) = [].
Proof.
  intros W A Hcall Hc [ev Hev] Hne. destruct (call_kept p w w' Hcall _ _ Hev) as [Hlive|]; [|by left].
  destruct (A i c Hc Hlive) as [Hin|]; [left | by right]. by eapply call_ready_kept; [..|apply Hne].
Qed.

Lemma other_call_serves p ev (w w' : monitor D) h history rests E :
  wf_monitor w -> represents w h -> linear history rests h -> awake w h E -> call_handler p w = Some (Going w') ->
  events w !! p = Some ev -> (forall s, handler ev <> Client s) -> (arrivals w = [] -> arrivals w' = [] /\ p ∉ ready w') ->
  awake w' h E /\ (quiet w h -> quiet w' h /\ shortened p rests rests /\ p ∉ ready w').
Proof.
  intros W R HL A Hcall Hp Hh Ha. split.
  - intros i c Hc Hlive. eapply awake_others; [done..|]. intros [ev' Hev'] <-. simplify_eq.
    destruct (connected_event w h i c R Hc) as (ev' & Hev & Hcl); [|by simplify_eq; destruct (Hh (session c))].
    intros Hin%(admitted_fresh _ _ _ W). by rewrite (seen_lookup w _ ev) in Hin.
  - intros [Har Hu]. destruct (Ha Har) as [Ha' Hgone]. split; [by split|]. split; [|done].
    intros j. case_decide as Hj; [|by destruct (rests !! j)].
    destruct (rests !! j) as [rest|] eqn:Hr; [|done].
    destruct (rest_connected _ _ _ j rest HL Hr) as [[c Hc]| ->]; [exfalso | done].
    destruct (connected_event w h j c R Hc) as (ev' & Hev & Hcl); [rewrite Har; set_solver|].
    subst p. simplify_eq. by destruct (Hh (session c)).
Qed.

(** A client's descriptor and session have changed. *)
Lemma quiet_insert (w w' : monitor D) h i c e s g :
  arrivals w' = arrivals w -> connections h !! i = Some c -> unsent e = unsent (conn c) -> quiet w h ->
  quiet w' (holding i (Connection e s) g h).
Proof.
  intros Ha Hc Hu [Har Hq]. split; [by rewrite Ha|]. intros j d. cbn [holding connections].
  destruct (decide (j = i)) as [->|]; [|rewrite lookup_insert_ne by done; apply Hq].
  rewrite lookup_insert_eq. intros [= <-]. cbn [conn]. rewrite Hu. by apply (Hq i).
Qed.

Lemma awake_insert i (w w' : monitor D) h E e s g :
  wf_monitor w -> awake w h E -> call_handler (addr i) w = Some (Going w') ->
  addr i ∈ ready w' \/ arrived e = [] -> awake w' (holding i (Connection e s) g h) E.
Proof.
  intros W A Hcall Hi j d Hd Hlive. cbn [holding connections] in Hd. destruct (decide (j = i)) as [->|Hj].
  - rewrite lookup_insert_eq in Hd. injection Hd as <-. cbn [conn]. tauto.
  - rewrite lookup_insert_ne in Hd by done. eapply awake_others; [done..|]. by intros _ ?%(inj _).
Qed.

(** A call of a handler in the state of the loop. *)
Definition call_result (p : Z) (w : monitor D) (h : house) (history : list (nat * call)) (rests : list (list call))
    (E : gset Z) (o : outcome D) : Prop :=
  match o with
  | Stopped _ => boundary h
  | Going w' => exists h' history' rests', runs h h' /\ represents w' h' /\ linear history' rests' h' /\ awake w' h' E /\
      (quiet w h -> quiet w' h' /\ shortened p rests rests' /\ (p ∈ ready w' -> pending p rests))
  end.

Lemma call_serves p (w : monitor D) h history rests E :
  wf_monitor w -> represents w h -> linear history rests h -> awake w h E -> p ∈ ready w ->
  exists o, call_handler p w = Some o /\ call_result p w h history rests E o.
Proof.
  intros W R HL A Hp. destruct (call_live p w h history rests W R HL) as [o Hcall]; [by eapply queue_live; [apply W|]|].
  exists o. split; [done|].
  destruct (call_handler_called p w h o W R Hcall) as [(ev & w' & Hev & Hh & -> & R' & Ha)|(i & c & r & e & -> & Hc & Hr & Hby)].
  { destruct (other_call_serves p ev w w' h history rests E) as [A' Hq]; [done..|]. exists h, history, rests.
    split_and!; [done..|]. intros (? & ? & ?)%Hq. by split_and!. }
  destruct (linear_rest _ _ _ _ _ HL Hc) as [rest Hrest].
  destruct (handler_outcome chunk cf al K kst fuel tr leaving Htr Hchunk Hfuel _ _ _ _ _ _ _ _ HL Hc Hrest) as (r' & e' & Hr' & Hcases).
  rewrite Hr in Hr'. injection Hr' as <- <-. pose proof (step_handle chunk cf al K kst fuel h i c r e Hc Hr) as Hstep.
  destruct Hcases as [s' Hu Har HL'|s' g call rest' Hu -> HL'|Hu -> Hin HL'|m code Hoff Hne];
    cbn [after_handler] in Hstep; (destruct o as [w'|fin]; unfold served_by in Hby; cbn [after_handler] in Hby;
      [destruct Hby as (Harr & Hrd & h' & [= <-] & R')| ]); try done; [..|by exists i, c].
  - do 3 eexists. split; [by apply rtc_once|]. split_and!; [done | done | apply awake_insert with (w := w); tauto|].
    intros Hq. split; [by eapply quiet_insert|]. split; [|done]. intros j. case_decide as Hj; [|by destruct (rests !! j)].
    apply (inj addr) in Hj as ->. rewrite Hrest. cbn [fmap option_fmap option_map]. f_equal.
    destruct (ln_connections _ _ _ _ _ _ _ _ HL' i (Connection e s')) as (rest1 & Hrest1 & Hf & _); [apply lookup_insert_eq|].
    simplify_eq. apply in_flight_done in Hf as [-> _]; [done|]. unfold to_come. cbn [conn]. rewrite Har, Hu. by apply Hq in Hc.
  - do 3 eexists. split; [by apply rtc_once|]. split_and!; [done | done | |].
    { eapply awake_insert; [exact W | done | exact Hcall|]. left. by rewrite Hrd. }
    intros Hq. split; [by eapply quiet_insert|]. split; [|intros _; by exists i, call, rest'].
    intros j. case_decide as Hj.
    + apply (inj addr) in Hj as ->. rewrite list_lookup_insert_eq by (by eapply lookup_lt_Some). by rewrite Hrest.
    + rewrite list_lookup_insert_ne by (intros ->; done). by destruct (rests !! j).
  - do 3 eexists. split; [by apply rtc_once|]. split_and!; [done | done | |].
    { intros j d Hd Hlive. cbn [parting connections] in Hd. apply lookup_delete_Some in Hd as [Hj Hd]. eapply awake_others; [done..|]. by intros _ ?%(inj _). }
    intros [Hq1 Hq2]. split; [split; [by rewrite Harr|]; intros j d Hd; cbn [parting connections] in Hd; by apply lookup_delete_Some in Hd as [_ Hd%Hq2]|].
    split; [|done]. intros j. case_decide as Hj; [|by destruct (rests !! j)].
    apply (inj addr) in Hj as ->. by rewrite Hrest.
Qed.

(** ** Rounds of the loop *)

Local Abbreviation bcd_io_enter := (bcd_io_enter (D := D) cf al None kst fuel).

Definition live (w : monitor D) (p : Z) : Prop := is_Some (events w !! p).

Lemma mark_ready_spec reported (w : monitor D) :
  Forall (live w) reported.*1 ->
  exists w', mark_ready reported w = Some w' /\ arrivals w' = arrivals w /\
    (length (ready w') <= length (ready w) + length reported)%nat /\
    (forall q, live w' q <-> live w q) /\ (forall q, q ∈ ready w \/ q ∈ reported.*1 -> wf_monitor w -> q ∈ ready w').
Proof.
  revert w. induction reported as [|[p m] reported IH]; intros w Hlive; cbn [mark_ready].
  { exists w. split_and!; [done | done | simpl; lia | done |]. intros q [|Hq] _; [done | by apply not_elem_of_nil in Hq]. }
  apply Forall_cons in Hlive as [[ev Hp] Hlive]. cbn [fst] in Hp. rewrite Hp. bind_simpl.
  set (w1 := update_event w p (event_set ev m)).
  assert (forall q, live w1 q <-> live w q) as Hlive1.
  { intros q. unfold live, w1. cbn [update_event with_events events].
    destruct (decide (q = p)) as [->|]; [rewrite lookup_insert_eq, Hp; split; by eexists | by rewrite lookup_insert_ne]. }
  assert (exists w2, bcd_io_event_add_to_ready_list w1 p = Some w2 /\ arrivals w2 = arrivals w /\
    (length (ready w2) <= S (length (ready w)))%nat /\ (forall q, live w2 q <-> live w1 q) /\
    (forall q, q ∈ ready w \/ q = p -> wf_monitor w -> q ∈ ready w2)) as (w2 & Hadd & Ha2 & Hlen2 & Hlive2 & Hrd2).
  { destruct (Hlive1 p) as [_ [ev1 Hev1]]; [by eexists|].
    assert (in_ready_list ev1 = in_ready_list ev) as Hmark.
    { unfold w1 in Hev1. cbn [update_event with_events events] in Hev1. rewrite lookup_insert_eq in Hev1. by injection Hev1 as <-. }
    unfold bcd_io_event_add_to_ready_list. rewrite Hev1. bind_simpl. destruct (in_ready_list ev1) eqn:Hm.
    - exists w1. split_and!; [done | done | unfold w1; simpl; lia | done |]. intros q [Hq | ->] W; [done|].
      apply (wm_queue _ W). exists ev. by rewrite <- Hmark.
    - eexists. split; [done|]. split_and!; [done | cbn; rewrite length_app; simpl; lia | |].
      + intros q. unfold live at 1. cbn [with_events events].
        destruct (decide (q = p)) as [->|]; [|by rewrite lookup_insert_ne].
        rewrite lookup_insert_eq. unfold live. rewrite Hev1. split; by eexists.
      + intros q Hq _. cbn [with_events ready]. unfold w1. cbn [update_event with_events ready]. set_solver. }
  rewrite Hadd. bind_simpl. destruct (IH w2) as (w' & Hw' & Ha' & Hlen' & Hlive' & Hrd').
  { eapply Forall_impl; [exact Hlive|]. intros q Hq. by apply Hlive2, Hlive1. }
  exists w'. split_and!; [done | by rewrite Ha' | simpl; lia | intros q; by rewrite Hlive', Hlive2, Hlive1 |].
  intros q Hq W. apply Hrd'.
  - cbn [fmap list_fmap fst] in Hq. rewrite elem_of_cons in Hq. destruct Hq as [Hq|[->|Hq]]; [left; auto | left; auto | by right].
  - assert (wf_monitor w1) as W1 by by eapply wf_update_event. by apply add_to_ready_spec in Hadd as [? _].
Qed.

(** The loop serves what the interleaving [h0] started with. *)
Definition in_service (h0 : house) (w : monitor D) (E : gset Z) : Prop :=
  exists h history rests, runs h0 h /\ represents w h /\ linear history rests h /\ awake w h E.

Lemma awake_marked (reported : list (Z * Z)) (w w' : monitor D) h E :
  wf_monitor w -> awake w h E ->
  (forall q, live w' q <-> live w q) -> (forall q, q ∈ ready w \/ q ∈ reported.*1 -> wf_monitor w -> q ∈ ready w') ->
  awake w' h (E ∖ list_to_set reported.*1).
Proof.
  intros W A Hlive Hrd i c Hc Hi%Hlive. destruct (A i c Hc Hi) as [Hin|[Hin|]]; [left; by auto | | by right; right].
  destruct (decide (addr i ∈ reported.*1)) as [|Hn]; [left; by auto | right; left]. set_solver.
Qed.

Lemma round_serves h0 n (w : monitor D) reported E :
  wf_monitor w -> in_service h0 w E -> no_error reported -> Forall (live w) reported.*1 ->
  (length (ready w) + length reported + length (new_events (arrivals w)) <= n)%nat ->
  exists r, bcd_io_enter n [inr reported] w = Some r /\
    match r with
    | LoopWaiting w' => wf_monitor w' /\ in_service h0 w' (E ∖ list_to_set reported.*1)
    | LoopStopped _ => exists h, runs h0 h /\ boundary h
    | LoopError _ _ => False
    end.
Proof.
  intros W (h & history & rests & Hruns & R & HL & A) Hno Hlive Hn.
  destruct (mark_ready_spec reported w Hlive) as (w1 & Hm & Ha & Hlen & Hl & Hrd).
  cbn [BcdEvents.bcd_io_enter]. rewrite Hm. bind_simpl.
  pose proof (mark_ready_wf D reported w w1 W Hm) as W1. apply mark_ready_same in Hm; [|done].
  set (E' := E ∖ list_to_set reported.*1).
  destruct (dispatch_ready_spec (D := D) cf al None kst fuel (fun _ w => in_service h0 w E')
    ltac:(clear - Hchunk Hfuel Htr HP; intros past p w (h & history & rests & Hruns & R & HL & A) W Hp;
      destruct (call_serves p w h history rests E' W R HL A Hp) as (o & Hcall & Hres); exists o; split; [done|];
      intros w' ->; destruct Hres as (h' & history' & rests' & Hruns' & R' & HL' & A' & _);
      exists h', history', rests'; split_and!; [by etrans | done..]) n w1 W1) as (o & called & Hd & Hs).
  { exists h, history, rests. split_and!; [done | by rewrite Hm | done | by apply (awake_marked reported w w1)]. }
  { rewrite Ha. lia. }
  rewrite Hd. bind_simpl. destruct o as [w'|fin]; eexists; (split; [done|]).
  - destruct Hs as (W' & Hs & _). by split.
  - destruct Hs as (_ & p & w2 & (h2 & history2 & rests2 & Hruns2 & R2 & HL2 & A2) & W2 & Hp & Hcall).
    destruct (call_serves p w2 h2 history2 rests2 E' W2 R2 HL2 A2 Hp) as (o & Hcall' & Hres).
    rewrite Hcall in Hcall'. injection Hcall' as <-. by exists h2.
Qed.

(** ** Rounds without news from epoll *)

Lemma quiet_ready p (w w' : monitor D) :
  wf_monitor w -> arrivals w = [] -> call_handler p w = Some (Going w') -> forall q, q ∈ ready w' -> q ∈ ready w.
Proof.
  intros W Ha Hcall q. destruct (call_handler_spec cf al None kst fuel p w w' W Hcall) as (_ & new & consumed & [Hrd Hc Hsub _]).
  rewrite Ha in Hc. symmetry in Hc. apply app_eq_nil in Hc as [-> _]. apply sublist_nil_r in Hsub as ->.
  rewrite !app_nil_r in Hrd. destruct Hrd as [-> | ->]; [done|]. by intros [_ ?]%list_elem_of_filter.
Qed.

Definition turns_of (j : nat) (past : list Z) : nat := length (filter (fun q => q = addr j) past).

Lemma turns_snoc j past p : turns_of j (past ++ [p]) = ((if decide (addr j = p) then 1 else 0) + turns_of j past)%nat.
Proof.
  unfold turns_of. rewrite filter_app, length_app, filter_cons, filter_nil. repeat case_decide; simpl; subst; first [lia | done].
Qed.

Lemma turns_in j past : addr j ∈ past -> (0 < turns_of j past)%nat.
Proof.
  intros Hin. unfold turns_of. assert (addr j ∈ filter (fun q => q = addr j) past) as Hf by by apply list_elem_of_filter.
  destruct (filter _ past); [by apply not_elem_of_nil in Hf | simpl; lia].
Qed.

(** The state of a loop that has everything it will ever get. *)
Record draining (h0 : house) (rests : list (list call)) (w : monitor D) : Prop := {
  dr_wf : wf_monitor w;
  dr_house : exists h history, runs h0 h /\ represents w h /\ linear history rests h /\ awake w h ∅ /\ quiet w h
}.

(** Within a round: how often each client has been called so far. *)
Definition in_round (h0 : house) (rests0 : list (list call)) (w0 : monitor D) (past : list Z) (w : monitor D) : Prop :=
  exists rests, draining h0 rests w /\ (forall j, rests !! j = drop (turns_of j past) <$> rests0 !! j) /\
    (forall p, p ∈ ready w -> p ∈ ready w0) /\ (forall p, p ∈ past -> p ∈ ready w -> pending p rests0).

Lemma in_round_call h0 rests0 w0 past p (w : monitor D) :
  in_round h0 rests0 w0 past w -> wf_monitor w -> p ∈ ready w ->
  exists o, call_handler p w = Some o /\
    match o with
    | Going w' => in_round h0 rests0 w0 (past ++ [p]) w'
    | Stopped _ => exists h, runs h0 h /\ boundary h
    end.
Proof.
  intros (rests & [_ (h & history & Hruns & R & HL & A & Hq)] & Hrests & Hsub & Hpast) W Hp.
  destruct (call_serves p w h history rests ∅ W R HL A Hp) as (o & Hcall & Hres). exists o. split; [done|].
  destruct o as [w'|fin]; [|by exists h].
  destruct Hres as (h' & history' & rests' & Hruns' & R' & HL' & A' & Hquiet).
  destruct (Hquiet Hq) as (Hq' & Hshort & Hpend). exists rests'.
  pose proof (quiet_ready p w w' W (proj1 Hq) Hcall) as Hback. split_and!.
  - split; [by apply (call_handler_spec cf al None kst fuel p w w' W Hcall)|].
    exists h', history'. split_and!; [by etrans | done..].
  - intros j. rewrite Hshort, Hrests, turns_snoc. destruct (rests0 !! j) as [rest|]; [|done].
    cbn [fmap option_fmap option_map]. f_equal. case_decide; [|done]. cbn [Nat.add].
    by rewrite <- Nat.add_1_r, <- drop_drop; destruct (drop _ rest).
  - auto.
  - intros q Hin Hrd. apply elem_of_app in Hin as [Hin| ->%list_elem_of_singleton]; [by auto|].
    destruct (Hpend Hrd) as (j & call & rest & -> & Hj). rewrite Hrests in Hj.
    destruct (rests0 !! j) as [[|call0 rest0]|] eqn:Hr0; simplify_eq/=; [by rewrite drop_nil in Hj|].
    by exists j, call0, rest0.
Qed.

Lemma forgotten_served h0 rests (w : monitor D) j rest :
  draining h0 rests w -> rests !! j = Some rest -> addr j ∉ ready w -> rest = [].
Proof.
  intros [W (h & history & _ & R & HL & A & Ha & Hu)] Hr Hn.
  destruct (rest_connected _ _ _ j rest HL Hr) as [[c Hc]|]; [|done].
  destruct (connected_event w h j c R Hc) as (ev & Hev & _); [rewrite Ha; set_solver|].
  destruct (A j c Hc) as [|[|Hemp]]; [by eexists | done | set_solver |].
  destruct (ln_connections _ _ _ _ _ _ _ _ HL j c Hc) as (rest' & Hr' & Hf & _). simplify_eq.
  apply in_flight_done in Hf as [? _]; [done|]. unfold to_come. by rewrite Hemp, (Hu j c Hc).
Qed.

Lemma drain_round h0 n rests (w : monitor D) :
  draining h0 rests w -> (length (ready w) <= n)%nat ->
  exists o called, bcd_io_event_dispatch_ready_list cf al None kst fuel n w = Some (o, called) /\
    match o with
    | Going w' => exists rests', draining h0 rests' w' /\ (length (ready w') <= n)%nat /\
        (forall p, p ∈ ready w' -> pending p rests) /\
        (forall j rest', rests' !! j = Some rest' ->
           exists rest, rests !! j = Some rest /\ (length rest' <= pred (length rest))%nat)
    | Stopped _ => exists h, runs h0 h /\ boundary h
    end.
Proof.
  intros Hdr Hn. pose proof (dr_wf _ _ _ Hdr) as W.
  assert (arrivals w = []) as Ha by (destruct (dr_house _ _ _ Hdr) as (h & history & _ & _ & _ & _ & Ha & _); exact Ha).
  destruct (dispatch_ready_spec (D := D) cf al None kst fuel (in_round h0 rests w)
    ltac:(clear - Hchunk Hfuel Htr HP; intros past p w' Hin W Hp;
      destruct (in_round_call h0 rests w past p w' Hin W Hp) as (o & Hcall & Hres); exists o; split; [done|];
      by intros w2 ->) n w W) as (o & called & Hd & Hs).
  { exists rests. split_and!; [done | intros j; by destruct (rests !! j) | done | by intros p Hp%not_elem_of_nil]. }
  { rewrite Ha. simpl. lia. }
  exists o, called. split; [done|]. destruct o as [w'|fin].
  - destruct Hs as (W' & (rests' & Hdr' & Hrests & Hsub & Hpast) & extra & consumed & -> & Hex & Hc).
    rewrite Ha in Hc. symmetry in Hc. apply app_eq_nil in Hc as [-> _]. apply sublist_nil_r in Hex as ->.
    rewrite app_nil_r in *. cbn [app] in *. exists rests'. split_and!; [done | | auto |].
    + etrans; [|exact Hn]. apply submseteq_length, NoDup_submseteq; [apply W' | done].
    + intros j rest' Hj. rewrite Hrests in Hj. destruct (rests !! j) as [rest|] eqn:Hr; [|done]. injection Hj as <-.
      exists rest. split; [done|]. rewrite length_drop. destruct (decide (addr j ∈ ready w)) as [Hin|Hin].
      * apply turns_in in Hin. lia.
      * rewrite (forgotten_served h0 rests w j rest Hdr Hr Hin). simpl. lia.
  - destruct Hs as (past & p & w' & Hin & W' & Hp & Hcall).
    destruct (in_round_call h0 rests w past p w' Hin W' Hp) as (o & Hcall' & Hres).
    rewrite Hcall in Hcall'. by injection Hcall' as <-.
Qed.

(** As many rounds as a client has requests left, and one to go to sleep. *)
Lemma drained h0 n N : forall rests (w : monitor D),
  draining h0 rests w -> (length (ready w) <= n)%nat -> Forall (fun rest => length rest <= N)%nat rests ->
  exists r, bcd_io_enter n (replicate (S N) (inr [])) w = Some r /\
    match r with
    | LoopWaiting w' => draining h0 ((fun _ => []) <$> rests) w' /\ ready w' = []
    | LoopStopped _ => exists h, runs h0 h /\ boundary h
    | LoopError _ _ => False
    end.
Proof.
  induction N as [|N IH]; intros rests w Hdr Hn Hlen.
  all: cbn [replicate BcdEvents.bcd_io_enter mark_ready]; bind_simpl;
    destruct (drain_round h0 n rests w Hdr Hn) as (o & called & -> & Ho); bind_simpl;
    (destruct o as [w1|fin]; [|by eexists]); destruct Ho as (rests1 & Hdr1 & Hn1 & Hpend & Hshort).
  all: assert (forall j, is_Some (rests1 !! j) <-> is_Some (rests !! j)) as Hdom by
    (destruct (dr_house _ _ _ Hdr) as (h & hist & _ & _ & HL & _), (dr_house _ _ _ Hdr1) as (h1 & hist1 & _ & _ & HL1 & _);
     intros j; pose proof (ln_scripts _ _ _ _ _ _ _ _ HL j) as E; rewrite (ln_scripts _ _ _ _ _ _ _ _ HL1 j) in E;
     destruct (rests !! j), (rests1 !! j); simplify_eq; split; by eauto).
  - exists (LoopWaiting w1). split; [done|].
    assert (forall j rest, rests !! j = Some rest -> rest = []) as Hnil.
    { intros j rest Hj. apply (Forall_lookup_1 _ _ _ _ Hlen) in Hj. by apply nil_length_inv; lia. }
    split.
    + replace ((fun _ => []) <$> rests) with rests1; [done|]. apply list_eq. intros j. rewrite list_lookup_fmap.
      specialize (Hdom j). destruct (rests1 !! j) as [rest1|] eqn:Hr1.
      * destruct (Hshort j rest1 Hr1) as (rest & Hr & Hl). rewrite Hr. simpl. f_equal.
        apply nil_length_inv. rewrite (Hnil j rest Hr) in Hl. simpl in Hl. lia.
      * destruct (rests !! j) eqn:Hr; [|done]. by destruct (proj2 Hdom ltac:(by eexists)).
    + destruct (ready w1) as [|p l] eqn:Hrd; [done|]. exfalso.
      destruct (Hpend p ltac:(left)) as (j & call & rest & _ & Hj). by apply Hnil in Hj.
  - destruct (IH rests1 w1 Hdr1 Hn1) as (r & Hr & Hres).
    { apply Forall_lookup. intros j rest1 Hr1. destruct (Hshort j rest1 Hr1) as (rest & Hr & Hl).
      apply (Forall_lookup_1 _ _ _ _ Hlen) in Hr. lia. }
    exists r. split; [exact Hr|]. destruct r as [| |w']; [done | done |].
    replace ((fun _ => []) <$> rests) with ((fun _ : list call => @nil call) <$> rests1); [done|].
    apply list_eq. intros j. rewrite !list_lookup_fmap. specialize (Hdom j).
    destruct (rests1 !! j), (rests !! j); simpl; try done;
      [by destruct (proj1 Hdom ltac:(by eexists)) | by destruct (proj2 Hdom ltac:(by eexists))].
Qed.

(** What is left of the clients of a loop that sleeps and has served everything. *)
Lemma asleep_served (w : monitor D) h history rests i :
  represents w h -> linear history rests h -> awake w h ∅ -> quiet w h -> ready w = [] -> rests !! i = Some [] ->
  if decide (i ∈ leaving) then
    events w !! addr i = None /\ links w !! fdn i = None /\
    written <$> departed h !! i = Some (acknowledgements (S (length (calls_of i history))))
  else exists e : link, links w !! fdn i = Some e /\ written e = acknowledgements (length (calls_of i history)).
Proof.
  intros R HL A [Ha Hu] Hrd Hr.
  destruct (ln_clients _ _ _ _ _ _ _ _ HL i) as [[c Hc]|[e He]]; [rewrite (ln_scripts _ _ _ _ _ _ _ _ HL), Hr; by eexists | |].
  - destruct (ln_connections _ _ _ _ _ _ _ _ HL i c Hc) as (rest & Hr' & Hf & _ & Hw). simplify_eq.
    assert (admitted i c ∉ arrivals w) as Hn by (rewrite Ha; apply not_elem_of_nil).
    destruct (connected_event w h i c R Hc Hn) as (ev & Hev & _).
    destruct (A i c Hc) as [Hin|[Hin|Hemp]]; [by eexists | rewrite Hrd in Hin; by apply not_elem_of_nil in Hin | set_solver |].
    apply in_flight_done in Hf as [_ Hin]; [|unfold to_come; by rewrite Hemp, (Hu i c Hc)]. rewrite decide_False by done.
    destruct (rp_client _ _ R i c Hc) as [(b & _ & Hl)|(_ & _ & ?)]; [by exists (conn c) | done].
  - destruct (ln_departed _ _ _ _ _ _ _ _ HL i e He) as (Hin & _ & _ & _ & Hw). rewrite decide_True by done.
    destruct (rp_departed _ _ R i) as (_ & Hs & Hl); [by eexists|]. rewrite He. cbn [fmap option_fmap option_map].
    rewrite Hw. split_and!; [|done..]. destruct (events w !! addr i) as [ev|] eqn:Hev; [|done].
    apply seen_lookup in Hev. congruence.
Qed.

(** ** Bytes arrive *)

Definition receive_at (i k : nat) (a : arrival D) : arrival D :=
  match a with
  | BcdEvents.Connection f link prepare event watched =>
      if decide (f = fdn i) then BcdEvents.Connection (D := D) f (deliver k link) prepare event watched else a
  | _ => a
  end.

(** At most [k] more bytes arrive at the descriptor of client [i], accepted or not. *)
Definition receive (i k : nat) (w : monitor D) : monitor D :=
  Monitor (D := D) (events w) (ready w) (alter (deliver k : dstate D -> dstate D) (fdn i) (links w))
    (receive_at i k <$> arrivals w) (meta w).

Lemma receive_new_events i k l : new_events (receive_at i k <$> l) = new_events l.
Proof.
  induction l as [|a l IH]; [done|]. rewrite fmap_cons, !new_events_cons, IH.
  destruct a; cbn [receive_at]; [done|]. by case_decide.
Qed.

Lemma receive_wf i k (w : monitor D) : wf_monitor w -> wf_monitor (receive i k w).
Proof. intros [Hq Hn Hf]. split; cbn [receive events ready arrivals]; rewrite ?receive_new_events; done. Qed.

Lemma receive_elsewhere i k a : elsewhere a -> receive_at i k a = a.
Proof. destruct a; cbn [elsewhere receive_at]; [done|]. intros (Hf & _). by rewrite decide_False. Qed.

Lemma receive_admitted i k j c :
  receive_at i k (admitted j c) = admitted j (if decide (j = i) then Connection (deliver k (conn c)) (session c) else c).
Proof.
  cbn [admitted receive_at]. destruct (decide (j = i)) as [->|Hj]; [by rewrite decide_True|].
  rewrite decide_False; [done|]. by intros ?%(inj _).
Qed.

Lemma receive_represents i k (w : monitor D) h c :
  represents w h -> connections h !! i = Some c ->
  represents (receive i k w) (holding i (Connection (deliver k (conn c)) (session c)) (shared h) h).
Proof.
  intros [R1 R2 R3 R4 R5] Hc. split; [done | | | |]; change (seen (receive i k w)) with (seen w); cbn [receive links arrivals holding connections departed].
  - intros j d Hd. destruct (decide (j = i)) as [->|Hj].
    + rewrite lookup_insert_eq in Hd. injection Hd as <-. cbn [conn session].
      destruct (R2 i c Hc) as [(b & Hb & Hl)|(Hs & Hw & Hin)]; [left; exists b | right].
      * split; [done|]. by rewrite lookup_alter_eq, Hl.
      * split_and!; [done | done |]. apply list_elem_of_fmap. exists (admitted i c). split; [|done].
        by rewrite receive_admitted, decide_True.
    + rewrite lookup_insert_ne in Hd by done. destruct (R2 j d Hd) as [(b & Hb & Hl)|(Hs & Hw & Hin)]; [left; exists b | right].
      * split; [done|]. rewrite lookup_alter_ne; [done|]. by intros ?%(inj _).
      * split_and!; [done | done |]. apply list_elem_of_fmap. exists (admitted j d). split; [|done].
        by rewrite receive_admitted, decide_False.
  - intros p f hd b Hl%R3. destruct hd; try done.
    + destruct Hl as (j & -> & Hj). exists j. split; [done|]. apply lookup_insert_is_Some'. by right.
    + rewrite lookup_alter_ne by apply placed_pipe. done.
  - intros a (a0 & -> & [(j & d & Hd & ->)|He]%R4)%list_elem_of_fmap; [left | right; by rewrite receive_elsewhere].
    rewrite receive_admitted. exists j. eexists. split; [|done]. case_decide as Hj; [|by rewrite lookup_insert_ne].
    subst j. simplify_eq. by rewrite lookup_insert_eq.
  - intros j (Hj & Hs & Hl)%R5. assert (j <> i) by congruence.
    rewrite lookup_insert_ne, lookup_alter_ne by first [done | by intros ?%(inj _)]. done.
Qed.

Lemma receive_nobody i k (w : monitor D) h : represents w h -> connections h !! i = None -> represents (receive i k w) h.
Proof.
  intros R Hc. assert (receive i k w = set_links w (alter (deliver k : dstate D -> dstate D) (fdn i) (links w))) as ->.
  { unfold receive, set_links. f_equal. rewrite <- (list_fmap_id (arrivals w)) at 2. apply list_fmap_ext. intros n a Ha.
    apply list_elem_of_lookup_2 in Ha. destruct (rp_arrival _ _ R a Ha) as [(j & d & Hd & ->)|He].
    - rewrite receive_admitted, decide_False; [done|]. intros ->. congruence.
    - by apply receive_elsewhere. }
  destruct R as [R1 R2 R3 R4 R5]. split; [done | | | done |]; cbn [set_links links arrivals];
    change (seen (set_links w _)) with (seen w).
  - intros j d Hd. rewrite lookup_alter_ne; [by apply R2|]. intros ->%(inj _). congruence.
  - intros p f hd b Hl%R3. destruct hd; try done. rewrite lookup_alter_ne by apply placed_pipe. done.
  - intros j (Hj & Hs & Hl)%R5. split_and!; [done | done|].
    destruct (decide (j = i)) as [->|Hji]; [by rewrite lookup_alter_eq, Hl|].
    rewrite lookup_alter_ne; [done|]. by intros ?%(inj _).
Qed.

(** ** Runs of the loop *)

(** What happens to a loop that waits: bytes arrive, or [epoll_wait] answers. *)
Inductive happening := Bytes (i k : nat) | Wait (answer : Z + list (Z * Z)).

Definition ordinary (x : happening) : Prop := match x with Wait (inr reported) => no_error reported | _ => True end.

(** Enough calls for one round. *)
Definition calls_for (w : monitor D) (reported : list (Z * Z)) : nat :=
  (length (ready w) + length reported + length (new_events (arrivals w)))%nat.

(** The second component is the edges that epoll has yet to report. *)
Definition happens (x : happening) (st : monitor D * gset Z) : option (monitor D * gset Z) :=
  let '(w, E) := st in
  match x with
  | Bytes i k => Some (receive i k w, if decide (is_Some (events w !! addr i)) then {[addr i]} ∪ E else E)
  | Wait answer =>
      let reported := match answer with inl _ => [] | inr reported => reported end in
      match bcd_io_enter (calls_for w reported) [answer] w with
      | Some (LoopWaiting w) => Some (w, E ∖ list_to_set reported.*1)
      | _ => None
      end
  end.

Fixpoint after (l : list happening) (st : monitor D * gset Z) : option (monitor D * gset Z) :=
  match l with
  | [] => Some st
  | x :: l => st ← happens x st; after l st
  end.

Lemma mark_ready_live reported (w w' : monitor D) : mark_ready reported w = Some w' -> Forall (live w) reported.*1.
Proof.
  revert w. induction reported as [|[p m] reported IH]; intros w; cbn [mark_ready fmap list_fmap]; [constructor|].
  intros (ev & Hp & (w1 & Hadd & Hm%IH)%bind_Some)%bind_Some. constructor; [by eexists|].
  eapply Forall_impl; [exact Hm|]. intros q Hq. apply add_same in Hadd as [Hs _ _ _]. unfold live in *.
  destruct Hq as [ev' Hev']. apply seen_lookup in Hev'. rewrite Hs, seen_insert in Hev'.
  destruct (decide (q = p)) as [->|]; [by eexists|]. rewrite lookup_insert_ne in Hev' by done.
  apply (seen_event w q _ _ _) in Hev' as (ev2 & -> & _). by eexists.
Qed.

Lemma receive_serves h0 i k (w : monitor D) E :
  in_service h0 w E ->
  in_service h0 (receive i k w) (if decide (is_Some (events w !! addr i)) then {[addr i]} ∪ E else E).
Proof.
  intros (h & history & rests & Hruns & R & HL & A). set (E' := if decide _ then _ else _).
  assert (E ⊆ E') as HE by (unfold E'; case_decide; set_solver).
  destruct (connections h !! i) as [c|] eqn:Hc.
  - eexists. exists history, rests. split_and!; [| by apply receive_represents | |].
    + etrans; [exact Hruns|]. apply rtc_once. by constructor.
    + destruct (ln_connections _ _ _ _ _ _ _ _ HL i c Hc) as (rest & Hrest & Hf & _).
      by eapply linear_keep; [| | | apply in_flight_deliver | |].
    + intros j d Hd Hl. cbn [receive events ready holding connections] in *. destruct (decide (j = i)) as [->|Hj].
      * right. left. unfold E'. rewrite decide_True by done. set_solver.
      * rewrite lookup_insert_ne in Hd by done. destruct (A j d Hd Hl) as [|[|]]; [by left | right; left; auto | by right; right].
  - exists h, history, rests. split_and!; [done | by apply receive_nobody | done |].
    intros j d Hd Hl. destruct (A j d Hd Hl) as [|[|]]; [by left | right; left; auto | by right; right].
Qed.

Lemma after_serves h0 l : Forall ordinary l -> forall (w : monitor D) E w' E',
  wf_monitor w -> in_service h0 w E -> after l (w, E) = Some (w', E') -> wf_monitor w' /\ in_service h0 w' E'.
Proof.
  induction 1 as [|x l Hx _ IH]; intros w E w' E' W S; cbn [after]; [by intros [= <- <-]|].
  intros ([w1 E1] & H1 & Hl)%bind_Some. apply (IH w1 E1 w' E'); [..|exact Hl]; clear IH Hl; destruct x as [i k|[errno|reported]];
    cbn [happens] in H1.
  1,4: injection H1 as <- <-; first [by apply receive_wf | by apply receive_serves].
  1,3: cbn [BcdEvents.bcd_io_enter] in H1; case_decide; [|done]; injection H1 as <- <-;
    first [done | by rewrite difference_empty_L].
  all: destruct (bcd_io_enter _ _ w) as [r|] eqn:Hr; [|done]; destruct r as [| |w2]; try done; injection H1 as <- <-;
    assert (Forall (live w) reported.*1) as Hlive by
      (cbn [BcdEvents.bcd_io_enter] in Hr; apply bind_Some in Hr as (? & Hm & _); by eapply mark_ready_live);
    destruct (round_serves h0 (calls_for w reported) w reported E W S Hx Hlive) as (r & Hr' & Hres); [done|];
    rewrite Hr in Hr'; injection Hr' as <-; apply Hres.
Qed.
End Representation.

(** The monitor that [bcd_child] takes to its loop, with the clients that will connect. *)
Definition waiting (chunk : nat) (addr fdn : nat -> Z) (leaving : gset nat) (scripts : list (list call)) :
    list (arrival (wire chunk)) :=
  imap (fun i script =>
    admitted chunk addr fdn i (Connection (Link [] (stream script ++ farewell leaving i) []) new_session)) scripts.

Lemma started_connection leaving scripts g i c :
  connections (start leaving scripts g) !! i = Some c -> session c = new_session /\ written (conn c) = [] /\ arrived (conn c) = [].
Proof. cbn [start connections]. rewrite lookup_map_seq_0, list_lookup_imap. by intros (script & _ & ->)%fmap_Some. Qed.

Lemma waiting_lookup chunk addr fdn leaving scripts g i :
  waiting chunk addr fdn leaving scripts !! i = admitted chunk addr fdn i <$> connections (start leaving scripts g) !! i.
Proof.
  unfold waiting. rewrite list_lookup_imap. cbn [start connections]. rewrite lookup_map_seq_0, list_lookup_imap.
  by destruct (scripts !! i).
Qed.

Lemma waiting_represents chunk addr fdn pipe leaving scripts (w : monitor (wire chunk)) :
  Placed addr fdn pipe -> arrivals w = waiting chunk addr fdn leaving scripts ->
  (forall p f hd b, seen w !! p = Some (f, hd, b) ->
    match hd with
    | Client _ => False
    | Watch => b = false
    | Fatal => f = pipe /\ exists e : dstate (wire chunk), links w !! pipe = Some e /\ arrived e = []
    | Accept => True
    end) ->
  represents chunk addr fdn pipe w (start leaving scripts (meta w)).
Proof.
  intros HP Ha Hev. split; [done | | | | by intros i [? ?]].
  - intros i c Hc. right. destruct (started_connection _ _ _ _ _ Hc) as (Hs & Hw & _).
    split_and!; [done | done |]. rewrite Ha. apply list_elem_of_lookup. exists i.
    by rewrite (waiting_lookup _ _ _ _ _ (meta w)), Hc.
  - intros p f hd b Hp. specialize (Hev p f hd b Hp). by destruct hd.
  - intros a Hin. left. rewrite Ha in Hin. apply list_elem_of_lookup in Hin as (i & Hi).
    rewrite (waiting_lookup _ _ _ _ _ (meta w)) in Hi. apply fmap_Some in Hi as (c & Hc & ->). by exists i, c.
Qed.

Lemma entered_represents chunk addr fdn cf path a fuel (w : monitor (wire chunk)) sb h fd h' w' sb' sent leaving scripts :
  Placed addr fdn (BcdClient.read_end (BcdMonitor.master a)) ->
  writable (wire chunk) sent -> events w = ∅ -> ready w = [] -> NoDup (new_events (arrivals w)) ->
  BcdMonitor.events_apart a w -> arrivals w = waiting chunk addr fdn leaving scripts ->
  links w !! BcdClient.read_end (BcdMonitor.master a) = Some (Link [] [] [] : dstate (wire chunk)) ->
  BcdMonitor.enter_service cf path a fuel w sb h fd = Some (inr (h', w', sb')) ->
  wf_monitor w' /\ ready w' <> [] /\
  represents chunk addr fdn (BcdClient.read_end (BcdMonitor.master a)) w' (start leaving scripts (meta w)).
Proof.
  intros HP HD He Hr Hnew Hapart Ha Hl Hs.
  destruct (BcdMonitor.service_entered _ _ _ _ _ _ _ _ _ _ _ _ _ HD He Hr Hnew Hapart Hs)
    as (p1 & p2 & p3 & _ & Hr' & Hev & [Ha' Hl' Hm'] & W' & _).
  split; [done|]. split; [by rewrite Hr'|]. rewrite <- Hm'. apply waiting_represents; [done | by rewrite Ha' |].
  intros p f hd b (ev & Hp & <- & <- & <-)%seen_event. rewrite Hev in Hp. apply elem_of_list_to_map_2 in Hp.
  rewrite !elem_of_cons in Hp. destruct Hp as [[= -> ->]|[[= -> ->]|[[= -> ->]|Hp]]]; [done | done | | by apply not_elem_of_nil in Hp].
  split; [done|]. exists (Link [] [] []). by rewrite Hl'.
Qed.

Lemma start_in_service chunk addr fdn pipe cf al K kst fuel tr leaving scripts g w0 :
  Forall (Forall (sendable tr)) scripts -> wf g -> space tr (concat scripts) g ->
  represents chunk addr fdn pipe w0 (start leaving scripts g) ->
  in_service chunk addr fdn pipe cf al K kst fuel tr leaving scripts (table_of 0 g) (start leaving scripts g) w0 ∅.
Proof.
  intros. exists (start leaving scripts g), [], scripts. split_and!; [done | done | by apply start_linear |].
  intros i c Hc _. right. right. by destruct (started_connection _ _ _ _ _ Hc) as (_ & _ & ?).
Qed.

(** C9: The event loop refines the interleaving of its clients, and forgets none of them. After any sequence of arriving
    bytes and answers of [epoll_wait], edge-triggered and in any order, the state of the loop stands for a reachable state of
    the interleaving in which each of its calls is a step, so that its requests are served in a sequential
    order; a client that is not on the ready list has nothing to be read or an edge that epoll has yet to report. A further
    answer, about live events and without errors, is dealt with within as many calls of handlers as there are ready and reported
    events and waiting connections: the loop waits again, or a client has sent exactly a header and then more. *)
Theorem loop_linearised chunk addr fdn pipe cf al K kst fuel tr leaving scripts g w0 l w E :
  Placed addr fdn pipe -> (0 < chunk)%nat -> (1048 < fuel)%nat -> traces cf al K kst fuel tr ->
  Forall (Forall (sendable tr)) scripts -> wf g -> space tr (concat scripts) g ->
  wf_monitor w0 -> represents chunk addr fdn pipe w0 (start leaving scripts g) ->
  Forall ordinary l -> after chunk addr fdn cf al K kst fuel l (w0, ∅) = Some (w, E) ->
  wf_monitor w /\
  (exists h, runs chunk cf al K kst fuel (start leaving scripts g) h /\ represents chunk addr fdn pipe w h /\
     awake chunk addr w h E) /\
  forall reported, no_error reported -> Forall (live chunk w) reported.*1 ->
    exists r, bcd_io_enter (D := wire chunk) cf al None kst fuel (calls_for chunk w reported) [inr reported] w = Some r /\
      ((exists w', r = LoopWaiting w') \/
       (exists finish h, r = LoopStopped finish /\ runs chunk cf al K kst fuel (start leaving scripts g) h /\ boundary h)).
Proof.
  intros HP Hchunk Hfuel Htr Hs Wg Hspace W R Hl Hafter.
  destruct (after_serves chunk addr fdn pipe cf al K kst fuel tr leaving scripts (table_of 0 g) Hchunk Hfuel Htr
    (start leaving scripts g) l Hl w0 ∅ w E W) as [W' S]; [by apply start_in_service | done |].
  split; [done|]. split; [by destruct S as (h & _ & _ & ? & ? & _ & ?); exists h|].
  intros reported Hno Hlive.
  destruct (round_serves chunk addr fdn pipe cf al K kst fuel tr leaving scripts (table_of 0 g) Hchunk Hfuel Htr
    (start leaving scripts g) (calls_for chunk w reported) w reported E W' S Hno Hlive) as (r & Hr & Hres); [done|].
  exists r. split; [done|]. destruct r as [| finish | w1]; [done | | left; by eexists].
  right. destruct Hres as (h & ? & ?). by exists finish, h.
Qed.

(** C8: When all bytes have arrived the loop serves all requests and goes to sleep. From a state that the loop has come
    to, with every client accepted, all bytes there and every edge of a live event reported, one round more than any client
    has requests leads to a state in which the ready list is empty and [epoll_wait] waits for ever, the
    metadata are the abstract table after a sequential order of all requests, each client has been sent one
    acknowledgement for each request of its script, and the clients that detach are gone, acknowledged once more, their
    descriptor closed and their event released - unless a client has sent exactly a header and then more. Rounds with an
    empty ready list change nothing. *)
Theorem loop_serves chunk addr fdn pipe cf al K kst fuel tr leaving scripts g w0 l w E n N :
  Placed addr fdn pipe -> (0 < chunk)%nat -> (1048 < fuel)%nat -> traces cf al K kst fuel tr ->
  Forall (Forall (sendable tr)) scripts -> wf g -> space tr (concat scripts) g ->
  wf_monitor w0 -> represents chunk addr fdn pipe w0 (start leaving scripts g) ->
  Forall ordinary l -> after chunk addr fdn cf al K kst fuel l (w0, ∅) = Some (w, E) ->
  (forall p, p ∈ E -> events w !! p = None) ->
  arrivals w = [] -> (forall i (e : link), links w !! fdn i = Some e -> unsent e = []) ->
  (length (ready w) <= n)%nat -> Forall (fun script => length script <= N)%nat scripts ->
  exists r, bcd_io_enter (D := wire chunk) cf al None kst fuel n (replicate (S N) (inr [])) w = Some r /\
    match r with
    | LoopWaiting w' =>
        epoll_timeout w' = -1 /\
        exists h history, let t := (answers tr history.*2 (table_of 0 g)).2 in
          runs chunk cf al K kst fuel (start leaving scripts g) h /\ represents chunk addr fdn pipe w' h /\
          table_of (thread t) (meta w') = t /\
          forall i script, scripts !! i = Some script -> calls_of i history = script /\
            if decide (i ∈ leaving) then
              events w' !! addr i = None /\ links w' !! fdn i = None /\
              written <$> departed h !! i = Some (acknowledgements (S (length script)))
            else exists e : link, links w' !! fdn i = Some e /\ written e = acknowledgements (length script)
    | LoopStopped _ => exists h, runs chunk cf al K kst fuel (start leaving scripts g) h /\ boundary h
    | LoopError _ _ => False
    end.
Proof.
  intros HP Hchunk Hfuel Htr Hs Wg Hspace W R Hl Hafter HE Ha Hu Hn HN.
  destruct (after_serves chunk addr fdn pipe cf al K kst fuel tr leaving scripts (table_of 0 g) Hchunk Hfuel Htr
    (start leaving scripts g) l Hl w0 ∅ w E W) as [W' (h & history & rests & Hruns & R' & HL & A)];
    [by apply start_in_service | done |].
  assert (quiet chunk w h) as Hq.
  { split; [done|]. intros i c Hc. destruct (rp_client _ _ _ _ _ _ R' i c Hc) as [(b & _ & Hlink)|(_ & _ & Hin)].
    - by apply (Hu i).
    - rewrite Ha in Hin. by apply not_elem_of_nil in Hin. }
  assert (awake chunk addr w h ∅) as A'.
  { intros i c Hc [ev Hev]. destruct (A i c Hc) as [|[Hin%HE|]]; [by eexists | by left | congruence | by right; right]. }
  destruct (drained chunk addr fdn pipe cf al K kst fuel tr leaving scripts (table_of 0 g) Hchunk Hfuel Htr
    (start leaving scripts g) n N rests w) as (r & Hr & Hres); [by split; [done|]; exists h, history | done | |].
  { apply Forall_lookup. intros i rest Hrest. pose proof (ln_scripts _ _ _ _ _ _ _ _ HL i) as E1. rewrite Hrest in E1.
    apply (Forall_lookup_1 _ _ _ _ HN) in E1. rewrite length_app in E1. lia. }
  exists r. split; [done|]. destruct r as [| |w']; [done | done |]. destruct Hres as [Hdr Hrd].
  split; [unfold epoll_timeout; by rewrite Hrd|].
  destruct (dr_house _ _ _ _ _ _ _ _ _ _ _ _ _ _ _ _ Hdr) as (h' & history' & Hruns' & R2 & HL' & A2 & Hq2).
  exists h', history'. cbv zeta. rewrite (rp_meta _ _ _ _ _ _ R2).
  split_and!; [done | done | apply (ln_table _ _ _ _ _ _ _ _ HL')|]. intros i script Hi.
  pose proof (ln_scripts _ _ _ _ _ _ _ _ HL' i) as E1. rewrite Hi, list_lookup_fmap in E1.
  destruct (rests !! i) eqn:Hri; [|done]. injection E1 as E1. rewrite app_nil_r in E1. split; [done|]. rewrite E1.
  eapply asleep_served; [done.. | by rewrite list_lookup_fmap, Hri].
Qed.

(** ** Witnesses *)

(** The listener, the pipe to the program and the pipe of [bcd_fatal], and two clients that wait at the listener. *)
Definition sample_addr (i : nat) : Z := 10 + Z.of_nat i.
Definition sample_fd (i : nat) : Z := 7 + Z.of_nat i.

#[export] Instance sample_placed : Placed sample_addr sample_fd 6.
Proof. split; [intros i j; unfold sample_addr; lia | intros i j; unfold sample_fd; lia | intros i; unfold sample_fd; lia]. Qed.

Definition service_events : list (Z * bcd_io_event) :=
  [(1, Event 3 0 Accept true); (2, Event 4 0 Watch true); (5, Event 6 0 Fatal false)].
Definition service_monitor : monitor (wire 1000) :=
  Monitor (D := wire 1000) (list_to_map service_events) [1; 2] {[6 := Link [] [] [] : dstate (wire 1000)]}
    (waiting 1000 sample_addr sample_fd sample_leaving sample_scripts) no_metadata.

Lemma service_monitor_wf : wf_monitor service_monitor.
Proof.
  apply (wf_monitor_list _ service_events); [reflexivity | by_compute | by_compute | reflexivity | by_compute | by_compute].
Qed.

Lemma service_monitor_represents :
  represents 1000 sample_addr sample_fd 6 service_monitor (start sample_leaving sample_scripts no_metadata).
Proof.
  apply (waiting_represents 1000 sample_addr sample_fd 6 sample_leaving sample_scripts service_monitor); [apply _ | done |].
  intros p f hd b (ev & Hev & <- & <- & <-)%seen_event. apply elem_of_list_to_map_2 in Hev.
  unfold service_events in Hev. rewrite !elem_of_cons in Hev.
  destruct Hev as [[= -> ->]|[[= -> ->]|[[= -> ->]|Hev]]]; [done | done | | by apply not_elem_of_nil in Hev].
  split; [done|]. by exists (Link [] [] []).
Qed.

(** The clients are accepted, one with a part of its bytes; the rest arrives, and epoll reports it. *)
Definition sample_happenings : list happening :=
  [Wait (inr [(1, EPOLLIN)]); Bytes 0 5; Wait (inl EINTR); Wait (inr [(10, EPOLLIN)]); Bytes 0 100; Bytes 1 100;
   Wait (inr [(10, EPOLLIN); (11, EPOLLIN)])].

Definition sample_after (l : list happening) : option (monitor (wire 1000) * gset Z) :=
  after 1000 sample_addr sample_fd intercepting all_succeed (stopping_kernel 0) 0%nat 1100 l (service_monitor, ∅).

Definition sample_drained : option loop_end :=
  match sample_after sample_happenings with
  | Some (w, _) =>
      bcd_io_enter (D := wire 1000) intercepting all_succeed None (K := stopping_kernel 0) 0%nat 1100 10 (replicate 4 (inr [])) w
  | None => None
  end.

Lemma sample_ordinary : Forall ordinary sample_happenings.
Proof. repeat constructor. Qed.

Lemma loop_linearised_witness :
  exists w E (history : list (nat * call)), sample_after sample_happenings = Some (w, E) /\
    table_of (thread (answers Intercepted history.*2 (table_of 0 no_metadata)).2) (meta w) = (answers Intercepted history.*2 (table_of 0 no_metadata)).2.
Proof.
  destruct (sample_after sample_happenings) as [[w E]|] eqn:Hafter; [|vm_compute in Hafter; discriminate Hafter].
  destruct (loop_linearised 1000 sample_addr sample_fd 6 intercepting all_succeed (stopping_kernel 0) 0%nat 1100 Intercepted sample_leaving sample_scripts
    no_metadata service_monitor sample_happenings w E sample_placed) as (_ & (h & Hruns & R & _) & _);
    [by_compute | by_compute | exact intercepting_intercepts | by apply sample_sendable | by_compute | by_compute | exact service_monitor_wf |
     exact service_monitor_represents | exact sample_ordinary | exact Hafter |].
  destruct (runs_linear 1000 intercepting all_succeed (stopping_kernel 0) 0%nat 1100 Intercepted sample_leaving sample_scripts no_metadata h)
    as (history & rests & HL); [by_compute | by_compute | exact intercepting_intercepts | by apply sample_sendable | by_compute | by_compute | exact Hruns |].
  exists w, E, history. split; [reflexivity|]. rewrite (rp_meta _ _ _ _ _ _ R). apply (ln_table _ _ _ _ _ _ _ _ HL).
Defined.

Lemma loop_serves_witness :
  exists w', sample_drained = Some (LoopWaiting w') /\ epoll_timeout w' = -1 /\
    events w' !! sample_addr 1 = None /\ links w' !! sample_fd 1 = None /\
    exists history, calls_of 0 history = [SetThread 7; SetPair (bytes_of "a") (bytes_of "1"); Trace true] /\
      calls_of 1 history = [SetPair (bytes_of "a") (bytes_of "2")].
Proof.
  unfold sample_drained.
  destruct (sample_after sample_happenings) as [[w E]|] eqn:Hafter; [|vm_compute in Hafter; discriminate Hafter].
  destruct (loop_serves 1000 sample_addr sample_fd 6 intercepting all_succeed (stopping_kernel 0) 0%nat 1100 Intercepted sample_leaving
    sample_scripts no_metadata service_monitor sample_happenings w E 10 3 sample_placed) as (r & Hr & Hres);
    [by_compute | by_compute | exact intercepting_intercepts | by apply sample_sendable | by_compute | by_compute | exact service_monitor_wf |
     exact service_monitor_represents | exact sample_ordinary | exact Hafter | | | | | by_compute |].
  - intros p Hp. assert (E = ∅) as HE by (vm_compute in Hafter; injection Hafter as _ <-; reflexivity). rewrite HE in Hp. destruct (not_elem_of_empty (C := gset Z) p Hp).
  - vm_compute in Hafter. by injection Hafter as <-.
  - intros i e. assert (map_Forall (fun _ e => unsent e = []) (links w : gmap Z link)) as Hall
      by (vm_compute in Hafter; injection Hafter as <-; by_compute).
    apply Hall.
  - vm_compute in Hafter. injection Hafter as <-. by_compute.
  - rewrite Hr. vm_compute in Hafter. injection Hafter as <-. vm_compute in Hr. injection Hr as <-.
    destruct Hres as (Ht & h & history & _ & _ & _ & Hcalls). eexists. split; [reflexivity|]. split; [exact Ht|].
    split; [reflexivity|]. split; [reflexivity|].
    exists history. split; [apply (Hcalls 0%nat _ eq_refl) | apply (Hcalls 1%nat _ eq_refl)].
Defined.
