(* ===== verification/BcdLive.v ===== *)
(** * Every request is served in the end (src/external/bcd/bcd-amalgamated.c)

    Infinite executions of the monitor of [BcdInterleave] with several clients. If bytes keep arriving and the
    handler keeps being called for every client, all requests are served, and the clients that detach depart: a measure
    of what a client has still to send and to have read only ever shrinks, and the next fair step shrinks it. *)

From S2P Require Import Prelude.
From S2P Require Import Memory.
From S2P Require Import BcdMeta.
From S2P Require Import BcdTracer.
From S2P Require Import BcdChannel.
From S2P Require Import BcdSession.
From S2P Require Import BcdRequest.
From S2P Require Import BcdInterleave.

(** Every client gets its turn again and again: at least one byte arrives, and the handler is called. *)
Record fair (clients : nat) (acts : nat -> action) : Prop := {
  fair_arrive i n : (i < clients)%nat -> exists m k, (n <= m)%nat /\ (0 < k)%nat /\ acts m = Arrive i k;
  fair_handle i n : (i < clients)%nat -> exists m, (n <= m)%nat /\ acts m = Handle i
}.

(** ** What a call of the handler does to a connection *)

Section Handler.
Context (chunk : nat) (cf : invoke) (al : allocations) (K : kernel) (kst : kstate K) (monitor_fuel : nat).
Hypothesis Hchunk : (0 < chunk)%nat.

Lemma wire_read_shrinks fuel s ac target buf e r e' :
  read_request_loop (wire chunk) fuel s ac target buf e = Some (r, e') ->
  (length (arrived e') <= length (arrived e))%nat /\
  (terminated s = false -> arrived e <> [] -> (exists m code, r = ChildExit m code) \/
    (length (arrived e') < length (arrived e))%nat).
Proof.
  revert ac target buf e. induction fuel as [|fuel IH]; intros ac target buf [i u o]; [done|].
  cbn [read_request_loop wire sys_read arrived]. destruct i as [|b i].
  - rewrite decide_False by done. rewrite decide_True by done. by intros [= <- <-].
  - set (bs := take _ (b :: i)). set (rest := drop _ (b :: i)).
    assert (length bs + length rest = length (b :: i))%nat as Hl by (rewrite <- length_app; unfold bs, rest; by rewrite take_drop).
    destruct bs as [|x bs].
    + simpl in Hl. destruct (terminated s); intros [= <- <-]; cbn [arrived]; (split; [simpl; lia|]); [done|].
      intros _ _. left. by do 2 eexists.
    + cbn [length] in Hl.
      assert (forall r' e1, (read_request_loop (wire chunk) fuel s r' e1 (overwrite buf ac (x :: bs)) (Link rest u o)) = Some (r, e') ->
        (length (arrived e') <= length (b :: i))%nat /\
        (terminated s = false -> b :: i <> [] -> (exists m code, r = ChildExit m code) \/
          (length (arrived e') < length (b :: i))%nat)) as Hagain.
      { intros r' e1 [H _]%IH. cbn [arrived length] in *. split; [lia|]. intros _ _. right. lia. }
      repeat case_decide; first [by apply Hagain | intros [= <- <-]; cbn [arrived length] in *; split; [lia|]; intros _ _;
        first [by left; do 2 eexists | right; lia]].
Qed.

Lemma wire_write_link fuel s ac e r e' :
  write_ack_loop (wire chunk) fuel s ac e = Some (r, e') -> arrived e' = arrived e /\ unsent e' = unsent e.
Proof.
  revert ac e. induction fuel as [|fuel IH]; intros ac [i u o]; [done|].
  cbn [write_ack_loop wire sys_write arrived unsent written].
  repeat case_decide; first [by intros [= <- <-] | by intros ?%IH].
Qed.

(** The handler takes at least one byte, if there is one, or ends the monitor. *)
Lemma handler_link i h s e r e' h' :
  state s = BCD_SESSION_READING -> terminated s = false ->
  bcd_handler_request_response (wire chunk) cf al K None monitor_fuel s e kst (shared h) = Some (r, e') ->
  after_handler i h r e' = Some h' ->
  unsent e' = unsent e /\ (length (arrived e') <= length (arrived e))%nat /\
  (arrived e <> [] -> (length (arrived e') < length (arrived e))%nat).
Proof.
  intros Hst Hl. unfold bcd_handler_request_response. rewrite Hst. intros Hh Ha.
  apply bind_Some in Hh as ([rr e1] & Hr & Hh).
  pose proof Hr as (_ & Hu & _)%wire_read_loop. apply wire_read_shrinks in Hr as [Hle Hlt].
  specialize (Hlt Hl).
  assert (unsent e' = unsent e1 /\ arrived e' = arrived e1 /\ forall m code, rr <> ChildExit m code) as (-> & -> & Hne).
  { destruct rr as [s1|s1|m code]; [|by simplify_eq | by simplify_eq].
    destruct (terminated s1); [by simplify_eq|]. apply bind_Some in Hh as ([s2 g2|fin] & _ & Hh); [|by simplify_eq].
    unfold write_phase in Hh. apply bind_Some in Hh as ([w e2] & Hw & Hh). apply wire_write_link in Hw as [Hwa Hwu].
    destruct w; by simplify_eq. }
  split_and!; [done | done |]. intros Hne'. destruct (Hlt Hne') as [(m & code & ->)|?]; [by edestruct Hne | done].
Qed.
End Handler.

(** ** Sequences of numbers *)

(** A number that never grows and shrinks again and again becomes 0 and stays so. *)
Lemma settles (f : nat -> nat) N :
  (forall n, (N <= n)%nat -> (f (S n) <= f n)%nat) ->
  (forall n, (N <= n)%nat -> exists m, (n <= m)%nat /\ (f m = 0%nat \/ (f (S m) < f m)%nat)) ->
  exists n, (N <= n)%nat /\ forall m, (n <= m)%nat -> f m = 0%nat.
Proof.
  intros Hdown Hagain.
  assert (forall n d, (N <= n)%nat -> (f (d + n)%nat <= f n)%nat) as Hle.
  { intros n d Hn. induction d as [|d IH]; simpl; [lia|]. pose proof (Hdown (d + n)%nat). lia. }
  assert (forall n, (N <= n)%nat -> exists m, (n <= m)%nat /\ f m = 0%nat) as Hzero.
  { intros n. remember (f n) as x eqn:Hx. revert n Hx. induction x as [x IH] using lt_wf_ind. intros n -> Hn.
    destruct (Hagain n Hn) as (m & Hm & [H0|Hlt]); [by exists m|].
    pose proof (Hle n (m - n)%nat Hn). replace (m - n + n)%nat with m in * by lia.
    destruct (IH (f (S m)) ltac:(lia) (S m) eq_refl ltac:(lia)) as (m' & ? & ?). exists m'. split; [lia | done]. }
  destruct (Hzero N ltac:(lia)) as (n & Hn & H0). exists n. split; [done|]. intros m Hm.
  pose proof (Hle n (m - n)%nat Hn). replace (m - n + n)%nat with m in * by lia. lia.
Qed.

(** What holds from some time on for each of finitely many holds from some time on for all. *)
Lemma eventually_all (P : nat -> nat -> Prop) k :
  (forall i, (i < k)%nat -> exists n, forall m, (n <= m)%nat -> P i m) ->
  exists n, forall i m, (i < k)%nat -> (n <= m)%nat -> P i m.
Proof.
  induction k as [|k IH]; intros H; [exists 0%nat; lia|].
  destruct IH as [n Hn]; [intros i ?; apply H; lia|]. destruct (H k ltac:(lia)) as [n' Hn'].
  exists (n `max` n')%nat. intros i m Hi Hm. destruct (decide (i = k)) as [->|]; [apply Hn' | apply Hn]; lia.
Qed.

(** ** Infinite executions *)

Section Execution.
Context (chunk : nat) (cf : invoke) (al : allocations) (K : kernel) (kst : kstate K) (monitor_fuel : nat).
Context (tr : tracing) (leaving : gset nat) (scripts : list (list call)) (g : metadata) (acts : nat -> action) (run : nat -> house).

Definition executes : Prop :=
  run 0%nat = start leaving scripts g /\
  forall n, perform_action chunk cf al K kst monitor_fuel (acts n) (run n) = Some (run (S n)).

(** The descriptor of client [i] after [n] actions; what was left of it when it departed. *)
Definition line (i n : nat) : link :=
  match connections (run n) !! i with
  | Some c => conn c
  | None => default (Link [] [] []) (departed (run n) !! i)
  end.

Hypothesis Hchunk : (0 < chunk)%nat.
Hypothesis Hmonitor : (1048 < monitor_fuel)%nat.
Hypothesis Htr : traces cf al K kst monitor_fuel tr.
Hypothesis Hscripts : Forall (Forall (sendable tr)) scripts.
Hypothesis Hwf : wf g.
Hypothesis Hspace : space tr (concat scripts) g.
Hypothesis Hexec : executes.

Lemma executes_runs n : runs chunk cf al K kst monitor_fuel (start leaving scripts g) (run n).
Proof.
  destruct Hexec as [H0 Hs]. rewrite <- H0. induction n as [|n IH]; [apply rtc_refl|].
  etrans; [exact IH|]. by eapply perform_action_runs.
Qed.

Lemma executes_linear n : exists history rests, linear chunk tr leaving scripts (table_of 0 g) history rests (run n).
Proof. eapply runs_linear; [done..|]. apply executes_runs. Qed.

(** A client is connected, or has departed and nothing more will come from it. *)
Lemma executes_connection i n : (i < length scripts)%nat ->
  (exists c, connections (run n) !! i = Some c /\ line i n = conn c /\
     state (session c) = BCD_SESSION_READING /\ terminated (session c) = false) \/
  (connections (run n) !! i = None /\ departed (run n) !! i = Some (line i n) /\ to_come (line i n) = []).
Proof.
  intros Hi. destruct (executes_linear n) as (history & rests & HL). unfold line.
  destruct (ln_clients _ _ _ _ _ _ _ _ HL i) as [[c Hc]|[e He]]; [by apply lookup_lt_is_Some | left | right].
  - destruct (ln_connections _ _ _ _ _ _ _ _ HL i c Hc) as (rest & _ & Hf & _). exists c. rewrite Hc.
    split_and!; [done | done | |];
      (destruct (in_flight_receiving _ _ _ _ _ Hf) as [(_ & _ & Hid & _)|(o & p & next & Hr & _)]; [apply Hid | apply Hr]).
  - destruct (ln_departed _ _ _ _ _ _ _ _ HL i e He) as (_ & Hn & _ & Hcome & _). by rewrite Hn, He.
Qed.

(** What an action does to the descriptor of client [i]. *)
Definition acts_on (i : nat) (a : action) (e e' : link) : Prop :=
  match a with
  | Arrive j k => if decide (j = i) then e' = deliver k e else e' = e
  | Handle j =>
      if decide (j = i) then
        unsent e' = unsent e /\ (length (arrived e') <= length (arrived e))%nat /\
        (arrived e <> [] -> (length (arrived e') < length (arrived e))%nat)
      else e' = e
  end.

(** What an action on another client, or on one that has departed, leaves alone. *)
Lemma other_line i j n h : acts n = Handle j \/ (exists k, acts n = Arrive j k) -> j <> i -> run n = h -> line i (S n) = line i n.
Proof.
  intros Ha Hj _. pose proof (proj2 Hexec n) as Hact. unfold line.
  destruct Ha as [Ha|[k Ha]]; rewrite Ha in Hact; cbn [perform_action] in Hact; (destruct (connections (run n) !! j) as [d|] eqn:Hd;
    [|injection Hact as E; by rewrite <- E]).
  - apply bind_Some in Hact as ([r e] & _ & Hact).
    destruct r; cbn [after_handler] in Hact; try done; injection Hact as E; rewrite <- E;
      cbn [holding parting connections departed]; by rewrite ?lookup_insert_ne, ?lookup_delete_ne by done.
  - injection Hact as E. rewrite <- E. cbn [holding connections departed]. by rewrite lookup_insert_ne.
Qed.

Lemma executes_line i n : (i < length scripts)%nat -> acts_on i (acts n) (line i n) (line i (S n)).
Proof.
  intros Hi. destruct (acts n) as [j k|j] eqn:Hacts; cbn [acts_on]; (case_decide as Hj; [subst j | eapply other_line; eauto]).
  all: pose proof (proj2 Hexec n) as Hact; rewrite Hacts in Hact; cbn [perform_action] in Hact;
    destruct (executes_connection i n Hi) as [(c & Hc & Hl & Hst & Ht)|(Hc & Hd & He)]; rewrite Hc in Hact.
  - injection Hact as E. rewrite Hl. unfold line. rewrite <- E. cbn [holding connections]. by rewrite lookup_insert_eq.
  - injection Hact as E. unfold line at 1. rewrite <- E, Hc, Hd. cbn [default from_option id].
    unfold to_come in He. apply app_eq_nil in He as [Ha Hu]. destruct (line i n) as [a u w]. cbn [arrived unsent] in *.
    unfold deliver. cbn. subst. by rewrite take_nil, drop_nil.
  - apply bind_Some in Hact as ([r e] & Hh & Ha). rewrite Hl. replace (line i (S n)) with e; [by eapply handler_link|].
    unfold line. destruct r; cbn [after_handler] in Ha; try done; injection Ha as E; rewrite <- E;
      cbn [holding parting connections departed]; by rewrite ?lookup_insert_eq, ?lookup_delete_eq, ?lookup_insert_eq.
  - injection Hact as E. unfold to_come in He. apply app_eq_nil in He as [Ha Hu].
    assert (line i (S n) = line i n) as -> by (unfold line; by rewrite <- E). split_and!; [done | done | by rewrite Ha].
Qed.

Hypothesis Hfair : fair (length scripts) acts.

(** Everything a client has to send is sent ... *)
Lemma all_sent i : (i < length scripts)%nat ->
  exists n, forall m, (n <= m)%nat -> unsent (line i m) = [].
Proof.
  intros Hi. destruct (settles (fun n => length (unsent (line i n))) 0) as (n & _ & Hn).
  - intros n _. pose proof (executes_line i n Hi) as H.
    destruct (acts n); simpl in H; case_decide; rewrite ?H; [| done | by destruct H as [-> _] | done].
    cbn [deliver unsent]. rewrite length_drop. lia.
  - intros n _. destruct (fair_arrive _ _ Hfair i n Hi) as (m & k & Hm & Hk & Ha). exists m. split; [done|].
    pose proof (executes_line i m Hi) as H. rewrite Ha in H. simpl in H. rewrite decide_True in H by done. rewrite H.
    cbn [deliver unsent]. rewrite length_drop. lia.
  - exists n. intros m Hm. apply nil_length_inv. by apply Hn.
Qed.

(** ... and everything that is sent is read. *)
Lemma all_read i : (i < length scripts)%nat ->
  exists n, forall m, (n <= m)%nat -> to_come (line i m) = [].
Proof.
  intros Hi. destruct (all_sent i Hi) as [N HN].
  destruct (settles (fun n => length (arrived (line i n))) N) as (n & HNn & Hn).
  - intros n Hge. pose proof (executes_line i n Hi) as H. specialize (HN n Hge).
    destruct (acts n); simpl in H; case_decide; rewrite ?H; [| done | by destruct H as (_ & H & _) | done].
    unfold deliver. by rewrite HN, take_nil, app_nil_r.
  - intros n _. destruct (fair_handle _ _ Hfair i n Hi) as (m & Hm & Ha). exists m. split; [done|].
    pose proof (executes_line i m Hi) as H. rewrite Ha in H. simpl in H. rewrite decide_True in H by done.
    destruct H as (_ & _ & H). destruct (arrived (line i m)); [by left | right; by apply H].
  - exists n. intros m Hm. unfold to_come. rewrite HN by lia. rewrite app_nil_r.
    apply nil_length_inv. by apply Hn.
Qed.

(** From some time on all clients have been served. *)
Lemma all_served : exists n, forall m, (n <= m)%nat -> exists history,
  linear chunk tr leaving scripts (table_of 0 g) history ((fun _ => []) <$> scripts) (run m) /\
  forall i, i ∈ leaving -> connections (run m) !! i = None.
Proof.
  destruct (eventually_all (fun i m => to_come (line i m) = []) (length scripts) all_read) as [n Hn].
  exists n. intros m Hm. destruct (executes_linear m) as (history & rests & HL).
  assert (forall i c, connections (run m) !! i = Some c -> rests !! i = Some [] /\ i ∉ leaving) as Hdone.
  { intros i c Hc. destruct (ln_connections _ _ _ _ _ _ _ _ HL i c Hc) as (rest & Hrest & Hf & _).
    assert (i < length scripts)%nat as Hi.
    { apply lookup_lt_is_Some. rewrite (ln_scripts _ _ _ _ _ _ _ _ HL), Hrest. by eexists. }
    specialize (Hn i m Hi Hm). unfold line in Hn. rewrite Hc in Hn. by apply in_flight_done in Hf as [-> ?]. }
  exists history. split.
  - replace ((fun _ => []) <$> scripts) with rests; [done|]. apply list_eq. intros i.
    rewrite list_lookup_fmap. pose proof (ln_scripts _ _ _ _ _ _ _ _ HL i) as Hs.
    destruct (scripts !! i) as [script|] eqn:Hscript; [|by destruct (rests !! i)].
    destruct (ln_clients _ _ _ _ _ _ _ _ HL i) as [[c Hc]|[e He]]; [by eexists | by destruct (Hdone i c Hc) as [-> _] |].
    by destruct (ln_departed _ _ _ _ _ _ _ _ HL i e He) as (_ & _ & -> & _).
  - intros i Hin. destruct (connections (run m) !! i) as [c|] eqn:Hc; [|done]. by destruct (Hdone i c Hc).
Qed.
End Execution.

(** C7: Every request is served in the end. In an infinite execution of the monitor in which, for every client,
    bytes arrive again and again and the handler is called again and again, from some time on every client
    has had all requests of its script served, in their order, has been sent one acknowledgement for each and, if
    it detaches, one more before its connection was closed; the metadata are the abstract table after some
    sequential order of all requests. *)
Theorem requests_served chunk cf al K kst monitor_fuel tr leaving scripts g acts run :
  (0 < chunk)%nat -> (1048 < monitor_fuel)%nat -> traces cf al K kst monitor_fuel tr ->
  Forall (Forall (sendable tr)) scripts -> wf g -> space tr (concat scripts) g ->
  executes chunk cf al K kst monitor_fuel leaving scripts g acts run -> fair (length scripts) acts ->
  exists n, forall m, (n <= m)%nat -> exists history,
    let t := (answers tr history.*2 (table_of 0 g)).2 in
    table_of (thread t) (shared (run m)) = t /\
    forall i script, scripts !! i = Some script -> calls_of i history = script /\
      if decide (i ∈ leaving) then
        connections (run m) !! i = None /\
        written <$> departed (run m) !! i = Some (acknowledgements (S (length script)))
      else written <$> (conn <$> connections (run m) !! i) = Some (acknowledgements (length script)).
Proof.
  intros Hchunk Hf Htr Hs W S He Hfair.
  destruct (all_served _ _ _ _ _ _ _ _ _ _ _ _ Hchunk Hf Htr Hs W S He Hfair) as [n Hn].
  exists n. intros m Hm. destruct (Hn m Hm) as (history & HL & Hgone). exists history.
  split; [apply (ln_table _ _ _ _ _ _ _ _ HL)|]. intros i script Hi.
  pose proof (ln_scripts _ _ _ _ _ _ _ _ HL i) as E. rewrite list_lookup_fmap, Hi in E. injection E as E.
  rewrite app_nil_r in E. split; [done|].
  destruct (ln_clients _ _ _ _ _ _ _ _ HL i) as [[c Hc]|[e Hd]]; [by eexists | |].
  - rewrite decide_False by (intros Hin%Hgone; congruence). rewrite Hc. cbn [fmap option_fmap option_map].
    destruct (ln_connections _ _ _ _ _ _ _ _ HL i c Hc) as (_ & _ & _ & _ & ->). by rewrite <- E.
  - destruct (ln_departed _ _ _ _ _ _ _ _ HL i e Hd) as (Hin & Hnone & _ & _ & Hw). rewrite decide_True by done.
    rewrite Hd. cbn [fmap option_fmap option_map]. by rewrite Hw, <- E.
Qed.

(** ** Witness *)

(** The bytes of one client arrive a hundred at a time, and the handler is called after each arrival. *)
Definition turns (n : nat) : action := if Nat.even n then Arrive 0 100 else Handle 0.

Lemma turns_fair : fair 1 turns.
Proof.
  split; intros i n Hi; replace i with 0%nat by lia.
  - exists (2 * n)%nat, 100%nat. unfold turns. rewrite Nat.even_even. split_and!; [lia | lia | done].
  - exists (2 * n + 1)%nat. unfold turns. rewrite Nat.even_odd. split; [lia | done].
Qed.

Definition one_script : list (list call) := [[SetPair (bytes_of "a") (bytes_of "1")]].
Definition one_leaving : gset nat := {[ 0%nat ]}.

Definition one_step (a : action) (h : house) : option house :=
  perform_action 1000 sample_invoke all_succeed (stopping_kernel 0) 0%nat 1100 a h.

(** The states: the start, after the bytes have arrived, after the request has been served, and after the client has
    departed for good. *)
Definition one_run (n : nat) : house :=
  let start := start one_leaving one_script no_metadata in
  let arrived := default start (one_step (turns 0) start) in
  let served := default arrived (one_step (turns 1) arrived) in
  match n with
  | 0%nat => start
  | 1%nat => arrived
  | 2%nat | 3%nat => served
  | _ => default served (one_step (turns 3) served)
  end.

Lemma one_run_executes :
  executes 1000 sample_invoke all_succeed (stopping_kernel 0) 0%nat 1100 one_leaving one_script no_metadata turns one_run.
Proof.
  split; [done|]. intros [|[|[|[|n]]]]; [by vm_compute..|]. change (one_run (S (S (S (S (S n)))))) with (one_run 4).
  change (one_run (S (S (S (S n))))) with (one_run 4). unfold turns. destruct (Nat.even _); by vm_compute.
Qed.

Lemma requests_served_witness :
  exists n history, calls_of 0 history = [SetPair (bytes_of "a") (bytes_of "1")] /\
    connections (one_run n) !! 0%nat = None /\
    let t := (answers Untraced history.*2 (table_of 0 no_metadata)).2 in table_of (thread t) (shared (one_run n)) = t.
Proof.
  destruct (requests_served 1000 sample_invoke all_succeed (stopping_kernel 0) 0%nat 1100 Untraced one_leaving one_script no_metadata
    turns one_run) as [n Hn];
    [by_compute | by_compute | exact I | repeat constructor; discriminate | by_compute | by_compute | apply one_run_executes |
     apply turns_fair |].
  destruct (Hn n ltac:(done)) as (history & Ht & H). destruct (H 0%nat _ eq_refl) as [Hc [Hgone _]].
  exists n, history. split; [exact Hc|]. split; [exact Hgone | exact Ht].
Defined.
