(* ===== verification/BcdPreload.v ===== *)
(** * The preloaded library and its signal handlers (src/external/bcd/bcd-amalgamated.c)

    [bcd_preload] strings together the configuration, [bcd_init], [bcd_attach] and [bcd_sigaction];
    the handlers it installs call [bcd_fatal]. With them the small functions around
    the calls of the system: [bcd_os_fork], [bcd_os_time], [bcd_emit], [bcd_abort]. *)

From S2P Require Import Prelude.
From S2P Require Import Memory.
From S2P Require Import Utils.
From S2P Require Import BcdMeta.
From S2P Require Import BcdTracer.
From S2P Require Import BcdChannel.
From S2P Require Import BcdSession.
From S2P Require Import BcdEvents.
From S2P Require Import BcdConfig.
From S2P Require Import BcdClient.
From S2P Require Import BcdMonitor.

(** ** Around the system *)

(** [bcd_os_fork]: the result in the parent, the signals the parent blocks afterwards, and those the
    child starts with. [all] is the full set of signals. *)
Definition bcd_os_fork (all : gset Z) (fork : Z + Z) (mask : gset Z) : Z * gset Z * option (gset Z) :=
  let origmask := mask in
  let allmask := all in
  match fork with
  | inl _ => (-1, origmask, None)
  | inr pid => (pid, origmask, Some allmask)
  end.

(** [bcd_abort] reports and returns. *)
Definition bcd_abort (g : metadata) : metadata :=
  (bcd_error BCD_EVENT_FATAL 0 "unrecoverable internal error" 0 g).2.

(** [None] is a failing clock; then [ts] is what the stack holds. *)
Definition bcd_os_time (clock_gettime : option Z) (ts : Z) (g : metadata) : Z * metadata :=
  match clock_gettime with
  | Some t => (t, g)
  | None => (ts, bcd_abort g)
  end.

(** [bcd_emit] drops the result of [bcd_backtrace]; the message is for the reader of the stack. *)
Definition bcd_emit (D : descriptor) (timeout : Z) (fuel : nat) (e : dstate D) : option (dstate D) :=
  '(_, _, _, e) ← bcd_backtrace D timeout fuel true e;
  Some e.

(** ** The signal handlers *)

(** What a handler does in the end: [_exit], or the return to the program with these dispositions. *)
Inductive handler_end :=
| HandlerExit (code : Z)
| HandlerReturn (table : gmap Z sigaction).

Section Handlers.
Context (Dm Dr : descriptor) (limit : Z) (fuel : nat) (reaped : list Z).

Definition bcd_default_signal_handler (em : dstate Dm) (er : dstate Dr) :
    option (handler_end * dstate Dm * dstate Dr) :=
  '(em, er, _) ← bcd_fatal Dm Dr limit fuel reaped em er;
  Some (HandlerExit 1, em, er).

(** [signal(s, SIG_DFL)] removes the disposition of [s]. *)
Definition bcd_default_signal_handler_raise (s : Z) (table : gmap Z sigaction) (em : dstate Dm)
    (er : dstate Dr) : option (handler_end * dstate Dm * dstate Dr) :=
  '(em, er, _) ← bcd_fatal Dm Dr limit fuel reaped em er;
  Some (HandlerReturn (delete s table), em, er).
End Handlers.

(** ** Preloading *)

(** The answers the calls get: the environment, [strcmp], those of [bcd_init]; [socket], [connect] and
    [fcntl] in [bcd_attach], the thread id; whether [sigaction] accepts a signal. *)
Record preload_answers := PreloadAnswers {
  getenv : string -> c_ptr; strcmp : list byte -> list byte -> Z;
  pa_init : init_answers;
  pa_socket : Z + Z; pa_connects : list (option Z); pa_prepare : option Z; pa_tid : Z;
  pa_accepts : Z -> bool
}.

(** How the constructor ends: it has done nothing; [exit]; or the program goes on with this handle, the
    dispositions, and the signal [bcd_sigaction] has complained about (0 for none). *)
Inductive preload_end (D : descriptor) :=
| Disabled
| ExitFailure
| Loaded (bcd : Z) (table : gmap Z sigaction) (refused : Z) (s : process) (e : dstate D).
Arguments Disabled {D}.
Arguments ExitFailure {D}.
Arguments Loaded {D}.

(** [handler], [default] and [raise] are the addresses of the default error handler and of the two signal
    handlers; [stack] is what the uninitialised configuration and handle hold. *)
Definition bcd_preload (D : descriptor) (fuel : nat) (handler default raise : Z) (stack : bcd_config * Z)
    (global : bcd_config) (a : preload_answers) (table : gmap Z sigaction) (s : process) (e : dstate D) :
    option (preload_end D) :=
  match getenv a "BCD_PRELOAD"%string with
  | None => Some Disabled
  | Some _ =>
      let '(r, _, config) := bcd_config_init_internal handler stack.1 1 in
      if decide (r = -1) then Some ExitFailure
      else
        let config := bcd_config_from_env (getenv a) (strcmp a) config in
        '(s, r, _) ← bcd_init handler (Some config) global (pa_init a) s;
        if decide (r = -1) then Some ExitFailure
        else
          '(bcd, e) ← bcd_attach D (timeout config) fuel (pa_socket a) (pa_connects a) (pa_prepare a) (pa_tid a)
             stack.2 e;
          if decide (ret bcd = -1) then Some ExitFailure
          else
            let reraise := match getenv a "BCD_RAISE"%string with
              | Some value => bool_decide (strcmp a value (bytes_of "1") = 0)
              | None => false
              end in
            let flags := if (reraise : bool) then BCD_SIGACTION_RAISE else 0 in
            let '(table, r) := bcd_sigaction (pa_accepts a) default raise table 0 flags in
            Some (Loaded (bcd_fd bcd) table r (open_fd s (bcd_fd bcd)) e)
  end.

(** ** Lemmas *)

Lemma start_monitor_process_result a monitor master s s' r e :
  start_monitor_process a monitor master s = (s', r, e) -> r = 0 \/ r = -1.
Proof.
  unfold start_monitor_process. destruct (forked a); [intros [= _ <- _]; by right|].
  cbn [bcd_pipe_ensure_readonly bcd_pipe_ensure_writeonly].
  destruct (first_packet a); [intros [= _ <- _]; by right|].
  case_decide; [|intros [= _ <- _]; by right].
  destruct (mprotect a); intros [= _ <- _]; [by right | by left].
Qed.

Lemma init_result handler cf global a s s' r e :
  bcd_init handler cf global a s = Some (s', r, e) -> r = 0 \/ r = -1.
Proof.
  unfold bcd_init. intros Hi. apply bind_Some in Hi as ([[ret0 e0] cf0] & _ & Hi).
  case_decide; [simplify_eq; by right|].
  destruct (socket_directory _ a s) as [s1 [e1|u]]; [simplify_eq; by right|].
  apply bind_Some in Hi as ([s2 [e2|fd]] & _ & Hi); [simplify_eq; by right|].
  destruct (bcd_pipe_init _ _ (monitor_prepare a)) as [s3 [e3|monitor]]; [simplify_eq; by right|].
  destruct (bcd_pipe_init _ _ (master_prepare a)) as [s4 [e4|master]]; [simplify_eq; by right|].
  injection Hi as Hi. by apply start_monitor_process_result in Hi.
Qed.

(** A handle that [bcd_attach] has set. *)
Lemma attach_sends D sent timeout fuel socket connects prepare tid old e r e' :
  writable D sent -> bcd_attach D timeout fuel socket connects prepare tid old e = Some (r, e') ->
  ret r = -1 \/ ret r = 0 /\ socket = inr (bcd_fd r) /\
    sent e' = sent e ++ packet BCD_OP_TID (tid_payload tid).
Proof.
  intros HD Ha. unfold bcd_attach in Ha. destruct socket as [errno|fd]; [simplify_eq; by left|].
  bind_inv Ha. destruct x as [errno|]; [simplify_eq; by left|].
  destruct prepare as [errno|]; [simplify_eq; by left|].
  bind_inv Ha. case_decide as Hr; simplify_eq; [right | by left].
  split_and!; [done | done |]. by eapply (request_sent D sent HD timeout) in Hx0.
Qed.

(** The configuration a preloaded program works with. *)
Definition preload_config (handler : Z) (a : preload_answers) : bcd_config :=
  bcd_config_from_env (getenv a) (strcmp a) (bcd_config_init_v1 handler).


(** ** The end of a crashing program *)

(** An environment in which the calls that are interrupted, or have to wait although [select] has
    promised something, are numbered: [mu] says how many are left. *)
Record patient (D : descriptor) (mu : dstate D -> nat) : Prop := {
  pt_read e n r e' : sys_read D e n = (r, e') -> (mu e' <= mu e)%nat /\
    match r with
    | inl errno => errno = EINTR \/ errno = EAGAIN -> (mu e' < mu e)%nat
    | inr bs => 0 <= n -> zlen bs <= n
    end;
  pt_write e bs r e' : sys_write D e bs = (r, e') -> (mu e' <= mu e)%nat /\
    match r with
    | inl errno => errno = EINTR \/ errno = EAGAIN -> (mu e' < mu e)%nat
    | inr k => 0 <= k <= zlen bs
    end;
  pt_select e tv r e' : sys_select D e tv = (r, e') -> (mu e' <= mu e)%nat /\ (r = inl EINTR -> (mu e' < mu e)%nat);
  pt_time e t e' : os_time D e = (t, e') -> (mu e' <= mu e)%nat
}.

Section Ends.
Context (D : descriptor) (mu : dstate D -> nat) (HD : patient D mu) (limit : Z).

Lemma fd_wait_ends fuel t : forall e, (mu e < fuel)%nat ->
  exists r e', bcd_io_fd_wait D limit fuel t e = Some (r, e') /\ (mu e' <= mu e)%nat.
Proof.
  induction fuel as [|fuel IH]; intros e Hf; [lia|]. cbn [bcd_io_fd_wait].
  destruct (os_time D e) as [now e1] eqn:Et. apply (pt_time _ _ HD) in Et.
  match goal with |- context [sys_select D e1 ?tv] => destruct (sys_select D e1 tv) as [[errno|n] e2] eqn:Es end;
    apply (pt_select _ _ HD) in Es as [Hle Hlt].
  - case_decide as He; [|do 2 eexists; split; [done | lia]]. subst errno. specialize (Hlt eq_refl).
    destruct (IH e2) as (r & e' & -> & ?); [lia|]. do 2 eexists. split; [done | lia].
  - do 2 eexists. split; [done | lia].
Qed.

(** The two ways to go on after an error. *)
Lemma retry_ends {A} fuel t e (k : dstate D -> option A) (stop : dstate D -> A) (Q : A -> Prop) errno :
  (errno = EINTR \/ errno = EAGAIN -> (mu e < fuel)%nat) ->
  (forall e', errno = EINTR \/ errno = EAGAIN -> (mu e' <= mu e)%nat -> exists x, k e' = Some x /\ Q x) ->
  (forall e', (mu e' <= mu e)%nat -> Q (stop e')) ->
  forall failed, Q failed ->
  exists x, (if decide (errno = EINTR) then k e
    else if decide (errno = EAGAIN) then
      '(ret, e) ← bcd_io_fd_wait D limit fuel t e;
      if decide (ret = 1) then k e else Some (stop e)
    else Some failed) = Some x /\ Q x.
Proof.
  intros Hf Hk Hstop failed Hq. case_decide; [apply Hk; [by left | lia]|].
  case_decide; [|by exists failed].
  destruct (fd_wait_ends fuel t e) as (r & e' & -> & Hle); [by apply Hf; right|]. bind_simpl.
  case_decide; [by apply Hk; [right|] | eexists; split; [done | by apply Hstop]].
Qed.

Lemma fd_write_ends fuel b t : forall ac e,
  0 <= ac < zlen b -> (mu e + Z.to_nat (zlen b - ac) < fuel)%nat ->
  exists x, bcd_io_fd_write D limit fuel ac b t e = Some x /\ (mu x.2 <= mu e)%nat.
Proof.
  induction fuel as [|fuel IH]; intros ac e Hac Hf; [lia|]. cbn [bcd_io_fd_write].
  destruct (sys_write D e _) as [[errno|k] e1] eqn:Ew; apply (pt_write _ _ HD) in Ew as [Hle Hw].
  - apply (retry_ends fuel t e1 (bcd_io_fd_write D limit fuel ac b t) (fun e => (-1, EAGAIN, e))
      (fun x => (mu x.2 <= mu e)%nat) errno).
    + intros H%Hw. lia.
    + intros e' H%Hw Hle'. destruct (IH ac e') as (x & -> & ?); [done | lia|]. exists x. split; [done | lia].
    + intros e' ?. simpl. lia.
    + done.
  - repeat (case_decide; [eexists; split; [done | simpl; lia]|]).
    assert (zlen (drop (Z.to_nat ac) b) = zlen b - ac) as Hd by (unfold zlen in *; rewrite length_drop; lia).
    destruct (IH (ac + k) e1) as (x & -> & ?); [lia | lia |]. exists x. split; [done | lia].
Qed.

Lemma fd_read_ends fuel n t : forall got e,
  zlen got <= n < 2 ^ 63 -> (mu e + Z.to_nat (n - zlen got) < fuel)%nat ->
  exists x, bcd_io_fd_read D limit fuel got n t e = Some x /\ (mu x.2 <= mu e)%nat.
Proof.
  induction fuel as [|fuel IH]; intros got e Hn Hf; [lia|]. cbn [bcd_io_fd_read].
  pose proof (zlen_nonneg got). rewrite u64_small by lia.
  destruct (sys_read D e _) as [[errno|bs] e1] eqn:Er; apply (pt_read _ _ HD) in Er as [Hle Hr].
  - apply (retry_ends fuel t e1 (bcd_io_fd_read D limit fuel got n t) (fun e => (-1, EAGAIN, got, e))
      (fun x => (mu x.2 <= mu e)%nat) errno).
    + intros H1%Hr. lia.
    + intros e' H1%Hr Hle'. destruct (IH got e') as (x & -> & ?); [done | lia|]. exists x. split; [done | lia].
    + intros e' ?. simpl. lia.
    + done.
  - destruct bs as [|b bs]; [eexists; split; [done | simpl; lia]|].
    case_decide as Hall; [eexists; split; [done | simpl; lia]|].
    specialize (Hr ltac:(lia)). rewrite zlen_cons in Hr. pose proof (zlen_nonneg bs).
    assert (zlen (got ++ b :: bs) = zlen got + 1 + zlen bs) as Hz by zlia.
    destruct (IH (got ++ b :: bs) e1) as (x & -> & ?); [lia..|].
    exists x. split; [done | lia].
Qed.

Lemma sb_read_ends fuel length t e :
  0 <= length < 2 ^ 63 -> (mu e + 8 + Z.to_nat length < fuel)%nat ->
  exists x, bcd_sb_read D limit fuel length t e = Some x /\ (mu x.2 <= mu e)%nat.
Proof.
  intros Hl Hf. unfold bcd_sb_read.
  destruct (fd_read_ends fuel sizeof_packet t [] e) as ([[[r errno] header] e1] & -> & Hle);
    [done | unfold sizeof_packet; rewrite zlen_nil; lia |]. simpl in Hle. bind_simpl.
  repeat (case_decide; [eexists; split; [done | done]|]).
  assert (0 <= buffer_length header) by apply LittleEndianList.le_combine_bound.
  destruct (fd_read_ends fuel (buffer_length header) t [] e1) as ([[[r' errno'] payload] e2] & -> & Hle2);
    [rewrite zlen_nil; lia.. |]. simpl in Hle2. bind_simpl. eexists. split; [done | simpl; lia].
Qed.
End Ends.

(** C24: A program that crashes comes to its end. Whatever the monitor does, both signal handlers of the library
    return from [bcd_fatal] after finitely many calls, provided that the calls on the two pipes are not
    interrupted for ever and [waitpid] keeps answering: the default one ends in [_exit], the other returns
    to the program with the disposition of exactly this signal removed, so that the signal is fatal. *)
Theorem fatal_signal_ends Dm mum Dr mur limit fuel reaped s table em er :
  patient Dm mum -> patient Dr mur -> 0 <= limit < 2 ^ 32 -> limit < zlen reaped ->
  (mum em + 8 < fuel)%nat -> (mur er + 8 < fuel)%nat ->
  exists em' er',
    bcd_default_signal_handler Dm Dr limit fuel reaped em er = Some (HandlerExit 1, em', er') /\
    bcd_default_signal_handler_raise Dm Dr limit fuel reaped s table em er =
      Some (HandlerReturn (delete s table), em', er').
Proof.
  intros Hm Hr Hl Hz Hfm Hfr.
  assert (exists em' er' sleeps, bcd_fatal Dm Dr limit fuel reaped em er = Some (em', er', sleeps))
    as (em' & er' & sleeps & E).
  { unfold bcd_fatal. destruct (os_time Dm em) as [now em1] eqn:Et. apply (pt_time _ _ Hm) in Et.
    unfold bcd_sb_write. change (zlen []) with 0.
    assert (zlen (packet_bytes BCD_OP_TR_FATAL 0 []) = 8) as H8 by done.
    destruct (fd_write_ends Dm mum Hm limit fuel (packet_bytes BCD_OP_TR_FATAL 0 []) (now + limit) 0 em1)
      as ([[r errno] em2] & -> & _); [done | rewrite H8; lia |]. bind_simpl.
    destruct (sb_read_ends Dr mur Hr limit fuel 0 (now + limit) er) as ([[[r' e] bs] er2] & -> & _); [done | lia |].
    bind_simpl. destruct (reap_bounded limit reaped 0) as (sleeps & -> & _); [lia | lia | lia |]. by do 3 eexists. }
  exists em', er'. unfold bcd_default_signal_handler, bcd_default_signal_handler_raise. rewrite E. by bind_simpl.
Qed.

(** A round of an idle monitor in which [epoll_wait] reports the pipe of [bcd_fatal] is a call of its handler. *)
Section FatalRound.
Context (D : descriptor) (cf : invoke) (al : allocations) (K : kernel) (malloc : option Z) (kst : kstate K) (fuel : nat).
Context (p : Z) (ev : bcd_io_event) (link link' : dstate D) (m : Z) (w : monitor D).
Hypothesis HW : wf_monitor w.
Hypothesis Hready : ready w = [].
Hypothesis Hp : events w !! p = Some ev.
Hypothesis Hh : handler ev = Fatal.
Hypothesis Hl : links w !! fd ev = Some link.

Definition reported_fatal : monitor D :=
  with_events (update_event w p (event_set ev m)) (<[p := set_ready (event_set ev m) true]> (<[p := event_set ev m]> (events w))) [p].

Lemma fatal_marked : mark_ready [(p, m)] w = Some reported_fatal.
Proof.
  assert (in_ready_list ev = false) as Hq.
  { destruct (in_ready_list ev) eqn:E; [|done]. assert (p ∈ ready w) as Hin by (apply (wm_queue _ HW); by exists ev).
    rewrite Hready in Hin. by apply not_elem_of_nil in Hin. }
  cbn [mark_ready]. rewrite Hp. bind_simpl. unfold bcd_io_event_add_to_ready_list.
  cbn [update_event with_events events]. rewrite lookup_insert_eq. bind_simpl. cbn [event_set in_ready_list]. rewrite Hq.
  bind_simpl. cbn [with_events ready update_event]. by rewrite Hready.
Qed.

Lemma fatal_called : call_handler cf al malloc kst fuel p reported_fatal =
  handle_fatal cf al kst fuel p (set_ready (event_set ev m) true) reported_fatal.
Proof.
  unfold call_handler, reported_fatal. cbn [with_events events]. rewrite lookup_insert_eq. bind_simpl.
  cbn [handler set_ready event_set]. by rewrite Hh.
Qed.

Lemma fatal_round b n waits :
  sys_read D link 1 = (inr [b], link') -> bcd_io_enter (D := D) cf al malloc kst fuel n (inr [(p, m)] :: waits) w = None.
Proof.
  intros Hread. cbn [bcd_io_enter]. rewrite fatal_marked. bind_simpl. unfold bcd_io_event_dispatch_ready_list.
  destruct n as [|n]; [done|]. cbn [reported_fatal with_events ready head dispatch_from]. fold reported_fatal.
  rewrite fatal_called. unfold handle_fatal. cbn [reported_fatal with_events links update_event fd set_ready event_set].
  rewrite Hl. bind_simpl. rewrite Hread. by rewrite fatal_null_session.
Qed.

Lemma fatal_round_idle :
  sys_read D link 1 = (inl EAGAIN, link') ->
  exists w', bcd_io_enter (D := D) cf al malloc kst fuel 1 [inr [(p, m)]] w = Some (LoopWaiting w') /\ ready w' = [] /\ meta w' = meta w.
Proof.
  intros Hread. cbn [bcd_io_enter]. rewrite fatal_marked. bind_simpl. unfold bcd_io_event_dispatch_ready_list.
  cbn [reported_fatal with_events ready head dispatch_from]. fold reported_fatal. rewrite fatal_called.
  unfold handle_fatal. cbn [reported_fatal with_events links update_event fd set_ready event_set]. rewrite Hl. bind_simpl.
  rewrite Hread. unfold bcd_handler_fatal. rewrite decide_True by done. bind_simpl.
  unfold bcd_io_event_remove_from_ready_list. cbn [set_links reported_fatal with_events events]. rewrite lookup_insert_eq. bind_simpl.
  cbn [in_ready_list set_ready next_of]. rewrite decide_True by done. cbn [head].
  bind_simpl. cbn [with_events ready meta set_links update_event]. eexists. split; [done|]. split; [|done].
  cbn [with_events ready reported_fatal]. by rewrite filter_cons_False by tauto.
Qed.
End FatalRound.

(** C23: [bcd_fatal] gets no report. What it has sent is a beginning of its request; as soon as the first byte of that
    has come to an idle monitor and [epoll_wait] reports the pipe, the round of the event loop is undefined, whatever
    follows: the handler asks for a trace without a session and reads the thread of that session.
    No tracer is started and no handler of the user runs; the same descriptor with nothing to be
    read does no harm. *)
Theorem fatal_undefined Dm sent Dr limit fuel reaped em er em' er' sleeps
    D pending mu cf al K malloc kst fuel' n p ev link r link' m waits (w : monitor D) :
  writable Dm sent -> bcd_fatal Dm Dr limit fuel reaped em er = Some (em', er', sleeps) ->
  readable D pending mu -> wf_monitor w -> ready w = [] ->
  events w !! p = Some ev -> handler ev = Fatal -> links w !! fd ev = Some link -> sys_read D link 1 = (r, link') ->
  exists part, sent em' = sent em ++ part /\ part `prefix_of` packet BCD_OP_TR_FATAL [] /\
    (pending link = part -> part <> [] -> forall bs, r = inr bs ->
       bcd_io_enter (D := D) cf al (K := K) malloc kst fuel' n (inr [(p, m)] :: waits) w = None) /\
    (r = inl EAGAIN -> exists w', bcd_io_enter (D := D) cf al (K := K) malloc kst fuel' 1 [inr [(p, m)]] w = Some (LoopWaiting w') /\
       ready w' = [] /\ meta w' = meta w).
Proof.
  intros Hw Hf Hrd W Hr Hp Hh Hl Hread. unfold bcd_fatal in Hf. destruct (os_time Dm em) as [now em1] eqn:Et.
  apply (wr_time _ _ Hw) in Et. bind_inv Hf. bind_inv Hf. bind_inv Hf. simplify_eq.
  unfold bcd_sb_write in Hx. apply (fd_write_prefix Dm sent Hw) in Hx as (part & Hpre & Hs & _); [|done].
  exists part. split; [by rewrite Hs, Et|]. split; [exact Hpre|]. split.
  - intros Hpend Hne bs ->. apply (rd_bytes _ _ _ Hrd) in Hread as Hb; [|done]. destruct Hb as (Happ & Hlen & Hemp).
    destruct bs as [|b [|b' bs]]; [by destruct (Hemp eq_refl); [|congruence] | by eapply fatal_round | unfold zlen in Hlen; cbn [length] in Hlen; lia].
  - intros ->. by eapply fatal_round_idle.
Qed.

(** ** Witnesses *)

Lemma toy_patient : patient toy hiccups.
Proof.
  split; intros [k i o]; simpl; unfold toy_read, toy_write; simpl.
  - intros n r e' H. destruct k as [|k]; simplify_eq; simpl; (split; [lia|]); [|lia].
    intros Hn. unfold zlen. rewrite length_take. lia.
  - intros bs r e' H. destruct k as [|k]; simplify_eq; simpl; (split; [lia|]); [|lia].
    unfold zlen. rewrite length_take. lia.
  - by intros tv r e' [= <- <-].
  - by intros t e' [= _ <-].
Qed.

(** The monitor does not react to the signal but ends: its pipe is closed. *)
Lemma fatal_signal_ends_witness :
  exists em' er',
    bcd_default_signal_handler_raise toy toy 30 40 (replicate 40 0) SIGSEGV
      {[SIGSEGV := Sigaction 7 4; SIGABRT := Sigaction 7 4]} (PipeEnd 3 [] []) (PipeEnd 2 [] []) =
      Some (HandlerReturn {[SIGABRT := Sigaction 7 4]}, em', er').
Proof.
  destruct (fatal_signal_ends toy hiccups toy hiccups 30 40 (replicate 40 0) SIGSEGV
    {[SIGSEGV := Sigaction 7 4; SIGABRT := Sigaction 7 4]} (PipeEnd 3 [] []) (PipeEnd 2 [] [])
    toy_patient toy_patient) as (em' & er' & _ & H); [lia | by_compute | by_compute | by_compute |].
  exists em', er'. exact H.
Defined.

(** The handler of the user would take every trace. *)
Definition intercepting_all : invoke :=
  Invoke (path sample_invoke) (tp sample_invoke) (kp sample_invoke) (separator sample_invoke) (ks sample_invoke)
    (Some (fun _ => -1)) (target_process sample_invoke).

(** A program whose pipe is interrupted twice and sends all of the request; the monitor of the program sleeps. *)
Definition asleep_monitor : monitor toy :=
  Monitor (D := toy) {[5 := Event 6 0 Fatal false]} [] {[6 := PipeEnd 0 (packet BCD_OP_TR_FATAL []) []]} [] no_metadata.

Lemma asleep_wf : wf_monitor asleep_monitor.
Proof. apply (wf_monitor_list _ [(5, Event 6 0 Fatal false)]); [reflexivity | by_compute | by_compute | reflexivity | by_compute | by_compute]. Qed.

Lemma fatal_undefined_witness :
  exists em' er' sleeps, bcd_fatal toy toy 30 40 (replicate 40 0) (PipeEnd 2 [] []) (PipeEnd 2 [] []) = Some (em', er', sleeps) /\
    outbox em' = packet BCD_OP_TR_FATAL [] /\
    bcd_io_enter (D := toy) intercepting_all all_succeed (K := stopping_kernel 0) None 0%nat 1100 10 [inr [(5, 1)]] asleep_monitor = None.
Proof.
  destruct (bcd_fatal toy toy 30 40 (replicate 40 0) (PipeEnd 2 [] []) (PipeEnd 2 [] [])) as [[[em' er'] sleeps]|] eqn:E;
    [|vm_compute in E; discriminate E].
  destruct (fatal_undefined toy outbox toy 30 40 (replicate 40 0) (PipeEnd 2 [] []) (PipeEnd 2 [] []) em' er' sleeps
    toy inbox hiccups intercepting_all all_succeed (stopping_kernel 0) None 0%nat 1100 10 5 (Event 6 0 Fatal false)
    (PipeEnd 0 (packet BCD_OP_TR_FATAL []) []) (inr [Init.Byte.x06]) (PipeEnd 0 (drop 1 (packet BCD_OP_TR_FATAL [])) []) 1 []
    asleep_monitor toy_writable E toy_readable asleep_wf eq_refl eq_refl eq_refl eq_refl eq_refl) as (part & Hs & _ & Hu & _).
  assert (part = packet BCD_OP_TR_FATAL []) as Hpart
    by (vm_compute in E; injection E as <- _ _; vm_compute in Hs; subst part; reflexivity).
  exists em', er', sleeps. split; [reflexivity|]. split; [rewrite Hs; exact Hpart|].
  eapply Hu; [rewrite Hpart; reflexivity | rewrite Hpart; discriminate | reflexivity].
Defined.

Definition preload_env (name : string) : c_ptr :=
  if decide (name = "BCD_PRELOAD"%string) then Some []
  else if decide (name = "BCD_RAISE"%string) then Some (bytes_of "1") else None.

(** Everything succeeds. *)
Definition sample_preload : preload_answers :=
  {| getenv := preload_env; strcmp := sample_strcmp;
     pa_init := {| mkdtemp := Some [1; 2]; asprintf_ok := true; strdup_ok := true; output_opens := [];
       monitor_pipe := inr (Pipe 3 4); monitor_prepare := None; master_pipe := inr (Pipe 5 6);
       master_prepare := None; forked := inr 100; first_packet := inr (Packet BCD_OP_CF 5 (bytes_of "/tmp/"));
       mprotect := None |};
     pa_socket := inr 9; pa_connects := [None]; pa_prepare := None; pa_tid := 77; pa_accepts := fun _ => true |}.

