(* ===== verification/Examples.v ===== *)
(** * The example programs (src/examples)

    A crash from end to end: the program that maps a shared buffer, starts a monitor with [bcd_init] and
    calls [bcd_emit] from its handler; the monitor that unwinds it into the buffer from its request handler; and the
    reader of the buffer, at another address. Crashpad is not part of the repository: its calls are events
    of a log, with its answers as arguments. *)

From S2P Require Import Prelude Memory Stream Frame FrameRead RoundTrip Handle Backend.
From S2P Require Import BcdMeta.
From S2P Require Import BcdTracer.
From S2P Require Import BcdChannel.
From S2P Require Import BcdSession.
From S2P Require Import BcdConfig.
From S2P Require Import BcdClient.
From S2P Require Import BcdRequest.
From S2P Require Import BcdPreload.
From S2P Require Import Registers.
From S2P Require Waitpid.
From S2P Require Unwindstack.
From S2P Require Libunwind.

(** ** The shared buffer *)

Definition PROT_READ : Z := 1.
Definition PROT_WRITE : Z := 2.

(** [mmap] with the protection and the descriptor; [None], also as a result, is [abort]. *)
Definition buffer_reader (mmap : Z -> Z -> option Z) (fd flags : Z) : option Z := mmap flags fd.

(** The result is the descriptor and the pointer. *)
Definition buffer_create (memfd : Z) (ftruncate : Z -> bool) (mmap : Z -> Z -> option Z) : option (Z * Z) :=
  if decide (memfd = -1) then None
  else if ftruncate memfd then
    r ← buffer_reader mmap memfd (Z.lor PROT_READ PROT_WRITE); Some (memfd, r)
  else None.

(** The monitor's mapping, with the process id at its start; the outer [None] is a store that is undefined. *)
Definition monitor_init (mmap : Z -> Z -> option Z) (buffer_fd child_pid : Z) (m : mem) : option (option (mem * Z)) :=
  match buffer_reader mmap buffer_fd (Z.lor PROT_READ PROT_WRITE) with
  | None => Some None
  | Some buffer_child =>
      if decide (buffer_child = NULL) then Some None
      else m ← store_uint m buffer_child 4 child_pid; Some (Some (m, buffer_child))
  end.

(** crashpad-remote writes a text over the header of the stream instead. *)
Definition remote_monitor_init (mmap : Z -> Z -> option Z) (buffer_fd : Z) (m : mem) : option (option (mem * Z)) :=
  match buffer_reader mmap buffer_fd (Z.lor PROT_READ PROT_WRITE) with
  | None => Some None
  | Some buffer_child =>
      if decide (buffer_child = NULL) then Some None
      else m ← strcpy_bytes m buffer_child (bytes_of "Empty contents."); Some (Some (m, buffer_child))
  end.

(** ** Crashpad *)

Inductive event :=
| SetUploadsEnabled (enabled : bool)
| StartHandlerAtCrash (handler db metrics url : string) (annotations : list (string * string)) (arguments : list string)
| AddUserDataMinidumpStream (id data size : Z)
| SetFirstChanceExceptionHandler (handler : Z)
| BcdInit (cf : bcd_config)
| SetPtracer (pid : Z)
| SetDumpable
| IamDummy.

Inductive ending := Abort | Exit (code : Z) | Trap.

Definition BUN_STREAM_ID : Z := 0xbac0000.
Definition EXIT_FAILURE : Z := 1.

(** Whether there is a database with settings, and what starting the handler answers. *)
Record crashpad := Crashpad { database : bool; started : bool }.

Section Crashpad.
Context (cp : crashpad) (url : string).

Definition startCrashHandler : list event * bool :=
  if database cp then
    ([SetUploadsEnabled true;
      StartHandlerAtCrash "/path/to/crashpad/handler" "." "." url
        [("token", "your_token"); ("format", "minidump")]%string ["--no-rate-limit"]%string], started cp)
  else ([], false).

(** [handler] is the first-chance handler, null or a function. *)
Definition initCrashpad (data size handler : Z) : list event * bool :=
  let '(log, ok) := startCrashHandler in
  if (ok : bool) then
    (log ++ AddUserDataMinidumpStream BUN_STREAM_ID data size ::
      (if decide (handler <> NULL) then [SetFirstChanceExceptionHandler handler] else []), true)
  else (log, false).
End Crashpad.

(** The three programs with a function of their own have the url in it. *)
Definition remote_startCrashHandler (cp : crashpad) : list event * bool :=
  startCrashHandler cp "https://your_host.sp.backtrace.io:6098/".
Definition crashpad_startCrashHandler (cp : crashpad) : list event * bool :=
  startCrashHandler cp "https://your_host.sp.backtrace.io:6098/".
Definition dumpwithoutcrash_initCrashpad (cp : crashpad) : Z -> Z -> Z -> list event * bool :=
  initCrashpad cp "https://your_host.sp.backtrace.io:6098".
Definition poison_initCrashpad (cp : crashpad) : Z -> Z -> Z -> list event * bool :=
  initCrashpad cp "https://your_host.sp.backtrace.io:6098/".
Definition bcd_initCrashpad (cp : crashpad) : Z -> Z -> Z -> list event * bool :=
  initCrashpad cp "https://your_host.sp.backtrace.io:6098/".

(** ** bcd, bcd-dumpwithoutcrash, bcd-poison *)

Section Monitored.
Context (address_of : function -> Z) (cfg : configuration) (default_backend : backend).
(** What a backend does with a buffer when [bun_unwind_remote] calls it. *)
Context (unwind_remote : function -> mem -> Z -> bun_buffer -> Z -> option (mem * Z)).
(** The size and the two mappings of the shared buffer. *)
Context (BUFFER_SIZE buffer buffer_child : Z).
(** Where the handle of [request_handler] is on the stack, and what [bun_handle_init] allocates. *)
Context (handle allocated space : Z).

(** The handler of the monitor; the handle is not deinitialised. *)
Definition request_handler (m : mem) (live : heap) (tid : Z) : option (mem * heap * Z) :=
  '(m, live, bun_initialized) ← bun_handle_init address_of cfg m live handle (backend_value default_backend) allocated space;
  if (bun_initialized : bool) then
    let buf := BunBuffer buffer_child BUFFER_SIZE in
    '(m, written) ← bun_unwind_remote address_of m handle (fun f => unwind_remote f m handle buf tid);
    Some (m, live, -1)
  else Some (m, live, -1).

Context (chunk : nat) (cf : invoke) (al : allocations) (K : kernel) (kst : kstate K) (monitor_fuel : nat).
Context (limit : Z) (fuel : nat).

(** The program and the monitor: their memories, the heap of the monitor, and the connection between them. *)
Record machine := Machine { client : mem; monitor : mem; monitor_heap : heap; line : joint_state }.

(** The configuration of the monitor, with the handler as it runs now. *)
Definition intercepted (st : machine) : invoke :=
  {| path := path cf; tp := tp cf; kp := kp cf; separator := separator cf; ks := ks cf;
     BcdTracer.request_handler := Some (fun tid => from_option snd 0 (request_handler (monitor st) (monitor_heap st) tid));
     target_process := target_process cf |}.

(** [FirstChanceHandler]: the monitor calls the handler with the thread of its session, and what that stores in
    the shared pages is there for the program. *)
Definition FirstChanceHandler (st : machine) : option (machine * bool) :=
  line' ← bcd_emit (joint chunk (intercepted st) al K kst monitor_fuel) limit fuel (line st);
  '(m, live, _) ← request_handler (monitor st) (monitor_heap st) (session_thread (serving (line st)));
  shared ← load m buffer_child (Z.to_nat BUFFER_SIZE);
  Some (Machine (write_bytes (client st) buffer shared) m live line', false).

(** The variant of bcd-dumpwithoutcrash: [flag] is that of the thread; the third component is whether a dump is made. *)
Definition FirstChanceHandler_once (flag : bool) (st : machine) : option (machine * bool * bool * bool) :=
  if flag then Some (st, flag, false, false)
  else '(st, _) ← FirstChanceHandler st; Some (st, true, true, true).
End Monitored.

(** The handler of the program crashpad unwinds in place; that of crashpad-remote asks the monitor. *)
Definition crashpad_FirstChanceHandler (address_of : function -> Z) (unwind : function -> mem -> Z -> bun_buffer -> option (mem * Z))
    (m : mem) (handle : Z) (buffer : bun_buffer) : option (mem * bool) :=
  '(m, _) ← bun_unwind address_of m handle (fun f => unwind f m handle buffer); Some (m, false).

Definition remote_FirstChanceHandler (D : descriptor) (limit : Z) (fuel : nat) (e : dstate D) : option (dstate D * bool) :=
  e ← bcd_emit D limit fuel e; Some (e, false).

(** The handler crashpad-remote means to give its monitor. *)
Definition remote_request_handler (tid : Z) : Z := -1.

(** ** main *)

Definition with_handlers (cf : bcd_config) (request_handler monitor_init : Z) : bcd_config :=
  {| version := version cf; flags := flags cf; oom_adjust := oom_adjust cf; error_handler := error_handler cf;
     timeout := timeout cf; umask := umask cf; chown_user := chown_user cf; chown_group := chown_group cf;
     suid_user := suid_user cf; suid_group := suid_group cf; invoke_path := invoke_path cf; invoke_kp := invoke_kp cf;
     invoke_separator := invoke_separator cf; invoke_ks := invoke_ks cf; invoke_tp := invoke_tp cf;
     invoke_output_file := invoke_output_file cf; ipc_mechanism := ipc_mechanism cf; us_path := us_path cf;
     target_cpu := target_cpu cf; BcdConfig.monitor_init := Some monitor_init;
     config_request_handler := Some request_handler |}.

(** The addresses of the functions the programs pass around. *)
Record functions := Functions {
  fn_request_handler : Z; fn_monitor_init : Z; fn_first_chance : Z; fn_error_handler : Z
}.

(** The answers a program gets: those of the calls that create the buffer, of [bcd_init], of [bcd_attach] as in
    [BcdPreload], what is in the first bytes of the buffer then, and those of Crashpad. *)
Record example_answers := ExampleAnswers {
  ea_memfd : Z; ea_ftruncate : Z -> bool; ea_mmap : Z -> Z -> option Z;
  ea_init : init_answers;
  ea_socket : Z + Z; ea_connects : list (option Z); ea_prepare : option Z; ea_tid : Z;
  ea_child_pid : Z;
  ea_crashpad : crashpad
}.

Section Main.
Context (D : descriptor) (fuel : nat) (fn : functions) (stack : bcd_config * Z) (global : bcd_config).
Context (a : example_answers) (s : process) (e : dstate D).

(** [bcd_init] and [bcd_attach] with [cf]; the error the program meets, or what it goes on with. *)
Definition connect_monitor (cf : bcd_config) : option (option Z) :=
  '(s, r, _) ← bcd_init (fn_error_handler fn) (Some cf) global (ea_init a) s;
  if decide (r = -1) then Some None
  else
    '(bcd, e) ← bcd_attach D (timeout cf) fuel (ea_socket a) (ea_connects a) (ea_prepare a) (ea_tid a) stack.2 e;
    if decide (ret bcd = -1) then Some None else Some (Some (bcd_fd bcd)).

(** What bcd, bcd-dumpwithoutcrash and bcd-poison share; they differ in [BUFFER_SIZE] and the url of [initCrashpad]. *)
Definition monitored_main (BUFFER_SIZE : Z) (initCrashpad : crashpad -> Z -> Z -> Z -> list event * bool) : option (list event * ending) :=
  match buffer_create (ea_memfd a) (ea_ftruncate a) (ea_mmap a) with
  | None => Some ([], Abort)
  | Some (_, buffer) =>
      let '(r, _, cf) := bcd_config_init_internal (fn_error_handler fn) stack.1 1 in
      if decide (r = -1) then Some ([], Abort)
      else
        let cf := with_handlers cf (fn_request_handler fn) (fn_monitor_init fn) in
        bcd ← connect_monitor cf;
        match bcd with
        | None => Some ([BcdInit cf], Abort)
        | Some _ =>
            let '(log, ok) := initCrashpad (ea_crashpad a) buffer BUFFER_SIZE (fn_first_chance fn) in
            let log := [BcdInit cf; SetPtracer (ea_child_pid a); SetDumpable] ++ log in
            if (ok : bool) then Some (log ++ [IamDummy], Trap) else Some (log, Exit EXIT_FAILURE)
        end
  end.

Definition bcd_main : option (list event * ending) := monitored_main 65536 bcd_initCrashpad.
Definition dumpwithoutcrash_main : option (list event * ending) := monitored_main 65536 dumpwithoutcrash_initCrashpad.
Definition poison_main : option (list event * ending) := monitored_main 4096 poison_initCrashpad.

(** crashpad-remote: [bun_initialized] is the result of [bun_handle_init]; the memory of the program is [m]. *)
Definition remote_main (bun_initialized : bool) (m : mem) : option (list event * ending) :=
  let BUFFER_SIZE := 4096 in
  if bun_initialized then
    match buffer_create (ea_memfd a) (ea_ftruncate a) (ea_mmap a) with
    | None => Some ([], Abort)
    | Some (_, buffer) =>
        '(m, buffer_initialized) ← bun_buffer_init m buffer BUFFER_SIZE;
        match buffer_initialized with
        | None => Some ([], Exit EXIT_FAILURE)
        | Some _ =>
            (** The handlers are set before the structure is initialised. *)
            let cf := with_handlers stack.1 (fn_request_handler fn) (fn_monitor_init fn) in
            let '(r, _, cf) := bcd_config_init_internal (fn_error_handler fn) cf 1 in
            if decide (r = -1) then Some ([], Exit EXIT_FAILURE)
            else
              bcd ← connect_monitor cf;
              match bcd with
              | None => Some ([BcdInit cf], Exit EXIT_FAILURE)
              | Some _ =>
                  let '(log, crashpad_initialized) := remote_startCrashHandler (ea_crashpad a) in
                  if (crashpad_initialized : bool) then
                    Some (BcdInit cf :: log ++ [AddUserDataMinidumpStream BUN_STREAM_ID buffer BUFFER_SIZE;
                      SetFirstChanceExceptionHandler (fn_first_chance fn); IamDummy], Trap)
                  else Some (BcdInit cf :: log, Exit EXIT_FAILURE)
              end
        end
    end
  else Some ([], Exit EXIT_FAILURE).

(** crashpad: the buffer is a vector of the program, at [buffer_backend]. *)
Definition crashpad_main (bun_initialized : bool) (m : mem) (buffer_backend : Z) : option (list event * ending) :=
  if bun_initialized then
    let '(log, crashpad_initialized) := crashpad_startCrashHandler (ea_crashpad a) in
    if (crashpad_initialized : bool) then
      '(m, buffer_initialized) ← bun_buffer_init m buffer_backend 0x10000;
      match buffer_initialized with
      | None => Some (log, Exit EXIT_FAILURE)
      | Some _ =>
          Some (log ++ [AddUserDataMinidumpStream BUN_STREAM_ID buffer_backend 0x10000;
            SetFirstChanceExceptionHandler (fn_first_chance fn); IamDummy], Trap)
      end
    else Some (log, Exit EXIT_FAILURE)
  else Some ([], Exit EXIT_FAILURE).
End Main.

(** ** What main sets up *)

(** The events of a program whose crash is watched, from the configuration on. *)
Definition watched (fn : functions) (url : string) (data size : Z) : list event :=
  [SetUploadsEnabled true;
   StartHandlerAtCrash "/path/to/crashpad/handler" "." "." url
     [("token", "your_token"); ("format", "minidump")]%string ["--no-rate-limit"]%string;
   AddUserDataMinidumpStream BUN_STREAM_ID data size; SetFirstChanceExceptionHandler (fn_first_chance fn); IamDummy].

Section SetUp.
Context (D : descriptor) (fuel : nat) (fn : functions) (stack : bcd_config * Z) (global : bcd_config).
Context (a : example_answers) (s : process) (e : dstate D).

(** A program gets to the crash only with its crash watched and both its handlers with the monitor. *)
Definition sets_up (main : option (list event * ending)) (size : Z) (url : string) : Prop :=
  match main with
  | Some (log, Trap) => exists buffer cf fd, ea_mmap a (Z.lor PROT_READ PROT_WRITE) (ea_memfd a) = Some buffer /\
      config_request_handler cf = Some (fn_request_handler fn) /\
      BcdConfig.monitor_init cf = Some (fn_monitor_init fn) /\
      connect_monitor D fuel fn stack global a s e cf = Some (Some fd) /\
      log = BcdInit cf :: SetPtracer (ea_child_pid a) :: SetDumpable :: watched fn url buffer size
  | Some (log, _) => ~ IamDummy ∈ log
  | None => True
  end.

Lemma monitored_sets_up size url :
  fn_first_chance fn <> NULL ->
  sets_up (monitored_main D fuel fn stack global a s e size (fun cp => initCrashpad cp url)) size url.
Proof.
  intros Hfn. unfold monitored_main, buffer_create, buffer_reader.
  destruct (decide (ea_memfd a = -1)); [simpl; set_solver|].
  destruct (ea_ftruncate a (ea_memfd a)); [|simpl; set_solver].
  destruct (ea_mmap a _ (ea_memfd a)) as [buffer|] eqn:Hmap; cbn [mbind option_bind]; [|simpl; set_solver].
  unfold bcd_config_init_internal. rewrite decide_True by done. cbv beta iota zeta. rewrite decide_False by done.
  destruct (connect_monitor D fuel fn stack global a s e _) as [[fd|]|] eqn:Hc; cbn [mbind option_bind]; [| simpl; set_solver | done].
  unfold initCrashpad, startCrashHandler.
  destruct (database (ea_crashpad a)), (started (ea_crashpad a)); simpl; try set_solver.
  rewrite decide_True by done. do 3 eexists. split_and!; [done | | | exact Hc | done]; done.
Qed.

(** C35: What the example programs set up before they crash. bcd, bcd-dumpwithoutcrash and bcd-poison get to the crash only
    with a connected monitor that was given both handlers, with the shared buffer as a stream of the minidump and
    with the first-chance handler installed; otherwise they abort or exit. crashpad-remote never gives its handlers to
    the monitor: it stores them in the configuration before the initialisation resets it. *)
Theorem examples_set_up :
  fn_first_chance fn <> NULL ->
  sets_up (bcd_main D fuel fn stack global a s e) 65536 "https://your_host.sp.backtrace.io:6098/" /\
  sets_up (dumpwithoutcrash_main D fuel fn stack global a s e) 65536 "https://your_host.sp.backtrace.io:6098" /\
  sets_up (poison_main D fuel fn stack global a s e) 4096 "https://your_host.sp.backtrace.io:6098/" /\
  (forall initialised m log finish,
   remote_main D fuel fn stack global a s e initialised m = Some (log, finish) ->
   (forall cf, BcdInit cf ∈ log -> config_request_handler cf = None /\ BcdConfig.monitor_init cf = None) /\
   match finish with
   | Trap => exists buffer cf, ea_mmap a (Z.lor PROT_READ PROT_WRITE) (ea_memfd a) = Some buffer /\
       cf = bcd_config_init_v1 (fn_error_handler fn) /\
       log = BcdInit cf :: watched fn "https://your_host.sp.backtrace.io:6098/" buffer 4096
   | _ => ~ IamDummy ∈ log
   end).
Proof.
  intros Hfn. split_and!; [by apply monitored_sets_up.. |]. intros init m log finish.
  unfold remote_main, buffer_create, buffer_reader, remote_startCrashHandler, startCrashHandler. intros H.
  destruct init; [|injection H as <- <-; set_solver].
  destruct (decide (ea_memfd a = -1)); [injection H as <- <-; set_solver|].
  destruct (ea_ftruncate a (ea_memfd a)); [|injection H as <- <-; set_solver].
  destruct (ea_mmap a _ (ea_memfd a)) as [buffer|] eqn:Hmap; cbn [mbind option_bind] in H; [|injection H as <- <-; set_solver].
  apply bind_Some in H as ([m1 [b|]] & _ & H); [|injection H as <- <-; set_solver].
  unfold bcd_config_init_internal in H. rewrite decide_True in H by done. cbv beta iota zeta in H.
  rewrite decide_False in H by done. apply bind_Some in H as ([fd|] & Hc & H); [|injection H as <- <-; set_solver].
  destruct (database (ea_crashpad a)), (started (ea_crashpad a)); injection H as <- <-;
    (split; [set_solver|]); first [set_solver | by do 2 eexists].
Qed.
End SetUp.

(** ** What a backend promises *)

(** Unwinding a traced thread into a buffer it may write, with a handle of a backend [k] that reports the frames [ds]:
    [able] is what it needs of memory, [reads] the addresses it looks at besides the handle, the buffer and its own arrays. *)
Class RemoteUnwinder (k : backend) (space : Z) (unwind : mem -> Z -> bun_buffer -> Z -> option (mem * Z)) (b : bun_buffer)
    (able : mem -> Prop) (reads : Z -> Prop) (ds : list frame_data) := {
  remote_unwinds m h tid count r flags :
    init_allowed m b h count r flags -> context_ready k space m h -> able m ->
    exists m' n w, unwind m h b tid = Some (m', n) /\ Backend.written b h (u32 tid) (backend_value k) m' w ds;
  remote_stable m m' : able m -> grows m m' -> (forall j, reads j -> m' !! j = m !! j) -> able m'
}.

(** ** A trace that is intercepted *)

Section Intercept.
Context (chunk : nat) (cf : invoke) (al : allocations) (K : kernel) (kst : kstate K) (monitor_fuel : nat).
Context (limit : Z) (fuel : nat) (handler : Z -> Z).
Hypothesis Hchunk : (0 < chunk)%nat.
Hypothesis Hhandler : BcdTracer.request_handler cf = Some handler.

Definition intercepted_report (tid : Z) : bcd_report :=
  Report BCD_EVENT_TRACE tid "request handler intercepted event" 0.

Lemma emit_intercepted st :
  quiet st -> handler (session_thread (serving st)) = -1 -> (24 < monitor_fuel)%nat -> (24 < fuel)%nat ->
  exists st', bcd_emit (joint chunk cf al K kst monitor_fuel) limit fuel st = Some st' /\ quiet st' /\
    session_thread (serving st') = session_thread (serving st) /\
    reports (known st') = reports (known st) ++ [intercepted_report (session_thread (serving st))].
Proof.
  intros Hq Hh Hm Hf. unfold bcd_emit, bcd_backtrace.
  destruct (joint_request chunk cf al K kst monitor_fuel Hchunk limit false fuel BCD_OP_TR_THREAD [] "failed to invoke tracer" false
    st _ Hq ltac:(done) ltac:(done) (trace_intercepted cf al K kst monitor_fuel handler true _ _ Hhandler Hh)) as (s' & g' & -> & Hid & Ht & Hk).
  - unfold packet. rewrite length_packet_bytes. simpl. lia.
  - unfold packet. rewrite length_packet_bytes. simpl. lia.
  - bind_simpl. eexists. split; [done|]. cbn [serving known]. rewrite Hk. by split_and!.
Qed.
End Intercept.

(** ** A crash *)

Section Crash.
Context (address_of : function -> Z) {HL : Linked address_of} (cfg : configuration) (k : backend) (f : function).
Context (unwind_remote : function -> mem -> Z -> bun_buffer -> Z -> option (mem * Z)).
Context (BUFFER_SIZE buffer buffer_child handle allocated space : Z).
Context (able : mem -> Prop) (reads : Z -> Prop) (ds : list frame_data).

Local Abbreviation b := (BunBuffer buffer_child BUFFER_SIZE).
Context {HU : RemoteUnwinder k space (unwind_remote f) b able reads ds}.

(** The monitor before a crash: its mapping with no handle recorded yet, whatever the counter holds; the stack for
    the handle and what [malloc] gives, away from what the unwinder needs. *)
Record monitor_ready (m : mem) (live : heap) : Prop := {
  mr_buffer : buffer_ok m b;
  mr_state : exists count, buffer_state m b count NULL;
  mr_handle : 0 < handle < 2 ^ 64 /\ mapped m handle sizeof_handle;
  mr_malloc : malloc_ok m live handle allocated 8;
  mr_apart : forall j, buffer_child <= j < buffer_child + BUFFER_SIZE -> ~ initialised handle allocated j;
  mr_able : able m;
  mr_reads : forall j, reads j -> ~ initialised handle allocated j
}.

Lemma request_handler_unwinds m live tid :
  monitor_ready m live -> available_backend cfg allocated k -> (slots k).1.2 = Some f ->
  exists m' w, request_handler address_of cfg k unwind_remote BUFFER_SIZE buffer_child handle allocated space m live tid =
      Some (m', heap_after k live allocated, -1) /\
    Backend.written b handle (u32 tid) (backend_value k) m' w ds.
Proof.
  intros [Hb [count [Hc Hr]] [Hh Hm] Hmal Hap Hable Hreads] Hav Hslot.
  destruct (handle_init_success (address_of := address_of) cfg m live handle k allocated space Hm Hmal Hav) as (m1 & Hi & Hf).
  destruct (handle_init_outside _ _ _ _ _ _ _ _ _ _ Hi) as [Hg Hout].
  destruct (called_fields (address_of := address_of) _ _ _ Hf) as (_ & _ & Hcall & _).
  cbn [filled f_unwind_remote] in Hcall. rewrite Hslot, function_at_slot in Hcall.
  assert (load_uint m1 (handle + handle_flags) 8 = Some 0) as Hfl
    by (unfold load_handle in Hf; bind_inv Hf; by injection Hf as _ _ _ _ _ -> _).
  assert (forall a n, buffer_child <= a -> a + Z.of_nat n <= buffer_child + BUFFER_SIZE -> load_uint m1 a n = load_uint m a n)
    as Hsame by (intros; unfold load_uint; f_equal; apply load_agree; intros; apply Hout, Hap; lia).
  destruct (id Hb) as [_ _ Hmin _]. cbn [buffer_data buffer_size] in *.
  destruct (remote_unwinds m1 handle tid count NULL 0) as (m2 & n & w & Hu & Hw).
  - split; [by eapply buffer_ok_mapped | lia | | | |].
    + split; cbn [buffer_data]; rewrite Hsame; try done; layout; lia.
    + intros _. split; [done|]. change (effective_handle NULL handle) with handle. cbn [buffer_data].
      pose proof (Hap (handle + handle_flags)) as H1. pose proof (Hap buffer_child) as H2.
      unfold initialised, disjoint_ranges in *. handle_layout. unfold sizeof_buffer_payload in *.
      clear - H1 H2 Hmin. lia.
    + unfold handle_conflict. tauto.
    + unfold counts, write_once_flag. intros [[_ H] _]. by apply H.
  - by eapply handle_init_context.
  - eapply remote_stable; [exact Hable | done | intros; by apply Hout, Hreads].
  - exists m2, w. split; [|done]. unfold request_handler. rewrite Hi. bind_simpl. unfold bun_unwind_remote.
    rewrite Hcall. bind_simpl. rewrite Hu. done.
Qed.

Context (chunk : nat) (cf : invoke) (al : BcdTracer.allocations) (K : kernel) (kst : kstate K) (monitor_fuel : nat).
Context (limit : Z) (fuel : nat).

Local Abbreviation FirstChanceHandler :=
  (FirstChanceHandler address_of cfg k unwind_remote BUFFER_SIZE buffer buffer_child handle allocated space
     chunk cf al K kst monitor_fuel limit fuel).

End Crash.

(** ** libunwindstack keeps the promise *)

Section Unwindstack.
Import Unwindstack.
Context (cxa_demangle : list byte -> option (list byte)) (p : processor) (arch demangle_buffer register_buf : Z).
Context (stale_writer : bun_writer) (self status : Z) (Unwind : nat -> Regs * list FrameData).

(** [libunwindstack_unwind_remote] on a thread that can be attached to, stops and has maps. *)
Definition unwindstack_remote (m : mem) (h : Z) (b : bun_buffer) (tid : Z) : option (mem * Z) :=
  '(m, _, size) ← libunwindstack_unwind_remote cxa_demangle p arch demangle_buffer register_buf stale_writer
    m h b self tid true status true Unwind;
  Some (m, size).

(** The frames, each with the registers the unwinder ends with. *)
Definition unwound_frames : list (Regs * FrameData) := pair (Unwind 512%nat).1 <$> (Unwind 512%nat).2.

Definition string_at (s : cpp_string) (j : Z) : Prop := c_str s <= j < c_str s + (zlen (contents s) + 1).

Definition frame_strings (j : Z) : Prop :=
  exists x, x ∈ unwound_frames /\ (string_at (function_name x.2) j \/ string_at (map_name x.2) j).

Lemma string_ok_kept b m m' s :
  (forall j, string_at s j -> m' !! j = m !! j) ->
  string_ok demangle_buffer register_buf b m s -> string_ok demangle_buffer register_buf b m' s.
Proof.
  intros Hs [Hp Hc Hb Hd Hr]. split; try done. apply cstring_spec in Hc as [Hat Hn]. apply cstring_spec. split; [|done].
  unfold at_addr in *. rewrite <- Hat. apply load_agree. intros j Hj. apply Hs. unfold string_at, zlen.
  rewrite length_app in Hj. simpl in Hj. lia.
Qed.

#[export] Instance unwindstack_unwinder space b :
  demangle_ok cxa_demangle -> Waitpid.WIFSTOPPED status = true -> buffer_size b <= 2 ^ 32 ->
  stream_size (records (frame_record cxa_demangle p) unwound_frames) <= room b ->
  RemoteUnwinder Libunwindstack space unwindstack_remote b (ready p demangle_buffer register_buf b unwound_frames) frame_strings
    (records (frame_record cxa_demangle p) unwound_frames).
Proof.
  intros Hdem Hst Hsz Hfit. split.
  - intros m h tid count r flags Hinit _ Hready.
    destruct (unwindstack_fits cxa_demangle p arch demangle_buffer register_buf stale_writer b m h count r flags self tid
      unwound_frames Hdem Hready Hinit Hsz Hfit) as (m1 & m2 & w2 & Ho & He & Hs & [[w Hw] _]).
    unfold unwindstack_remote, libunwindstack_unwind_remote. rewrite Ho. bind_simpl. rewrite Hst. cbn [negb].
    unfold unwound_frames in He. destruct (Unwind 512%nat) as [registers frames]. cbn [fst snd] in He.
    rewrite write_frames_emit, He. bind_simpl. rewrite Hs. bind_simpl. by do 3 eexists.
  - intros m m' [(Ha & Hm1 & Hm2 & Hd) Hx] Hg Hs. split.
    + split_and!; [done | by eapply mapped_grows | by eapply mapped_grows | apply Hd..].
    + apply Forall_forall. intros x Hin. destruct (proj1 (Forall_forall _ _) Hx x Hin) as [? ? Hn Hmap ?].
      split; [done | done | | | done]; (eapply string_ok_kept; [|done]); intros j Hj; apply Hs; exists x; tauto.
Qed.
End Unwindstack.

(** ** libunwind keeps the promise *)

Section Unwind.
Import Libunwind.
Context (L : libunwind) (dladdr : Z -> option (option (list byte))) (cxa_demangle : list byte -> option (list byte)).
Context (p : processor) (arch : Z) (l : locals) (self created : Z) (fuel : nat).
Context (E : Waitpid.environment) (e : Waitpid.env E) (init_remote : Z -> Z * cursor_t L).

(** [libunwind_unwind_remote] on a thread that can be attached to, with no other [_UPT] context alive. *)
Definition unwind_remote (m : mem) (h : Z) (b : bun_buffer) (tid : Z) : option (mem * Z) :=
  '(m, _, size) ← libunwind_unwind_remote L dladdr cxa_demangle p arch l fuel m (Tracing false ∅) h b self tid created true
    E e init_remote;
  Some (m, size).

#[export] Instance libunwind_unwinder space b cs c' r e' :
  libunwind_ok L dladdr cxa_demangle l -> arrays_apart l b -> buffer_size b <= 2 ^ 32 ->
  Waitpid.bun_waitpid E fuel 5000 e = Some (inl r, e') -> 0 <= r -> created <> NULL -> (init_remote (u64 space)).1 = 0 ->
  walk L (init_remote (u64 space)).2 cs c' -> (unw_step L c').1 <= 0 -> (length cs < fuel)%nat ->
  let ds := step_data L dladdr cxa_demangle p l BUN_UNWIND_SIGNAL_SAFETY_NOT_REQUIRED <$> cs in
  stream_size ds <= buffer_size b - sizeof_buffer_payload ->
  RemoteUnwinder Handle.Libunwind space unwind_remote b (arrays_mapped l) (fun _ => False) ds.
Proof.
  intros Hok Hap Hsz Hw Hr Hc Hi Hwalk Hend Hf ds Hfit. split.
  - intros m h tid count r' flags Hinit Hctx Ham. destruct (Hctx eq_refl) as (context & Hl1 & Hl2).
    destruct (libunwind_fits L dladdr cxa_demangle p arch l b m h count r' flags self tid
      BUN_UNWIND_SIGNAL_SAFETY_NOT_REQUIRED Hok Hap Ham Hinit cs (init_remote (u64 space)).2 c' fuel)
      as (m' & Him & [w Hwr] & _); [done | lia | done | done |].
    unfold unwind_remote, libunwind_unwind_remote. rewrite Hl1. bind_simpl. rewrite Hw. bind_simpl.
    rewrite decide_False by lia. rewrite Hl2. bind_simpl. destruct (init_remote (u64 space)) as [err c].
    cbn [fst snd] in *. rewrite decide_False by tauto. rewrite Him. bind_simpl. cbn [contexts].
    rewrite free_fresh; [|done|set_solver]. bind_simpl. by do 3 eexists.
  - intros m m' [H1 H2] Hg _. split; by eapply mapped_grows.
Qed.
End Unwind.

(** ** Witnesses *)

(** Everything succeeds, as in the witness of [BcdPreload]. *)
Definition sample_answers : example_answers :=
  {| ea_memfd := 3; ea_ftruncate := fun _ => true; ea_mmap := fun _ _ => Some 0x20000; ea_init := pa_init sample_preload;
     ea_socket := inr 9; ea_connects := [None]; ea_prepare := None; ea_tid := 77; ea_child_pid := 4242;
     ea_crashpad := Crashpad true true |}.

(** The program's mapping of a buffer into which a monitor with the pid 4242 has written. *)
Definition client_mem : mem := mem_of [(0x20000, le_split 4 4242 ++ replicate 4092 NUL)].

Definition sample_functions : functions := Functions 0x500 0x510 0x520 0x530.

Definition run_bcd : option (list event * ending) :=
  bcd_main toy 40 sample_functions (suid_config, 0) suid_config sample_answers (Process {[0; 1; 2]} ∅)
    (PipeEnd 1 (packet_bytes BCD_OP_OK 0 []) []).
Definition run_remote : option (list event * ending) :=
  remote_main toy 40 sample_functions (suid_config, 0) suid_config sample_answers (Process {[0; 1; 2]} ∅)
    (PipeEnd 1 (packet_bytes BCD_OP_OK 0 []) []) true (mem_of [(0x20000, replicate 40 NUL)]).

Lemma examples_set_up_witness :
  (exists cf rest, run_bcd = Some (BcdInit cf :: rest, Trap) /\ config_request_handler cf = Some 0x500) /\
  (exists cf rest, run_remote = Some (BcdInit cf :: rest, Trap) /\ config_request_handler cf = None).
Proof.
  destruct (examples_set_up toy 40 sample_functions (suid_config, 0) suid_config sample_answers (Process {[0; 1; 2]} ∅)
    (PipeEnd 1 (packet_bytes BCD_OP_OK 0 []) [])) as (H & _ & _ & Hremote); [discriminate|]. split.
  - fold run_bcd in H. destruct run_bcd as [[log finish]|] eqn:E; [|vm_compute in E; discriminate E].
    assert (finish = Trap) as -> by (vm_compute in E; injection E as _ <-; reflexivity).
    destruct H as (buffer & cf & fd & _ & Hr & _ & _ & ->). by do 2 eexists.
  - destruct run_remote as [[log finish]|] eqn:E; [|vm_compute in E; discriminate E].
    destruct (Hremote _ _ _ _ E) as [_ H']. assert (finish = Trap) as -> by (vm_compute in E; injection E as _ <-; reflexivity).
    destruct H' as (buffer & cf & _ & -> & ->). by do 2 eexists.
Defined.

Section Witness.
Import Unwindstack.

(** bcd-poison with a monitor whose pid is 4242: the mappings are at 0x20000 and 0x10000. *)
Definition crash_buffer : bun_buffer := BunBuffer 0x10000 4096.
Definition monitor_mem : mem :=
  mem_of [(0x10000, le_split 4 4242 ++ replicate 4092 NUL); (0x2000, replicate 56 Byte.xff);
    (0x3000, bytes_of "main" ++ [NUL]); (0x3010, bytes_of "a.out" ++ [NUL]); (0x3020, [NUL]);
    (0x6000, replicate 8 NUL); (0x7000, replicate 4096 NUL); (0x9000, replicate 340 NUL)].

Definition crashed : machine :=
  Machine client_mem monitor_mem ∅ (Joint [] [] (Session 77 BCD_SESSION_READING false 0 (replicate session_size NUL)) no_metadata).

Definition sample_unwind (n : nat) : Regs * list FrameData := (sample_registers, sample_frames).

Definition stack_only : configuration := Configuration false false true false.

Definition sample_remote (f : function) : mem -> Z -> bun_buffer -> Z -> option (mem * Z) :=
  unwindstack_remote no_demangling X86_64 2 0x7000 0x9000 (Base 0 0 0 0 false) 1 0x137f sample_unwind.

Lemma monitor_string_ok s :
  s ∈ [sample_name; sample_map; nameless] -> string_ok 0x7000 0x9000 crash_buffer monitor_mem s.
Proof. rewrite !elem_of_cons, elem_of_nil. intros [->|[->|[->|[]]]]; split; by_compute. Qed.

Lemma monitor_unwindable : ready X86_64 0x7000 0x9000 crash_buffer (unwound_frames sample_unwind) monitor_mem.
Proof.
  split; [unfold arrays_ok; split_and!; by_compute|].
  assert (registers_ok X86_64 sample_registers) as Hr by (split_and!; by_compute).
  change (unwound_frames sample_unwind) with (pair sample_registers <$> sample_frames).
  apply Forall_fmap, Forall_forall. unfold sample_frames. intros x. rewrite !elem_of_cons, elem_of_nil.
  pose proof monitor_string_ok as Hs.
  intros [->|[->|[]]]; (split; [by_compute | by_compute | apply Hs | apply Hs | exact Hr]);
    rewrite !elem_of_cons; cbn [snd function_name map_name]; tauto.
Qed.

Lemma frame_strings_low j : frame_strings sample_unwind j -> 0x3000 <= j < 0x3021.
Proof.
  intros (x & Hx & Hs). unfold string_at in Hs.
  assert (Forall (fun x : Regs * FrameData =>
    (0x3000 <= c_str (function_name x.2) /\ c_str (function_name x.2) + (zlen (contents (function_name x.2)) + 1) <= 0x3021) /\
    (0x3000 <= c_str (map_name x.2) /\ c_str (map_name x.2) + (zlen (contents (map_name x.2)) + 1) <= 0x3021))
    (unwound_frames sample_unwind)) as Hall by by_compute.
  destruct (proj1 (Forall_forall _ _) Hall x Hx) as [H1 H2]. lia.
Qed.

Lemma monitor_prepared :
  monitor_ready 4096 0x10000 0x2000 0 (ready X86_64 0x7000 0x9000 crash_buffer (unwound_frames sample_unwind))
    (frame_strings sample_unwind) monitor_mem ∅.
Proof.
  split; [by_compute | exists 4242; by_compute | split; by_compute | by intros H | | exact monitor_unwindable |].
  - unfold initialised. intros j Hj. handle_layout. lia.
  - unfold initialised. intros j Hj%frame_strings_low. handle_layout. lia.
Qed.

(** The same monitor with libunwind: the thread stops at once, and the cursor has two steps. *)
Definition unwind_only : configuration := Configuration true false false false.
Definition stops : Waitpid.environment :=
  Waitpid.Environment unit (fun e => (Waitpid.Wait_status 0x137f, e)) (pair false) (pair true) (pair None).
Definition countdown_remote (f : function) : mem -> Z -> bun_buffer -> Z -> option (mem * Z) :=
  unwind_remote Libunwind.countdown Libunwind.no_dladdr Libunwind.no_demangle X86_64 2 Libunwind.sample_locals 1 0xa000 3
    stops tt (fun _ => (0, 2%nat)).

Definition countdown_frames : list frame_data :=
  Libunwind.step_data Libunwind.countdown Libunwind.no_dladdr Libunwind.no_demangle X86_64 Libunwind.sample_locals
    Libunwind.BUN_UNWIND_SIGNAL_SAFETY_NOT_REQUIRED <$> [1; 0]%nat.

Lemma countdown_unwinder : RemoteUnwinder Handle.Libunwind 0x9000 (countdown_remote libunwind_unwind_remote) crash_buffer
  (Libunwind.arrays_mapped Libunwind.sample_locals) (fun _ => False) countdown_frames.
Proof.
  eapply (libunwind_unwinder Libunwind.countdown) with (c' := 0%nat) (r := 0) (e' := tt);
    [exact Libunwind.countdown_ok | by_compute | by_compute | reflexivity | done | done | done
    | exact Libunwind.countdown_walk | by_compute | simpl; lia | by_compute].
Qed.

Lemma countdown_prepared :
  monitor_ready 4096 0x10000 0x2000 0x6000 (Libunwind.arrays_mapped Libunwind.sample_locals) (fun _ => False) monitor_mem ∅.
Proof.
  split; [by_compute | exists 4242; by_compute | split; by_compute | by intros _; split_and!; by_compute | | by_compute | done].
  unfold initialised. intros j Hj. handle_layout. lia.
Qed.

End Witness.
