(* ===== verification/Poison.v ===== *)
(** * The poisoned allocator and bcd-poison (src/tests/helper/poison_malloc, src/examples/bcd-poison)

    bcd-poison is linked with a [malloc] that traps while it is poisoned; [SIGPWR] switches the poison on and off. Its
    first-chance handler raises the signal before and after [bcd_emit], so that a report that allocates is fatal; its
    request handler writes the finished buffer to a file. *)

From S2P Require Import Prelude Memory Stream Frame FrameRead RoundTrip Handle Backend.
From S2P Require Import BcdMeta.
From S2P Require Import BcdTracer.
From S2P Require Import BcdSession.
From S2P Require Import BcdClient.
From S2P Require Import BcdRequest.
From S2P Require Import Examples.

(** ** poison.c *)

(** The two variables, and whether [handler] is the disposition of [SIGPWR]. *)
Record poisoning := Poisoning { poison : bool; old_malloc : bool; installed : bool }.

Definition initially : poisoning := Poisoning false false false.

(** The signal handler. *)
Definition poison_handler (a : poisoning) : poisoning :=
  Poisoning (negb (poison a)) (old_malloc a) (installed a).

(** The answers of [signal] and [dlsym]; [None] is a trap. *)
Definition poison_init (signalled found : bool) (a : poisoning) : option poisoning :=
  if negb signalled then None
  else if negb found then None
  else Some (Poisoning (poison a) true true).

(** [next] is the [malloc] behind this one. *)
Definition poison_malloc (next : Z -> Z) (signalled found : bool) (r : Z) (a : poisoning) : option (Z * poisoning) :=
  if poison a then None
  else
    a ← (if old_malloc a then Some a else poison_init signalled found a);
    Some (next r, a).

(** [raise(SIGPWR)]: without a handler the signal ends the process. *)
Definition raise_power (a : poisoning) : option poisoning := if installed a then Some (poison_handler a) else None.

(** ** The handlers of bcd-poison *)

Section Handlers.
Context (address_of : function -> Z) (cfg : configuration) (default_backend : backend).
Context (unwind_remote : function -> mem -> Z -> bun_buffer -> Z -> option (mem * Z)).
Context (BUFFER_SIZE buffer buffer_child handle allocated space : Z).

(** The file that [write] leaves: nothing when [open] has failed, else as many bytes as it takes. *)
Definition dump_handler (fd : Z) (wrote : nat) (contents : list byte) : option (list byte) :=
  if decide (fd = -1) then None else Some (take wrote contents).

(** [request_handler]: [buffer], the mapping of the program, is inherited by the monitor; it has the same pages as
    [buffer_child]. The third component is the dump. *)
Definition poison_request_handler (fd : Z) (wrote : nat) (m : mem) (live : heap) (tid : Z) :
    option (mem * heap * option (list byte) * Z) :=
  '(m, live, bun_initialized) ← bun_handle_init address_of cfg m live handle (backend_value default_backend) allocated space;
  if (bun_initialized : bool) then
    let buf := BunBuffer buffer_child BUFFER_SIZE in
    '(m, written) ← bun_unwind_remote address_of m handle (fun f => unwind_remote f m handle buf tid);
    contents ← load m buffer_child (Z.to_nat BUFFER_SIZE);
    Some (m, live, dump_handler fd wrote contents, -1)
  else Some (m, live, None, -1).

Context (chunk : nat) (cf : invoke) (al : BcdTracer.allocations) (K : kernel) (kst : kstate K) (monitor_fuel : nat).
Context (limit : Z) (fuel : nat).

Local Abbreviation emitting :=
  (FirstChanceHandler address_of cfg default_backend unwind_remote BUFFER_SIZE buffer buffer_child handle allocated space
     chunk cf al K kst monitor_fuel limit fuel).

(** [FirstChanceHandler]; [None] also when a signal has ended the process. *)
Definition poison_FirstChanceHandler (a : poisoning) (st : machine) : option (poisoning * machine * bool) :=
  a ← raise_power a;
  '(st, r) ← emitting st;
  a ← raise_power a;
  Some (a, st, r).

(** ** Theorems *)

(** The handler poisons the allocator for the report and only for it; without a handler of the signal
    there is no report. *)
Theorem poison_restored a st :
  installed a = true ->
  poison_FirstChanceHandler a st = ('(st, r) ← emitting st; Some (a, st, r)) /\
  (forall next signalled found r, poison a = false ->
     poison_malloc next signalled found r (poison_handler a) = None /\
     (old_malloc a = true -> poison_malloc next signalled found r a = Some (next r, a))).
Proof.
  intros Hi. split.
  - unfold poison_FirstChanceHandler, raise_power. rewrite Hi. bind_simpl. destruct (emitting st) as [[st' r]|]; [|done].
    bind_simpl. cbn [poison_handler installed]. rewrite Hi. bind_simpl. unfold poison_handler. cbn.
    rewrite negb_involutive. by destruct a.
  - intros next signalled found r Hp. unfold poison_malloc. cbn [poison_handler poison]. rewrite Hp. split; [done|]. by intros ->.
Qed.

(** The library that starts with its constructor lets the program allocate and have its report. *)
Lemma poison_started signalled found a :
  poison_init signalled found initially = Some a -> installed a = true /\ old_malloc a = true /\ poison a = false.
Proof. unfold poison_init. destruct signalled, found; try done. by intros [= <-]. Qed.
End Handlers.

(** The dump is the stream: whoever finds the bytes of the file in a buffer reads the frames of the backend. *)
Theorem poison_dump_reads (address_of : function -> Z) {HL : Linked address_of} cfg k f unwind_remote BUFFER_SIZE buffer_child
    handle allocated space able reads ds (HU : RemoteUnwinder k space (unwind_remote f) (BunBuffer buffer_child BUFFER_SIZE) able reads ds)
    fd m live tid :
  monitor_ready BUFFER_SIZE buffer_child handle allocated able reads m live ->
  available_backend cfg allocated k -> (slots k).1.2 = Some f -> BUFFER_SIZE <= 2 ^ 32 -> fd <> -1 ->
  exists m' dump, poison_request_handler address_of cfg k unwind_remote BUFFER_SIZE buffer_child handle allocated space
      fd (Z.to_nat BUFFER_SIZE) m live tid = Some (m', heap_after k live allocated, Some dump, -1) /\
    forall m2 data h' f0, let b' := BunBuffer data BUFFER_SIZE in
      buffer_ok m2 b' -> data + BUFFER_SIZE < 2 ^ 63 -> load m2 data (Z.to_nat BUFFER_SIZE) = Some dump ->
      bun_reader_init m2 b' h' = Some (Some (initial_base b' h')) /\
      bun_header_tid_get m2 (initial_base b' h') = Some (u32 tid) /\
      exists r' gs, read_all (read_fuel (initial_base b' h')) m2 (initial_base b' h') f0 = Some (r', gs) /\
        Forall2 (frame_shows m2) gs (RoundTrip.readable (stream_counted ds) ds).
Proof.
  intros Hm Hav Hslot Hsz Hfd.
  destruct (request_handler_unwinds address_of cfg k f unwind_remote BUFFER_SIZE buffer_child handle allocated space able reads ds
    m live tid Hm Hav Hslot) as (m' & w & Hrh & Hw).
  pose proof (bok_mapped _ _ (wr_buffer _ _ _ _ _ _ _ Hw)) as Hmap. cbn [buffer_data buffer_size] in Hmap.
  pose proof (bok_size _ _ (wr_buffer _ _ _ _ _ _ _ Hw)) as Hmin. cbn [buffer_size] in Hmin.
  assert (is_Some (load m' buffer_child (Z.to_nat BUFFER_SIZE))) as [dump Hdump]
    by (apply load_mapped; intros j Hj; apply Hmap; lia).
  exists m', dump. pose proof Hdump as [Hlen Hbytes]%load_Some. split.
  - destruct (handle_init_success (address_of := address_of) cfg m live handle k allocated space) as (m1 & Hi & _); [apply Hm.. | done |].
    unfold request_handler in Hrh. unfold poison_request_handler. rewrite Hi in Hrh |- *. bind_simpl.
    cbn [mbind option_bind] in Hrh. destruct (bun_unwind_remote _ _ _ _) as [[m2 n]|]; [|done]. cbn [mbind option_bind] in Hrh.
    injection Hrh as ->. bind_simpl. rewrite Hdump. bind_simpl. unfold dump_handler. rewrite decide_False by done.
    by rewrite take_ge by lia.
  - intros m2 data h' f0 b' Hb' Htop Hload. apply load_Some in Hload as [_ Hload].
    assert (forall i, 0 <= i < BUFFER_SIZE -> m2 !! (data + i) = m' !! (buffer_child + i)) as Hcopy.
    { intros i Hi. replace i with (Z.of_nat (Z.to_nat i)) by lia. by rewrite Hload, Hbytes by lia. }
    destruct (written_moved _ _ _ _ _ _ _ m2 b' h' Hw Hb' eq_refl Hcopy) as [w' Hw'].
    destruct (written_read _ _ _ _ _ _ _ h' f0 Hw' Htop Hsz) as (Hrd & r' & gs & Hall & Hshow).
    split_and!; [done | apply (wr_tid _ _ _ _ _ _ _ Hw') | by exists r', gs].
Qed.
